(** * G0C: a C++-like front end, a bytecode generator and a stack VM

    A shallow embedding of the lexer ([lexer.cpp]), the recursive-descent
    parser ([parser.cpp]), the code generator ([codegen.cpp]) and the
    virtual machine ([vm.cpp]), followed by the properties proved about
    them.

    Conventions of the embedding:
    - [int32_t] values are integers of [Z] kept in range by [int32];
      [size_t] values are kept in range by [size_t] (64-bit host);
    - a [std::vector] is a list in index order ([push_back] appends at
      the end), indexed with stdpp's [!!];
    - [std::string] is [string] (a sequence of 8-bit characters);
    - [float] is an IEEE-754 binary32 number, [spec_float] at precision
      24 and maximal exponent 128;
    - [std::cout] is the list of the items written so far, [std::cin] the
      text that is still unread; [std::cerr] is not part of the model. *)

From Stdlib Require Import ZArith String Ascii List Lia Bool.
From Stdlib Require Import Floats.SpecFloat.
From Stdlib Require Import DecimalString.
From stdpp Require Import gmap strings list fin_maps.

Local Open Scope Z_scope.

(* ===================================================================== *)
(** * Machine integers                                                    *)
(* ===================================================================== *)

(** Conversion to an unsigned integer of [w] bits. *)
Definition wrap_unsigned (w z : Z) : Z := z mod 2 ^ w.

(** Conversion to a two's-complement integer of [w] bits. *)
Definition wrap_signed (w z : Z) : Z :=
  (z + 2 ^ (w - 1)) mod 2 ^ w - 2 ^ (w - 1).

Definition int32 (z : Z) : Z := wrap_signed 32 z.
Definition int64 (z : Z) : Z := wrap_signed 64 z.
Definition uint32 (z : Z) : Z := wrap_unsigned 32 z.
Definition size_t (z : Z) : Z := wrap_unsigned 64 z.

Definition INT32_MIN : Z := - 2 ^ 31.
Definition INT32_MAX : Z := 2 ^ 31 - 1.

Definition is_int32 (z : Z) : Prop := INT32_MIN <= z <= INT32_MAX.
Definition is_byte (z : Z) : Prop := 0 <= z < 256.

(** [vsize v] is [v.size()]. *)
Definition vsize {A : Type} (v : list A) : Z := Z.of_nat (length v).

(** [v.resize(n, x)]. *)
Definition resize {A : Type} (n : Z) (x : A) (v : list A) : list A :=
  take (Z.to_nat n) v ++ replicate (Z.to_nat n - length v)%nat x.

(** Four bytes, least significant first, of a 32-bit value
    ([value & 0xFF], [(value >> 8) & 0xFF], ...). *)
Definition le_bytes32 (value : Z) : list Z :=
  [ Z.land value 255;
    Z.land (Z.shiftr value 8) 255;
    Z.land (Z.shiftr value 16) 255;
    Z.land (Z.shiftr value 24) 255 ].

(** The unsigned 32-bit value held by four little-endian bytes. *)
Definition le_value32 (b0 b1 b2 b3 : Z) : Z :=
  b0 + 256 * b1 + 65536 * b2 + 16777216 * b3.

(** [std::to_string] on an integer. *)
Definition to_string (z : Z) : string :=
  NilZero.string_of_int (Z.to_int z).

(* ===================================================================== *)
(** * Binary32 floating point                                            *)
(* ===================================================================== *)

Module Float32.

Definition prec : Z := 24.
Definition emax : Z := 128.

Definition float := spec_float.

Definition zero : float := S754_zero false.

Definition add : float -> float -> float := SFadd prec emax.
Definition sub : float -> float -> float := SFsub prec emax.
Definition mul : float -> float -> float := SFmul prec emax.
Definition div : float -> float -> float := SFdiv prec emax.
Definition neg : float -> float := SFopp.
Definition eqb : float -> float -> bool := SFeqb.
Definition ltb : float -> float -> bool := SFltb.

(** [static_cast<float>(i)] for an integer [i]: round to nearest even. *)
Definition of_int (i : Z) : float :=
  match i with
  | Z0 => S754_zero false
  | Zpos p => binary_normalize prec emax (Zpos p) 0 false
  | Zneg p => SFopp (binary_normalize prec emax (Zpos p) 0 false)
  end.

(** [static_cast<int32_t>(f)]: truncation toward zero. The conversion of
    a NaN, an infinity or a value outside the range of [int32_t] is
    undefined in C++; the model returns the x86 "integer indefinite"
    value [INT32_MIN] there. *)
Definition to_int32 (f : float) : Z :=
  match f with
  | S754_zero _ => 0
  | S754_finite s m e =>
      let mag := if 0 <=? e then Zpos m * 2 ^ e else Zpos m / 2 ^ (- e) in
      let v := if s then - mag else mag in
      if (INT32_MIN <=? v) && (v <=? INT32_MAX) then v else INT32_MIN
  | _ => INT32_MIN
  end.

(** The float whose IEEE-754 binary32 encoding is [bits]
    ([std::memcpy] of four bytes into a [float]). *)
Definition of_bits (bits : Z) : float :=
  let s := Z.testbit bits 31 in
  let ex := Z.land (Z.shiftr bits 23) 255 in
  let mant := Z.land bits 8388607 in
  if ex =? 0 then
    match mant with
    | Zpos m => S754_finite s m (-149)
    | _ => S754_zero s
    end
  else if ex =? 255 then
    (if mant =? 0 then S754_infinity s else S754_nan)
  else
    match mant + 8388608 with
    | Zpos m => S754_finite s m (ex - 150)
    | _ => S754_zero s
    end.

(** The IEEE-754 binary32 encoding of a float in canonical form; a NaN
    is encoded as the default quiet NaN. *)
Definition to_bits (f : float) : Z :=
  let sign (s : bool) := if s then 2147483648 else 0 in
  match f with
  | S754_zero s => sign s
  | S754_infinity s => sign s + 2139095040
  | S754_nan => 2143289344
  | S754_finite s m e =>
      if Zpos m <? 8388608 then sign s + Zpos m
      else sign s + (e + 150) * 8388608 + (Zpos m - 8388608)
  end.

End Float32.

Abbreviation float32 := Float32.float.

(* ===================================================================== *)
(** * Loops and strings                                                   *)
(* ===================================================================== *)

(** A [while] loop: [body] is the loop test followed by the loop body and
    answers [None] when the test fails or the body executes [break].
    [fuel] bounds the number of iterations. *)
Fixpoint iterate {S : Type} (fuel : nat) (body : S -> option S) (st : S) : S :=
  match fuel with
  | O => st
  | Datatypes.S fuel' =>
      match body st with
      | Some st' => iterate fuel' body st'
      | None => st
      end
  end.

Definition slength (s : string) : Z := Z.of_nat (String.length s).

(** [s[i]]; the character at [s.size()] is the terminating NUL. *)
Definition char_at (s : string) (i : Z) : ascii :=
  if i <? 0 then "000"%char
  else default "000"%char (String.get (Z.to_nat i) s).

(** [s.substr(pos, n)] for [pos <= s.size()], the count [n] being a
    [size_t]. *)
Definition substr (s : string) (pos n : Z) : string :=
  String.substring (Z.to_nat pos) (Z.to_nat (Z.min n (slength s - pos))) s.

Definition char_code (c : ascii) : Z := Z.of_N (N_of_ascii c).

Definition string_of_char (c : ascii) : string := String c EmptyString.

(** Character classes of [<cctype>] in the "C" locale. *)
Definition is_digit (c : ascii) : bool :=
  (48 <=? char_code c) && (char_code c <=? 57).
Definition is_upper (c : ascii) : bool :=
  (65 <=? char_code c) && (char_code c <=? 90).
Definition is_lower (c : ascii) : bool :=
  (97 <=? char_code c) && (char_code c <=? 122).
Definition is_alpha (c : ascii) : bool := is_upper c || is_lower c.
Definition is_alnum (c : ascii) : bool := is_alpha c || is_digit c.
Definition to_lower (c : ascii) : ascii :=
  if is_upper c then ascii_of_N (N_of_ascii c + 32) else c.

(** [s.find(c) != npos]. *)
Fixpoint string_contains (c : ascii) (s : string) : bool :=
  match s with
  | EmptyString => false
  | String d rest => Ascii.eqb c d || string_contains c rest
  end.

(* ===================================================================== *)
(** * The lexer ([lexer.h], [lexer.cpp])                                  *)
(* ===================================================================== *)

Inductive TokenType : Set :=
| NUMBER | IDENTIFIER | OPERATOR | KEYWORD | STRING | CHARACTER | COMMENT
| LEFT_PAREN | RIGHT_PAREN | LEFT_BRACE | RIGHT_BRACE
| LEFT_BRACKET | RIGHT_BRACKET
| COMMA | SEMICOLON | COLON | DOT
| LESS | GREATER | LESS_EQUAL | GREATER_EQUAL | LEFT_SHIFT | RIGHT_SHIFT
| ARROW | ARROW_STAR | DOT_STAR
| END_OF_FILE | UNKNOWN | PREPROCESSOR | NEWLINE
| ACCESS_SPECIFIER | TYPE_SPECIFIER | STORAGE_CLASS | TYPE_QUALIFIER
| SCOPE_RESOLUTION | ELLIPSIS.

#[global] Instance TokenType_eq_dec : EqDecision TokenType.
Proof. solve_decision. Defined.

Module Token.
Record t : Type := mk {
  type : TokenType;
  value : string;
  line : Z;      (* [int] *)
  column : Z     (* [int] *)
}.
End Token.

(** The constructor [Token(t, v, l, c)] called with [size_t] positions. *)
Definition make_token (t : TokenType) (v : string) (l c : Z) : Token.t :=
  Token.mk t v (int32 l) (int32 c).

Module Lexer.

Record Lexer : Type := mk {
  source : string;
  position : Z;                (* [size_t] *)
  line : Z;                    (* [size_t] *)
  column : Z;                  (* [size_t] *)
  tokens : list Token.t;
  error_flag : bool;
  filename : string
}.

Definition set_position (v : Z) (lx : Lexer) : Lexer :=
  mk (source lx) v (line lx) (column lx) (tokens lx) (error_flag lx)
     (filename lx).
Definition set_line (v : Z) (lx : Lexer) : Lexer :=
  mk (source lx) (position lx) v (column lx) (tokens lx) (error_flag lx)
     (filename lx).
Definition set_column (v : Z) (lx : Lexer) : Lexer :=
  mk (source lx) (position lx) (line lx) v (tokens lx) (error_flag lx)
     (filename lx).
Definition set_tokens (v : list Token.t) (lx : Lexer) : Lexer :=
  mk (source lx) (position lx) (line lx) (column lx) v (error_flag lx)
     (filename lx).
Definition set_error_flag (v : bool) (lx : Lexer) : Lexer :=
  mk (source lx) (position lx) (line lx) (column lx) (tokens lx) v
     (filename lx).

(** The keyword tables filled by the constructor. *)
Definition entries (ty : TokenType) (keys : list string)
  : list (string * TokenType) :=
  map (fun k => (k, ty)) keys.

Definition keywords : gmap string TokenType :=
  list_to_map
    (entries KEYWORD
       [ "if"; "else"; "while"; "for"; "do"; "switch"; "case"; "default";
         "break"; "continue"; "return"; "goto";
         "try"; "catch"; "throw";
         "this"; "virtual"; "explicit"; "friend"; "inline"; "operator";
         "template"; "typename"; "mutable";
         "namespace"; "using";
         "dynamic_cast"; "static_cast"; "const_cast"; "reinterpret_cast";
         "typeid";
         "new"; "delete"; "sizeof";
         "asm"; "export"; "wchar_t"; "bool"; "true"; "false" ]%string
     ++ entries STORAGE_CLASS
       [ "static"; "extern"; "auto"; "register" ]%string
     ++ entries TYPE_QUALIFIER
       [ "const"; "volatile" ]%string).

Definition type_keywords : gmap string TokenType :=
  list_to_map
    (entries TYPE_SPECIFIER
       [ "void"; "char"; "short"; "int"; "long"; "float"; "double";
         "signed"; "unsigned"; "class"; "struct"; "union"; "enum";
         "typedef" ]%string).

Definition access_specifiers : gmap string TokenType :=
  list_to_map
    (entries ACCESS_SPECIFIER
       [ "public"; "private"; "protected" ]%string).

Definition single_operators : string := "+-*/=!&|^%~?".

Definition multi_char_operators : gmap string TokenType :=
  list_to_map
    (entries OPERATOR
       [ "++"; "--"; "+="; "-="; "*="; "/="; "%=";
         "=="; "!=";
         "&&"; "||"; "!";
         "&="; "|="; "^="; "<<"; ">>"; "<<="; ">>=" ]%string).

(** [Lexer::Lexer]. *)
Definition new_lexer (input file : string) : Lexer :=
  mk input 0 1 1 [] false file.

Definition source_length (lx : Lexer) : Z := slength (source lx).

(** [source[position + k]]. *)
Definition current_at (k : Z) (lx : Lexer) : ascii :=
  char_at (source lx) (position lx + k).

(** The bound of every loop over the source: each iteration advances
    [position], which never exceeds the length of the source. *)
Definition loop_bound (lx : Lexer) : nat := S (String.length (source lx)).

(** [Lexer::categorizeKeyword]. *)
Definition categorizeKeyword (value : string) (line column : Z) : Token.t :=
  match access_specifiers !! value with
  | Some ty => Token.mk ty value line column
  | None =>
      match type_keywords !! value with
      | Some ty => Token.mk ty value line column
      | None =>
          match keywords !! value with
          | Some ty => Token.mk ty value line column
          | None => Token.mk IDENTIFIER value line column
          end
      end
  end.

(** [Lexer::advance]. *)
Definition advance (lx : Lexer) : Lexer :=
  if position lx <? source_length lx
  then set_column (size_t (column lx + 1))
         (set_position (size_t (position lx + 1)) lx)
  else lx.

(** [Lexer::reportError]; the message goes to [std::cerr]. *)
Definition reportError (message : string) (errorLine errorColumn : Z)
  (lx : Lexer) : Lexer :=
  set_error_flag true lx.

(** [line++; column = 1;] *)
Definition new_line (lx : Lexer) : Lexer :=
  set_column 1 (set_line (size_t (line lx + 1)) lx).

(** [Lexer::skipWhitespace]. *)
Definition skipWhitespace (lx : Lexer) : Lexer :=
  iterate (loop_bound lx)
    (fun lx =>
       if position lx <? source_length lx then
         let current := current_at 0 lx in
         if Ascii.eqb current " " || Ascii.eqb current "009"
            || Ascii.eqb current "013"
         then Some (advance lx)
         else if Ascii.eqb current "010"
         then Some (advance (new_line lx))
         else None
       else None)
    lx.

(** [Lexer::readNumber]. The loop state holds [has_dot] and
    [has_exponent]. *)
Definition readNumber (lx : Lexer) : Token.t * Lexer :=
  let start := position lx in
  let startLine := line lx in
  let startColumn := column lx in
  let '(_, _, lx) :=
    iterate (loop_bound lx)
      (fun '(has_dot, has_exponent, lx) =>
         if position lx <? source_length lx then
           let current := current_at 0 lx in
           if is_digit current
           then Some (has_dot, has_exponent, advance lx)
           else if Ascii.eqb current "." && negb has_dot
                   && negb has_exponent
           then Some (true, has_exponent, advance lx)
           else if (Ascii.eqb current "e" || Ascii.eqb current "E")
                   && negb has_exponent
           then
             let lx := advance lx in
             let lx :=
               if (position lx <? source_length lx)
                  && (Ascii.eqb (current_at 0 lx) "+"
                      || Ascii.eqb (current_at 0 lx) "-")
               then advance lx else lx in
             Some (has_dot, true, lx)
           else None
         else None)
      (false, false, lx) in
  (* Check suffixes (f, L, etc.) *)
  let lx :=
    if position lx <? source_length lx then
      let suffix := to_lower (current_at 0 lx) in
      if Ascii.eqb suffix "f" || Ascii.eqb suffix "l"
         || Ascii.eqb suffix "u"
      then
        let lx := advance lx in
        if position lx <? source_length lx then
          let next := to_lower (current_at 0 lx) in
          if Ascii.eqb next "l" then
            let lx := advance lx in
            if (position lx <? source_length lx)
               && Ascii.eqb (to_lower (current_at 0 lx)) "l"
            then advance lx else lx
          else lx
        else lx
      else lx
    else lx in
  let value := substr (source lx) start (size_t (position lx - start)) in
  (make_token NUMBER value startLine startColumn, lx).

(** [Lexer::readIdentifier]. *)
Definition readIdentifier (lx : Lexer) : Token.t * Lexer :=
  let start := position lx in
  let startLine := line lx in
  let startColumn := column lx in
  let lx :=
    iterate (loop_bound lx)
      (fun lx =>
         if (position lx <? source_length lx)
            && (is_alnum (current_at 0 lx)
                || Ascii.eqb (current_at 0 lx) "_")
         then Some (advance lx) else None)
      lx in
  let value := substr (source lx) start (size_t (position lx - start)) in
  (make_token IDENTIFIER value startLine startColumn, lx).

(** The scanning loop shared by [readString] and [readCharacter]:
    [quote] ends the literal, a backslash escapes the next character,
    and only [readString] ([count_lines]) counts line feeds. *)
Definition scan_literal (quote : ascii) (count_lines : bool) (lx : Lexer)
  : Lexer :=
  snd
    (iterate (loop_bound lx)
       (fun '(escape, lx) =>
          if position lx <? source_length lx then
            let current := current_at 0 lx in
            if escape : bool then Some (false, advance lx)
            else if Ascii.eqb current "\" then Some (true, advance lx)
            else if Ascii.eqb current quote then None
            else if count_lines && Ascii.eqb current "010"
            then Some (false, advance (new_line lx))
            else Some (false, advance lx)
          else None)
       (false, lx)).

(** [Lexer::readString]. *)
Definition readString (lx : Lexer) : Token.t * Lexer :=
  let start := position lx in
  let startLine := line lx in
  let startColumn := column lx in
  let lx := advance lx in
  let lx := scan_literal "034" true lx in
  let lx :=
    if position lx <? source_length lx then advance lx
    else reportError "Unterminated string literal" startLine startColumn lx
  in
  let value :=
    substr (source lx) (start + 1) (size_t (position lx - start - 2)) in
  (make_token STRING value startLine startColumn, lx).

(** [Lexer::readCharacter]. *)
Definition readCharacter (lx : Lexer) : Token.t * Lexer :=
  let start := position lx in
  let startLine := line lx in
  let startColumn := column lx in
  let lx := advance lx in
  let lx := scan_literal "'" false lx in
  let lx :=
    if position lx <? source_length lx then advance lx
    else reportError "Unterminated character literal" startLine
           startColumn lx in
  let value :=
    substr (source lx) (start + 1) (size_t (position lx - start - 2)) in
  (make_token CHARACTER value startLine startColumn, lx).

(** Advances to the next line feed or to the end of the source. *)
Definition skip_to_line_end (lx : Lexer) : Lexer :=
  iterate (loop_bound lx)
    (fun lx =>
       if (position lx <? source_length lx)
          && negb (Ascii.eqb (current_at 0 lx) "010")
       then Some (advance lx) else None)
    lx.

(** [Lexer::readSingleLineComment]. *)
Definition readSingleLineComment (lx : Lexer) : Token.t * Lexer :=
  let start := position lx in
  let startLine := line lx in
  let startColumn := column lx in
  let lx := advance (advance lx) in
  let lx := skip_to_line_end lx in
  let value :=
    substr (source lx) (start + 2) (size_t (position lx - start - 2)) in
  (make_token COMMENT value startLine startColumn, lx).

(** [Lexer::readMultiLineComment]. The loop state records whether the
    loop was left by [break]. *)
Definition readMultiLineComment (lx : Lexer) : Token.t * Lexer :=
  let start := position lx in
  let startLine := line lx in
  let startColumn := column lx in
  let lx := advance (advance lx) in
  let '(_, lx) :=
    iterate (loop_bound lx)
      (fun '(closed, lx) =>
         if closed : bool then None
         else if position lx <? source_length lx then
           if Ascii.eqb (current_at 0 lx) "010"
           then Some (false, advance (new_line lx))
           else if Ascii.eqb (current_at 0 lx) "*"
                   && (position lx + 1 <? source_length lx)
                   && Ascii.eqb (current_at 1 lx) "/"
           then Some (true, advance (advance lx))
           else Some (false, advance lx)
         else None)
      (false, lx) in
  let lx :=
    if source_length lx <=? position lx
    then reportError "Unterminated multi-line comment" startLine
           startColumn lx
    else lx in
  let value :=
    substr (source lx) (start + 2) (size_t (position lx - start - 4)) in
  (make_token COMMENT value startLine startColumn, lx).

(** [n] calls of [advance], then the token. *)
Definition emit (n : nat) (t : TokenType) (v : string) (l c : Z)
  (lx : Lexer) : Token.t * Lexer :=
  (make_token t v l c, Nat.iter n advance lx).

(** [position + k < source.length() && source[position + k] == c]. *)
Definition next_is (k : Z) (c : ascii) (lx : Lexer) : bool :=
  (size_t (position lx + k) <? source_length lx)
  && Ascii.eqb (current_at k lx) c.

(** [Lexer::readOperator]. *)
Definition readOperator (lx : Lexer) : Token.t * Lexer :=
  let startLine := line lx in
  let startColumn := column lx in
  let current := current_at 0 lx in
  let has2 := size_t (position lx + 2) <? source_length lx in
  if Ascii.eqb current "<" then
    if has2 && Ascii.eqb (current_at 1 lx) "<"
       && Ascii.eqb (current_at 2 lx) "="
    then emit 3 OPERATOR "<<=" startLine startColumn lx
    else if next_is 1 "<" lx
    then emit 2 LEFT_SHIFT "<<" startLine startColumn lx
    else if next_is 1 "=" lx
    then emit 2 LESS_EQUAL "<=" startLine startColumn lx
    else emit 1 LESS "<" startLine startColumn lx
  else if Ascii.eqb current ">" then
    if has2 && Ascii.eqb (current_at 1 lx) ">"
       && Ascii.eqb (current_at 2 lx) "="
    then emit 3 OPERATOR ">>=" startLine startColumn lx
    else if next_is 1 ">" lx
    then emit 2 RIGHT_SHIFT ">>" startLine startColumn lx
    else if next_is 1 "=" lx
    then emit 2 GREATER_EQUAL ">=" startLine startColumn lx
    else emit 1 GREATER ">" startLine startColumn lx
  else if Ascii.eqb current "-" then
    if has2 && Ascii.eqb (current_at 1 lx) ">"
       && Ascii.eqb (current_at 2 lx) "*"
    then emit 3 ARROW_STAR "->*" startLine startColumn lx
    else if next_is 1 ">" lx
    then emit 2 ARROW "->" startLine startColumn lx
    else if next_is 1 "-" lx
    then emit 2 OPERATOR "--" startLine startColumn lx
    else if next_is 1 "=" lx
    then emit 2 OPERATOR "-=" startLine startColumn lx
    else emit 1 OPERATOR "-" startLine startColumn lx
  else if Ascii.eqb current ":" then
    if next_is 1 ":" lx
    then emit 2 SCOPE_RESOLUTION "::" startLine startColumn lx
    else emit 1 COLON ":" startLine startColumn lx
  else if Ascii.eqb current "." then
    if has2 && Ascii.eqb (current_at 1 lx) "."
       && Ascii.eqb (current_at 2 lx) "."
    then emit 3 ELLIPSIS "..." startLine startColumn lx
    else if next_is 1 "*" lx
    then emit 2 DOT_STAR ".*" startLine startColumn lx
    else emit 1 DOT "." startLine startColumn lx
  else
    let twoChar := substr (source lx) (position lx) 2 in
    match
      (if size_t (position lx + 1) <? source_length lx
       then multi_char_operators !! twoChar else None)
    with
    | Some ty => emit 2 ty twoChar startLine startColumn lx
    | None =>
        emit 1 OPERATOR (string_of_char current) startLine startColumn lx
    end.

(** [Lexer::readPunctuation]. *)
Definition readPunctuation (lx : Lexer) : Token.t * Lexer :=
  let startLine := line lx in
  let startColumn := column lx in
  let current := current_at 0 lx in
  let value := string_of_char current in
  let single (t : TokenType) := emit 1 t value startLine startColumn lx in
  if Ascii.eqb current "(" then single LEFT_PAREN
  else if Ascii.eqb current ")" then single RIGHT_PAREN
  else if Ascii.eqb current "{" then single LEFT_BRACE
  else if Ascii.eqb current "}" then single RIGHT_BRACE
  else if Ascii.eqb current "[" then single LEFT_BRACKET
  else if Ascii.eqb current "]" then single RIGHT_BRACKET
  else if Ascii.eqb current "," then single COMMA
  else if Ascii.eqb current ";" then single SEMICOLON
  else if Ascii.eqb current ":" then
    if next_is 1 ":" lx
    then emit 2 SCOPE_RESOLUTION "::" startLine startColumn lx
    else single COLON
  else if Ascii.eqb current "." then single DOT
  else
    emit 1 UNKNOWN value startLine startColumn
      (reportError ("Unknown symbol: " ++ value) startLine startColumn lx).

(** [Lexer::readPreprocessor]. *)
Definition readPreprocessor (lx : Lexer) : Token.t * Lexer :=
  let start := position lx in
  let startLine := line lx in
  let startColumn := column lx in
  let lx := advance lx in
  let lx := skip_to_line_end lx in
  let value := substr (source lx) start (size_t (position lx - start)) in
  (make_token PREPROCESSOR value startLine startColumn, lx).

(** [Lexer::getNextToken]. *)
Definition getNextToken (lx : Lexer) : Token.t * Lexer :=
  let current := current_at 0 lx in
  if Ascii.eqb current "#" then readPreprocessor lx
  else if is_digit current then readNumber lx
  else if is_alpha current || Ascii.eqb current "_" then
    let '(ident, lx) := readIdentifier lx in
    if decide (Token.type ident = IDENTIFIER)
    then (categorizeKeyword (Token.value ident) (Token.line ident)
            (Token.column ident), lx)
    else (ident, lx)
  else if Ascii.eqb current "034" then readString lx
  else if Ascii.eqb current "'" then readCharacter lx
  else if Ascii.eqb current "/" && next_is 1 "/" lx
  then readSingleLineComment lx
  else if Ascii.eqb current "/" && next_is 1 "*" lx
  then readMultiLineComment lx
  else if Ascii.eqb current "<" || Ascii.eqb current ">"
  then readOperator lx
  else if string_contains current single_operators then readOperator lx
  else readPunctuation lx.

(** [Lexer::tokenize]. *)
Definition tokenize (lx : Lexer) : list Token.t * Lexer :=
  let lx :=
    set_column 1
      (set_line 1 (set_position 0 (set_error_flag false
                                     (set_tokens [] lx)))) in
  let lx :=
    iterate (loop_bound lx)
      (fun lx =>
         if position lx <? source_length lx then
           let lx := skipWhitespace lx in
           if source_length lx <=? position lx then None
           else
             let '(token, lx) := getNextToken lx in
             if decide (Token.type token = UNKNOWN) then Some lx
             else Some (set_tokens (tokens lx ++ [token]) lx)
         else None)
      lx in
  let lx :=
    set_tokens
      (tokens lx ++ [make_token END_OF_FILE "" (line lx) (column lx)]) lx in
  (tokens lx, lx).

(** [Lexer::hasErrors]. *)
Definition hasErrors (lx : Lexer) : bool := error_flag lx.

End Lexer.

(** The tokens of a source text: [Lexer(input).tokenize()]. *)
Definition lex (input : string) : list Token.t :=
  fst (Lexer.tokenize (Lexer.new_lexer input "")).

(* ===================================================================== *)
(** * The abstract syntax tree ([parser.h])                               *)
(* ===================================================================== *)

(** One constructor per node class; the constructor is the node's [kind].
    A child that the parser may leave null is an [option]; the operands of
    expressions are never null. Every node ends with its [line] and
    [column]. *)
#[local] Unset Elimination Schemes.
Inductive ASTNode : Type :=
| Literal (value : string) (litType : TokenType) (line column : Z)
| Identifier (name : string) (line column : Z)
| UnaryOp (op : string) (operand : ASTNode) (line column : Z)
| BinaryOp (op : string) (left right : ASTNode) (line column : Z)
| CallExpr (callee : ASTNode) (args : list ASTNode) (line column : Z)
| MemberAccess (object : ASTNode) (member : string) (arrow : bool)
    (line column : Z)
| ArraySubscript (array index : ASTNode) (line column : Z)
| ExprStmt (expr : option ASTNode) (line column : Z)
| VarDecl (typeTokens : list string) (varName : string)
    (init : option ASTNode) (isPointer isReference isArray : bool)
    (line column : Z)
| BlockStmt (statements : list ASTNode) (line column : Z)
| IfStmt (cond : ASTNode) (thenBranch elseBranch : option ASTNode)
    (line column : Z)
| WhileStmt (cond : ASTNode) (body : option ASTNode) (line column : Z)
| ForStmt (init cond post body : option ASTNode) (line column : Z)
| ReturnStmt (expr : option ASTNode) (line column : Z)
| ClassDecl (className : string) (members : list ASTNode)
    (baseClasses : list string) (line column : Z)
| StructDecl (structName : string) (members : list ASTNode)
    (line column : Z)
| NamespaceDecl (name : string) (body : ASTNode) (line column : Z)
| TemplateDecl (params : list string) (declaration : option ASTNode)
    (line column : Z)
| AccessSpec (access : string) (line column : Z)
| IncludeDirective (file : string) (isSystem : bool) (line column : Z)
| UsingDirective (namespaceName : string) (line column : Z)
| FunctionDecl (returnTypeTokens : list string) (funcName : string)
    (params : list (list string * string)) (body : option ASTNode)
    (isVirtual isConst : bool) (line column : Z).
#[local] Set Elimination Schemes.

(** [struct Program]. *)
Record Program : Type := mkProgram { top : list ASTNode }.

(** [pos != std::string::npos] results of [std::string::find]. *)
Fixpoint find_char_from (c : ascii) (s : string) (i : nat) : option nat :=
  match s with
  | EmptyString => None
  | String d rest => if Ascii.eqb c d then Some i else find_char_from c rest (S i)
  end.

Fixpoint is_prefix (p s : string) : bool :=
  match p, s with
  | EmptyString, _ => true
  | String a p', String b s' => Ascii.eqb a b && is_prefix p' s'
  | String _ _, EmptyString => false
  end.

(** [s.find(p)] from index [i] on. *)
Fixpoint find_substring (p s : string) (i : nat) : option nat :=
  if is_prefix p s then Some i
  else
    match s with
    | EmptyString => None
    | String _ rest => find_substring p rest (S i)
    end.

(** [s.substr(n)]. *)
Fixpoint string_drop (n : nat) (s : string) : string :=
  match n, s with
  | O, _ => s
  | S n', String _ rest => string_drop n' rest
  | S _, EmptyString => EmptyString
  end.

(** [s.find_first_not_of(" \t")] applied: the text from the first
    character that is neither a space nor a tab, if there is one. *)
Fixpoint drop_blanks (s : string) : option string :=
  match s with
  | EmptyString => None
  | String c rest =>
      if Ascii.eqb c " " || Ascii.eqb c "009" then drop_blanks rest
      else Some s
  end.

(* ===================================================================== *)
(** * The parser ([parser.cpp])                                           *)
(* ===================================================================== *)

Module Parser.

(** The state of a [Parser] object. *)
Record Parser : Type := mk {
  tokens : list Token.t;
  idx : Z;                          (* [size_t] *)
  currentClassName : string
}.

(** The outcome of a parsing function: a value with the new state, the
    [std::runtime_error] thrown by [Parser::error], or the exhaustion of
    the bound put on recursion and loops. *)
Inductive result (A : Type) : Type :=
| Ok (a : A) (ps : Parser)
| ParseError (message : string)
| OutOfFuel.
Arguments Ok {A} a ps.
Arguments ParseError {A} message.
Arguments OutOfFuel {A}.

Definition P (A : Type) : Type := Parser -> result A.

Definition ret {A : Type} (a : A) : P A := fun ps => Ok a ps.

Definition bind {A B : Type} (c : P A) (k : A -> P B) : P B :=
  fun ps =>
    match c ps with
    | Ok a ps' => k a ps'
    | ParseError m => ParseError m
    | OutOfFuel => OutOfFuel
    end.

Notation "x <- c1 ;; c2" := (bind c1 (fun x => c2))
  (at level 100, c1 at next level, right associativity).
Notation "c1 ;;; c2" := (bind c1 (fun _ => c2))
  (at level 100, right associativity).

Definition out_of_fuel {A : Type} : P A := fun _ => OutOfFuel.

Definition when (b : bool) (c : P unit) : P unit :=
  if b then c else ret tt.

(** A loop with local state [st]: [body] answers whether the loop goes
    on ([true]) or is left ([false]). *)
Fixpoint loop_fuel {S : Type} (fuel : nat) (body : S -> P (bool * S))
  (st : S) : P S :=
  match fuel with
  | O => out_of_fuel
  | Datatypes.S fuel' =>
      r <- body st ;;
      if fst r then loop_fuel fuel' body (snd r) else ret (snd r)
  end.

(** Every iteration of a loop of the parser consumes a token, so the
    number of tokens bounds the iterations. *)
Definition loop {S : Type} (body : S -> P (bool * S)) (st : S) : P S :=
  fun ps => loop_fuel (Datatypes.S (length (tokens ps))) body st ps.

Definition end_token : Token.t := Token.mk END_OF_FILE "" 0 0.

(** [tokens[i]]. *)
Definition token_at (ps : Parser) (i : Z) : Token.t :=
  if i <? 0 then end_token
  else default end_token (tokens ps !! Z.to_nat i).

Definition tokens_size (ps : Parser) : Z := vsize (tokens ps).

(** [Parser::peek]. *)
Definition peek : P Token.t := fun ps => Ok (token_at ps (idx ps)) ps.

(** [Parser::previous]. *)
Definition previous : P Token.t :=
  fun ps => Ok (token_at ps (idx ps - 1)) ps.

(** [Parser::isAtEnd]. *)
Definition isAtEnd : P bool :=
  t <- peek ;; ret (bool_decide (Token.type t = END_OF_FILE)).

(** [Parser::check]. *)
Definition check (t : TokenType) : P bool :=
  e <- isAtEnd ;;
  if e : bool then ret false
  else tok <- peek ;; ret (bool_decide (Token.type tok = t)).

(** [check(t) && peek().value == v]. *)
Definition check_value (t : TokenType) (v : string) : P bool :=
  c <- check t ;;
  if c : bool then tok <- peek ;; ret (String.eqb (Token.value tok) v)
  else ret false.

(** [check(t) && (peek().value == v1 || peek().value == v2 || ...)]. *)
Definition check_values (t : TokenType) (vs : list string) : P bool :=
  c <- check t ;;
  if c : bool
  then tok <- peek ;; ret (existsb (String.eqb (Token.value tok)) vs)
  else ret false.

Definition set_idx (i : Z) : P unit :=
  fun ps => Ok tt (mk (tokens ps) i (currentClassName ps)).

Definition get_idx : P Z := fun ps => Ok (idx ps) ps.

Definition set_currentClassName (n : string) : P unit :=
  fun ps => Ok tt (mk (tokens ps) (idx ps) n).

Definition get_currentClassName : P string :=
  fun ps => Ok (currentClassName ps) ps.

Definition get_state : P Parser := fun ps => Ok ps ps.

(** The loop [while (!isAtEnd() && peek().type == COMMENT) idx++;]. *)
Definition skip_comments : P unit :=
  loop (fun _ : unit =>
          e <- isAtEnd ;;
          tok <- peek ;;
          if negb e && bool_decide (Token.type tok = COMMENT)
          then i <- get_idx ;; set_idx (size_t (i + 1)) ;;; ret (true, tt)
          else ret (false, tt)) tt.

(** [Parser::advance]. *)
Definition advance : P Token.t :=
  e <- isAtEnd ;;
  (if e : bool then ret tt
   else i <- get_idx ;; set_idx (size_t (i + 1))) ;;;
  skip_comments ;;;
  previous.

(** [Parser::match]. *)
Fixpoint match_ (types : list TokenType) : P bool :=
  match types with
  | [] => ret false
  | t :: rest =>
      c <- check t ;;
      if c : bool then advance ;;; ret true else match_ rest
  end.

(** [Parser::error]: always throws. *)
Definition error {A : Type} (tok : Token.t) (message : string) : P A :=
  fun _ =>
    ParseError ("Parse error at line " ++ to_string (Token.line tok)
                ++ " col " ++ to_string (Token.column tok) ++ ": "
                ++ message).

(** [Parser::consume]. *)
Definition consume (t : TokenType) (msg : string) : P unit :=
  c <- check t ;;
  if c : bool then advance ;;; ret tt
  else tok <- peek ;; error tok msg.

(** [Parser::Parser]: skips any leading comments. *)
Definition new_parser (toks : list Token.t) : Parser :=
  let ps := mk toks 0 "" in
  let skip :=
    iterate (S (length toks))
      (fun i =>
         if (i <? vsize toks)
            && bool_decide (Token.type (token_at ps i) = COMMENT)
         then Some (size_t (i + 1)) else None)
      0 in
  mk toks skip "".

Definition isTypeSpecifier : P bool := check TYPE_SPECIFIER.
Definition isTypeQualifier : P bool := check TYPE_QUALIFIER.
Definition isStorageClass : P bool := check STORAGE_CLASS.

(** [typeTokens.push_back(peek().value); advance();] while [test]. *)
Definition collect_while (test : P bool) (typeTokens : list string)
  : P (list string) :=
  loop (fun typeTokens =>
          c <- test ;;
          if c : bool
          then tok <- peek ;; advance ;;;
               ret (true, typeTokens ++ [Token.value tok])
          else ret (false, typeTokens)) typeTokens.

(** The template argument text from ['<'] to its matching ['>'], the
    inner loop of [parseType]; the current token is ['<']. *)
Definition template_arguments : P string :=
  advance ;;;
  r <- loop (fun st : Z * string =>
               let depth := fst st in
               let templ := snd st in
               e <- isAtEnd ;;
               if e || (depth <=? 0) then ret (false, st)
               else
                 l <- check LESS ;;
                 if l : bool
                 then advance ;;; ret (true, (depth + 1, templ +:+ "<"))
                 else
                   g <- check GREATER ;;
                   if g : bool
                   then advance ;;;
                        ret (negb (depth - 1 =? 0),
                             (depth - 1, templ +:+ ">"))
                   else
                     tok <- peek ;;
                     advance ;;;
                     ret (true, (depth, templ +:+ Token.value tok)))
            (1, "<"%string) ;;
  ret (snd r).

(** [Parser::parseType]. *)
Definition parseType : P (list string) :=
  (* Storage class (static, extern, etc.) *)
  typeTokens <- collect_while isStorageClass [] ;;
  (* Type qualifiers (const, volatile) *)
  typeTokens <- collect_while isTypeQualifier typeTokens ;;
  (* Base type - type specifier OR user-defined type (identifier) *)
  spec <- isTypeSpecifier ;;
  ident <- check IDENTIFIER ;;
  kw <- check_values KEYWORD ["typename"; "class"]%string ;;
  typeTokens <-
    (if spec : bool then
       tok <- peek ;; advance ;;; ret (typeTokens ++ [Token.value tok])
     else if ident || kw then
       tok <- peek ;;
       advance ;;;
       let fullname := Token.value tok in
       fullname <-
         (if String.eqb fullname "typename" || String.eqb fullname "class"
          then
            i <- check IDENTIFIER ;;
            if i : bool
            then t <- peek ;; advance ;;;
                 ret (fullname +:+ " " +:+ Token.value t)
            else ret fullname
          else ret fullname) ;;
       (* Loop to collect ::qualifiers and <template args> *)
       fullname <-
         loop (fun fullname : string =>
                 sc <- check SCOPE_RESOLUTION ;;
                 if sc : bool then
                   advance ;;;
                   i <- check IDENTIFIER ;;
                   if i : bool
                   then t <- peek ;; advance ;;;
                        ret (true, fullname +:+ "::" +:+ Token.value t)
                   else ret (false, fullname)
                 else
                   l <- check LESS ;;
                   if l : bool
                   then templ <- template_arguments ;;
                        ret (true, fullname +:+ templ)
                   else ret (false, fullname))
              fullname ;;
       ret (typeTokens ++ [fullname])
     else ret typeTokens) ;;
  (* Pointer/reference markers *)
  loop (fun typeTokens : list string =>
          m <- check_values OPERATOR ["*"; "&"]%string ;;
          if m : bool then
            tok <- peek ;;
            advance ;;;
            typeTokens <-
              collect_while isTypeQualifier
                (typeTokens ++ [Token.value tok]) ;;
            ret (true, typeTokens)
          else ret (false, typeTokens))
       typeTokens.

(** [Parser::parseTypeForLookahead]: scans from [pos] without consuming
    and answers the type tokens and the updated position. *)
Definition parseTypeForLookahead (ps : Parser) (pos : Z)
  : list string * Z :=
  let n := tokens_size ps in
  let fuel := S (length (tokens ps)) in
  let ty (i : Z) := Token.type (token_at ps i) in
  let val (i : Z) := Token.value (token_at ps i) in
  let has_type (i : Z) (t : TokenType) := (i <? n) && bool_decide (ty i = t) in
  let collect (t : TokenType) (st : list string * Z) :=
    iterate fuel
      (fun st : list string * Z =>
         let tempPos := snd st in
         if has_type tempPos t
         then Some (fst st ++ [val tempPos], size_t (tempPos + 1))
         else None) st in
  (* Storage class, then type qualifiers *)
  let st := collect STORAGE_CLASS ([], pos) in
  let st := collect TYPE_QUALIFIER st in
  (* Base type: support qualified names and nested template args *)
  let base :=
    iterate fuel
      (fun st : bool * (list string * Z) =>
         let tempPos := snd (snd st) in
         if fst st then None
         else if has_type tempPos TYPE_SPECIFIER || has_type tempPos IDENTIFIER
                 || (has_type tempPos KEYWORD
                     && (String.eqb (val tempPos) "typename"
                         || String.eqb (val tempPos) "class"))
         then
           let fullname := val tempPos in
           let tempPos := size_t (tempPos + 1) in
           (* Qualified names ::A::B *)
           let q :=
             iterate fuel
               (fun q : bool * (string * Z) =>
                  let p := snd (snd q) in
                  if fst q then None
                  else if has_type p SCOPE_RESOLUTION then
                    let p := size_t (p + 1) in
                    if has_type p IDENTIFIER
                    then Some (false, (fst (snd q) +:+ "::" +:+ val p,
                                       size_t (p + 1)))
                    else Some (true, (fst (snd q), p))
                  else None)
               (false, (fullname, tempPos)) in
           let fullname := fst (snd q) in
           let tempPos := snd (snd q) in
           (* Template arguments *)
           let t :=
             if has_type tempPos LESS then
               let r :=
                 iterate fuel
                   (fun r : Z * (string * Z) =>
                      let depth := fst r in
                      let templ := fst (snd r) in
                      let p := snd (snd r) in
                      if (p <? n) && (0 <? depth) then
                        if bool_decide (ty p = LESS)
                        then Some (depth + 1, (templ +:+ "<", size_t (p + 1)))
                        else if bool_decide (ty p = GREATER)
                        then Some (depth - 1, (templ +:+ ">", size_t (p + 1)))
                        else Some (depth, (templ +:+ val p, size_t (p + 1)))
                      else None)
                   (1, ("<"%string, size_t (tempPos + 1))) in
               (fullname +:+ fst (snd r), snd (snd r))
             else (fullname, tempPos) in
           let fullname := fst t in
           let tempPos := snd t in
           let typeTokens := fst (snd st) ++ [fullname] in
           if has_type tempPos TYPE_SPECIFIER
              && existsb (String.eqb (val tempPos))
                   ["long"; "short"; "signed"; "unsigned"]%string
           then Some (false, (typeTokens, tempPos))
           else Some (true, (typeTokens, tempPos))
         else None)
      (false, st) in
  (* Pointer/reference *)
  iterate fuel
    (fun st : list string * Z =>
       let tempPos := snd st in
       if has_type tempPos OPERATOR
          && (String.eqb (val tempPos) "*" || String.eqb (val tempPos) "&")
       then Some (fst st ++ [val tempPos], size_t (tempPos + 1))
       else None)
    (snd base).

(** [Parser::parseAccessSpecifier]. *)
Definition parseAccessSpecifier : P (option ASTNode) :=
  accessTok <- peek ;;
  advance ;;;
  consume COLON "Expected ':' after access specifier" ;;;
  ret (Some (AccessSpec (Token.value accessTok) (Token.line accessTok)
               (Token.column accessTok))).

(** The file name and the system flag that [parseIncludeDirective]
    extracts from the text of the directive. *)
Definition include_target (directive : string) : string * bool :=
  match find_substring "include" directive 0 with
  | None => (""%string, false)
  | Some includePos =>
      match drop_blanks (string_drop (includePos + 7) directive) with
      | None => (""%string, false)
      | Some rest =>
          match rest with
          | String "<" tail =>
              match find_char_from ">" rest 0 with
              | Some e => (String.substring 1 (e - 1) rest, true)
              | None => (""%string, true)
              end
          | String "034" tail =>
              match find_char_from "034" tail 1 with
              | Some e => (String.substring 1 (e - 1) rest, false)
              | None => (""%string, false)
              end
          | _ => (""%string, false)
          end
      end
  end.

(** [Parser::parseIncludeDirective]. *)
Definition parseIncludeDirective : P (option ASTNode) :=
  includeTok <- peek ;;
  advance ;;;
  let target := include_target (Token.value includeTok) in
  ret (Some (IncludeDirective (fst target) (snd target)
               (Token.line includeTok) (Token.column includeTok))).

(** [Parser::parseUsingDirective]. *)
Definition parseUsingDirective : P (option ASTNode) :=
  usingTok <- peek ;;
  advance ;;;
  ns <- check_value KEYWORD "namespace" ;;
  if ns : bool then
    advance ;;;
    i <- check IDENTIFIER ;;
    (if i : bool then ret tt
     else tok <- peek ;; error tok "Expected namespace name") ;;;
    nsName <- peek ;;
    advance ;;;
    consume SEMICOLON "Expected ';' after using directive" ;;;
    ret (Some (UsingDirective (Token.value nsName) (Token.line usingTok)
                 (Token.column usingTok)))
  else
    (* Handle using declarations (using std::cout;) *)
    loop (fun _ : unit =>
            sc <- check SEMICOLON ;;
            e <- isAtEnd ;;
            if negb sc && negb e then advance ;;; ret (true, tt)
            else ret (false, tt)) tt ;;;
    consume SEMICOLON "Expected ';' after using declaration" ;;;
    ret None.

(** [Parser::parseFunctionParams]. *)
Definition parseFunctionParams : P (list (list string * string)) :=
  consume LEFT_PAREN "Expected '(' after function name" ;;;
  params <-
    loop (fun params : list (list string * string) =>
            rp <- check RIGHT_PAREN ;;
            e <- isAtEnd ;;
            if negb rp && negb e then
              paramType <- parseType ;;
              (match paramType with
               | [] => tok <- peek ;;
                       error tok "Expected type in parameter list"
               | _ => ret tt
               end) ;;;
              i <- check IDENTIFIER ;;
              paramName <-
                (if i : bool
                 then tok <- peek ;; advance ;;; ret (Token.value tok)
                 else ret ""%string) ;;
              m <- match_ [COMMA] ;;
              ret (m, params ++ [(paramType, paramName)])
            else ret (false, params)) [] ;;
  consume RIGHT_PAREN "Expected ')' after parameters" ;;;
  ret params.

(** [Parser::parseTemplateParams]. *)
Definition parseTemplateParams : P (list string) :=
  loop (fun params : list string =>
          g <- check GREATER ;;
          e <- isAtEnd ;;
          if negb g && negb e then
            kw <- check_values KEYWORD ["typename"; "class"]%string ;;
            params <-
              (if kw : bool then
                 advance ;;;
                 i <- check IDENTIFIER ;;
                 if i : bool then
                   tok <- peek ;;
                   advance ;;;
                   eq <- check_value OPERATOR "=" ;;
                   (if eq : bool then
                      advance ;;;
                      i' <- check IDENTIFIER ;;
                      t' <- check TYPE_SPECIFIER ;;
                      if i' || t' then advance ;;; ret tt else ret tt
                    else ret tt) ;;;
                   ret (params ++ [Token.value tok])
                 else ret params
               else ret params) ;;
            c <- check COMMA ;;
            if c : bool then advance ;;; ret (true, params)
            else ret (false, params)
          else ret (false, params)) [].

(** ** The recursive grammar

    The parsing functions call one another recursively. [Rec] holds the
    functions that are entered recursively; the functions below take the
    next level of the recursion as [self], and [parsers] ties the knot
    on a bound of the recursion depth. *)
Record Rec : Type := mkRec {
  rec_expression : P ASTNode;
  rec_assignment : P ASTNode;
  rec_unary : P ASTNode;
  rec_statement : P (option ASTNode);
  rec_declarationOrStatement : P (option ASTNode)
}.

Section Grammar.

Variable self : Rec.

(** Skips to the ['{'] of a lambda and over its balanced body
    (the "lambda primary" of [parseCallAndPrimary]). *)
Definition skip_lambda : P unit :=
  loop (fun _ : unit =>
          lb <- check LEFT_BRACE ;;
          e <- isAtEnd ;;
          if negb lb && negb e then advance ;;; ret (true, tt)
          else ret (false, tt)) tt ;;;
  lb <- check LEFT_BRACE ;;
  if lb : bool then
    advance ;;;
    loop (fun depth : Z =>
            e <- isAtEnd ;;
            if negb e && (0 <? depth) then
              l <- check LEFT_BRACE ;;
              if l : bool then advance ;;; ret (true, depth + 1)
              else
                r <- check RIGHT_BRACE ;;
                if r : bool
                then advance ;;; ret (negb (depth - 1 =? 0), depth - 1)
                else advance ;;; ret (true, depth)
            else ret (false, depth)) 1 ;;;
    ret tt
  else ret tt.

(** The arguments of a call, [do { ... } while (match({COMMA}))]. *)
Definition call_arguments : P (list ASTNode) :=
  rp <- check RIGHT_PAREN ;;
  if rp : bool then ret []
  else
    loop (fun args : list ASTNode =>
            arg <- rec_expression self ;;
            m <- match_ [COMMA] ;;
            ret (m, args ++ [arg])) [].

(** A member name after [->] or [.]. *)
Definition member_access (arrow : bool) (msg : string) (left : ASTNode)
  : P ASTNode :=
  op <- peek ;;
  advance ;;;
  i <- check IDENTIFIER ;;
  (if i : bool then ret tt else tok <- peek ;; error tok msg) ;;;
  mem <- peek ;;
  advance ;;;
  ret (MemberAccess left (Token.value mem) arrow (Token.line op)
         (Token.column op)).

(** The postfix loop of [parseCallAndPrimary]. Its second
    [LEFT_BRACKET] branch can never be taken and is left out. Where
    the source dereferences the null result of a failed
    [dynamic_cast], the model reports an error. *)
Definition postfix (left : ASTNode) : P ASTNode :=
  loop (fun left : ASTNode =>
          ar <- check ARROW ;;
          if ar : bool then
            n <- member_access true "Expected member name after '->'"
                   left ;;
            ret (true, n)
          else
          dt <- check DOT ;;
          if dt : bool then
            n <- member_access false "Expected member name after '.'"
                   left ;;
            ret (true, n)
          else
          lb <- check LEFT_BRACKET ;;
          if lb : bool then
            bracket <- peek ;;
            advance ;;;
            index <- rec_expression self ;;
            consume RIGHT_BRACKET "Expected ']' after array index" ;;;
            ret (true, ArraySubscript left index (Token.line bracket)
                         (Token.column bracket))
          else
          lp <- check LEFT_PAREN ;;
          if lp : bool then
            open <- peek ;;
            advance ;;;
            args <- call_arguments ;;
            consume RIGHT_PAREN
              "Expected ')' after function call arguments" ;;;
            ret (true, CallExpr left args (Token.line open)
                         (Token.column open))
          else
          inc <- check_values OPERATOR ["++"; "--"]%string ;;
          if inc : bool then
            op <- peek ;;
            advance ;;;
            ret (true, UnaryOp (Token.value op +:+ "_post") left
                         (Token.line op) (Token.column op))
          else
          sr <- check SCOPE_RESOLUTION ;;
          if sr : bool then
            advance ;;;
            i <- check IDENTIFIER ;;
            if i : bool then
              nextId <- peek ;;
              advance ;;;
              match left with
              | Identifier name _ _ =>
                  ret (true,
                       Identifier (name +:+ "::" +:+ Token.value nextId)
                         (Token.line nextId) (Token.column nextId))
              | _ => error nextId "null pointer dereference"
              end
            else ret (true, left)
          else ret (false, left))
       left.

(** [Parser::parseCallAndPrimary]. *)
Definition parseCallAndPrimary : P ASTNode :=
  t <- peek ;;
  if bool_decide (Token.type t = LEFT_BRACKET) then
    (* Lambda primary: start with '[' *)
    advance ;;;
    skip_lambda ;;;
    ret (Literal "<lambda>" LEFT_BRACE (Token.line t) (Token.column t))
  else if bool_decide (Token.type t = NUMBER)
          || bool_decide (Token.type t = STRING)
          || bool_decide (Token.type t = CHARACTER) then
    advance ;;;
    ret (Literal (Token.value t) (Token.type t) (Token.line t)
           (Token.column t))
  else if bool_decide (Token.type t = IDENTIFIER) then
    advance ;;;
    postfix (Identifier (Token.value t) (Token.line t) (Token.column t))
  else
    lp <- check LEFT_PAREN ;;
    if lp : bool then
      advance ;;;
      expr <- rec_expression self ;;
      consume RIGHT_PAREN "Expected ')' after expression" ;;;
      ret expr
    else error t "Expected expression".

(** [Parser::parseUnary]. *)
Definition parseUnary : P ASTNode :=
  nw <- check_value KEYWORD "new" ;;
  if nw : bool then
    op <- peek ;;
    advance ;;;
    ts <- check TYPE_SPECIFIER ;;
    if ts : bool then
      ty <- peek ;;
      let type_name := Token.value ty in
      advance ;;;
      lb <- check LEFT_BRACKET ;;
      if lb : bool then
        advance ;;;
        size_expr <- rec_expression self ;;
        rb <- check RIGHT_BRACKET ;;
        (if rb : bool then ret tt
         else tok <- peek ;; error tok "Expected ']' after array size") ;;;
        advance ;;;
        ret (UnaryOp "new"
               (ArraySubscript
                  (Identifier type_name (Token.line op) (Token.column op))
                  size_expr (Token.line op) (Token.column op))
               (Token.line op) (Token.column op))
      else
        ret (UnaryOp "new"
               (Identifier type_name (Token.line op) (Token.column op))
               (Token.line op) (Token.column op))
    else
      operand <- rec_unary self ;;
      ret (UnaryOp "new" operand (Token.line op) (Token.column op))
  else
  dl <- check_value KEYWORD "delete" ;;
  if dl : bool then
    op <- peek ;;
    advance ;;;
    operand <- rec_unary self ;;
    ret (UnaryOp "delete" operand (Token.line op) (Token.column op))
  else
  un <- check_values OPERATOR ["!"; "-"; "+"; "*"; "&"; "~"]%string ;;
  if un : bool then
    op <- peek ;;
    advance ;;;
    operand <- rec_unary self ;;
    ret (UnaryOp (Token.value op) operand (Token.line op)
           (Token.column op))
  else parseCallAndPrimary.

(** A level of left-associative binary operators: [operand], then
    while [test] holds an operator token and another [operand]. *)
Definition binary_level (operand : P ASTNode) (test : P bool)
  : P ASTNode :=
  node <- operand ;;
  loop (fun node : ASTNode =>
          c <- test ;;
          if c : bool then
            op <- peek ;;
            advance ;;;
            right <- operand ;;
            ret (true, BinaryOp (Token.value op) node right
                         (Token.line op) (Token.column op))
          else ret (false, node))
       node.

(** [Parser::parseMultiplicative]. *)
Definition parseMultiplicative : P ASTNode :=
  binary_level parseUnary
    (check_values OPERATOR ["*"; "/"; "%"]%string).

(** [Parser::parseAdditive]. *)
Definition parseAdditive : P ASTNode :=
  binary_level parseMultiplicative
    (check_values OPERATOR ["+"; "-"]%string).

(** [Parser::parseShift]. *)
Definition parseShift : P ASTNode :=
  binary_level parseAdditive
    (l <- check LEFT_SHIFT ;;
     r <- check RIGHT_SHIFT ;;
     o <- check_values OPERATOR ["<<"; ">>"]%string ;;
     ret (l || r || o)).

(** [Parser::parseComparison]. *)
Definition parseComparison : P ASTNode :=
  binary_level parseShift
    (l <- check LESS ;;
     g <- check GREATER ;;
     le <- check LESS_EQUAL ;;
     ge <- check GREATER_EQUAL ;;
     o <- check_values OPERATOR ["<"; ">"; "<="; ">="]%string ;;
     ret (l || g || le || ge || o)).

(** [Parser::parseEquality]. *)
Definition parseEquality : P ASTNode :=
  binary_level parseComparison
    (check_values OPERATOR ["=="; "!="]%string).

(** [Parser::parseLogicalAnd]. *)
Definition parseLogicalAnd : P ASTNode :=
  binary_level parseEquality (check_value OPERATOR "&&").

(** [Parser::parseLogicalOr]. *)
Definition parseLogicalOr : P ASTNode :=
  binary_level parseLogicalAnd (check_value OPERATOR "||").

(** [Parser::parseConditional]. *)
Definition parseConditional : P ASTNode :=
  cond <- parseLogicalOr ;;
  q <- check_value OPERATOR "?" ;;
  if q : bool then
    qt <- peek ;;
    advance ;;;
    thenExpr <- rec_expression self ;;
    consume COLON "Expected ':' in conditional expression" ;;;
    elseExpr <- rec_expression self ;;
    ret (BinaryOp "?:" thenExpr elseExpr (Token.line qt)
           (Token.column qt))
  else ret cond.

(** [Parser::parseAssignment]. *)
Definition parseAssignment : P ASTNode :=
  left <- parseConditional ;;
  eq <- check_value OPERATOR "=" ;;
  if eq : bool then
    op <- peek ;;
    advance ;;;
    right <- rec_assignment self ;;
    ret (BinaryOp (Token.value op) left right (Token.line op)
           (Token.column op))
  else ret left.

(** [Parser::parseExpression]. *)
Definition parseExpression : P ASTNode := parseAssignment.

End Grammar.

Section Statements.

Variable self : Rec.

(** The text of a brace initializer: the values of the tokens up to
    the closing brace, concatenated. *)
Definition brace_contents : P string :=
  loop (fun contents : string =>
          rb <- check RIGHT_BRACE ;;
          e <- isAtEnd ;;
          if negb rb && negb e then
            tok <- peek ;;
            advance ;;;
            ret (true, contents +:+ Token.value tok)
          else ret (false, contents)) ""%string.

(** What follows [=] in a declarator: a brace initializer, kept as a
    literal, or an expression. *)
Definition initializer : P ASTNode :=
  lb <- check LEFT_BRACE ;;
  if lb : bool then
    ob <- peek ;;
    advance ;;;
    contents <- brace_contents ;;
    consume RIGHT_BRACE "Expected '}' after initializer list" ;;;
    ret (Literal contents LEFT_BRACE (Token.line ob) (Token.column ob))
  else parseExpression self.

(** One declarator of [parseVarDeclaration]: the initializer, if any,
    and whether the declarator is an array. *)
Definition declarator (type : list string) (startLine startCol : Z)
  : P (option ASTNode * bool) :=
  lb <- check LEFT_BRACKET ;;
  if lb : bool then
    (* Array declarator e.g. arr[5] *)
    advance ;;;
    parseExpression self ;;;
    consume RIGHT_BRACKET "Expected ']' in array declarator" ;;;
    eq <- check_value OPERATOR "=" ;;
    if eq : bool then
      advance ;;;
      init <- initializer ;;
      ret (Some init, true)
    else ret (None, true)
  else
  eq <- check_value OPERATOR "=" ;;
  if eq : bool then
    advance ;;;
    init <- initializer ;;
    ret (Some init, false)
  else
  lp <- check LEFT_PAREN ;;
  if lp : bool then
    advance ;;;
    args <-
      loop (fun args : list ASTNode =>
              rp <- check RIGHT_PAREN ;;
              e <- isAtEnd ;;
              if negb rp && negb e then
                arg <- parseExpression self ;;
                m <- match_ [COMMA] ;;
                ret (m, args ++ [arg])
              else ret (false, args)) [] ;;
    consume RIGHT_PAREN "Expected ')' after constructor arguments" ;;;
    let typeName :=
      Identifier (match type with [] => "" | t :: _ => t end)%string
        startLine startCol in
    ret (Some (CallExpr typeName args startLine startCol), false)
  else ret (None, false).

(** [Parser::parseVarDeclaration]. *)
Definition parseVarDeclaration : P ASTNode :=
  start <- peek ;;
  let startLine := Token.line start in
  let startCol := Token.column start in
  type <- parseType ;;
  (* Must have at least one declarator *)
  i <- check IDENTIFIER ;;
  (if i : bool then ret tt
   else tok <- peek ;; error tok "Expected identifier after type") ;;;
  (* Collect one or more declarators separated by commas *)
  decls <-
    loop (fun decls : list ASTNode =>
            nameTok <- peek ;;
            advance ;;;
            d <- declarator type startLine startCol ;;
            let varDecl :=
              VarDecl type (Token.value nameTok) (fst d)
                (existsb (String.eqb "*") type)
                (existsb (String.eqb "&") type)
                (snd d) startLine startCol in
            m <- match_ [COMMA] ;;
            ret (m, decls ++ [varDecl])) [] ;;
  sc <- check SEMICOLON ;;
  (if sc : bool
   then consume SEMICOLON "Expected ';' after variable declaration"
   else ret tt) ;;;
  match decls with
  | [d] => ret d
  | _ => ret (BlockStmt decls startLine startCol)
  end.

(** [Parser::parseBlock]. *)
Definition parseBlock : P ASTNode :=
  open <- peek ;;
  consume LEFT_BRACE "Expected '{' to start block" ;;;
  statements <-
    loop (fun statements : list ASTNode =>
            rb <- check RIGHT_BRACE ;;
            e <- isAtEnd ;;
            if negb rb && negb e then
              stmt <- rec_declarationOrStatement self ;;
              ret (true,
                   match stmt with
                   | Some n => statements ++ [n]
                   | None => statements
                   end)
            else ret (false, statements)) [] ;;
  consume RIGHT_BRACE "Expected '}' after block" ;;;
  ret (BlockStmt statements (Token.line open) (Token.column open)).

(** [Parser::parseExpressionStatement]. *)
Definition parseExpressionStatement : P ASTNode :=
  expr <- parseExpression self ;;
  consume SEMICOLON "Expected ';' after expression" ;;;
  tok <- peek ;;
  ret (ExprStmt (Some expr) (Token.line tok) (Token.column tok)).

(** [Parser::parseFor]. *)
Definition parseFor : P ASTNode :=
  tk <- peek ;;
  advance ;;;
  consume LEFT_PAREN "Expected '(' after for" ;;;
  sc <- check SEMICOLON ;;
  init <-
    (if negb sc then
       ts <- isTypeSpecifier ;;
       tq <- isTypeQualifier ;;
       st <- isStorageClass ;;
       if ts || tq || st then
         d <- parseVarDeclaration ;; ret (Some d)
       else
         e <- parseExpression self ;;
         consume SEMICOLON "Expected ';' after for init" ;;;
         ret (Some e)
     else
       consume SEMICOLON "Expected ';' after for init (empty)" ;;;
       ret None) ;;
  (* Support both traditional for and range-based for *)
  colon <- check COLON ;;
  if colon : bool then
    advance ;;;
    rangeExpr <- parseExpression self ;;
    consume RIGHT_PAREN "Expected ')' after for range" ;;;
    body <- rec_statement self ;;
    ret (ForStmt init None (Some rangeExpr) body (Token.line tk)
           (Token.column tk))
  else
    sc <- check SEMICOLON ;;
    cond <-
      (if negb sc then e <- parseExpression self ;; ret (Some e)
       else ret None) ;;
    consume SEMICOLON "Expected ';' after for condition" ;;;
    rp <- check RIGHT_PAREN ;;
    post <-
      (if negb rp then e <- parseExpression self ;; ret (Some e)
       else ret None) ;;
    consume RIGHT_PAREN "Expected ')' after for clauses" ;;;
    body <- rec_statement self ;;
    ret (ForStmt init cond post body (Token.line tk) (Token.column tk)).

(** [Parser::parseIf]. *)
Definition parseIf : P ASTNode :=
  tk <- peek ;;
  advance ;;;
  consume LEFT_PAREN "Expected '(' after if" ;;;
  cond <- parseExpression self ;;
  consume RIGHT_PAREN "Expected ')' after if condition" ;;;
  thenBranch <- rec_statement self ;;
  el <- check_value KEYWORD "else" ;;
  elseBranch <-
    (if el : bool then advance ;;; rec_statement self else ret None) ;;
  ret (IfStmt cond thenBranch elseBranch (Token.line tk)
         (Token.column tk)).

(** [Parser::parseWhile]. *)
Definition parseWhile : P ASTNode :=
  tk <- peek ;;
  advance ;;;
  consume LEFT_PAREN "Expected '(' after while" ;;;
  cond <- parseExpression self ;;
  consume RIGHT_PAREN "Expected ')' after while condition" ;;;
  body <- rec_statement self ;;
  ret (WhileStmt cond body (Token.line tk) (Token.column tk)).

(** The optional expression of [return] and [throw], and the
    semicolon. *)
Definition optional_expression (msg : string) : P (option ASTNode) :=
  sc <- check SEMICOLON ;;
  expr <-
    (if negb sc then e <- parseExpression self ;; ret (Some e)
     else ret None) ;;
  consume SEMICOLON msg ;;;
  ret expr.

(** [Parser::parseReturn]. *)
Definition parseReturn : P ASTNode :=
  tk <- peek ;;
  advance ;;;
  expr <- optional_expression "Expected ';' after return" ;;
  ret (ReturnStmt expr (Token.line tk) (Token.column tk)).

(** [Parser::parseThrow]. *)
Definition parseThrow : P ASTNode :=
  tk <- peek ;;
  advance ;;;
  expr <- optional_expression "Expected ';' after throw" ;;
  ret (ExprStmt expr (Token.line tk) (Token.column tk)).

(** [Parser::parseStatement]. *)
Definition parseStatement : P (option ASTNode) :=
  t <- peek ;;
  if bool_decide (Token.type t = PREPROCESSOR) then
    advance ;;; ret None
  else
  kw <- check KEYWORD ;;
  if kw && String.eqb (Token.value t) "using"
  then rec_declarationOrStatement self
  else
  lb <- match_ [LEFT_BRACE] ;;
  if lb : bool then
    i <- get_idx ;;
    set_idx (size_t (i - 1)) ;;;
    b <- parseBlock ;; ret (Some b)
  else
  let keyword (v : string) := check_value KEYWORD v in
  k <- keyword "if" ;;
  if k : bool then n <- parseIf ;; ret (Some n) else
  k <- keyword "while" ;;
  if k : bool then n <- parseWhile ;; ret (Some n) else
  k <- keyword "for" ;;
  if k : bool then n <- parseFor ;; ret (Some n) else
  k <- keyword "return" ;;
  if k : bool then n <- parseReturn ;; ret (Some n) else
  k <- keyword "throw" ;;
  if k : bool then n <- parseThrow ;; ret (Some n) else
  n <- parseExpressionStatement ;; ret (Some n).

(** [Parser::parseFunctionDeclaration]. *)
Definition parseFunctionDeclaration : P ASTNode :=
  start <- peek ;;
  let startLine := Token.line start in
  let startCol := Token.column start in
  cls <- get_currentClassName ;;
  ctor <- check_value IDENTIFIER cls ;;
  tilde <- check_value OPERATOR "~" ;;
  sig <-
    (if ctor : bool then
       advance ;;; ret ([], Token.value start)
     else if tilde : bool then
       advance ;;;
       i <- check_value IDENTIFIER cls ;;
       tok <- peek ;;
       (if i : bool then ret tt
        else error tok "Expected class name after '~'") ;;;
       advance ;;;
       ret ([], "~" +:+ Token.value tok)
     else
       (* Regular function *)
       returnType <- parseType ;;
       lp <- check LEFT_PAREN ;;
       match lp, last returnType with
       | true, Some name => ret (removelast returnType, name)
       | _, _ =>
           i <- check IDENTIFIER ;;
           tok <- peek ;;
           (if i : bool then ret tt
            else error tok "Expected function name") ;;;
           advance ;;;
           ret (returnType, Token.value tok)
       end) ;;
  params <- parseFunctionParams ;;
  (* Check for const member function *)
  isConst <- check_value TYPE_QUALIFIER "const" ;;
  (if isConst : bool then advance ;;; ret tt else ret tt) ;;;
  lb <- check LEFT_BRACE ;;
  body <-
    (if lb : bool then b <- parseBlock ;; ret (Some b)
     else consume SEMICOLON "Expected ';' or function body" ;;;
          ret None) ;;
  ret (FunctionDecl (fst sig) (snd sig) params body false isConst
         startLine startCol).

(** [Parser::parseClassMember]. *)
Definition parseClassMember : P (option ASTNode) :=
  ac <- check ACCESS_SPECIFIER ;;
  if ac : bool then parseAccessSpecifier
  else
  ps <- get_state ;;
  let next := token_at ps (idx ps + 1) in
  let has_next := size_t (idx ps + 1) <? tokens_size ps in
  cls <- get_currentClassName ;;
  ctor <- check_value IDENTIFIER cls ;;
  if ctor && has_next && bool_decide (Token.type next = LEFT_PAREN)
  then n <- parseFunctionDeclaration ;; ret (Some n)
  else
  tilde <- check_value OPERATOR "~" ;;
  if tilde && has_next && bool_decide (Token.type next = IDENTIFIER)
     && String.eqb (Token.value next) cls
  then n <- parseFunctionDeclaration ;; ret (Some n)
  else rec_declarationOrStatement self.

(** The members between the braces of a class or a struct. *)
Definition class_members : P (list ASTNode) :=
  loop (fun members : list ASTNode =>
          rb <- check RIGHT_BRACE ;;
          e <- isAtEnd ;;
          if negb rb && negb e then
            member <- parseClassMember ;;
            ret (true,
                 match member with
                 | Some n => members ++ [n]
                 | None => members
                 end)
          else ret (false, members)) [].

(** [Parser::parseClass]. *)
Definition parseClass : P ASTNode :=
  classTok <- peek ;;
  advance ;;;
  i <- check IDENTIFIER ;;
  (if i : bool then ret tt
   else tok <- peek ;; error tok "Expected class name") ;;;
  nameTok <- peek ;;
  advance ;;;
  oldClassName <- get_currentClassName ;;
  set_currentClassName (Token.value nameTok) ;;;
  (* Base classes (optional) *)
  colon <- match_ [COLON] ;;
  baseClasses <-
    (if colon : bool then
       loop (fun baseClasses : list string =>
               lb <- check LEFT_BRACE ;;
               e <- isAtEnd ;;
               if negb lb && negb e then
                 ac <- check ACCESS_SPECIFIER ;;
                 kw <- check KEYWORD ;;
                 (if ac || kw then advance ;;; ret tt else ret tt) ;;;
                 id <- check IDENTIFIER ;;
                 baseClasses <-
                   (if id : bool
                    then tok <- peek ;; advance ;;;
                         ret (baseClasses ++ [Token.value tok])
                    else ret baseClasses) ;;
                 c <- check COMMA ;;
                 if c : bool then advance ;;; ret (true, baseClasses)
                 else ret (false, baseClasses)
               else ret (false, baseClasses)) []
     else ret []) ;;
  consume LEFT_BRACE "Expected '{' after class name" ;;;
  members <- class_members ;;
  consume RIGHT_BRACE "Expected '}' after class body" ;;;
  consume SEMICOLON "Expected ';' after class declaration" ;;;
  set_currentClassName oldClassName ;;;
  ret (ClassDecl (Token.value nameTok) members baseClasses
         (Token.line classTok) (Token.column classTok)).

(** [Parser::parseStruct]. *)
Definition parseStruct : P ASTNode :=
  structTok <- peek ;;
  advance ;;;
  i <- check IDENTIFIER ;;
  (if i : bool then ret tt
   else tok <- peek ;; error tok "Expected struct name") ;;;
  nameTok <- peek ;;
  advance ;;;
  consume LEFT_BRACE "Expected '{' after struct name" ;;;
  members <- class_members ;;
  consume RIGHT_BRACE "Expected '}' after struct body" ;;;
  consume SEMICOLON "Expected ';' after struct declaration" ;;;
  ret (StructDecl (Token.value nameTok) members (Token.line structTok)
         (Token.column structTok)).

(** [Parser::parseNamespace]. *)
Definition parseNamespace : P ASTNode :=
  nsTok <- peek ;;
  advance ;;;
  i <- check IDENTIFIER ;;
  name <-
    (if i : bool then
       tok <- peek ;;
       advance ;;;
       (* support qualified namespace names: A::B::C *)
       loop (fun name : string =>
               sr <- check SCOPE_RESOLUTION ;;
               if sr : bool then
                 advance ;;;
                 id <- check IDENTIFIER ;;
                 if id : bool
                 then t <- peek ;; advance ;;;
                      ret (true, name +:+ "::" +:+ Token.value t)
                 else ret (false, name)
               else ret (false, name)) (Token.value tok)
     else ret ""%string) ;;
  consume LEFT_BRACE "Expected '{' after namespace" ;;;
  statements <-
    loop (fun statements : list ASTNode =>
            rb <- check RIGHT_BRACE ;;
            e <- isAtEnd ;;
            if negb rb && negb e then
              decl <- rec_declarationOrStatement self ;;
              ret (true,
                   match decl with
                   | Some n => statements ++ [n]
                   | None => statements
                   end)
            else ret (false, statements)) [] ;;
  consume RIGHT_BRACE "Expected '}' after namespace body" ;;;
  ret (NamespaceDecl name
         (BlockStmt statements (Token.line nsTok) (Token.column nsTok))
         (Token.line nsTok) (Token.column nsTok)).

(** [tokens[i].type == IDENTIFIER] and [tokens[i + 1].type ==
    LEFT_PAREN], both in range. *)
Definition function_ahead (ps : Parser) (i : Z) : bool :=
  (i <? tokens_size ps)
  && bool_decide (Token.type (token_at ps i) = IDENTIFIER)
  && (size_t (i + 1) <? tokens_size ps)
  && bool_decide (Token.type (token_at ps (i + 1)) = LEFT_PAREN).

(** The fallback scan of [parseTemplate]: an identifier followed by
    ['('] before any ['{'] or [';']. *)
Definition scan_for_function (ps : Parser) : bool :=
  fst
    (iterate (S (length (tokens ps)))
       (fun st : bool * Z =>
          let k := snd st in
          if fst st then None
          else if size_t (k + 1) <? tokens_size ps then
            if bool_decide (Token.type (token_at ps k) = IDENTIFIER)
               && bool_decide
                    (Token.type (token_at ps (k + 1)) = LEFT_PAREN)
            then Some (true, k)
            else if bool_decide (Token.type (token_at ps k) = LEFT_BRACE)
                    || bool_decide
                         (Token.type (token_at ps k) = SEMICOLON)
            then None
            else Some (false, size_t (k + 1))
          else None)
       (false, idx ps)).

(** [Parser::parseTemplate]. *)
Definition parseTemplate : P ASTNode :=
  templateTok <- peek ;;
  advance ;;;
  consume LESS "Expected '<' after template" ;;;
  params <- parseTemplateParams ;;
  consume GREATER "Expected '>' after template parameters" ;;;
  ps <- get_state ;;
  let la := snd (parseTypeForLookahead ps (idx ps)) in
  declaration <-
    (if function_ahead ps la || scan_for_function ps
     then n <- parseFunctionDeclaration ;; ret (Some n)
     else rec_declarationOrStatement self) ;;
  ret (TemplateDecl params declaration (Token.line templateTok)
         (Token.column templateTok)).

(** [Parser::parseDeclarationOrStatement]. *)
Definition parseDeclarationOrStatement : P (option ASTNode) :=
  (* Skip comments *)
  loop (fun _ : unit =>
          c <- check COMMENT ;;
          if c : bool then advance ;;; ret (true, tt)
          else ret (false, tt)) tt ;;;
  t <- peek ;;
  let type := Token.type t in
  let value := Token.value t in
  if bool_decide (type = PREPROCESSOR) then parseIncludeDirective
  else if bool_decide (type = ACCESS_SPECIFIER) then parseAccessSpecifier
  else if bool_decide (type = KEYWORD)
          && existsb (String.eqb value)
               ["return"; "if"; "while"; "for"; "break"; "continue";
                "throw"; "delete"; "new"]%string
  then parseStatement
  else if bool_decide (type = KEYWORD)
          || bool_decide (type = TYPE_SPECIFIER)
          || bool_decide (type = STORAGE_CLASS)
          || bool_decide (type = TYPE_QUALIFIER)
  then
    if String.eqb value "class" then n <- parseClass ;; ret (Some n)
    else if String.eqb value "struct"
    then n <- parseStruct ;; ret (Some n)
    else if String.eqb value "namespace"
    then n <- parseNamespace ;; ret (Some n)
    else if String.eqb value "template"
    then n <- parseTemplate ;; ret (Some n)
    else if String.eqb value "using" then parseUsingDirective
    else
      ps <- get_state ;;
      let lookahead := snd (parseTypeForLookahead ps (idx ps)) in
      if function_ahead ps lookahead
      then n <- parseFunctionDeclaration ;; ret (Some n)
      else n <- parseVarDeclaration ;; ret (Some n)
  else
    ps <- get_state ;;
    let la := parseTypeForLookahead ps (idx ps) in
    if bool_decide (type = IDENTIFIER)
       && negb (bool_decide (fst la = []))
       && (snd la <? tokens_size ps)
       && bool_decide (Token.type (token_at ps (snd la)) = IDENTIFIER)
    then n <- parseVarDeclaration ;; ret (Some n)
    else parseStatement.

End Statements.

(** The parsing functions with recursion depth at most [fuel]. *)
Fixpoint parsers (fuel : nat) : Rec :=
  match fuel with
  | O => mkRec out_of_fuel out_of_fuel out_of_fuel out_of_fuel out_of_fuel
  | S fuel' =>
      let self := parsers fuel' in
      mkRec (parseExpression self) (parseAssignment self)
            (parseUnary self) (parseStatement self)
            (parseDeclarationOrStatement self)
  end.

(** [Parser::parseProgram]. *)
Definition parseProgram (fuel : nat) : P Program :=
  nodes <-
    loop (fun nodes : list ASTNode =>
            e <- isAtEnd ;;
            if e : bool then ret (false, nodes)
            else
              c <- check COMMENT ;;
              if c : bool then advance ;;; ret (true, nodes)
              else
                node <- rec_declarationOrStatement (parsers fuel) ;;
                ret (true,
                     match node with
                     | Some n => nodes ++ [n]
                     | None => nodes
                     end)) [] ;;
  ret (mkProgram nodes).

End Parser.

(** The program parsed from a list of tokens:
    [Parser(tokens).parseProgram()]. The recursion of the parser is
    bounded by twice the number of tokens. *)
Definition parse (toks : list Token.t) : Parser.result Program :=
  Parser.parseProgram (2 * length toks + 2) (Parser.new_parser toks).

(* ===================================================================== *)
(** * The virtual machine ([vm.h], [vm.cpp])                              *)
(* ===================================================================== *)

Module VM.

(** ** Opcodes ([enum class VMOpcode : uint8_t]) *)

Inductive VMOpcode : Set :=
| PUSH | POP | ADD | SUB | MUL | DIV | MOD | DUP | SWAP
| PRINT | PRINT_STR | INPUT_STR | INPUT
| JMP | JZ | JNZ | JL | JG | JLE | JGE | CMP | CALL | RET
| LOAD | STORE | LOAD_BP | STORE_BP | PUSH_BP | POP_BP | PUSH_STR
| LOAD_INDIRECT | STORE_INDIRECT | ALLOC | FREE
| FPUSH | FPOP | FADD | FSUB | FMUL | FDIV | FLOAD | FSTORE
| FPRINT | FCMP | FNEG | FDUP | INT_TO_FP | FP_TO_INT
| HALT.

Definition opcode_byte (op : VMOpcode) : Z :=
  match op with
  | PUSH => 0x01 | POP => 0x02 | ADD => 0x03 | SUB => 0x04 | MUL => 0x05
  | DIV => 0x06 | MOD => 0x07 | DUP => 0x08 | SWAP => 0x09
  | PRINT => 0x0A | PRINT_STR => 0x0B | INPUT_STR => 0x0C | INPUT => 0x0D
  | JMP => 0x10 | JZ => 0x11 | JNZ => 0x12 | JL => 0x13 | JG => 0x14
  | JLE => 0x15 | JGE => 0x16 | CMP => 0x17 | CALL => 0x18 | RET => 0x19
  | LOAD => 0x20 | STORE => 0x21 | LOAD_BP => 0x22 | STORE_BP => 0x23
  | PUSH_BP => 0x24 | POP_BP => 0x25 | PUSH_STR => 0x26
  | LOAD_INDIRECT => 0x27 | STORE_INDIRECT => 0x28
  | ALLOC => 0x29 | FREE => 0x2A
  | FPUSH => 0x30 | FPOP => 0x31 | FADD => 0x32 | FSUB => 0x33
  | FMUL => 0x34 | FDIV => 0x35 | FLOAD => 0x36 | FSTORE => 0x37
  | FPRINT => 0x38 | FCMP => 0x39 | FNEG => 0x3A | FDUP => 0x3B
  | INT_TO_FP => 0x3C | FP_TO_INT => 0x3D
  | HALT => 0xFF
  end.

Definition all_opcodes : list VMOpcode :=
  [ PUSH; POP; ADD; SUB; MUL; DIV; MOD; DUP; SWAP;
    PRINT; PRINT_STR; INPUT_STR; INPUT;
    JMP; JZ; JNZ; JL; JG; JLE; JGE; CMP; CALL; RET;
    LOAD; STORE; LOAD_BP; STORE_BP; PUSH_BP; POP_BP; PUSH_STR;
    LOAD_INDIRECT; STORE_INDIRECT; ALLOC; FREE;
    FPUSH; FPOP; FADD; FSUB; FMUL; FDIV; FLOAD; FSTORE;
    FPRINT; FCMP; FNEG; FDUP; INT_TO_FP; FP_TO_INT;
    HALT ].

(** [static_cast<VMOpcode>(opcode_byte)]; [None] stands for a byte that
    names no enumerator (the [default] branch of every [switch]). *)
Definition decode_opcode (b : Z) : option VMOpcode :=
  find (fun op => opcode_byte op =? b) all_opcodes.

Definition opcodeToString (op : option VMOpcode) : string :=
  match op with
  | Some PUSH => "PUSH" | Some POP => "POP" | Some ADD => "ADD"
  | Some SUB => "SUB" | Some MUL => "MUL" | Some DIV => "DIV"
  | Some MOD => "MOD" | Some DUP => "DUP" | Some SWAP => "SWAP"
  | Some PRINT => "PRINT" | Some PRINT_STR => "PRINT_STR"
  | Some INPUT => "INPUT" | Some INPUT_STR => "INPUT_STR"
  | Some JMP => "JMP" | Some JZ => "JZ" | Some JNZ => "JNZ"
  | Some CMP => "CMP" | Some JL => "JL" | Some JG => "JG"
  | Some JLE => "JLE" | Some JGE => "JGE" | Some CALL => "CALL"
  | Some RET => "RET" | Some LOAD => "LOAD" | Some STORE => "STORE"
  | Some LOAD_BP => "LOAD_BP" | Some STORE_BP => "STORE_BP"
  | Some PUSH_BP => "PUSH_BP" | Some POP_BP => "POP_BP"
  | Some PUSH_STR => "PUSH_STR"
  | Some LOAD_INDIRECT => "LOAD_INDIRECT"
  | Some STORE_INDIRECT => "STORE_INDIRECT"
  | Some ALLOC => "ALLOC" | Some FREE => "FREE"
  | Some FPUSH => "FPUSH" | Some FPOP => "FPOP" | Some FADD => "FADD"
  | Some FSUB => "FSUB" | Some FMUL => "FMUL" | Some FDIV => "FDIV"
  | Some FLOAD => "FLOAD" | Some FSTORE => "FSTORE"
  | Some FPRINT => "FPRINT" | Some FCMP => "FCMP" | Some FNEG => "FNEG"
  | Some FDUP => "FDUP" | Some INT_TO_FP => "INT_TO_FP"
  | Some FP_TO_INT => "FP_TO_INT" | Some HALT => "HALT"
  | None => "UNKNOWN"
  end%string.

(** ** State *)

Module VMObject.
Record t : Type := mk { className : string; fields : gmap string Z }.
End VMObject.

Module CallFrame.
Record t : Type := mk { return_address : Z; base_pointer : Z }.
End CallFrame.

Module HeapBlock.
Record t : Type := mk { start : Z; size : Z; allocated : bool }.
End HeapBlock.

(** What [operator<<] wrote on [std::cout]: text (strings, and integers
    in decimal), or a [float] in the stream's default format. *)
Inductive out_item : Type :=
| OutStr (s : string)
| OutFloat (f : float32).

Record VirtualMachine : Type := mkVM {
  bytecode : list Z;  (* loaded code segment (bytes) *)
  instruction_pointer : Z;  (* [size_t] *)
  halted : bool;
  error_flag : bool;
  error_message : string;
  debug_mode : bool;
  stack : list Z;  (* main operand stack *)
  memory : list Z;  (* static memory for variables *)
  call_stack : list CallFrame.t;  (* function call frames *)
  base_pointer : Z;  (* [size_t] *)
  heap : list Z;  (* dynamic heap memory *)
  heap_blocks : list HeapBlock.t;  (* heap block metadata *)
  heap_start_addr : Z;  (* base address for heap *)
  string_table : list string;  (* loaded from the bytecode header *)
  objects : gmap Z VMObject.t;
  next_object_id : Z;
  cmp_flag : Z;  (* set by CMP and FCMP *)
  fpu_regs : list float32;  (* [float fpu_regs[8]] *)
  fpu_top : Z;  (* index of current ST0 *)
  float_memory : list float32;  (* separate float memory space *)
  instruction_count : Z;
  max_stack_size : Z;
  cout : list out_item;  (* items written to standard output *)
  cin : string  (* unread standard input *)
}.

(** Field updates. *)

Definition set_bytecode (v : list Z) (s : VirtualMachine) : VirtualMachine :=
  {| bytecode := v; instruction_pointer := instruction_pointer s;
     halted := halted s; error_flag := error_flag s;
     error_message := error_message s; debug_mode := debug_mode s;
     stack := stack s; memory := memory s; call_stack := call_stack s;
     base_pointer := base_pointer s; heap := heap s;
     heap_blocks := heap_blocks s; heap_start_addr := heap_start_addr s;
     string_table := string_table s; objects := objects s;
     next_object_id := next_object_id s; cmp_flag := cmp_flag s;
     fpu_regs := fpu_regs s; fpu_top := fpu_top s;
     float_memory := float_memory s;
     instruction_count := instruction_count s;
     max_stack_size := max_stack_size s; cout := cout s; cin := cin s |}.

Definition set_instruction_pointer (v : Z) (s : VirtualMachine) : VirtualMachine :=
  {| bytecode := bytecode s; instruction_pointer := v; halted := halted s;
     error_flag := error_flag s; error_message := error_message s;
     debug_mode := debug_mode s; stack := stack s; memory := memory s;
     call_stack := call_stack s; base_pointer := base_pointer s;
     heap := heap s; heap_blocks := heap_blocks s;
     heap_start_addr := heap_start_addr s; string_table := string_table s;
     objects := objects s; next_object_id := next_object_id s;
     cmp_flag := cmp_flag s; fpu_regs := fpu_regs s; fpu_top := fpu_top s;
     float_memory := float_memory s;
     instruction_count := instruction_count s;
     max_stack_size := max_stack_size s; cout := cout s; cin := cin s |}.

Definition set_halted (v : bool) (s : VirtualMachine) : VirtualMachine :=
  {| bytecode := bytecode s; instruction_pointer := instruction_pointer s;
     halted := v; error_flag := error_flag s;
     error_message := error_message s; debug_mode := debug_mode s;
     stack := stack s; memory := memory s; call_stack := call_stack s;
     base_pointer := base_pointer s; heap := heap s;
     heap_blocks := heap_blocks s; heap_start_addr := heap_start_addr s;
     string_table := string_table s; objects := objects s;
     next_object_id := next_object_id s; cmp_flag := cmp_flag s;
     fpu_regs := fpu_regs s; fpu_top := fpu_top s;
     float_memory := float_memory s;
     instruction_count := instruction_count s;
     max_stack_size := max_stack_size s; cout := cout s; cin := cin s |}.

Definition set_error_flag (v : bool) (s : VirtualMachine) : VirtualMachine :=
  {| bytecode := bytecode s; instruction_pointer := instruction_pointer s;
     halted := halted s; error_flag := v; error_message := error_message s;
     debug_mode := debug_mode s; stack := stack s; memory := memory s;
     call_stack := call_stack s; base_pointer := base_pointer s;
     heap := heap s; heap_blocks := heap_blocks s;
     heap_start_addr := heap_start_addr s; string_table := string_table s;
     objects := objects s; next_object_id := next_object_id s;
     cmp_flag := cmp_flag s; fpu_regs := fpu_regs s; fpu_top := fpu_top s;
     float_memory := float_memory s;
     instruction_count := instruction_count s;
     max_stack_size := max_stack_size s; cout := cout s; cin := cin s |}.

Definition set_error_message (v : string) (s : VirtualMachine) : VirtualMachine :=
  {| bytecode := bytecode s; instruction_pointer := instruction_pointer s;
     halted := halted s; error_flag := error_flag s; error_message := v;
     debug_mode := debug_mode s; stack := stack s; memory := memory s;
     call_stack := call_stack s; base_pointer := base_pointer s;
     heap := heap s; heap_blocks := heap_blocks s;
     heap_start_addr := heap_start_addr s; string_table := string_table s;
     objects := objects s; next_object_id := next_object_id s;
     cmp_flag := cmp_flag s; fpu_regs := fpu_regs s; fpu_top := fpu_top s;
     float_memory := float_memory s;
     instruction_count := instruction_count s;
     max_stack_size := max_stack_size s; cout := cout s; cin := cin s |}.

Definition set_debug_mode (v : bool) (s : VirtualMachine) : VirtualMachine :=
  {| bytecode := bytecode s; instruction_pointer := instruction_pointer s;
     halted := halted s; error_flag := error_flag s;
     error_message := error_message s; debug_mode := v; stack := stack s;
     memory := memory s; call_stack := call_stack s;
     base_pointer := base_pointer s; heap := heap s;
     heap_blocks := heap_blocks s; heap_start_addr := heap_start_addr s;
     string_table := string_table s; objects := objects s;
     next_object_id := next_object_id s; cmp_flag := cmp_flag s;
     fpu_regs := fpu_regs s; fpu_top := fpu_top s;
     float_memory := float_memory s;
     instruction_count := instruction_count s;
     max_stack_size := max_stack_size s; cout := cout s; cin := cin s |}.

Definition set_stack (v : list Z) (s : VirtualMachine) : VirtualMachine :=
  {| bytecode := bytecode s; instruction_pointer := instruction_pointer s;
     halted := halted s; error_flag := error_flag s;
     error_message := error_message s; debug_mode := debug_mode s;
     stack := v; memory := memory s; call_stack := call_stack s;
     base_pointer := base_pointer s; heap := heap s;
     heap_blocks := heap_blocks s; heap_start_addr := heap_start_addr s;
     string_table := string_table s; objects := objects s;
     next_object_id := next_object_id s; cmp_flag := cmp_flag s;
     fpu_regs := fpu_regs s; fpu_top := fpu_top s;
     float_memory := float_memory s;
     instruction_count := instruction_count s;
     max_stack_size := max_stack_size s; cout := cout s; cin := cin s |}.

Definition set_memory (v : list Z) (s : VirtualMachine) : VirtualMachine :=
  {| bytecode := bytecode s; instruction_pointer := instruction_pointer s;
     halted := halted s; error_flag := error_flag s;
     error_message := error_message s; debug_mode := debug_mode s;
     stack := stack s; memory := v; call_stack := call_stack s;
     base_pointer := base_pointer s; heap := heap s;
     heap_blocks := heap_blocks s; heap_start_addr := heap_start_addr s;
     string_table := string_table s; objects := objects s;
     next_object_id := next_object_id s; cmp_flag := cmp_flag s;
     fpu_regs := fpu_regs s; fpu_top := fpu_top s;
     float_memory := float_memory s;
     instruction_count := instruction_count s;
     max_stack_size := max_stack_size s; cout := cout s; cin := cin s |}.

Definition set_call_stack (v : list CallFrame.t) (s : VirtualMachine) : VirtualMachine :=
  {| bytecode := bytecode s; instruction_pointer := instruction_pointer s;
     halted := halted s; error_flag := error_flag s;
     error_message := error_message s; debug_mode := debug_mode s;
     stack := stack s; memory := memory s; call_stack := v;
     base_pointer := base_pointer s; heap := heap s;
     heap_blocks := heap_blocks s; heap_start_addr := heap_start_addr s;
     string_table := string_table s; objects := objects s;
     next_object_id := next_object_id s; cmp_flag := cmp_flag s;
     fpu_regs := fpu_regs s; fpu_top := fpu_top s;
     float_memory := float_memory s;
     instruction_count := instruction_count s;
     max_stack_size := max_stack_size s; cout := cout s; cin := cin s |}.

Definition set_base_pointer (v : Z) (s : VirtualMachine) : VirtualMachine :=
  {| bytecode := bytecode s; instruction_pointer := instruction_pointer s;
     halted := halted s; error_flag := error_flag s;
     error_message := error_message s; debug_mode := debug_mode s;
     stack := stack s; memory := memory s; call_stack := call_stack s;
     base_pointer := v; heap := heap s; heap_blocks := heap_blocks s;
     heap_start_addr := heap_start_addr s; string_table := string_table s;
     objects := objects s; next_object_id := next_object_id s;
     cmp_flag := cmp_flag s; fpu_regs := fpu_regs s; fpu_top := fpu_top s;
     float_memory := float_memory s;
     instruction_count := instruction_count s;
     max_stack_size := max_stack_size s; cout := cout s; cin := cin s |}.

Definition set_heap (v : list Z) (s : VirtualMachine) : VirtualMachine :=
  {| bytecode := bytecode s; instruction_pointer := instruction_pointer s;
     halted := halted s; error_flag := error_flag s;
     error_message := error_message s; debug_mode := debug_mode s;
     stack := stack s; memory := memory s; call_stack := call_stack s;
     base_pointer := base_pointer s; heap := v;
     heap_blocks := heap_blocks s; heap_start_addr := heap_start_addr s;
     string_table := string_table s; objects := objects s;
     next_object_id := next_object_id s; cmp_flag := cmp_flag s;
     fpu_regs := fpu_regs s; fpu_top := fpu_top s;
     float_memory := float_memory s;
     instruction_count := instruction_count s;
     max_stack_size := max_stack_size s; cout := cout s; cin := cin s |}.

Definition set_heap_blocks (v : list HeapBlock.t) (s : VirtualMachine) : VirtualMachine :=
  {| bytecode := bytecode s; instruction_pointer := instruction_pointer s;
     halted := halted s; error_flag := error_flag s;
     error_message := error_message s; debug_mode := debug_mode s;
     stack := stack s; memory := memory s; call_stack := call_stack s;
     base_pointer := base_pointer s; heap := heap s; heap_blocks := v;
     heap_start_addr := heap_start_addr s; string_table := string_table s;
     objects := objects s; next_object_id := next_object_id s;
     cmp_flag := cmp_flag s; fpu_regs := fpu_regs s; fpu_top := fpu_top s;
     float_memory := float_memory s;
     instruction_count := instruction_count s;
     max_stack_size := max_stack_size s; cout := cout s; cin := cin s |}.

Definition set_heap_start_addr (v : Z) (s : VirtualMachine) : VirtualMachine :=
  {| bytecode := bytecode s; instruction_pointer := instruction_pointer s;
     halted := halted s; error_flag := error_flag s;
     error_message := error_message s; debug_mode := debug_mode s;
     stack := stack s; memory := memory s; call_stack := call_stack s;
     base_pointer := base_pointer s; heap := heap s;
     heap_blocks := heap_blocks s; heap_start_addr := v;
     string_table := string_table s; objects := objects s;
     next_object_id := next_object_id s; cmp_flag := cmp_flag s;
     fpu_regs := fpu_regs s; fpu_top := fpu_top s;
     float_memory := float_memory s;
     instruction_count := instruction_count s;
     max_stack_size := max_stack_size s; cout := cout s; cin := cin s |}.

Definition set_string_table (v : list string) (s : VirtualMachine) : VirtualMachine :=
  {| bytecode := bytecode s; instruction_pointer := instruction_pointer s;
     halted := halted s; error_flag := error_flag s;
     error_message := error_message s; debug_mode := debug_mode s;
     stack := stack s; memory := memory s; call_stack := call_stack s;
     base_pointer := base_pointer s; heap := heap s;
     heap_blocks := heap_blocks s; heap_start_addr := heap_start_addr s;
     string_table := v; objects := objects s;
     next_object_id := next_object_id s; cmp_flag := cmp_flag s;
     fpu_regs := fpu_regs s; fpu_top := fpu_top s;
     float_memory := float_memory s;
     instruction_count := instruction_count s;
     max_stack_size := max_stack_size s; cout := cout s; cin := cin s |}.

Definition set_objects (v : gmap Z VMObject.t) (s : VirtualMachine) : VirtualMachine :=
  {| bytecode := bytecode s; instruction_pointer := instruction_pointer s;
     halted := halted s; error_flag := error_flag s;
     error_message := error_message s; debug_mode := debug_mode s;
     stack := stack s; memory := memory s; call_stack := call_stack s;
     base_pointer := base_pointer s; heap := heap s;
     heap_blocks := heap_blocks s; heap_start_addr := heap_start_addr s;
     string_table := string_table s; objects := v;
     next_object_id := next_object_id s; cmp_flag := cmp_flag s;
     fpu_regs := fpu_regs s; fpu_top := fpu_top s;
     float_memory := float_memory s;
     instruction_count := instruction_count s;
     max_stack_size := max_stack_size s; cout := cout s; cin := cin s |}.

Definition set_next_object_id (v : Z) (s : VirtualMachine) : VirtualMachine :=
  {| bytecode := bytecode s; instruction_pointer := instruction_pointer s;
     halted := halted s; error_flag := error_flag s;
     error_message := error_message s; debug_mode := debug_mode s;
     stack := stack s; memory := memory s; call_stack := call_stack s;
     base_pointer := base_pointer s; heap := heap s;
     heap_blocks := heap_blocks s; heap_start_addr := heap_start_addr s;
     string_table := string_table s; objects := objects s;
     next_object_id := v; cmp_flag := cmp_flag s; fpu_regs := fpu_regs s;
     fpu_top := fpu_top s; float_memory := float_memory s;
     instruction_count := instruction_count s;
     max_stack_size := max_stack_size s; cout := cout s; cin := cin s |}.

Definition set_cmp_flag (v : Z) (s : VirtualMachine) : VirtualMachine :=
  {| bytecode := bytecode s; instruction_pointer := instruction_pointer s;
     halted := halted s; error_flag := error_flag s;
     error_message := error_message s; debug_mode := debug_mode s;
     stack := stack s; memory := memory s; call_stack := call_stack s;
     base_pointer := base_pointer s; heap := heap s;
     heap_blocks := heap_blocks s; heap_start_addr := heap_start_addr s;
     string_table := string_table s; objects := objects s;
     next_object_id := next_object_id s; cmp_flag := v;
     fpu_regs := fpu_regs s; fpu_top := fpu_top s;
     float_memory := float_memory s;
     instruction_count := instruction_count s;
     max_stack_size := max_stack_size s; cout := cout s; cin := cin s |}.

Definition set_fpu_regs (v : list float32) (s : VirtualMachine) : VirtualMachine :=
  {| bytecode := bytecode s; instruction_pointer := instruction_pointer s;
     halted := halted s; error_flag := error_flag s;
     error_message := error_message s; debug_mode := debug_mode s;
     stack := stack s; memory := memory s; call_stack := call_stack s;
     base_pointer := base_pointer s; heap := heap s;
     heap_blocks := heap_blocks s; heap_start_addr := heap_start_addr s;
     string_table := string_table s; objects := objects s;
     next_object_id := next_object_id s; cmp_flag := cmp_flag s;
     fpu_regs := v; fpu_top := fpu_top s; float_memory := float_memory s;
     instruction_count := instruction_count s;
     max_stack_size := max_stack_size s; cout := cout s; cin := cin s |}.

Definition set_fpu_top (v : Z) (s : VirtualMachine) : VirtualMachine :=
  {| bytecode := bytecode s; instruction_pointer := instruction_pointer s;
     halted := halted s; error_flag := error_flag s;
     error_message := error_message s; debug_mode := debug_mode s;
     stack := stack s; memory := memory s; call_stack := call_stack s;
     base_pointer := base_pointer s; heap := heap s;
     heap_blocks := heap_blocks s; heap_start_addr := heap_start_addr s;
     string_table := string_table s; objects := objects s;
     next_object_id := next_object_id s; cmp_flag := cmp_flag s;
     fpu_regs := fpu_regs s; fpu_top := v; float_memory := float_memory s;
     instruction_count := instruction_count s;
     max_stack_size := max_stack_size s; cout := cout s; cin := cin s |}.

Definition set_float_memory (v : list float32) (s : VirtualMachine) : VirtualMachine :=
  {| bytecode := bytecode s; instruction_pointer := instruction_pointer s;
     halted := halted s; error_flag := error_flag s;
     error_message := error_message s; debug_mode := debug_mode s;
     stack := stack s; memory := memory s; call_stack := call_stack s;
     base_pointer := base_pointer s; heap := heap s;
     heap_blocks := heap_blocks s; heap_start_addr := heap_start_addr s;
     string_table := string_table s; objects := objects s;
     next_object_id := next_object_id s; cmp_flag := cmp_flag s;
     fpu_regs := fpu_regs s; fpu_top := fpu_top s; float_memory := v;
     instruction_count := instruction_count s;
     max_stack_size := max_stack_size s; cout := cout s; cin := cin s |}.

Definition set_instruction_count (v : Z) (s : VirtualMachine) : VirtualMachine :=
  {| bytecode := bytecode s; instruction_pointer := instruction_pointer s;
     halted := halted s; error_flag := error_flag s;
     error_message := error_message s; debug_mode := debug_mode s;
     stack := stack s; memory := memory s; call_stack := call_stack s;
     base_pointer := base_pointer s; heap := heap s;
     heap_blocks := heap_blocks s; heap_start_addr := heap_start_addr s;
     string_table := string_table s; objects := objects s;
     next_object_id := next_object_id s; cmp_flag := cmp_flag s;
     fpu_regs := fpu_regs s; fpu_top := fpu_top s;
     float_memory := float_memory s; instruction_count := v;
     max_stack_size := max_stack_size s; cout := cout s; cin := cin s |}.

Definition set_max_stack_size (v : Z) (s : VirtualMachine) : VirtualMachine :=
  {| bytecode := bytecode s; instruction_pointer := instruction_pointer s;
     halted := halted s; error_flag := error_flag s;
     error_message := error_message s; debug_mode := debug_mode s;
     stack := stack s; memory := memory s; call_stack := call_stack s;
     base_pointer := base_pointer s; heap := heap s;
     heap_blocks := heap_blocks s; heap_start_addr := heap_start_addr s;
     string_table := string_table s; objects := objects s;
     next_object_id := next_object_id s; cmp_flag := cmp_flag s;
     fpu_regs := fpu_regs s; fpu_top := fpu_top s;
     float_memory := float_memory s;
     instruction_count := instruction_count s; max_stack_size := v;
     cout := cout s; cin := cin s |}.

Definition set_cout (v : list out_item) (s : VirtualMachine) : VirtualMachine :=
  {| bytecode := bytecode s; instruction_pointer := instruction_pointer s;
     halted := halted s; error_flag := error_flag s;
     error_message := error_message s; debug_mode := debug_mode s;
     stack := stack s; memory := memory s; call_stack := call_stack s;
     base_pointer := base_pointer s; heap := heap s;
     heap_blocks := heap_blocks s; heap_start_addr := heap_start_addr s;
     string_table := string_table s; objects := objects s;
     next_object_id := next_object_id s; cmp_flag := cmp_flag s;
     fpu_regs := fpu_regs s; fpu_top := fpu_top s;
     float_memory := float_memory s;
     instruction_count := instruction_count s;
     max_stack_size := max_stack_size s; cout := v; cin := cin s |}.

Definition set_cin (v : string) (s : VirtualMachine) : VirtualMachine :=
  {| bytecode := bytecode s; instruction_pointer := instruction_pointer s;
     halted := halted s; error_flag := error_flag s;
     error_message := error_message s; debug_mode := debug_mode s;
     stack := stack s; memory := memory s; call_stack := call_stack s;
     base_pointer := base_pointer s; heap := heap s;
     heap_blocks := heap_blocks s; heap_start_addr := heap_start_addr s;
     string_table := string_table s; objects := objects s;
     next_object_id := next_object_id s; cmp_flag := cmp_flag s;
     fpu_regs := fpu_regs s; fpu_top := fpu_top s;
     float_memory := float_memory s;
     instruction_count := instruction_count s;
     max_stack_size := max_stack_size s; cout := cout s; cin := v |}.


(** ** Construction and reset *)

(** [VirtualMachine::VirtualMachine()]. *)
Definition new_vm : VirtualMachine :=
  {| bytecode := []; instruction_pointer := 0; halted := false;
     error_flag := false; error_message := ""; debug_mode := false;
     stack := []; memory := replicate 1024 0; call_stack := [];
     base_pointer := 0; heap := replicate 4096 0; heap_blocks := [];
     heap_start_addr := 10000; string_table := []; objects := ∅;
     next_object_id := 1; cmp_flag := 0;
     fpu_regs := replicate 8 Float32.zero; fpu_top := 0;
     float_memory := replicate 1024 Float32.zero;
     instruction_count := 0; max_stack_size := 0;
     cout := []; cin := "" |}.

(** [VirtualMachine::reset]. *)
Definition reset (s : VirtualMachine) : VirtualMachine :=
  let s := set_instruction_pointer 0 s in
  let s := set_halted false s in
  let s := set_error_flag false s in
  let s := set_error_message "" s in
  let s := set_stack [] s in
  let s := set_call_stack [] s in
  let s := set_objects ∅ s in
  let s := set_base_pointer 0 s in
  let s := set_next_object_id 1 s in
  let s := set_cmp_flag 0 s in
  let s := set_instruction_count 0 s in
  let s := set_max_stack_size 0 s in
  let s := set_fpu_top 0 s in
  let s := set_fpu_regs (replicate 8 Float32.zero) s in
  let s := set_float_memory
             (replicate (length (float_memory s)) Float32.zero) s in
  set_memory (replicate (length (memory s)) 0) s.

(** [VirtualMachine::loadBytecode]. *)
Definition loadBytecode (code : list Z) (s : VirtualMachine)
  : VirtualMachine :=
  reset (set_bytecode code s).

(** [VirtualMachine::setDebugMode]. *)
Definition setDebugMode (enabled : bool) (s : VirtualMachine)
  : VirtualMachine :=
  set_debug_mode enabled s.

(** ** Errors, streams *)

(** [VirtualMachine::error]. *)
Definition error (msg : string) (s : VirtualMachine) : VirtualMachine :=
  set_halted true (set_error_message msg (set_error_flag true s)).

Definition write_cout (item : out_item) (s : VirtualMachine)
  : VirtualMachine :=
  set_cout (cout s ++ [item]) s.

(** [VirtualMachine::printValue]. *)
Definition printValue (value : Z) (s : VirtualMachine) : VirtualMachine :=
  write_cout (OutStr (to_string value)) s.

(** [VirtualMachine::printString]. *)
Definition printString (str : string) (s : VirtualMachine)
  : VirtualMachine :=
  write_cout (OutStr str) s.

(** [std::isspace] in the "C" locale. *)
Definition isspace (c : ascii) : bool :=
  let n := Z.of_N (N_of_ascii c) in
  (n =? 32) || ((9 <=? n) && (n <=? 13)).

Definition isdigit (c : ascii) : bool :=
  let n := Z.of_N (N_of_ascii c) in (48 <=? n) && (n <=? 57).

Definition digit_value (c : ascii) : Z := Z.of_N (N_of_ascii c) - 48.

Fixpoint skip_spaces (input : string) : string :=
  match input with
  | String c rest => if isspace c then skip_spaces rest else input
  | EmptyString => EmptyString
  end.

(** Reads decimal digits; the result is the value accumulated from
    [acc], the number of digits read and the unread text. *)
Fixpoint read_digits (acc : Z) (count : nat) (input : string)
  : Z * nat * string :=
  match input with
  | String c rest =>
      if isdigit c then read_digits (10 * acc + digit_value c) (S count) rest
      else (acc, count, input)
  | EmptyString => (acc, count, input)
  end.

(** [std::cin.ignore(max, '\n')]: discards up to and including the next
    line feed. *)
Fixpoint ignore_line (input : string) : string :=
  match input with
  | String c rest =>
      if Ascii.eqb c "010" then rest else ignore_line rest
  | EmptyString => EmptyString
  end.

(** [std::getline]: the text before the next line feed, and the text
    after it. *)
Fixpoint getline (input : string) : string * string :=
  match input with
  | String c rest =>
      if Ascii.eqb c "010" then (EmptyString, rest)
      else let '(line, rest') := getline rest in (String c line, rest')
  | EmptyString => (EmptyString, EmptyString)
  end.

(** [std::cin >> value] for an [int32_t]: skips white space, reads an
    optional sign and decimal digits. [None] is a failed extraction (no
    digit, or a value that does not fit). *)
Definition extract_int32 (input : string) : option Z * string :=
  let input := skip_spaces input in
  let '(negative, input) :=
    match input with
    | String "-" rest => (true, rest)
    | String "+" rest => (false, rest)
    | _ => (false, input)
    end in
  let '(magnitude, count, rest) := read_digits 0 0 input in
  let value := if negative : bool then - magnitude else magnitude in
  match count with
  | O => (None, rest)
  | S _ =>
      if (INT32_MIN <=? value) && (value <=? INT32_MAX)
      then (Some value, rest) else (None, rest)
  end.

(** [VirtualMachine::inputNumber]. *)
Definition inputNumber (s : VirtualMachine) : Z * VirtualMachine :=
  let '(value, rest) := extract_int32 (cin s) in
  match value with
  | None => (0, set_cin (ignore_line rest) s)
  | Some v => (v, set_cin (ignore_line rest) s)
  end.

(** [VirtualMachine::inputString]. *)
Definition inputString (s : VirtualMachine) : string * VirtualMachine :=
  let '(str, rest) := getline (cin s) in (str, set_cin rest s).

(** ** Operand stack *)

(** [VirtualMachine::push]. *)
Definition push (value : Z) (s : VirtualMachine) : VirtualMachine :=
  set_stack (stack s ++ [value]) s.

(** [VirtualMachine::pop]. *)
Definition pop (s : VirtualMachine) : Z * VirtualMachine :=
  match last (stack s) with
  | None => (0, error "Stack underflow" s)
  | Some value => (value, set_stack (removelast (stack s)) s)
  end.

(** [VirtualMachine::peek]. *)
Definition peek (s : VirtualMachine) : Z :=
  match last (stack s) with
  | None => 0
  | Some value => value
  end.

(** ** Memory *)

(** [VirtualMachine::isHeapAddress]. *)
Definition isHeapAddress (addr : Z) (s : VirtualMachine) : bool :=
  int32 (heap_start_addr s) <=? addr.

(** [v[i] = x] on a vector. *)
Definition vset {A : Type} (i : Z) (x : A) (v : list A) : list A :=
  <[Z.to_nat i := x]> v.

(** [v[i]] on a vector of integers. *)
Definition vget (v : list Z) (i : Z) : Z := default 0 (v !! Z.to_nat i).

(** [VirtualMachine::storeMemory]. *)
Definition storeMemory (addr value : Z) (s : VirtualMachine)
  : VirtualMachine :=
  if addr <? 0 then error "Negative memory address" s
  else if isHeapAddress addr s then
    let heap_offset := size_t (addr - heap_start_addr s) in
    let s :=
      if vsize (heap s) <=? heap_offset
      then set_heap (resize (size_t (heap_offset + 1024)) 0 (heap s)) s
      else s in
    set_heap (vset heap_offset value (heap s)) s
  else
    let s :=
      if vsize (memory s) <=? size_t addr
      then set_memory (resize (size_t (addr + 1024)) 0 (memory s)) s
      else s in
    set_memory (vset addr value (memory s)) s.

(** [VirtualMachine::loadMemory]. *)
Definition loadMemory (addr : Z) (s : VirtualMachine)
  : Z * VirtualMachine :=
  if addr <? 0 then (0, error "Negative memory address" s)
  else if isHeapAddress addr s then
    let heap_offset := size_t (addr - heap_start_addr s) in
    if vsize (heap s) <=? heap_offset
    then (0, error "Heap memory access out of bounds" s)
    else (vget (heap s) heap_offset, s)
  else
    if vsize (memory s) <=? size_t addr
    then (0, error "Memory access out of bounds" s)
    else (vget (memory s) addr, s).


(** ** Heap *)

(** The first block, in list order, that is free and large enough, with
    its index (the loop of [allocateHeap]). *)
Fixpoint first_fit (size : Z) (blocks : list HeapBlock.t) (i : nat)
  : option (nat * HeapBlock.t) :=
  match blocks with
  | [] => None
  | block :: rest =>
      if negb (HeapBlock.allocated block) && (size <=? HeapBlock.size block)
      then Some (i, block)
      else first_fit size rest (S i)
  end.

(** Grows the heap vector so that it holds [end_offset] cells. *)
Definition ensure_heap (end_offset : Z) (s : VirtualMachine)
  : VirtualMachine :=
  if vsize (heap s) <? end_offset
  then set_heap (resize (size_t (end_offset + 1024)) 0 (heap s)) s
  else s.

(** [VirtualMachine::allocateHeap]. When a block is split, the source
    appends the remainder to [heap_blocks] and then writes through the
    reference to the block that was found; the model writes to the block
    at the index that was found. *)
Definition allocateHeap (size : Z) (s : VirtualMachine)
  : Z * VirtualMachine :=
  match first_fit size (heap_blocks s) 0 with
  | Some (i, block) =>
      let split := size <? HeapBlock.size block in
      let blocks :=
        if split
        then heap_blocks s ++
             [ HeapBlock.mk (size_t (HeapBlock.start block + size))
                            (size_t (HeapBlock.size block - size)) false ]
        else heap_blocks s in
      let block' :=
        HeapBlock.mk (HeapBlock.start block)
                     (if split then size else HeapBlock.size block) true in
      let s := set_heap_blocks (<[i := block']> blocks) s in
      let s :=
        ensure_heap
          (size_t (HeapBlock.start block' + HeapBlock.size block')) s in
      (int32 (heap_start_addr s + HeapBlock.start block'), s)
  | None =>
      let new_start :=
        match last (heap_blocks s) with
        | Some l => size_t (HeapBlock.start l + HeapBlock.size l)
        | None => 0
        end in
      let new_block := HeapBlock.mk new_start size true in
      let s := ensure_heap (size_t (new_start + size)) s in
      let s := set_heap_blocks (heap_blocks s ++ [new_block]) s in
      (int32 (heap_start_addr s + new_start), s)
  end.

(** The first allocated block, in list order, that starts at
    [heap_offset], with its index (the loop of [freeHeap]). *)
Fixpoint find_allocated (heap_offset : Z) (blocks : list HeapBlock.t)
  (i : nat) : option (nat * HeapBlock.t) :=
  match blocks with
  | [] => None
  | block :: rest =>
      if (HeapBlock.start block =? heap_offset) && HeapBlock.allocated block
      then Some (i, block)
      else find_allocated heap_offset rest (S i)
  end.

(** The zeroing loop of [freeHeap]: cells [start + i] for [i] from [from]
    up, [count] of them, as far as they lie in the heap vector. *)
Fixpoint zero_cells (start from : Z) (count : nat) (cells : list Z)
  : list Z :=
  match count with
  | O => cells
  | S count' =>
      let cells :=
        if size_t (start + from) <? vsize cells
        then vset (size_t (start + from)) 0 cells
        else cells in
      zero_cells start (from + 1) count' cells
  end.

(** [VirtualMachine::freeHeap]. *)
Definition freeHeap (addr : Z) (s : VirtualMachine) : VirtualMachine :=
  if negb (isHeapAddress addr s)
  then error "Attempting to free non-heap address" s
  else
    let heap_offset := size_t (addr - heap_start_addr s) in
    match find_allocated heap_offset (heap_blocks s) 0 with
    | Some (i, block) =>
        let block' :=
          HeapBlock.mk (HeapBlock.start block) (HeapBlock.size block)
                       false in
        let s := set_heap_blocks (<[i := block']> (heap_blocks s)) s in
        set_heap
          (zero_cells (HeapBlock.start block) 0
             (Z.to_nat (HeapBlock.size block)) (heap s)) s
    | None => error "Invalid heap address for free operation" s
    end.

(** ** FPU register stack *)

Definition fget (v : list float32) (i : Z) : float32 :=
  default Float32.zero (v !! Z.to_nat i).

(** [VirtualMachine::fpush]. *)
Definition fpush (value : float32) (s : VirtualMachine) : VirtualMachine :=
  let s := set_fpu_top (Z.rem (fpu_top s - 1 + 8) 8) s in
  set_fpu_regs (vset (fpu_top s) value (fpu_regs s)) s.

(** [VirtualMachine::fpop]. *)
Definition fpop (s : VirtualMachine) : float32 * VirtualMachine :=
  let val := fget (fpu_regs s) (fpu_top s) in
  let s := set_fpu_regs (vset (fpu_top s) Float32.zero (fpu_regs s)) s in
  (val, set_fpu_top (Z.rem (fpu_top s + 1) 8) s).

(** [VirtualMachine::fpeek]. *)
Definition fpeek (s : VirtualMachine) : float32 :=
  fget (fpu_regs s) (fpu_top s).

(** ** Reading the code segment *)

(** [VirtualMachine::readByte]. *)
Definition readByte (s : VirtualMachine) : Z * VirtualMachine :=
  if vsize (bytecode s) <=? instruction_pointer s
  then (0, error "Unexpected end of bytecode" s)
  else (vget (bytecode s) (instruction_pointer s),
        set_instruction_pointer (size_t (instruction_pointer s + 1)) s).

(** The four bytes at the instruction pointer, as an unsigned value. *)
Definition word_at_ip (s : VirtualMachine) : Z :=
  let ip := instruction_pointer s in
  le_value32 (vget (bytecode s) ip) (vget (bytecode s) (ip + 1))
             (vget (bytecode s) (ip + 2)) (vget (bytecode s) (ip + 3)).

(** [VirtualMachine::readInt32]. *)
Definition readInt32 (s : VirtualMachine) : Z * VirtualMachine :=
  if vsize (bytecode s) <? size_t (instruction_pointer s + 4)
  then (0, error "Unexpected end of bytecode reading int32" s)
  else (int32 (word_at_ip s),
        set_instruction_pointer (size_t (instruction_pointer s + 4)) s).

(** [VirtualMachine::readFloat32]. *)
Definition readFloat32 (s : VirtualMachine) : float32 * VirtualMachine :=
  if vsize (bytecode s) <? size_t (instruction_pointer s + 4)
  then (Float32.zero, error "Unexpected end of bytecode reading float32" s)
  else (Float32.of_bits (word_at_ip s),
        set_instruction_pointer (size_t (instruction_pointer s + 4)) s).


(** ** Instructions *)

(** [(a < b) ? -1 : (a > b) ? 1 : 0] on integers. *)
Definition compare_flag (a b : Z) : Z :=
  if a <? b then -1 else if b <? a then 1 else 0.

(** The same on floats. *)
Definition fcompare_flag (a b : float32) : Z :=
  if Float32.ltb a b then -1 else if Float32.ltb b a then 1 else 0.

(** [int64_t addr = (int64_t)base_pointer + (int64_t)offset]. *)
Definition bp_address (offset : Z) (s : VirtualMachine) : Z :=
  int64 (int64 (base_pointer s) + int64 offset).

(** A conditional jump on the comparison flag ([JL], [JG], [JLE],
    [JGE]). *)
Definition jump_on_flag (test : Z -> bool) (s : VirtualMachine)
  : VirtualMachine :=
  let '(addr, s) := readInt32 s in
  if test (cmp_flag s) then set_instruction_pointer (size_t addr) s else s.

(** An arithmetic instruction on the two topmost floats. *)
Definition fbinary (op : float32 -> float32 -> float32)
  (s : VirtualMachine) : VirtualMachine :=
  let '(b, s) := fpop s in
  let '(a, s) := fpop s in
  fpush (op a b) s.

(** The [switch] of [VirtualMachine::executeInstruction]; integer
    arithmetic wraps to 32 bits, division truncates toward zero. *)
Definition execute (op : option VMOpcode) (opcode_byte : Z)
  (s : VirtualMachine) : VirtualMachine :=
  match op with
  | Some PUSH =>
      let '(value, s) := readInt32 s in push value s
  | Some POP => snd (pop s)
  | Some ADD =>
      let '(b, s) := pop s in
      let '(a, s) := pop s in
      push (int32 (a + b)) s
  | Some SUB =>
      let '(b, s) := pop s in
      let '(a, s) := pop s in
      push (int32 (a - b)) s
  | Some MUL =>
      let '(b, s) := pop s in
      let '(a, s) := pop s in
      push (int32 (a * b)) s
  | Some DIV =>
      let '(b, s) := pop s in
      let '(a, s) := pop s in
      if b =? 0 then error "Division by zero" s
      else push (int32 (Z.quot a b)) s
  | Some MOD =>
      let '(b, s) := pop s in
      let '(a, s) := pop s in
      if b =? 0 then error "Modulo by zero" s
      else push (int32 (Z.rem a b)) s
  | Some DUP => push (peek s) s
  | Some SWAP =>
      if vsize (stack s) <? 2 then error "Stack underflow in SWAP" s
      else
        let '(a, s) := pop s in
        let '(b, s) := pop s in
        push b (push a s)
  | Some PRINT =>
      let '(value, s) := pop s in printValue value s
  | Some PRINT_STR =>
      let '(str_id, s) := pop s in
      if (0 <=? str_id) && (size_t str_id <? vsize (string_table s))
      then printString (default "" (string_table s !! Z.to_nat str_id)) s
      else error "Invalid string ID" s
  | Some INPUT =>
      let '(value, s) := inputNumber s in push value s
  | Some INPUT_STR =>
      let '(str, s) := inputString s in
      let s := set_string_table (string_table s ++ [str]) s in
      push (int32 (size_t (vsize (string_table s) - 1))) s
  | Some PUSH_STR =>
      let '(str_id, s) := readInt32 s in push str_id s
  | Some JMP =>
      let '(addr, s) := readInt32 s in
      set_instruction_pointer (size_t addr) s
  | Some JZ =>
      let '(addr, s) := readInt32 s in
      let '(value, s) := pop s in
      if value =? 0 then set_instruction_pointer (size_t addr) s else s
  | Some JNZ =>
      let '(addr, s) := readInt32 s in
      let '(value, s) := pop s in
      if negb (value =? 0) then set_instruction_pointer (size_t addr) s
      else s
  | Some CMP =>
      let '(b, s) := pop s in
      let '(a, s) := pop s in
      set_cmp_flag (compare_flag a b) s
  | Some JL => jump_on_flag (fun flag => flag <? 0) s
  | Some JG => jump_on_flag (fun flag => 0 <? flag) s
  | Some JLE => jump_on_flag (fun flag => flag <=? 0) s
  | Some JGE => jump_on_flag (fun flag => 0 <=? flag) s
  | Some CALL =>
      let '(addr, s) := readInt32 s in
      let frame := CallFrame.mk (instruction_pointer s) (base_pointer s) in
      let s := set_call_stack (call_stack s ++ [frame]) s in
      set_instruction_pointer (size_t addr) s
  | Some RET =>
      match last (call_stack s) with
      | None => error "Return without call" s
      | Some frame =>
          let s := set_call_stack (removelast (call_stack s)) s in
          let s := set_instruction_pointer (CallFrame.return_address frame) s in
          set_base_pointer (CallFrame.base_pointer frame) s
      end
  | Some PUSH_BP =>
      let s := push (int32 (base_pointer s)) s in
      set_base_pointer (vsize (stack s)) s
  | Some POP_BP =>
      if (base_pointer s =? 0) || (vsize (stack s) <? base_pointer s)
      then error "Invalid base pointer in POP_BP" s
      else set_base_pointer
             (size_t (vget (stack s) (base_pointer s - 1))) s
  | Some LOAD =>
      let '(addr, s) := readInt32 s in
      let '(value, s) := loadMemory addr s in
      push value s
  | Some STORE =>
      let '(addr, s) := pop s in
      let '(value, s) := pop s in
      storeMemory addr value s
  | Some LOAD_BP =>
      let '(offset, s) := readInt32 s in
      let addr := bp_address offset s in
      if (addr <? 0) || (vsize (stack s) <=? addr)
      then error "BP-relative load out of bounds" s
      else push (vget (stack s) addr) s
  | Some STORE_BP =>
      let '(offset, s) := readInt32 s in
      let '(value, s) := pop s in
      let addr := bp_address offset s in
      if addr <? 0
      then error "BP-relative store out of bounds (negative address)" s
      else
        let s :=
          if vsize (stack s) <=? addr
          then set_stack (resize (addr + 1) 0 (stack s)) s else s in
        set_stack (vset addr value (stack s)) s
  | Some LOAD_INDIRECT =>
      let '(addr, s) := pop s in
      let '(value, s) := loadMemory addr s in
      push value s
  | Some STORE_INDIRECT =>
      let '(addr, s) := pop s in
      let '(value, s) := pop s in
      storeMemory addr value s
  | Some ALLOC =>
      let '(size, s) := pop s in
      if size <=? 0 then error "Invalid allocation size" s
      else
        let '(addr, s) := allocateHeap (size_t size) s in
        if addr <? 0 then error "Heap allocation failed" s
        else push addr s
  | Some FREE =>
      let '(addr, s) := pop s in
      if addr <? 0 then error "Invalid address for free" s
      else freeHeap addr s
  | Some FPUSH =>
      let '(val, s) := readFloat32 s in fpush val s
  | Some FPOP => snd (fpop s)
  | Some FADD => fbinary Float32.add s
  | Some FSUB => fbinary Float32.sub s
  | Some FMUL => fbinary Float32.mul s
  | Some FDIV =>
      let '(b, s) := fpop s in
      let '(a, s) := fpop s in
      if Float32.eqb b Float32.zero then error "FPU division by zero" s
      else fpush (Float32.div a b) s
  | Some FLOAD =>
      let '(addr, s) := readInt32 s in
      if addr <? 0 then error "Negative FPU memory address" s
      else if vsize (float_memory s) <=? size_t addr
      then error "FPU memory access out of bounds" s
      else fpush (fget (float_memory s) addr) s
  | Some FSTORE =>
      let '(addr, s) := readInt32 s in
      let '(val, s) := fpop s in
      if addr <? 0 then error "Negative FPU memory address" s
      else
        let s :=
          if vsize (float_memory s) <=? size_t addr
          then set_float_memory
                 (resize (size_t (addr + 256)) Float32.zero
                    (float_memory s)) s
          else s in
        set_float_memory (vset addr val (float_memory s)) s
  | Some FPRINT =>
      let '(val, s) := fpop s in write_cout (OutFloat val) s
  | Some FCMP =>
      let '(b, s) := fpop s in
      let '(a, s) := fpop s in
      set_cmp_flag (fcompare_flag a b) s
  | Some FNEG =>
      let '(val, s) := fpop s in fpush (Float32.neg val) s
  | Some FDUP => fpush (fpeek s) s
  | Some INT_TO_FP =>
      let '(ival, s) := pop s in fpush (Float32.of_int ival) s
  | Some FP_TO_INT =>
      let '(fval, s) := fpop s in push (Float32.to_int32 fval) s
  | Some HALT => set_halted true s
  | None => error ("Unknown opcode: 0x" ++ to_string opcode_byte) s
  end.

(** [VirtualMachine::executeInstruction]. *)
Definition executeInstruction (s : VirtualMachine) : VirtualMachine :=
  let '(opcode_byte, s) := readByte s in
  let op := decode_opcode opcode_byte in
  let s :=
    if debug_mode s
    then write_cout (OutStr (opcodeToString op ++ "
")) s
    else s in
  execute op opcode_byte s.

(** [VirtualMachine::step]. *)
Definition step (s : VirtualMachine) : VirtualMachine :=
  if halted s || error_flag s then s
  else if vsize (bytecode s) <=? instruction_pointer s
  then error "Instruction pointer out of bounds" s
  else
    let s :=
      if debug_mode s
      then write_cout
             (OutStr ("[" ++ to_string (instruction_pointer s) ++ "] ")) s
      else s in
    let s := executeInstruction s in
    let s := set_instruction_count (size_t (instruction_count s + 1)) s in
    if max_stack_size s <? vsize (stack s)
    then set_max_stack_size (vsize (stack s)) s
    else s.

(** The loop [while (!halted && !error_flag) step();] of
    [VirtualMachine::run], bounded by [fuel] iterations: [Some] final
    state when the loop has ended within the bound. *)
Fixpoint run_loop (fuel : nat) (s : VirtualMachine)
  : option VirtualMachine :=
  if halted s || error_flag s then Some s
  else
    match fuel with
    | O => None
    | S fuel' => run_loop fuel' (step s)
    end.

(** [VirtualMachine::run]. *)
Definition run (fuel : nat) (s : VirtualMachine) : option VirtualMachine :=
  let s :=
    if debug_mode s
    then
      let s :=
        write_cout
          (OutStr ("Bytecode size: " ++ to_string (vsize (bytecode s))
                   ++ " bytes
")) s in
      write_cout
        (OutStr ("Starting execution from IP="
                 ++ to_string (instruction_pointer s) ++ "

")) s
    else s in
  run_loop fuel s.

(** ** Loading a bytecode file *)

(** [file.read(buffer, n)] on the unread bytes of a file: the [n] bytes
    read and the bytes left, or [None] when fewer than [n] bytes are
    left (the stream fails). *)
Definition read_bytes (n : Z) (input : list Z) : option (list Z * list Z) :=
  if vsize input <? n then None
  else Some (take (Z.to_nat n) input, drop (Z.to_nat n) input).

(** Reads a [uint32_t] (little-endian host). *)
Definition read_uint32 (input : list Z) : option (Z * list Z) :=
  match read_bytes 4 input with
  | Some ([b0; b1; b2; b3], rest) => Some (le_value32 b0 b1 b2 b3, rest)
  | _ => None
  end.

(** The characters of a string read from a file. *)
Definition string_of_bytes (bytes : list Z) : string :=
  string_of_list_ascii (map (fun b => ascii_of_N (Z.to_N b)) bytes).

(** The loop of [loadFromFile] over the string table, [count] strings
    being still to read. [fuel] bounds the iterations: each one reads
    at least four bytes. The result is the state, the unread bytes and
    whether the loop ended without a failure. *)
Fixpoint read_strings (fuel : nat) (count : Z) (input : list Z)
  (s : VirtualMachine) : VirtualMachine * list Z * bool :=
  if count <=? 0 then (s, input, true)
  else
    match fuel with
    | O => (error "Failed to read string length" s, input, false)
    | S fuel' =>
        match read_uint32 input with
        | None => (error "Failed to read string length" s, input, false)
        | Some (len, input) =>
            match read_bytes len input with
            | None => (error "Failed to read string data" s, input, false)
            | Some (bytes, input) =>
                read_strings fuel' (count - 1) input
                  (set_string_table
                     (string_table s ++ [string_of_bytes bytes]) s)
            end
        end
    end.

(** [VirtualMachine::loadFromFile] on the content of the file, [None]
    when the file cannot be opened. *)
Definition loadFromFile (filename : string) (file : option (list Z))
  (s : VirtualMachine) : bool * VirtualMachine :=
  match file with
  | None => (false, error ("Failed to open file: " ++ filename) s)
  | Some input =>
      (* Read string table size *)
      match read_uint32 input with
      | None => (false, error "Failed to read string table size" s)
      | Some (str_count, input) =>
          (* Read string table *)
          let s := set_string_table [] s in
          let '(s, input, ok) :=
            read_strings (S (length input)) str_count input s in
          if negb ok then (false, s)
          else
            (* Read bytecode size *)
            match read_uint32 input with
            | None => (false, error "Failed to read bytecode size" s)
            | Some (code_size, input) =>
                (* Read bytecode *)
                match read_bytes code_size input with
                | None =>
                    (false,
                     error "Failed to read bytecode"
                       (set_bytecode (resize code_size 0 input) s))
                | Some (code, _) => (true, reset (set_bytecode code s))
                end
            end
      end
  end.

End VM.

(* ===================================================================== *)
(** * Numeric conversions of the C++ library                              *)
(* ===================================================================== *)

Module Conv.

Definition isspace (c : ascii) : bool :=
  (char_code c =? 32) || ((9 <=? char_code c) && (char_code c <=? 13)).

Fixpoint skip_spaces (s : string) : string :=
  match s with
  | String c rest => if isspace c then skip_spaces rest else s
  | EmptyString => EmptyString
  end.

(** An optional sign: whether it is a minus, and the rest. *)
Definition read_sign (s : string) : bool * string :=
  match s with
  | String "-" rest => (true, rest)
  | String "+" rest => (false, rest)
  | _ => (false, s)
  end.

(** Decimal digits: the value accumulated from [acc], the number of
    digits read and the rest. *)
Fixpoint read_digits (acc : Z) (count : Z) (s : string) : Z * Z * string :=
  match s with
  | String c rest =>
      if is_digit c
      then read_digits (10 * acc + (char_code c - 48)) (count + 1) rest
      else (acc, count, s)
  | EmptyString => (acc, count, s)
  end.

(** [std::stoi(s)]: [None] when it throws ([std::invalid_argument]
    without a digit, [std::out_of_range] beyond [int]). *)
Definition stoi (s : string) : option Z :=
  let '(negative, s) := read_sign (skip_spaces s) in
  let '(magnitude, count, _) := read_digits 0 0 s in
  let value := if negative : bool then - magnitude else magnitude in
  if count =? 0 then None
  else if (INT32_MIN <=? value) && (value <=? INT32_MAX) then Some value
  else None.

Fixpoint lower_string (s : string) : string :=
  match s with
  | String c rest => String (to_lower c) (lower_string rest)
  | EmptyString => EmptyString
  end.

Definition hex_digit (c : ascii) : option Z :=
  if is_digit c then Some (char_code c - 48)
  else if (97 <=? char_code (to_lower c)) && (char_code (to_lower c) <=? 102)
  then Some (char_code (to_lower c) - 87)
  else None.

Fixpoint read_hex_digits (acc : Z) (count : Z) (s : string)
  : Z * Z * string :=
  match s with
  | String c rest =>
      match hex_digit c with
      | Some d => read_hex_digits (16 * acc + d) (count + 1) rest
      | None => (acc, count, s)
      end
  | EmptyString => (acc, count, s)
  end.

(** The exponent part [e[+-]digits] ([p[+-]digits] for a hexadecimal
    number), 0 when it is absent or has no digit. *)
Definition read_exponent (marker : ascii) (s : string) : Z :=
  match s with
  | String c rest =>
      if Ascii.eqb (to_lower c) marker then
        let '(negative, rest) := read_sign rest in
        let '(e, count, _) := read_digits 0 0 rest in
        if count =? 0 then 0 else if negative : bool then - e else e
      else 0
  | EmptyString => 0
  end.

(** Whether the float [f] has exactly the value [num / den]
    ([den > 0]). *)
Definition exact (f : float32) (num den : Z) : bool :=
  match f with
  | S754_zero _ => num =? 0
  | S754_finite _ m e =>
      if 0 <=? e then Zpos m * 2 ^ e * den =? num
      else Zpos m * den =? num * 2 ^ (- e)
  | _ => false
  end.

(** The binary32 number nearest to [num / den] ([num > 0], [den > 0]),
    ties to even: the quotient is computed with two guard bits and a
    sticky bit, then rounded once. *)
Definition round_ratio (num den : Z) : float32 :=
  let k := Z.max 0 (Z.log2 den - Z.log2 num + 27) in
  let q := num * 2 ^ k / den in
  let sticky := if num * 2 ^ k mod den =? 0 then 0 else 1 in
  binary_normalize Float32.prec Float32.emax (2 * q + sticky) (- k - 1)
    false.

(** The result of [strtof] on the positive value [num / den] with its
    sign; [None] when [errno] is [ERANGE] (overflow, or an inexact
    result below the normal range). *)
Definition finish (negative : bool) (num den : Z) : option float32 :=
  if num =? 0 then Some (S754_zero negative)
  else
    let r := round_ratio num den in
    let tiny :=
      match r with
      | S754_zero _ => true
      | S754_finite _ m _ => Zpos m <? 8388608
      | _ => false
      end in
    match r with
    | S754_infinity _ | S754_nan => None
    | _ =>
        if tiny && negb (exact r num den) then None
        else Some (if negative then SFopp r else r)
    end.

(** [10 ^ e] for the exponents that matter: beyond them the value
    overflows or underflows whatever the digits ([digits] of them). *)
Definition scale10 (negative : bool) (mantissa digits e : Z)
  : option float32 :=
  if mantissa =? 0 then Some (S754_zero negative)
  else if 60 <? e then None
  else if e <? - (digits + 60) then None
  else if 0 <=? e then finish negative (mantissa * 10 ^ e) 1
  else finish negative mantissa (10 ^ (- e)).

(** [std::stof(s)]: [None] when it throws ([std::invalid_argument] when
    nothing can be converted, [std::out_of_range] on [ERANGE]). *)
Definition stof (s : string) : option float32 :=
  let '(negative, s) := read_sign (skip_spaces s) in
  let l := lower_string s in
  if is_prefix "inf" l then Some (S754_infinity negative)
  else if is_prefix "nan" l then Some S754_nan
  else if is_prefix "0x" l
          && match string_drop 2 s with
             | String c rest =>
                 match hex_digit c, rest with
                 | Some _, _ => true
                 | None, String d _ =>
                     Ascii.eqb c "." && bool_decide (is_Some (hex_digit d))
                 | None, EmptyString => false
                 end
             | EmptyString => false
             end
  then
    let '(int_part, _, rest) := read_hex_digits 0 0 (string_drop 2 s) in
    let '(mantissa, frac_digits, rest) :=
      match rest with
      | String "." rest' => read_hex_digits int_part 0 rest'
      | _ => (int_part, 0, rest)
      end in
    let e := read_exponent "p" rest - 4 * frac_digits in
    if mantissa =? 0 then Some (S754_zero negative)
    else if 400 <? e then None
    else if e <? - (4 * (Z.log2 mantissa + 1) + 400) then None
    else if 0 <=? e then finish negative (mantissa * 2 ^ e) 1
    else finish negative mantissa (2 ^ (- e))
  else
    let '(int_part, int_digits, rest) := read_digits 0 0 s in
    let '(mantissa, frac_digits, rest) :=
      match rest with
      | String "." rest' => read_digits int_part 0 rest'
      | _ => (int_part, 0, rest)
      end in
    if int_digits + frac_digits =? 0 then None
    else
      scale10 negative mantissa (int_digits + frac_digits)
        (read_exponent "e" rest - frac_digits).

End Conv.

(* ===================================================================== *)
(** * The code generator ([codegen.cpp])                                  *)
(* ===================================================================== *)

Module CodeGen.

(** Modelled from the spec: [enum class Opcode] of [codegen.h], a header
    that is not among the sources. [vm.h] declares its opcodes as
    "matching codegen.h" and the specification gives one table of
    opcode bytes, so [Opcode] is the enumeration of the VM. *)
Definition Opcode : Set := VM.VMOpcode.

Inductive SymbolType : Set := VARIABLE | PARAMETER | FUNCTION.

#[global] Instance SymbolType_eq_dec : EqDecision SymbolType.
Proof. solve_decision. Defined.

(** Modelled from the spec: [struct Symbol] of [codegen.h]. The symbol
    table maps a name to a kind with, for a variable, its static address
    and the flags is-array, is-heap-allocated and is-float; for a
    parameter, its offset from the base pointer and is-array; for a
    function, its address and parameter count. *)
Module Symbol.
Record t : Type := mk {
  type : SymbolType;
  offset : Z;
  address : Z;
  param_count : Z;
  is_array : bool;
  is_heap_allocated : bool;
  is_float : bool
}.
End Symbol.

(** Modelled from the spec: a default-constructed [Symbol]; the fields
    that the source does not assign keep these values. *)
Definition default_symbol : Symbol.t :=
  Symbol.mk VARIABLE 0 0 0 false false false.

(** Modelled from the spec: the entry of the label table of
    [codegen.h], name to resolved address, defined flag and fixup
    positions. *)
Module Label.
Record t : Type := mk {
  address : Z;
  defined : bool;
  fixup_positions : list Z
}.
End Label.

Definition default_label : Label.t := Label.mk 0 false [].

Record CodeGenerator : Type := mk {
  bytecode : list Z;
  symbols : gmap string Symbol.t;
  labels : gmap string Label.t;
  string_table : list string;
  class_names : gset string;
  current_offset : Z;
  next_memory_addr : Z;
  label_counter : Z
}.

Definition set_bytecode (v : list Z) (cg : CodeGenerator) :=
  mk v (symbols cg) (labels cg) (string_table cg) (class_names cg)
     (current_offset cg) (next_memory_addr cg) (label_counter cg).
Definition set_symbols (v : gmap string Symbol.t) (cg : CodeGenerator) :=
  mk (bytecode cg) v (labels cg) (string_table cg) (class_names cg)
     (current_offset cg) (next_memory_addr cg) (label_counter cg).
Definition set_labels (v : gmap string Label.t) (cg : CodeGenerator) :=
  mk (bytecode cg) (symbols cg) v (string_table cg) (class_names cg)
     (current_offset cg) (next_memory_addr cg) (label_counter cg).
Definition set_string_table (v : list string) (cg : CodeGenerator) :=
  mk (bytecode cg) (symbols cg) (labels cg) v (class_names cg)
     (current_offset cg) (next_memory_addr cg) (label_counter cg).
Definition set_class_names (v : gset string) (cg : CodeGenerator) :=
  mk (bytecode cg) (symbols cg) (labels cg) (string_table cg) v
     (current_offset cg) (next_memory_addr cg) (label_counter cg).
Definition set_current_offset (v : Z) (cg : CodeGenerator) :=
  mk (bytecode cg) (symbols cg) (labels cg) (string_table cg)
     (class_names cg) v (next_memory_addr cg) (label_counter cg).
Definition set_next_memory_addr (v : Z) (cg : CodeGenerator) :=
  mk (bytecode cg) (symbols cg) (labels cg) (string_table cg)
     (class_names cg) (current_offset cg) v (label_counter cg).
Definition set_label_counter (v : Z) (cg : CodeGenerator) :=
  mk (bytecode cg) (symbols cg) (labels cg) (string_table cg)
     (class_names cg) (current_offset cg) (next_memory_addr cg) v.

(** [CodeGenerator::CodeGenerator]. *)
Definition new_generator : CodeGenerator := mk [] ∅ ∅ [] ∅ 0 0 0.

(** ** Emission *)

(** [CodeGenerator::emit]. *)
Definition emit (op : Opcode) (cg : CodeGenerator) : CodeGenerator :=
  set_bytecode (bytecode cg ++ [VM.opcode_byte op]) cg.

(** [CodeGenerator::emitByte]. *)
Definition emitByte (byte : Z) (cg : CodeGenerator) : CodeGenerator :=
  set_bytecode (bytecode cg ++ [byte]) cg.

(** [CodeGenerator::emitInt32]. *)
Definition emitInt32 (value : Z) (cg : CodeGenerator) : CodeGenerator :=
  set_bytecode (bytecode cg ++ le_bytes32 value) cg.

(** [CodeGenerator::emitInt32At]. *)
Definition emitInt32At (pos value : Z) (cg : CodeGenerator)
  : CodeGenerator :=
  let store (k : Z) (code : list Z) :=
    <[Z.to_nat (pos + k) := Z.land (Z.shiftr value (8 * k)) 255]> code in
  set_bytecode (store 3 (store 2 (store 1 (store 0 (bytecode cg))))) cg.

(** [CodeGenerator::emitFloat32]. *)
Definition emitFloat32 (value : float32) (cg : CodeGenerator)
  : CodeGenerator :=
  set_bytecode (bytecode cg ++ le_bytes32 (Float32.to_bits value)) cg.

(** [emit(Opcode::PUSH); emitInt32(value);] *)
Definition emit_push (value : Z) (cg : CodeGenerator) : CodeGenerator :=
  emitInt32 value (emit VM.PUSH cg).

(** [emit(op); emitInt32(operand);] *)
Definition emit_with (op : Opcode) (operand : Z) (cg : CodeGenerator)
  : CodeGenerator :=
  emitInt32 operand (emit op cg).

(** Modelled from the spec: [currentAddress()] of [codegen.h], the
    current position in the code buffer. *)
Definition currentAddress (cg : CodeGenerator) : Z := vsize (bytecode cg).

(** ** Literals and types *)

(** [CodeGenerator::isFloatLiteralStr]. *)
Definition isFloatLiteralStr (s : string) : bool :=
  match s with
  | EmptyString => false
  | String "0" (String "x" _) | String "0" (String "X" _) => false
  | _ =>
      string_contains "." s || string_contains "e" s
      || string_contains "E" s
  end.

(** [CodeGenerator::isFloatType]. *)
Definition isFloatType (typeTokens : list string) : bool :=
  existsb (fun t => String.eqb t "float" || String.eqb t "double")
    typeTokens.

(** [CodeGenerator::findSymbol]. *)
Definition findSymbol (name : string) (cg : CodeGenerator)
  : option Symbol.t :=
  symbols cg !! name.

(** [sym && sym->is_float] for the symbol bound to [name]. *)
Definition is_float_symbol (name : string) (cg : CodeGenerator) : bool :=
  match findSymbol name cg with
  | Some sym => Symbol.is_float sym
  | None => false
  end.

(** [CodeGenerator::isFloatExpr]. *)
Fixpoint isFloatExpr (cg : CodeGenerator) (node : ASTNode) : bool :=
  match node with
  | Literal value litType _ _ =>
      if bool_decide (litType = STRING) || bool_decide (litType = CHARACTER)
      then false
      else isFloatLiteralStr value
  | Identifier name _ _ => is_float_symbol name cg
  | BinaryOp op lhs rhs _ _ =>
      if String.eqb op "=" then
        match lhs with
        | Identifier name _ _ => is_float_symbol name cg
        | _ => false
        end
      else isFloatExpr cg lhs || isFloatExpr cg rhs
  | UnaryOp _ operand _ _ => isFloatExpr cg operand
  | _ => false
  end.

(** [isFloatExpr] on a pointer that may be null. *)
Definition isFloatExpr_opt (cg : CodeGenerator) (node : option ASTNode)
  : bool :=
  match node with
  | Some n => isFloatExpr cg n
  | None => false
  end.

(** ** Labels *)

(** [CodeGenerator::makeLabel]. *)
Definition makeLabel (prefix : string) (cg : CodeGenerator)
  : string * CodeGenerator :=
  (prefix +:+ "_" +:+ to_string (label_counter cg),
   set_label_counter (int32 (label_counter cg + 1)) cg).

(** [labels[label]], which inserts a default entry when there is
    none. *)
Definition label_entry (label : string) (cg : CodeGenerator) : Label.t :=
  default default_label (labels cg !! label).

(** [CodeGenerator::defineLabel]. *)
Definition defineLabel (label : string) (cg : CodeGenerator)
  : CodeGenerator :=
  let l := label_entry label cg in
  set_labels
    (<[label := Label.mk (int32 (currentAddress cg)) true
                  (Label.fixup_positions l)]> (labels cg)) cg.

(** [CodeGenerator::emitJump]. *)
Definition emitJump (op : Opcode) (label : string) (cg : CodeGenerator)
  : CodeGenerator :=
  let cg := emit op cg in
  let l := label_entry label cg in
  let cg :=
    set_labels
      (<[label := Label.mk (Label.address l) (Label.defined l)
                    (Label.fixup_positions l ++ [currentAddress cg])]>
         (labels cg)) cg in
  emitInt32 0 cg.

(** [CodeGenerator::fixupLabels]: the labels are visited in the order of
    the map; the positions patched for different labels are different,
    so the order has no effect on the code. *)
Definition fixupLabels (cg : CodeGenerator) : CodeGenerator :=
  map_fold
    (fun (name : string) (label : Label.t) (cg : CodeGenerator) =>
       if Label.defined label
       then fold_left
              (fun cg pos => emitInt32At pos (Label.address label) cg)
              (Label.fixup_positions label) cg
       else cg)
    cg (labels cg).

(** ** String table *)

(** The index of the first element of [table] equal to [str], counting
    from [i]. *)
Fixpoint index_of (str : string) (table : list string) (i : Z)
  : option Z :=
  match table with
  | [] => None
  | s :: rest =>
      if String.eqb s str then Some i else index_of str rest (i + 1)
  end.

(** [CodeGenerator::addString]. *)
Definition addString (str : string) (cg : CodeGenerator)
  : Z * CodeGenerator :=
  match index_of str (string_table cg) 0 with
  | Some i => (int32 i, cg)
  | None =>
      let cg := set_string_table (string_table cg ++ [str]) cg in
      (int32 (vsize (string_table cg) - 1), cg)
  end.

(** ** Names and symbols *)

(** [CodeGenerator::mangleFunctionName(name, param_count)]. *)
Definition mangleFunctionName (name : string) (param_count : Z) : string :=
  if param_count =? 0 then name
  else name +:+ "_P" +:+ to_string param_count.

(** [CodeGenerator::addVariable]. *)
Definition addVariable (name : string) (offset : Z)
  (is_array is_heap_allocated is_float : bool) (cg : CodeGenerator)
  : CodeGenerator :=
  let sym :=
    Symbol.mk VARIABLE offset (Symbol.address default_symbol)
      (Symbol.param_count default_symbol) is_array is_heap_allocated
      is_float in
  set_symbols (<[name := sym]> (symbols cg)) cg.

(** [CodeGenerator::addParameter]. *)
Definition addParameter (name : string) (offset : Z) (cg : CodeGenerator)
  : CodeGenerator :=
  let sym :=
    Symbol.mk PARAMETER offset (Symbol.address default_symbol)
      (Symbol.param_count default_symbol) false false false in
  set_symbols (<[name := sym]> (symbols cg)) cg.

(** [CodeGenerator::addFunction]. *)
Definition addFunction (name : string) (address param_count : Z)
  (cg : CodeGenerator) : CodeGenerator :=
  let sym :=
    Symbol.mk FUNCTION (Symbol.offset default_symbol) address param_count
      false false false in
  set_symbols (<[name := sym]> (symbols cg)) cg.

(** ** Expressions *)

(** [static_cast<int>(c)] for a [char], a signed type. *)
Definition char_to_int (c : ascii) : Z :=
  if 128 <=? char_code c then char_code c - 256 else char_code c.

(** [CodeGenerator::genLiteral]. *)
Definition genLiteral (value : string) (litType : TokenType)
  (cg : CodeGenerator) : CodeGenerator :=
  if bool_decide (litType = STRING) then
    (* Handle string literals *)
    let '(str_id, cg) := addString value cg in
    emit_with VM.PUSH_STR str_id cg
  else if bool_decide (litType = NUMBER) && isFloatLiteralStr value then
    (* Float literal - emit to FPU stack *)
    let fval := default Float32.zero (Conv.stof value) in
    emitFloat32 fval (emit VM.FPUSH cg)
  else
    (* Parse integer literal value *)
    let value' :=
      if bool_decide (litType = CHARACTER)
         || ((slength value =? 1) && negb (is_digit (char_at value 0)))
      then char_to_int (char_at value 0)
      else
        match Conv.stoi value with
        | Some v => v
        | None =>
            match Conv.stof value with
            | Some f => Float32.to_int32 f
            | None => 0
            end
        end in
    emit_push value' cg.

(** [CodeGenerator::genIdentifier]. *)
Definition genIdentifier (name : string) (cg : CodeGenerator)
  : CodeGenerator :=
  if existsb (String.eqb name) ["std"; "cout"; "cin"; "endl"; "cerr"]%string
  then emit_push 0 cg
  else
    match findSymbol name cg with
    | Some sym =>
        match Symbol.type sym with
        | VARIABLE =>
            if Symbol.is_float sym
            then emit_with VM.FLOAD (Symbol.offset sym) cg
            else if Symbol.is_heap_allocated sym
            then emit_with VM.LOAD (Symbol.offset sym) cg
            else if Symbol.is_array sym
            then emit_push (Symbol.offset sym) cg
            else emit_with VM.LOAD (Symbol.offset sym) cg
        | PARAMETER => emit_with VM.LOAD_BP (Symbol.offset sym) cg
        | FUNCTION => emit_push (Symbol.address sym) cg
        end
    | None => emit_push 0 cg
    end.

(** The base address of the array bound to [sym]; the source repeats
    these four cases wherever an element is addressed. *)
Definition push_base_address (sym : Symbol.t) (cg : CodeGenerator)
  : CodeGenerator :=
  if bool_decide (Symbol.type sym = PARAMETER) && Symbol.is_array sym
  then emit_with VM.LOAD_BP (Symbol.offset sym) cg
  else if bool_decide (Symbol.type sym = VARIABLE)
          && Symbol.is_heap_allocated sym
  then emit_with VM.LOAD (Symbol.offset sym) cg
  else emit_push (Symbol.offset sym) cg.

(** The operator of an operator node, when it is one. *)
Definition unary_new (node : ASTNode) : bool :=
  match node with
  | UnaryOp op _ _ _ => String.eqb op "new"
  | _ => false
  end.

(** The leftmost operand of a chain of binary operators. *)
Fixpoint leftmost (node : ASTNode) : ASTNode :=
  match node with
  | BinaryOp _ lhs _ _ _ => leftmost lhs
  | _ => node
  end.

Definition is_cout (node : ASTNode) : bool :=
  match node with
  | Identifier name _ _ => String.eqb name "std::cout"
  | _ => false
  end.

Definition is_binary (node : ASTNode) : bool :=
  match node with
  | BinaryOp _ _ _ _ _ => true
  | _ => false
  end.

(** [emit(isFloatExpr(node) ? FPRINT : PRINT)]. *)
Definition emit_print (node : ASTNode) (cg : CodeGenerator)
  : CodeGenerator :=
  if isFloatExpr cg node then emit VM.FPRINT cg else emit VM.PRINT cg.

(** The 0/1 result of a comparison through the flag: the conditional
    jump [jmpOp], the two labels being made by [labels]. *)
Definition flag_result (jmpOp : Opcode) (true_label end_label : string)
  (cg : CodeGenerator) : CodeGenerator :=
  let cg := emitJump jmpOp true_label cg in
  let cg := emit_push 0 cg in
  let cg := emitJump VM.JMP end_label cg in
  let cg := defineLabel true_label cg in
  let cg := emit_push 1 cg in
  defineLabel end_label cg.

(** The 0/1 result of a test for zero: [DUP ; JZ true], the value
    [if_nonzero] on the fall-through path and [if_zero] at the label. *)
Definition zero_result (if_nonzero if_zero : Z)
  (true_label end_label : string) (cg : CodeGenerator) : CodeGenerator :=
  let cg := emit VM.DUP cg in
  let cg := emitJump VM.JZ true_label cg in
  let cg := emit VM.POP cg in
  let cg := emit_push if_nonzero cg in
  let cg := emitJump VM.JMP end_label cg in
  let cg := defineLabel true_label cg in
  let cg := emit VM.POP cg in
  let cg := emit_push if_zero cg in
  defineLabel end_label cg.

Section Expressions.

(** The recursive calls of the generator of expressions. *)
Variable genExpression : ASTNode -> CodeGenerator -> CodeGenerator.

(** The address of the element [array[index]], when [array] is an
    identifier bound to a symbol: base address, index, [ADD]. [None]
    when no code is emitted. *)
Definition element_address (array index : ASTNode) (cg : CodeGenerator)
  : option CodeGenerator :=
  match array with
  | Identifier name _ _ =>
      match findSymbol name cg with
      | Some sym =>
          let cg := push_base_address sym cg in
          let cg := genExpression index cg in
          Some (emit VM.ADD cg)
      | None => None
      end
  | _ => None
  end.

(** [CodeGenerator::genArraySubscript]. *)
Definition genArraySubscript (array index : ASTNode)
  (cg : CodeGenerator) : CodeGenerator :=
  match element_address array index cg with
  | Some cg => emit VM.LOAD_INDIRECT cg
  | None => cg
  end.

(** [CodeGenerator::genUnaryOp]. *)
Definition genUnaryOp (op : string) (operand : ASTNode)
  (cg : CodeGenerator) : CodeGenerator :=
  if String.eqb op "new" then
    match operand with
    | ArraySubscript _ index _ _ =>
        emit VM.ALLOC (genExpression index cg)
    | _ => emit VM.ALLOC (emit_push 1 cg)
    end
  else if String.eqb op "delete" then
    emit_push 0 (emit VM.FREE (genExpression operand cg))
  else if String.eqb op "&" then
    match operand with
    | Identifier name _ _ =>
        match findSymbol name cg with
        | Some sym =>
            if bool_decide (Symbol.type sym = VARIABLE)
            then emit_push (Symbol.offset sym) cg
            else emit_push 0 cg
        | None => emit_push 0 cg
        end
    | ArraySubscript array index _ _ =>
        match element_address array index cg with
        | Some cg => cg
        | None => emit_push 0 cg
        end
    | _ => emit_push 0 cg
    end
  else if String.eqb op "*" then
    emit VM.LOAD_INDIRECT (genExpression operand cg)
  else
    let cg := genExpression operand cg in
    if String.eqb op "-" then
      if isFloatExpr cg operand then emit VM.FNEG cg
      else emit VM.SUB (emit VM.SWAP (emit_push 0 cg))
    else cg.

(** One argument of [println]. *)
Definition println_argument (cg : CodeGenerator) (arg : ASTNode)
  : CodeGenerator :=
  let cg := genExpression arg cg in
  match arg with
  | Literal _ litType _ _ =>
      if bool_decide (litType = STRING) then emit VM.PRINT_STR cg
      else emit_print arg cg
  | _ => emit_print arg cg
  end.

(** [CodeGenerator::genCall]. *)
Definition genCall (callee : ASTNode) (args : list ASTNode)
  (cg : CodeGenerator) : CodeGenerator :=
  match callee with
  | Identifier name _ _ =>
      if bool_decide (name ∈ class_names cg) then
        (* Skip constructor calls - just push dummy value for now *)
        emit_push 0 cg
      else if String.eqb name "print" then
        let cg :=
          fold_left (fun cg arg => emit_print arg (genExpression arg cg))
            args cg in
        emit_push 0 cg
      else if String.eqb name "println" then
        let cg := fold_left println_argument args cg in
        (* Print newline *)
        let '(str_id, cg) := addString "
" cg in
        let cg := emit_push str_id cg in
        let cg := emit VM.PRINT_STR cg in
        emit_push 0 cg
      else
        (* Regular function call - push arguments first *)
        let arg_count := int32 (vsize args) in
        let cg := fold_left (fun cg arg => genExpression arg cg) args cg in
        let mangled_name := mangleFunctionName name arg_count in
        let cg := emitJump VM.CALL mangled_name cg in
        (* Clean up arguments from stack after return *)
        Nat.iter (Z.to_nat arg_count)
          (fun cg => emit VM.POP (emit VM.SWAP cg)) cg
  | _ => cg
  end.

(** The store that ends [x = v] and [cin >> x] on the symbol of [x];
    [keep] is the [DUP] that keeps the value as the result of an
    assignment. *)
Definition store_symbol (keep : bool) (sym : Symbol.t)
  (cg : CodeGenerator) : CodeGenerator :=
  let cg := if keep then emit VM.DUP cg else cg in
  if bool_decide (Symbol.type sym = PARAMETER)
  then emit_with VM.STORE_BP (Symbol.offset sym) cg
  else emit VM.STORE (emit_push (Symbol.offset sym) cg).

(** The right operand of [<<]: a string literal is printed with
    [PRINT_STR], anything else with [FPRINT] or [PRINT]. *)
Definition print_operand (rhs : ASTNode) (cg : CodeGenerator)
  : CodeGenerator :=
  match rhs with
  | Literal value STRING _ _ =>
      let '(str_id, cg) := addString value cg in
      emit VM.PRINT_STR (emit_with VM.PUSH_STR str_id cg)
  | _ => emit_print rhs (genExpression rhs cg)
  end.

(** [CodeGenerator::genBinaryOp]. *)
Definition genBinaryOp (op : string) (lhs rhs : ASTNode)
  (cg : CodeGenerator) : CodeGenerator :=
  if String.eqb op "=" then
    (* Special handling for assignment *)
    match lhs with
    | UnaryOp uop operand _ _ =>
        if String.eqb uop "*" then
          let cg := genExpression rhs cg in
          let cg := emit VM.DUP cg in
          let cg := genExpression operand cg in
          emit VM.STORE_INDIRECT cg
        else cg
    | ArraySubscript array index _ _ =>
        let cg := genExpression rhs cg in
        let cg := emit VM.DUP cg in
        match element_address array index cg with
        | Some cg => emit VM.STORE_INDIRECT cg
        | None => cg
        end
    | Identifier name _ _ =>
        let sym := findSymbol name cg in
        let cg := genExpression rhs cg in
        match sym with
        | Some sym =>
            if Symbol.is_float sym then
              let cg :=
                if isFloatExpr cg rhs then cg
                else emit VM.INT_TO_FP cg in
              let cg := emit VM.FDUP cg in
              emit_with VM.FSTORE (Symbol.offset sym) cg
            else store_symbol true sym cg
        | None => cg
        end
    | _ => cg
    end
  else if String.eqb op "<<" then
    (* Stream output: a chain that starts at std::cout prints its
       earlier parts first *)
    let cg :=
      if is_cout (leftmost lhs) && is_binary lhs
      then genExpression lhs cg else cg in
    emit_push 0 (print_operand rhs cg)
  else if String.eqb op ">>" then
    (* Stream input: input to right side variable *)
    let cg := emit VM.INPUT cg in
    let cg :=
      match rhs with
      | Identifier name _ _ =>
          match findSymbol name cg with
          | Some sym => store_symbol false sym cg
          | None => cg
          end
      | ArraySubscript array index _ _ =>
          match element_address array index cg with
          | Some cg => emit VM.STORE_INDIRECT cg
          | None => cg
          end
      | _ => cg
      end in
    emit_push 0 cg
  else
    let is_op (v : string) := String.eqb op v in
    let leftIsFloat := isFloatExpr cg lhs in
    let rightIsFloat := isFloatExpr cg rhs in
    let eitherFloat := leftIsFloat || rightIsFloat in
    let float_operands (cg : CodeGenerator) :=
      let cg := genExpression lhs cg in
      let cg := if leftIsFloat then cg else emit VM.INT_TO_FP cg in
      let cg := genExpression rhs cg in
      if rightIsFloat then cg else emit VM.INT_TO_FP cg in
    if eitherFloat && (is_op "+" || is_op "-" || is_op "*" || is_op "/")
    then
      (* Float arithmetic *)
      let cg := float_operands cg in
      if is_op "+" then emit VM.FADD cg
      else if is_op "-" then emit VM.FSUB cg
      else if is_op "*" then emit VM.FMUL cg
      else emit VM.FDIV cg
    else if eitherFloat
            && (is_op "<" || is_op ">" || is_op "<=" || is_op ">="
                || is_op "==" || is_op "!=")
    then
      (* Float comparisons (result is int 0/1 on int stack) *)
      let cg := float_operands cg in
      let '(true_label, cg) := makeLabel "fcmp_true" cg in
      let '(end_label, cg) := makeLabel "fcmp_end" cg in
      if is_op "==" || is_op "!=" then
        let cg := emit VM.FSUB cg in
        let cg := emit VM.FP_TO_INT cg in
        zero_result (if is_op "==" then 0 else 1)
          (if is_op "==" then 1 else 0) true_label end_label cg
      else
        let cg := emit VM.FCMP cg in
        let jmpOp :=
          if is_op "<" then VM.JL
          else if is_op ">" then VM.JG
          else if is_op "<=" then VM.JLE
          else VM.JGE in
        flag_result jmpOp true_label end_label cg
    else
      let cg := genExpression lhs cg in
      let cg := genExpression rhs cg in
      let compare (jmpOp : Opcode) (cg : CodeGenerator) :=
        let cg := emit VM.CMP cg in
        let '(true_label, cg) := makeLabel "cmp_true" cg in
        let '(end_label, cg) := makeLabel "cmp_end" cg in
        flag_result jmpOp true_label end_label cg in
      let equality (if_nonzero if_zero : Z) (cg : CodeGenerator) :=
        let cg := emit VM.SUB cg in
        let '(true_label, cg) := makeLabel "cmp_true" cg in
        let '(end_label, cg) := makeLabel "cmp_end" cg in
        zero_result if_nonzero if_zero true_label end_label cg in
      if is_op "+" then emit VM.ADD cg
      else if is_op "-" then emit VM.SUB cg
      else if is_op "*" then emit VM.MUL cg
      else if is_op "/" then emit VM.DIV cg
      else if is_op "%" then emit VM.MOD cg
      else if is_op "<" then compare VM.JL cg
      else if is_op ">" then compare VM.JG cg
      else if is_op "<=" then compare VM.JLE cg
      else if is_op ">=" then compare VM.JGE cg
      else if is_op "==" then equality 0 1 cg
      else if is_op "!=" then equality 1 0 cg
      else
        (* Unknown operator - just evaluate operands and push 0 *)
        emit_push 0 (emit VM.POP (emit VM.POP cg)).

End Expressions.

(** [CodeGenerator::genExpression]. *)
Fixpoint genExpression (node : ASTNode) (cg : CodeGenerator)
  : CodeGenerator :=
  match node with
  | BinaryOp op lhs rhs _ _ => genBinaryOp genExpression op lhs rhs cg
  | UnaryOp op operand _ _ => genUnaryOp genExpression op operand cg
  | CallExpr callee args _ _ => genCall genExpression callee args cg
  | Literal value litType _ _ => genLiteral value litType cg
  | Identifier name _ _ => genIdentifier name cg
  | ArraySubscript array index _ _ =>
      genArraySubscript genExpression array index cg
  | MemberAccess _ _ _ _ _ => emit_push 0 cg
  | _ => emit_push 0 cg     (* "Unhandled expression type": dummy value *)
  end.

(** [genExpression] on a pointer that may be null. *)
Definition genExpression_opt (node : option ASTNode) (cg : CodeGenerator)
  : CodeGenerator :=
  match node with
  | Some n => genExpression n cg
  | None => cg
  end.

(** ** Statements *)

(** [CodeGenerator::genVarDecl]. *)
Definition genVarDecl (typeTokens : list string) (varName : string)
  (init : option ASTNode) (isPointer isArray : bool) (cg : CodeGenerator)
  : CodeGenerator :=
  (* Check if this is a pointer type explicitly *)
  let is_pointer := isPointer || existsb (String.eqb "*") typeTokens in
  (* Detect "new" expressions in initializer (heap allocation) *)
  let is_heap_array :=
    is_pointer && match init with Some i => unary_new i | None => false end
  in
  let is_array := isArray || is_heap_array in
  (* Detect float/double variable type (non-pointer, non-array) *)
  let is_float_var :=
    negb is_pointer && negb is_array && isFloatType typeTokens in
  (* Allocate memory address for this variable *)
  let addr := next_memory_addr cg in
  let cg := set_next_memory_addr (int32 (addr + 1)) cg in
  let cg := addVariable varName addr is_array is_heap_array is_float_var cg
  in
  match init with
  | Some i =>
      if is_float_var then
        let cg := genExpression i cg in
        let cg := if isFloatExpr cg i then cg else emit VM.INT_TO_FP cg in
        emit_with VM.FSTORE addr cg
      else
        let cg := genExpression i cg in
        emit VM.STORE (emit_push addr cg)
  | None => cg
  end.

(** The loop of [genFunctionDecl] over the parameters: parameter [i]
    (counted from 0) of [param_count] is bound to the offset
    [-(param_count - i + 1)]. *)
Fixpoint bind_parameters (param_count i : Z)
  (params : list (list string * string)) (cg : CodeGenerator)
  : CodeGenerator :=
  match params with
  | [] => cg
  | (type_tokens, name) :: rest =>
      let offset := int32 (- (param_count - i + 1)) in
      (* Check if parameter is a pointer/array *)
      let is_pointer :=
        existsb (fun token => String.eqb token "*" || String.eqb token "[]")
          type_tokens in
      let sym :=
        Symbol.mk PARAMETER offset (Symbol.address default_symbol)
          (Symbol.param_count default_symbol) is_pointer
          (Symbol.is_heap_allocated default_symbol)
          (Symbol.is_float default_symbol) in
      bind_parameters param_count (i + 1) rest
        (set_symbols (<[name := sym]> (symbols cg)) cg)
  end.

Section Statements.

(** The recursive calls of the generator of statements. *)
Variable genStatement : ASTNode -> CodeGenerator -> CodeGenerator.

Definition genStatement_opt (node : option ASTNode)
  (cg : CodeGenerator) : CodeGenerator :=
  match node with
  | Some n => genStatement n cg
  | None => cg
  end.

(** [CodeGenerator::genFunctionDecl(func, nameOverride)]. *)
Definition genFunctionDecl (params : list (list string * string))
  (body : option ASTNode) (nameOverride : string) (cg : CodeGenerator)
  : CodeGenerator :=
  (* Define function label *)
  let cg := defineLabel nameOverride cg in
  (* Function prologue *)
  let cg := emit VM.PUSH_BP cg in
  (* Parameters are on stack below saved BP *)
  let cg := bind_parameters (int32 (vsize params)) 0 params cg in
  (* Generate function body *)
  let cg := genStatement_opt body cg in
  (* Function epilogue (if no explicit return) *)
  emit VM.RET (emit VM.POP_BP cg).

(** [CodeGenerator::genBlock]. *)
Definition genBlock (statements : list ASTNode) (cg : CodeGenerator)
  : CodeGenerator :=
  fold_left (fun cg stmt => genStatement stmt cg) statements cg.

(** [CodeGenerator::genIf]. *)
Definition genIf (cond : ASTNode) (thenBranch elseBranch : option ASTNode)
  (cg : CodeGenerator) : CodeGenerator :=
  let '(else_label, cg) := makeLabel "else" cg in
  let '(end_label, cg) := makeLabel "endif" cg in
  (* Evaluate condition *)
  let cg := genExpression cond cg in
  (* Jump to else if condition is zero (false) *)
  let cg := emitJump VM.JZ else_label cg in
  (* Then branch *)
  let cg := genStatement_opt thenBranch cg in
  let cg := emitJump VM.JMP end_label cg in
  (* Else branch *)
  let cg := defineLabel else_label cg in
  let cg := genStatement_opt elseBranch cg in
  defineLabel end_label cg.

(** [CodeGenerator::genWhile]. *)
Definition genWhile (cond : ASTNode) (body : option ASTNode)
  (cg : CodeGenerator) : CodeGenerator :=
  let '(loop_start, cg) := makeLabel "while_start" cg in
  let '(loop_end, cg) := makeLabel "while_end" cg in
  let cg := defineLabel loop_start cg in
  (* Evaluate condition *)
  let cg := genExpression cond cg in
  (* Exit loop if condition is false *)
  let cg := emitJump VM.JZ loop_end cg in
  (* Loop body *)
  let cg := genStatement_opt body cg in
  (* Jump back to start *)
  let cg := emitJump VM.JMP loop_start cg in
  defineLabel loop_end cg.

(** [emit(isFloatExpr(e) ? FPOP : POP)]: discards the value of [e]. *)
Definition emit_discard (e : ASTNode) (cg : CodeGenerator)
  : CodeGenerator :=
  if isFloatExpr cg e then emit VM.FPOP cg else emit VM.POP cg.

(** [CodeGenerator::genFor]. *)
Definition genFor (init cond post body : option ASTNode)
  (cg : CodeGenerator) : CodeGenerator :=
  let '(loop_start, cg) := makeLabel "for_start" cg in
  let '(loop_end, cg) := makeLabel "for_end" cg in
  (* Initialization *)
  let cg := genStatement_opt init cg in
  let cg := defineLabel loop_start cg in
  (* Condition *)
  let cg :=
    match cond with
    | Some c => emitJump VM.JZ loop_end (genExpression c cg)
    | None => cg
    end in
  (* Body *)
  let cg := genStatement_opt body cg in
  (* Post-expression *)
  let cg :=
    match post with
    | Some p => emit_discard p (genExpression p cg)
    | None => cg
    end in
  let cg := emitJump VM.JMP loop_start cg in
  defineLabel loop_end cg.

(** [CodeGenerator::genReturn]. *)
Definition genReturn (expr : option ASTNode) (cg : CodeGenerator)
  : CodeGenerator :=
  let cg := genExpression_opt expr cg in
  emit VM.RET (emit VM.POP_BP cg).

End Statements.

(** [CodeGenerator::genStatement]; the declarations of classes,
    structs, namespaces and templates, access specifiers and directives
    generate no code, no more than the other kinds of nodes. *)
Fixpoint genStatement (node : ASTNode) (cg : CodeGenerator)
  : CodeGenerator :=
  match node with
  | VarDecl typeTokens varName init isPointer _ isArray _ _ =>
      genVarDecl typeTokens varName init isPointer isArray cg
  | FunctionDecl _ funcName params body _ _ _ _ =>
      (* Use simple name mangling (param count only) *)
      genFunctionDecl genStatement params body
        (mangleFunctionName funcName (int32 (vsize params))) cg
  | BlockStmt statements _ _ => genBlock genStatement statements cg
  | IfStmt cond thenBranch elseBranch _ _ =>
      genIf genStatement cond thenBranch elseBranch cg
  | WhileStmt cond body _ _ => genWhile genStatement cond body cg
  | ForStmt init cond post body _ _ =>
      genFor genStatement init cond post body cg
  | ReturnStmt expr _ _ => genReturn expr cg
  | ExprStmt expr _ _ =>
      match expr with
      | Some e => emit_discard e (genExpression e cg)
      | None => cg
      end
  | _ => cg
  end.

(** The first loop of [genProgram]: the names of classes and structs. *)
Definition collect_class_names (prog : Program) (cg : CodeGenerator)
  : CodeGenerator :=
  fold_left
    (fun cg node =>
       match node with
       | ClassDecl className _ _ _ _ =>
           set_class_names ({[className]} ∪ class_names cg) cg
       | StructDecl structName _ _ _ =>
           set_class_names ({[structName]} ∪ class_names cg) cg
       | _ => cg
       end)
    (top prog) cg.

(** [CodeGenerator::genProgram]. *)
Definition genProgram (prog : Program) (cg : CodeGenerator)
  : CodeGenerator :=
  (* Emit entry point that calls main and halts *)
  let cg := emitJump VM.CALL "main" cg in
  let cg := emit VM.HALT cg in
  (* Collect class/struct names for constructor detection *)
  let cg := collect_class_names prog cg in
  (* Generate code for all top-level declarations and class member
     functions *)
  fold_left
    (fun cg node =>
       match node with
       | ClassDecl className members _ _ _ =>
           fold_left
             (fun cg m =>
                match m with
                | FunctionDecl _ funcName params body _ _ _ _ =>
                    genFunctionDecl genStatement params body
                      (className +:+ "::" +:+ funcName) cg
                | _ => cg
                end)
             members cg
       | _ => genStatement node cg
       end)
    (top prog) cg.

(** [CodeGenerator::generate]. *)
Definition generate (program : Program) (cg : CodeGenerator)
  : list Z * CodeGenerator :=
  let cg := set_bytecode [] cg in
  let cg := set_symbols ∅ cg in
  let cg := set_current_offset 0 cg in
  let cg := set_next_memory_addr 0 cg in
  let cg := set_label_counter 0 cg in
  let cg := genProgram program cg in
  let cg := fixupLabels cg in
  (bytecode cg, cg).

(** ** Saving a bytecode file *)

(** The bytes of a string. *)
Definition bytes_of_string (str : string) : list Z :=
  map char_code (list_ascii_of_string str).

(** A [uint32_t] written to the file (little-endian host). *)
Definition write_uint32 (value : Z) : list Z := le_bytes32 (uint32 value).

(** One entry of the string table: its length, then its bytes. *)
Definition string_record (str : string) : list Z :=
  let len := uint32 (slength str) in
  write_uint32 len ++ take (Z.to_nat len) (bytes_of_string str).

(** [CodeGenerator::saveToFile]: the bytes written to a file that could
    be opened. *)
Definition saveToFile (cg : CodeGenerator) : list Z :=
  (* Write string table size *)
  write_uint32 (vsize (string_table cg))
  (* Write each string (length + data) *)
  ++ concat (map string_record (string_table cg))
  (* Write bytecode size *)
  ++ write_uint32 (vsize (bytecode cg))
  (* Write bytecode *)
  ++ bytecode cg.

End CodeGen.

(* ===================================================================== *)
(** * The pipeline                                                        *)
(* ===================================================================== *)

(** Compiling a source text: lexing, parsing, code generation and saving;
    the content of the bytecode file, or [None] when the parser fails. *)
Definition compile (source : string) : option (list Z) :=
  match parse (lex source) with
  | Parser.Ok program _ =>
      let '(_, cg) := CodeGen.generate program CodeGen.new_generator in
      Some (CodeGen.saveToFile cg)
  | _ => None
  end.

(** The VM driver on a bytecode file and a standard input: load, then run
    for at most [fuel] instructions. [None] when the file cannot be loaded
    or the run does not end within [fuel] steps. *)
Definition execute_file (file : list Z) (input : string) (fuel : nat)
  : option VM.VirtualMachine :=
  match VM.loadFromFile "a.out" (Some file) (VM.set_cin input VM.new_vm) with
  | (true, vm) => VM.run fuel (VM.setDebugMode false vm)
  | (false, _) => None
  end.

(* ===================================================================== *)
(** * Vocabulary of the properties                                        *)
(* ===================================================================== *)

(** The bytes [bytes] stand in [code] from the offset [pos] on. *)
Definition code_at (code : list Z) (pos : Z) (bytes : list Z) : Prop :=
  0 <= pos /\ take (length bytes) (drop (Z.to_nat pos) code) = bytes.

(** A machine that [run] keeps stepping. *)
Definition running (s : VM.VirtualMachine) : Prop :=
  VM.halted s = false /\ VM.error_flag s = false.

(** The state in which [step] hands the opcode byte [b] to the [switch]:
    the instruction pointer is past the opcode, and in debug mode the
    trace of the instruction is written. *)
Definition fetched (b : Z) (s : VM.VirtualMachine) : VM.VirtualMachine :=
  let s :=
    if VM.debug_mode s
    then VM.write_cout
           (VM.OutStr ("[" ++ to_string (VM.instruction_pointer s) ++ "] ")) s
    else s in
  let s :=
    VM.set_instruction_pointer (size_t (VM.instruction_pointer s + 1)) s in
  if VM.debug_mode s
  then VM.write_cout
         (VM.OutStr (VM.opcodeToString (VM.decode_opcode b) ++ "
")) s
  else s.

(** The end of [step]: the counters of the statistics. *)
Definition counted (s : VM.VirtualMachine) : VM.VirtualMachine :=
  let s :=
    VM.set_instruction_count (size_t (VM.instruction_count s + 1)) s in
  if VM.max_stack_size s <? vsize (VM.stack s)
  then VM.set_max_stack_size (vsize (VM.stack s)) s
  else s.

(** Whether a conditional jump on the comparison flag is taken. *)
Definition jump_taken (op : VM.VMOpcode) (flag : Z) : bool :=
  match op with
  | VM.JL => flag <? 0
  | VM.JG => 0 <? flag
  | VM.JLE => flag <=? 0
  | VM.JGE => 0 <=? flag
  | _ => false
  end.

Definition flag_jump (op : VM.VMOpcode) : Prop :=
  op = VM.JL \/ op = VM.JG \/ op = VM.JLE \/ op = VM.JGE.

Module Heap.

(** The cell [x] lies in the block [b]. *)
Definition contains (b : VM.HeapBlock.t) (x : Z) : Prop :=
  VM.HeapBlock.start b <= x < VM.HeapBlock.start b + VM.HeapBlock.size b.

(** The greatest end of a block. *)
Definition max_end (blocks : list VM.HeapBlock.t) : Z :=
  fold_right
    (fun b m => Z.max (VM.HeapBlock.start b + VM.HeapBlock.size b) m)
    0 blocks.

(** No two blocks of the list share a cell. *)
Definition disjoint (blocks : list VM.HeapBlock.t) : Prop :=
  forall (i j : nat) (b1 b2 : VM.HeapBlock.t) (x : Z),
    blocks !! i = Some b1 -> blocks !! j = Some b2 ->
    contains b1 x -> contains b2 x -> i = j.

(** Every cell of [0, max_end) lies in a block. *)
Definition covering (blocks : list VM.HeapBlock.t) : Prop :=
  forall x : Z,
    0 <= x < max_end blocks ->
    exists (i : nat) (b : VM.HeapBlock.t),
      blocks !! i = Some b /\ contains b x.

(** The blocks partition the range [0, max_end). *)
Definition partition (blocks : list VM.HeapBlock.t) : Prop :=
  covering blocks /\ disjoint blocks.

(** A cell belongs to at most one allocated block. *)
Definition single_owner (blocks : list VM.HeapBlock.t) : Prop :=
  forall (i j : nat) (b1 b2 : VM.HeapBlock.t) (x : Z),
    blocks !! i = Some b1 -> blocks !! j = Some b2 ->
    VM.HeapBlock.allocated b1 = true -> VM.HeapBlock.allocated b2 = true ->
    contains b1 x -> contains b2 x -> i = j.

(** A sequence of allocations: the addresses returned and the final
    state. [ALLOC] passes the size it popped, converted to [size_t]. *)
Fixpoint alloc_all (sizes : list Z) (s : VM.VirtualMachine)
  : list Z * VM.VirtualMachine :=
  match sizes with
  | [] => ([], s)
  | size :: rest =>
      let '(addr, s) := VM.allocateHeap (size_t size) s in
      let '(addrs, s) := alloc_all rest s in
      (addr :: addrs, s)
  end.

(** A sequence of releases. *)
Definition free_all (addrs : list Z) (s : VM.VirtualMachine)
  : VM.VirtualMachine :=
  fold_left (fun s addr => VM.freeHeap addr s) addrs s.

(** The blocks follow one another from [from] on, each of positive
    size. *)
Fixpoint chain (from : Z) (blocks : list VM.HeapBlock.t) : Prop :=
  match blocks with
  | [] => True
  | b :: rest =>
      VM.HeapBlock.start b = from /\ 0 < VM.HeapBlock.size b
      /\ chain (from + VM.HeapBlock.size b) rest
  end.

End Heap.

(** The string table after [add_string] was called on each element of
    [strs] in turn. *)
Definition add_strings (strs : list string) (cg : CodeGen.CodeGenerator)
  : CodeGen.CodeGenerator :=
  fold_left (fun cg str => snd (CodeGen.addString str cg)) strs cg.

(** The source program of the end-to-end scenario 4. *)
Definition add_program : string :=
  "int add(int a,int b){ return a+b; } int main(){ std::cout<<add(2,3); return 0; }".

(** Parameter addressing, the parameters being numbered from [base]: in
    a machine that is about to execute [CALL target] with the argument
    values [args] on top of its stack, [target] holding the prologue
    [PUSH_BP] followed by [LOAD_BP -(n - i + 1)] for the parameter number
    [i] of [n], the three instructions leave the value of that parameter
    on top of the stack, above the arguments and the saved base
    pointer. *)
Definition parameter_addressing (base : Z) : Prop :=
  forall (s : VM.VirtualMachine) (below args : list Z) (target i v : Z),
    running s ->
    vsize (VM.bytecode s) < 2 ^ 31 ->
    code_at (VM.bytecode s) (VM.instruction_pointer s)
      (VM.opcode_byte VM.CALL :: le_bytes32 target) ->
    code_at (VM.bytecode s) target
      (VM.opcode_byte VM.PUSH_BP :: VM.opcode_byte VM.LOAD_BP
       :: le_bytes32 (- (vsize args - i + 1))) ->
    VM.stack s = below ++ args ->
    vsize (VM.stack s) < 2 ^ 31 ->
    base <= i < base + vsize args ->
    args !! Z.to_nat (i - base) = Some v ->
    running (VM.step (VM.step (VM.step s)))
    /\ VM.stack (VM.step (VM.step (VM.step s)))
       = below ++ args ++ [int32 (VM.base_pointer s); v].

(** The symbol that [genFunctionDecl] binds to the parameter [name]. *)
Definition bound_offset (params : list (list string * string))
  (name : string) (cg : CodeGen.CodeGenerator) : option Z :=
  match
    CodeGen.findSymbol name
      (CodeGen.bind_parameters (int32 (vsize params)) 0 params cg)
  with
  | Some sym =>
      if bool_decide (CodeGen.Symbol.type sym = CodeGen.PARAMETER)
      then Some (CodeGen.Symbol.offset sym) else None
  | None => None
  end.

(** The machine of the examples of parameter addressing: [CALL 5 ;
    PUSH_BP ; LOAD_BP offset ; HALT] with [args] on the stack. *)
Definition call_example (args : list Z) (offset : Z) : VM.VirtualMachine :=
  VM.set_stack args
    (VM.loadBytecode
       (VM.opcode_byte VM.CALL :: le_bytes32 5
        ++ VM.opcode_byte VM.PUSH_BP :: VM.opcode_byte VM.LOAD_BP
        :: le_bytes32 offset ++ [VM.opcode_byte VM.HALT])
       VM.new_vm).

(** A string literal of the source language: [value] between quotes. *)
Definition quoted (value : string) : string :=
  String "034" value +:+ String "034" EmptyString.

(** A program that prints a string literal with [print]. *)
Definition print_program : string :=
  "int main(){ print(" +:+ quoted "hi" +:+ "); return 0; }".

(** The call [print(value)] on a string literal, as the parser builds it
    at the position [line], [column]. *)
Definition print_call (value : string) (line column : Z) : ASTNode :=
  CallExpr (Identifier "print" line column)
    [Literal value STRING line (column + 6)] line (column + 5).

(** Two lines of source text. *)
Definition two_lines (first second : string) : string :=
  first +:+ String "010" second.

(** A program for the machine that stores 42 in a heap block of one
    cell: [PUSH 42 ; PUSH 1 ; ALLOC ; STORE_INDIRECT ; HALT]. *)
Definition heap_example : VM.VirtualMachine :=
  VM.loadBytecode
    ([VM.opcode_byte VM.PUSH] ++ le_bytes32 42
     ++ [VM.opcode_byte VM.PUSH] ++ le_bytes32 1
     ++ [VM.opcode_byte VM.ALLOC; VM.opcode_byte VM.STORE_INDIRECT;
         VM.opcode_byte VM.HALT])
    VM.new_vm.

(** The number of cells that a sequence of allocations asks for. *)
Definition sum_sizes (sizes : list Z) : Z := fold_right Z.add 0 sizes.

(** The sizes of the blocks of a list. *)
Definition block_sizes (blocks : list VM.HeapBlock.t) : list Z :=
  map VM.HeapBlock.size blocks.

(** The block list during a sequence of allocations that started on an
    empty list: a chain from 0 of allocated blocks. *)
Definition all_allocated (blocks : list VM.HeapBlock.t) : Prop :=
  Heap.chain 0 blocks
  /\ Forall (fun b => VM.HeapBlock.allocated b = true) blocks.

(** How many times [str] occurs in a string table. *)
Definition occurrences (str : string) (table : list string) : nat :=
  count_occ string_dec table str.

(** The string table of the file that [saveToFile] writes, as
    [loadFromFile] reads it; [None] when the file does not load. *)
Definition on_disk_table (cg : CodeGen.CodeGenerator)
  : option (list string) :=
  match
    VM.loadFromFile "a.out" (Some (CodeGen.saveToFile cg)) VM.new_vm
  with
  | (true, vm) => Some (VM.string_table vm)
  | (false, _) => None
  end.
(* ===================================================================== *)
(** * More of the machine and of the generator                            *)
(* ===================================================================== *)

From Stdlib Require Import DecimalZ DecimalPos.

(** ** The object table ([vm.cpp]) *)

(** [VirtualMachine::createObject]: [next_object_id++] is the identifier
    of the new object, which has no field. *)
Definition createObject (className : string) (s : VM.VirtualMachine)
  : Z * VM.VirtualMachine :=
  let id := VM.next_object_id s in
  let s := VM.set_next_object_id (int32 (id + 1)) s in
  (id,
   VM.set_objects (<[id := VM.VMObject.mk className ∅]> (VM.objects s)) s).

(** [VirtualMachine::setField]. *)
Definition setField (objId : Z) (field : string) (value : Z)
  (s : VM.VirtualMachine) : VM.VirtualMachine :=
  match VM.objects s !! objId with
  | None => VM.error "Invalid object ID" s
  | Some obj =>
      let obj' :=
        VM.VMObject.mk (VM.VMObject.className obj)
          (<[field := value]> (VM.VMObject.fields obj)) in
      VM.set_objects (<[objId := obj']> (VM.objects s)) s
  end.

(** [VirtualMachine::getField]; a field that was never set reads as
    0. *)
Definition getField (objId : Z) (field : string) (s : VM.VirtualMachine)
  : Z * VM.VirtualMachine :=
  match VM.objects s !! objId with
  | None => (0, VM.error "Invalid object ID" s)
  | Some obj => (default 0 (VM.VMObject.fields obj !! field), s)
  end.

(** A machine in the error state that [error] leaves: the flag, the
    message, and the machine halted. *)
Definition failed_with (msg : string) (s : VM.VirtualMachine) : Prop :=
  VM.error_flag s = true /\ VM.halted s = true
  /\ VM.error_message s = msg.

(** An error flag that is set comes with a halted machine. *)
Definition stops_on_error (s : VM.VirtualMachine) : Prop :=
  VM.error_flag s = true -> VM.halted s = true.

(** The operation of an arithmetic instruction on [a] and [b], the
    operand pushed first and the one pushed last. *)
Definition arithmetic (op : VM.VMOpcode) : option (Z -> Z -> Z) :=
  match op with
  | VM.ADD => Some Z.add
  | VM.SUB => Some Z.sub
  | VM.MUL => Some Z.mul
  | _ => None
  end.

(** The same for the two division instructions, with the message of the
    error on a zero divisor. *)
Definition division (op : VM.VMOpcode) : option ((Z -> Z -> Z) * string) :=
  match op with
  | VM.DIV => Some (Z.quot, "Division by zero"%string)
  | VM.MOD => Some (Z.rem, "Modulo by zero"%string)
  | _ => None
  end.



(** A sequence of [fpush]. *)
Definition fpush_all (values : list float32) (s : VM.VirtualMachine)
  : VM.VirtualMachine :=
  fold_left (fun s v => VM.fpush v s) values s.

(** Whether [JZ] and [JNZ] jump on the value they pop. *)
Definition jumps_on (op : VM.VMOpcode) (value : Z) : option bool :=
  match op with
  | VM.JZ => Some (value =? 0)
  | VM.JNZ => Some (negb (value =? 0))
  | _ => None
  end.

(** A machine that executes the code of the generator [cg] and has
    reached the end of what [cg0] had emitted. *)
Definition executes_from (cg0 cg : CodeGen.CodeGenerator)
  (s : VM.VirtualMachine) : Prop :=
  running s
  /\ VM.bytecode s = CodeGen.bytecode cg
  /\ VM.instruction_pointer s = CodeGen.currentAddress cg0.

(** A generator that differs from [cg] by code emitted after it, the
    labels being those of [cg]. *)
Definition emitted_after (cg : CodeGen.CodeGenerator) (body : list Z)
  (cg' : CodeGen.CodeGenerator) : Prop :=
  CodeGen.bytecode cg' = CodeGen.bytecode cg ++ body
  /\ CodeGen.labels cg' = CodeGen.labels cg.

(** A token of the source text: neither the end marker nor the token of
    a symbol that the lexer does not know. *)
Definition proper_token (t : Token.t) : Prop :=
  Token.type t <> END_OF_FILE /\ Token.type t <> UNKNOWN.

(** A list of tokens as [Lexer::tokenize] builds it: the last token is
    the end marker. *)
Definition ends_with_end_marker (toks : list Token.t) : Prop :=
  exists t : Token.t, last toks = Some t /\ Token.type t = END_OF_FILE.

(** The cursor of the parser is the index of a token. *)
Definition cursor_in_range (ps : Parser.Parser) : Prop :=
  0 <= Parser.idx ps < vsize (Parser.tokens ps).

(** The token under the cursor, [tokens[idx]]. *)
Definition current_token (ps : Parser.Parser) : Token.t :=
  Parser.token_at ps (Parser.idx ps).

(* ===================================================================== *)
(** * Properties                                                          *)
(* ===================================================================== *)

(** ** Machine integers *)

Lemma int32_id z : is_int32 z -> int32 z = z.
Proof.
  unfold is_int32, INT32_MIN, INT32_MAX, int32, wrap_signed. intros H.
  change (2 ^ (32 - 1)) with 2147483648. change (2 ^ 32) with 4294967296.
  change (2 ^ 31) with 2147483648 in H.
  rewrite Z.mod_small by lia. lia.
Qed.

Lemma int64_id z : - 2 ^ 63 <= z < 2 ^ 63 -> int64 z = z.
Proof.
  unfold int64, wrap_signed. intros H.
  change (2 ^ (64 - 1)) with 9223372036854775808.
  change (2 ^ 64) with 18446744073709551616.
  change (2 ^ 63) with 9223372036854775808 in H.
  rewrite Z.mod_small by lia. lia.
Qed.

Lemma size_t_id z : 0 <= z < 2 ^ 64 -> size_t z = z.
Proof. intros H. unfold size_t, wrap_unsigned. apply Z.mod_small. exact H. Qed.

Lemma uint32_id z : 0 <= z < 2 ^ 32 -> uint32 z = z.
Proof. intros H. unfold uint32, wrap_unsigned. apply Z.mod_small. exact H. Qed.

(** The four bytes of a 32-bit value hold that value modulo [2 ^ 32]. *)
Lemma le_bytes32_value v :
  exists b0 b1 b2 b3,
    le_bytes32 v = [b0; b1; b2; b3]
    /\ le_value32 b0 b1 b2 b3 = v mod 2 ^ 32.
Proof.
  do 4 eexists. split; [reflexivity|].
  unfold le_value32.
  change 255 with (Z.ones 8). rewrite !Z.land_ones by lia.
  rewrite !Z.shiftr_div_pow2 by lia.
  change (2 ^ 8) with 256. change (2 ^ 16) with 65536.
  change (2 ^ 24) with 16777216. change (2 ^ 32) with 4294967296.
  pose proof (Z.div_mod v 256 ltac:(lia)).
  pose proof (Z.div_mod (v / 256) 256 ltac:(lia)).
  pose proof (Z.div_mod (v / 65536) 256 ltac:(lia)).
  pose proof (Z.div_mod (v / 16777216) 256 ltac:(lia)).
  assert (v / 65536 = v / 256 / 256)
    by (rewrite Z.div_div by lia; reflexivity).
  assert (v / 16777216 = v / 65536 / 256)
    by (rewrite Z.div_div by lia; reflexivity).
  assert (v / 16777216 / 256 = v / 4294967296)
    by (rewrite Z.div_div by lia; reflexivity).
  pose proof (Z.div_mod v 4294967296 ltac:(lia)).
  lia.
Qed.

Lemma int32_mod z : is_int32 z -> int32 (z mod 2 ^ 32) = z.
Proof.
  unfold is_int32, INT32_MIN, INT32_MAX, int32, wrap_signed. intros H.
  change (2 ^ (32 - 1)) with 2147483648. change (2 ^ 32) with 4294967296.
  change (2 ^ 31) with 2147483648 in H.
  destruct (Z_lt_le_dec z 0).
  - replace (z mod 4294967296) with (z + 4294967296).
    2:{ apply Z.mod_unique with (-1); lia. }
    replace ((z + 4294967296 + 2147483648) mod 4294967296)
      with (z + 2147483648).
    2:{ apply Z.mod_unique with 1; lia. }
    lia.
  - rewrite (Z.mod_small z) by lia. rewrite Z.mod_small by lia. lia.
Qed.

Lemma compare_flag_sgn a b : VM.compare_flag a b = Z.sgn (a - b).
Proof.
  unfold VM.compare_flag.
  destruct (Z.ltb_spec a b); [lia|].
  destruct (Z.ltb_spec b a); lia.
Qed.

(** ** Code layout *)

Lemma code_at_lookup code pos bytes (k : nat) b :
  code_at code pos bytes -> bytes !! k = Some b ->
  code !! Z.to_nat (pos + Z.of_nat k) = Some b.
Proof.
  intros [Hpos Ht] Hk. rewrite <- Ht in Hk.
  apply lookup_take_Some in Hk as [Hk _].
  rewrite lookup_drop in Hk.
  replace (Z.to_nat (pos + Z.of_nat k)) with (Z.to_nat pos + k)%nat by lia.
  exact Hk.
Qed.

Lemma code_at_head code pos b bytes :
  code_at code pos (b :: bytes) -> code !! Z.to_nat pos = Some b.
Proof.
  intros H. pose proof (code_at_lookup code pos (b :: bytes) 0 b H eq_refl) as E.
  rewrite Z.add_0_r in E. exact E.
Qed.

Lemma code_at_tail code pos b bytes :
  code_at code pos (b :: bytes) -> code_at code (pos + 1) bytes.
Proof.
  intros [Hpos Hc]. split; [lia|].
  replace (Z.to_nat (pos + 1)) with (Z.to_nat pos + 1)%nat by lia.
  rewrite <- drop_drop.
  destruct (drop (Z.to_nat pos) code) as [|x l]; [discriminate|].
  cbn [length take drop] in Hc |- *. rewrite drop_0.
  injection Hc as _ Hc. exact Hc.
Qed.

Lemma code_at_bound code pos bytes :
  code_at code pos bytes -> bytes <> [] ->
  pos + vsize bytes <= vsize code.
Proof.
  intros [Hpos Ht] Hne. unfold vsize.
  assert (0 < length bytes)%nat by (destruct bytes; [congruence|cbn; lia]).
  assert (length (take (length bytes) (drop (Z.to_nat pos) code))
          = length bytes) as E by (rewrite Ht; reflexivity).
  rewrite length_take, length_drop in E. lia.
Qed.

(** ** One step of the machine *)

Ltac vm_fields :=
  intros;
  repeat match goal with s : VM.VirtualMachine |- _ => destruct s end;
  unfold fetched, counted, VM.write_cout, VM.error, VM.push;
  cbn -[size_t to_string Z.add Z.ltb Z.leb vsize String.append];
  repeat match goal with
         | |- context [if ?b then _ else _] => destruct b
         end;
  reflexivity.

(** A running machine whose instruction pointer is on the byte [b]
    fetches it, executes the instruction and updates the counters. *)
Lemma step_running (s : VM.VirtualMachine) (b : Z) :
  running s -> 0 <= VM.instruction_pointer s ->
  VM.bytecode s !! Z.to_nat (VM.instruction_pointer s) = Some b ->
  VM.step s = counted (VM.execute (VM.decode_opcode b) b (fetched b s)).
Proof.
  intros [Hh He] Hip Hb.
  assert (Hlt : VM.instruction_pointer s < vsize (VM.bytecode s)).
  { apply lookup_lt_Some in Hb. unfold vsize. lia. }
  unfold VM.step. rewrite Hh, He. cbn [orb].
  destruct (Z.leb_spec (vsize (VM.bytecode s)) (VM.instruction_pointer s));
    [lia|].
  unfold VM.executeInstruction, VM.readByte, fetched, counted.
  destruct s.
  cbn [VM.halted VM.error_flag VM.instruction_pointer VM.bytecode
       VM.debug_mode] in *.
  destruct debug_mode;
    cbn [VM.halted VM.error_flag VM.instruction_pointer VM.bytecode
         VM.debug_mode VM.write_cout VM.set_cout VM.set_instruction_pointer].
  all: destruct (Z.leb_spec (vsize bytecode) instruction_pointer); [lia|].
  all: unfold VM.vget; cbn [VM.bytecode VM.instruction_pointer];
    rewrite Hb; reflexivity.
Qed.

(** [fetched] changes the instruction pointer and the output only. *)
Lemma fetched_eq b s :
  fetched b s =
  VM.set_cout (VM.cout (fetched b s))
    (VM.set_instruction_pointer (size_t (VM.instruction_pointer s + 1)) s).
Proof. vm_fields. Qed.

(** [counted] changes the two counters only. *)
Lemma counted_eq s :
  counted s =
  VM.set_max_stack_size (VM.max_stack_size (counted s))
    (VM.set_instruction_count (size_t (VM.instruction_count s + 1)) s).
Proof. vm_fields. Qed.

Lemma pop_snoc (s : VM.VirtualMachine) (rest : list Z) (v : Z) :
  VM.stack s = rest ++ [v] -> VM.pop s = (v, VM.set_stack rest s).
Proof.
  intros H. unfold VM.pop. rewrite H, last_snoc, removelast_last.
  reflexivity.
Qed.

Lemma pop_empty (s : VM.VirtualMachine) :
  VM.stack s = [] -> VM.pop s = (0, VM.error "Stack underflow" s).
Proof. intros H. unfold VM.pop. rewrite H. reflexivity. Qed.

(** Reading a 32-bit operand that stands at the instruction pointer. *)
Lemma readInt32_at (s : VM.VirtualMachine) (v : Z) :
  is_int32 v -> vsize (VM.bytecode s) < 2 ^ 64 ->
  code_at (VM.bytecode s) (VM.instruction_pointer s) (le_bytes32 v) ->
  VM.readInt32 s =
  (v, VM.set_instruction_pointer (VM.instruction_pointer s + 4) s).
Proof.
  intros Hv Hsz Hc.
  pose proof (code_at_bound _ _ _ Hc ltac:(discriminate)) as Hb.
  destruct (le_bytes32_value v) as (b0 & b1 & b2 & b3 & Eb & Ev).
  rewrite Eb in Hc, Hb. unfold vsize in Hb at 1. cbn [length] in Hb.
  destruct Hc as [Hpos Hc'].
  pose proof (conj Hpos Hc' : code_at _ _ [b0; b1; b2; b3]) as Hc.
  unfold VM.readInt32.
  rewrite (size_t_id (VM.instruction_pointer s + 4)) by lia.
  destruct (Z.ltb_spec (vsize (VM.bytecode s))
              (VM.instruction_pointer s + 4)); [lia|].
  unfold VM.word_at_ip, VM.vget.
  pose proof (code_at_lookup _ _ _ 0 b0 Hc eq_refl) as E0.
  pose proof (code_at_lookup _ _ _ 1 b1 Hc eq_refl) as E1.
  pose proof (code_at_lookup _ _ _ 2 b2 Hc eq_refl) as E2.
  pose proof (code_at_lookup _ _ _ 3 b3 Hc eq_refl) as E3.
  change (Z.of_nat 0) with 0 in E0. change (Z.of_nat 1) with 1 in E1.
  change (Z.of_nat 2) with 2 in E2. change (Z.of_nat 3) with 3 in E3.
  rewrite Z.add_0_r in E0.
  rewrite E0, E1, E2, E3. cbn -[le_value32 int32 Z.add].
  rewrite Ev, (int32_mod v Hv). reflexivity.
Qed.

(** ** Stack underflow (C9) *)

(** C9. [DUP] on an empty integer stack raises no stack-underflow error:
    [peek] answers 0, the machine pushes 0, the error flag stays unset and
    the machine keeps running at the next instruction. Underflow is
    reported by [pop] ("Stack underflow") and by [SWAP] on fewer than two
    values ("Stack underflow in SWAP"). *)
Theorem dup_on_empty_stack (s : VM.VirtualMachine) :
  running s ->
  0 <= VM.instruction_pointer s ->
  VM.bytecode s !! Z.to_nat (VM.instruction_pointer s)
  = Some (VM.opcode_byte VM.DUP) ->
  VM.stack s = [] ->
  VM.peek s = 0
  /\ VM.stack (VM.step s) = [0]
  /\ running (VM.step s)
  /\ VM.error_message (VM.step s) = VM.error_message s
  /\ VM.instruction_pointer (VM.step s)
     = size_t (VM.instruction_pointer s + 1)
  /\ (VM.error_flag (snd (VM.pop s)) = true
      /\ VM.error_message (snd (VM.pop s)) = "Stack underflow"%string)
  /\ (forall t : VM.VirtualMachine,
        running t ->
        0 <= VM.instruction_pointer t ->
        VM.bytecode t !! Z.to_nat (VM.instruction_pointer t)
        = Some (VM.opcode_byte VM.SWAP) ->
        (length (VM.stack t) < 2)%nat ->
        VM.error_flag (VM.step t) = true
        /\ VM.halted (VM.step t) = true
        /\ VM.error_message (VM.step t) = "Stack underflow in SWAP"%string).
Proof.
  intros Hr Hip Hb Hs.
  rewrite (step_running s _ Hr Hip Hb).
  destruct Hr as [Hh He].
  change (VM.decode_opcode (VM.opcode_byte VM.DUP)) with (Some VM.DUP).
  cbn [VM.execute].
  rewrite counted_eq, fetched_eq.
  unfold running, VM.peek, VM.push. cbn. rewrite Hs, Hh, He. cbn.
  rewrite (pop_empty s Hs). cbn.
  do 6 (split; [auto|]).
  intros t Hr Hipt Hbt Hlen.
  rewrite (step_running t _ Hr Hipt Hbt).
  change (VM.decode_opcode (VM.opcode_byte VM.SWAP)) with (Some VM.SWAP).
  cbn [VM.execute].
  rewrite counted_eq, fetched_eq; cbn.
  destruct (Z.ltb_spec (vsize (VM.stack t)) 2) as [_|Hge];
    [auto | unfold vsize in Hge; lia].
Qed.

Lemma dup_on_empty_stack_witness :
  let s := VM.loadBytecode [VM.opcode_byte VM.DUP; VM.opcode_byte VM.HALT]
             VM.new_vm in
  VM.stack s = [] /\ VM.stack (VM.step s) = [0] /\ running (VM.step s).
Proof.
  intros s. split; [reflexivity|].
  assert (H := dup_on_empty_stack s).
  destruct H as (_ & H1 & H2 & _).
  - split; reflexivity.
  - vm_compute. discriminate.
  - reflexivity.
  - reflexivity.
  - split; assumption.
Defined.

(** ** Comparison and conditional jumps (C5) *)

Lemma jump_on_flag_at (test : Z -> bool) (s : VM.VirtualMachine) (addr : Z) :
  is_int32 addr -> vsize (VM.bytecode s) < 2 ^ 64 ->
  code_at (VM.bytecode s) (VM.instruction_pointer s) (le_bytes32 addr) ->
  VM.jump_on_flag test s =
  VM.set_instruction_pointer
    (if test (VM.cmp_flag s) then size_t addr
     else VM.instruction_pointer s + 4) s.
Proof.
  intros Ha Hsz Hc. unfold VM.jump_on_flag.
  rewrite (readInt32_at s addr Ha Hsz Hc).
  destruct s; cbn. destruct (test cmp_flag); reflexivity.
Qed.

(** C5. [CMP] pops [b] then [a] and sets the flag to the sign of [a - b]
    without branching; [JL], [JG], [JLE] and [JGE] branch to their operand
    exactly when the flag is negative, positive, non-positive and
    non-negative, and leave the stack and the flag as they are. *)
Theorem cmp_sets_flag_and_jumps_read_it :
  (forall (s : VM.VirtualMachine) (rest : list Z) (a b : Z),
      running s ->
      0 <= VM.instruction_pointer s ->
      VM.bytecode s !! Z.to_nat (VM.instruction_pointer s)
      = Some (VM.opcode_byte VM.CMP) ->
      VM.stack s = rest ++ [a; b] ->
      VM.stack (VM.step s) = rest
      /\ VM.cmp_flag (VM.step s) = Z.sgn (a - b)
      /\ VM.instruction_pointer (VM.step s)
         = size_t (VM.instruction_pointer s + 1)
      /\ running (VM.step s))
  /\ (forall (s : VM.VirtualMachine) (op : VM.VMOpcode) (addr : Z),
        running s ->
        flag_jump op ->
        is_int32 addr ->
        vsize (VM.bytecode s) < 2 ^ 64 ->
        code_at (VM.bytecode s) (VM.instruction_pointer s)
          (VM.opcode_byte op :: le_bytes32 addr) ->
        VM.instruction_pointer (VM.step s)
        = (if jump_taken op (VM.cmp_flag s) then size_t addr
           else VM.instruction_pointer s + 5)
        /\ VM.stack (VM.step s) = VM.stack s
        /\ VM.cmp_flag (VM.step s) = VM.cmp_flag s
        /\ running (VM.step s)).
Proof.
  split.
  - intros s rest a b Hr Hip Hb Hs.
    rewrite (step_running s _ Hr Hip Hb). destruct Hr as [Hh He].
    change (VM.decode_opcode (VM.opcode_byte VM.CMP)) with (Some VM.CMP).
    cbn [VM.execute].
    assert (E1 : VM.stack (fetched (VM.opcode_byte VM.CMP) s)
                 = (rest ++ [a]) ++ [b]).
    { rewrite fetched_eq. cbn. rewrite Hs, <- app_assoc. reflexivity. }
    rewrite (pop_snoc _ _ _ E1).
    rewrite (pop_snoc (VM.set_stack (rest ++ [a]) _) rest a eq_refl).
    rewrite counted_eq, fetched_eq. unfold running. cbn.
    rewrite compare_flag_sgn, Hh, He. auto.
  - intros s op addr Hr Hop Ha Hsz Hc.
    pose proof (code_at_head _ _ _ _ Hc) as Hb.
    pose proof (code_at_bound _ _ _ Hc ltac:(discriminate)) as Hbd.
    assert (Hip : 0 <= VM.instruction_pointer s) by (destruct Hc; lia).
    rewrite (step_running s _ Hr Hip Hb). destruct Hr as [Hh He].
    unfold vsize in Hbd at 1. cbn [length] in Hbd.
    assert (Hc' : code_at (VM.bytecode (fetched (VM.opcode_byte op) s))
                    (VM.instruction_pointer (fetched (VM.opcode_byte op) s))
                    (le_bytes32 addr)).
    { rewrite fetched_eq. cbn -[le_bytes32].
      rewrite size_t_id by lia.
      exact (code_at_tail _ _ _ _ Hc). }
    assert (Hsz' : vsize (VM.bytecode (fetched (VM.opcode_byte op) s))
                   < 2 ^ 64) by (rewrite fetched_eq; exact Hsz).
    assert (Hflag : VM.cmp_flag (fetched (VM.opcode_byte op) s)
                    = VM.cmp_flag s) by (rewrite fetched_eq; reflexivity).
    assert (Hipf : VM.instruction_pointer (fetched (VM.opcode_byte op) s)
                   = VM.instruction_pointer s + 1).
    { rewrite fetched_eq. cbn. apply size_t_id. lia. }
    destruct Hop as [-> | [-> | [-> | ->]]].
    all: match goal with
         | |- context [VM.decode_opcode (VM.opcode_byte ?o)] =>
             change (VM.decode_opcode (VM.opcode_byte o)) with (Some o)
         end.
    all: cbn [VM.execute jump_taken].
    all: rewrite (jump_on_flag_at _ _ addr Ha Hsz' Hc'), Hflag, Hipf.
    all: rewrite counted_eq; unfold running; cbn.
    all: rewrite fetched_eq; cbn; rewrite Hh, He.
    all: repeat split; try reflexivity.
    all: match goal with
         | |- context [if ?c then _ else _] => destruct c
         end; try reflexivity; lia.
Qed.

Lemma cmp_sets_flag_and_jumps_read_it_witness :
  let s := VM.set_stack [3; 5]
             (VM.loadBytecode
                (VM.opcode_byte VM.CMP :: VM.opcode_byte VM.JL
                 :: le_bytes32 7 ++ [VM.opcode_byte VM.HALT;
                                     VM.opcode_byte VM.HALT])
                VM.new_vm) in
  VM.cmp_flag (VM.step s) = -1
  /\ VM.instruction_pointer (VM.step (VM.step s)) = 7
  /\ VM.stack (VM.step (VM.step s)) = [].
Proof.
  intros s.
  destruct cmp_sets_flag_and_jumps_read_it as [Hcmp Hjmp].
  destruct (Hcmp s [] 3 5) as (Hs1 & Hf1 & Hip1 & Hr1).
  - split; reflexivity.
  - vm_compute. discriminate.
  - reflexivity.
  - reflexivity.
  - destruct (Hjmp (VM.step s) VM.JL 7) as (Hip2 & Hs2 & _).
    + exact Hr1.
    + left. reflexivity.
    + unfold is_int32. vm_compute. split; discriminate.
    + vm_compute. reflexivity.
    + split; [vm_compute; discriminate | reflexivity].
    + split; [exact Hf1|]. split.
      * rewrite Hip2, Hf1. reflexivity.
      * rewrite Hs2. exact Hs1.
Defined.

(** ** Float division (C10) *)

Lemma fpop_eq (s : VM.VirtualMachine) :
  0 <= VM.fpu_top s < 8 ->
  VM.fpop s =
  (VM.fget (VM.fpu_regs s) (VM.fpu_top s),
   VM.set_fpu_top ((VM.fpu_top s + 1) mod 8)
     (VM.set_fpu_regs
        (VM.vset (VM.fpu_top s) Float32.zero (VM.fpu_regs s)) s)).
Proof.
  intros H. unfold VM.fpop. destruct s; cbn -[Z.rem Z.modulo] in *.
  rewrite Z.rem_mod_nonneg by lia. reflexivity.
Qed.

Lemma fpush_eq (v : float32) (s : VM.VirtualMachine) :
  0 <= VM.fpu_top s < 8 ->
  VM.fpush v s =
  VM.set_fpu_regs
    (VM.vset ((VM.fpu_top s + 7) mod 8) v (VM.fpu_regs s))
    (VM.set_fpu_top ((VM.fpu_top s + 7) mod 8) s).
Proof.
  intros H. unfold VM.fpush. destruct s; cbn -[Z.rem Z.modulo] in *.
  rewrite Z.rem_mod_nonneg by lia.
  replace (fpu_top - 1 + 8) with (fpu_top + 7) by lia. reflexivity.
Qed.

Lemma fget_vset_ne (l : list float32) (i j : Z) (v : float32) :
  0 <= i -> 0 <= j -> i <> j ->
  VM.fget (VM.vset i v l) j = VM.fget l j.
Proof.
  intros Hi Hj Hne. unfold VM.fget, VM.vset.
  rewrite list_lookup_insert_ne by lia. reflexivity.
Qed.

Lemma fget_vset_eq (l : list float32) (i : Z) (v : float32) :
  0 <= i < vsize l -> VM.fget (VM.vset i v l) i = v.
Proof.
  intros Hi. unfold VM.fget, VM.vset, vsize in *.
  rewrite list_lookup_insert_eq by lia. reflexivity.
Qed.

(** C10. [FDIV] pops the divisor [b], then the dividend [a], from the FPU
    stack. When [b] equals 0.0 it sets the error flag with the message
    "FPU division by zero" and halts, both operands being popped and
    nothing pushed; otherwise it pushes [a / b] and the machine keeps
    running. *)
Theorem fdiv_by_zero_halts (s : VM.VirtualMachine) :
  running s ->
  0 <= VM.instruction_pointer s ->
  VM.bytecode s !! Z.to_nat (VM.instruction_pointer s)
  = Some (VM.opcode_byte VM.FDIV) ->
  0 <= VM.fpu_top s < 8 ->
  length (VM.fpu_regs s) = 8%nat ->
  let top := VM.fpu_top s in
  let b := VM.fget (VM.fpu_regs s) top in
  let a := VM.fget (VM.fpu_regs s) ((top + 1) mod 8) in
  let popped :=
    VM.vset ((top + 1) mod 8) Float32.zero
      (VM.vset top Float32.zero (VM.fpu_regs s)) in
  if Float32.eqb b Float32.zero
  then VM.error_flag (VM.step s) = true
       /\ VM.error_message (VM.step s) = "FPU division by zero"%string
       /\ VM.halted (VM.step s) = true
       /\ VM.fpu_top (VM.step s) = (top + 2) mod 8
       /\ VM.fpu_regs (VM.step s) = popped
  else running (VM.step s)
       /\ VM.fpu_top (VM.step s) = (top + 1) mod 8
       /\ VM.fpu_regs (VM.step s)
          = VM.vset ((top + 1) mod 8) (Float32.div a b) popped
       /\ VM.fpeek (VM.step s) = Float32.div a b.
Proof.
  intros Hr Hip Hb Htop Hlen top b a popped.
  rewrite (step_running s _ Hr Hip Hb). destruct Hr as [Hh He].
  change (VM.decode_opcode (VM.opcode_byte VM.FDIV)) with (Some VM.FDIV).
  cbn [VM.execute].
  set (s1 := fetched (VM.opcode_byte VM.FDIV) s).
  assert (Ht1 : VM.fpu_top s1 = top) by (subst s1; rewrite fetched_eq; reflexivity).
  assert (Hr1 : VM.fpu_regs s1 = VM.fpu_regs s)
    by (subst s1; rewrite fetched_eq; reflexivity).
  assert (Hh1 : VM.halted s1 = false)
    by (subst s1; rewrite fetched_eq; exact Hh).
  assert (He1 : VM.error_flag s1 = false)
    by (subst s1; rewrite fetched_eq; exact He).
  rewrite (fpop_eq s1) by (rewrite Ht1; exact Htop).
  rewrite Ht1, Hr1. fold b.
  set (s2 := VM.set_fpu_top _ _).
  assert (Ht2 : VM.fpu_top s2 = (top + 1) mod 8) by reflexivity.
  assert (Hr2 : VM.fpu_regs s2 = VM.vset top Float32.zero (VM.fpu_regs s))
    by reflexivity.
  assert (Hm1 : 0 <= (top + 1) mod 8 < 8) by (apply Z.mod_pos_bound; lia).
  assert (Hne : top <> (top + 1) mod 8).
  { subst top. Z.div_mod_to_equations. lia. }
  rewrite (fpop_eq s2) by (rewrite Ht2; exact Hm1).
  rewrite Ht2, Hr2.
  rewrite fget_vset_ne by (subst top; lia). fold a. fold popped.
  assert (Hm2 : ((top + 1) mod 8 + 1) mod 8 = (top + 2) mod 8).
  { Z.div_mod_to_equations. lia. }
  rewrite Hm2.
  set (s3 := VM.set_fpu_top _ _).
  assert (Ht3 : VM.fpu_top s3 = (top + 2) mod 8) by reflexivity.
  assert (Hr3 : VM.fpu_regs s3 = popped) by reflexivity.
  assert (Hh3 : VM.halted s3 = false) by exact Hh1.
  assert (He3 : VM.error_flag s3 = false) by exact He1.
  destruct (Float32.eqb b Float32.zero).
  - rewrite counted_eq. cbn. auto.
  - assert (Hm3 : 0 <= (top + 2) mod 8 < 8) by (apply Z.mod_pos_bound; lia).
    rewrite (fpush_eq _ s3) by (rewrite Ht3; exact Hm3).
    rewrite Ht3, Hr3.
    assert (Hm4 : ((top + 2) mod 8 + 7) mod 8 = (top + 1) mod 8).
    { Z.div_mod_to_equations. lia. }
    rewrite Hm4, counted_eq. unfold running, VM.fpeek.
    cbn -[Float32.div Z.modulo].
    repeat split; try reflexivity; try assumption.
    apply fget_vset_eq. subst popped. unfold vsize, VM.vset.
    rewrite !length_insert, Hlen. lia.
Qed.

Lemma fdiv_by_zero_halts_witness :
  let s := VM.fpush Float32.zero
             (VM.fpush (Float32.of_int 1)
                (VM.loadBytecode [VM.opcode_byte VM.FDIV] VM.new_vm)) in
  VM.error_flag (VM.step s) = true
  /\ VM.error_message (VM.step s) = "FPU division by zero"%string
  /\ VM.halted (VM.step s) = true.
Proof.
  intros s.
  assert (H := fdiv_by_zero_halts s).
  cbv zeta in H.
  change (Float32.eqb (VM.fget (VM.fpu_regs s) (VM.fpu_top s)) Float32.zero)
    with true in H.
  destruct H as (H1 & H2 & H3 & _).
  - split; reflexivity.
  - vm_compute. discriminate.
  - reflexivity.
  - vm_compute. split; [discriminate | reflexivity].
  - reflexivity.
  - auto.
Defined.

(** ** Calls and parameters (C1) *)

Lemma vsize_app {A : Type} (l1 l2 : list A) :
  vsize (l1 ++ l2) = vsize l1 + vsize l2.
Proof. unfold vsize. rewrite length_app. lia. Qed.

Lemma vsize_nonneg {A : Type} (l : list A) : 0 <= vsize l.
Proof. unfold vsize. lia. Qed.

(** [CALL target] saves the return address and the base pointer and
    jumps; the operand stack is untouched. *)
Lemma step_CALL (s : VM.VirtualMachine) (target : Z) :
  running s ->
  vsize (VM.bytecode s) < 2 ^ 31 ->
  0 <= target < 2 ^ 31 ->
  code_at (VM.bytecode s) (VM.instruction_pointer s)
    (VM.opcode_byte VM.CALL :: le_bytes32 target) ->
  running (VM.step s)
  /\ VM.bytecode (VM.step s) = VM.bytecode s
  /\ VM.instruction_pointer (VM.step s) = target
  /\ VM.stack (VM.step s) = VM.stack s
  /\ VM.base_pointer (VM.step s) = VM.base_pointer s
  /\ VM.call_stack (VM.step s)
     = VM.call_stack s
       ++ [VM.CallFrame.mk (VM.instruction_pointer s + 5)
             (VM.base_pointer s)].
Proof.
  intros Hr Hsz Ht Hc.
  pose proof (code_at_head _ _ _ _ Hc) as Hb.
  pose proof (code_at_bound _ _ _ Hc ltac:(discriminate)) as Hbd.
  assert (Hip : 0 <= VM.instruction_pointer s) by (destruct Hc; lia).
  unfold vsize in Hbd at 1. cbn [length] in Hbd.
  assert (Hti : is_int32 target).
  { unfold is_int32, INT32_MIN, INT32_MAX. lia. }
  rewrite (step_running s _ Hr Hip Hb). destruct Hr as [Hh He].
  change (VM.decode_opcode (VM.opcode_byte VM.CALL)) with (Some VM.CALL).
  cbn [VM.execute].
  set (s1 := fetched (VM.opcode_byte VM.CALL) s).
  assert (Hc1 : code_at (VM.bytecode s1) (VM.instruction_pointer s1)
                  (le_bytes32 target)).
  { subst s1. rewrite fetched_eq. cbn -[le_bytes32].
    rewrite size_t_id by lia. exact (code_at_tail _ _ _ _ Hc). }
  assert (Hsz1 : vsize (VM.bytecode s1) < 2 ^ 64).
  { subst s1. rewrite fetched_eq. cbn. lia. }
  rewrite (readInt32_at s1 target Hti Hsz1 Hc1).
  rewrite counted_eq. subst s1. rewrite fetched_eq. unfold running. cbn.
  rewrite !size_t_id by lia.
  rewrite Hh, He.
  replace (VM.instruction_pointer s + 1 + 4)
    with (VM.instruction_pointer s + 5) by lia.
  auto 10.
Qed.

(** [PUSH_BP] pushes the base pointer and moves it to the new top. *)
Lemma step_PUSH_BP (s : VM.VirtualMachine) :
  running s ->
  0 <= VM.instruction_pointer s ->
  vsize (VM.bytecode s) < 2 ^ 31 ->
  VM.bytecode s !! Z.to_nat (VM.instruction_pointer s)
  = Some (VM.opcode_byte VM.PUSH_BP) ->
  running (VM.step s)
  /\ VM.bytecode (VM.step s) = VM.bytecode s
  /\ VM.instruction_pointer (VM.step s) = VM.instruction_pointer s + 1
  /\ VM.stack (VM.step s) = VM.stack s ++ [int32 (VM.base_pointer s)]
  /\ VM.base_pointer (VM.step s) = vsize (VM.stack s) + 1.
Proof.
  intros Hr Hip Hsz Hb.
  assert (Hlt : VM.instruction_pointer s < vsize (VM.bytecode s)).
  { apply lookup_lt_Some in Hb. unfold vsize. lia. }
  rewrite (step_running s _ Hr Hip Hb). destruct Hr as [Hh He].
  change (VM.decode_opcode (VM.opcode_byte VM.PUSH_BP))
    with (Some VM.PUSH_BP).
  cbn [VM.execute].
  rewrite counted_eq, fetched_eq. unfold running, VM.push. cbn.
  rewrite size_t_id by lia. rewrite Hh, He, vsize_app. auto 10.
Qed.

(** [LOAD_BP offset] pushes the value at [base_pointer + offset]. *)
Lemma step_LOAD_BP (s : VM.VirtualMachine) (offset v : Z) :
  running s ->
  vsize (VM.bytecode s) < 2 ^ 31 ->
  is_int32 offset ->
  code_at (VM.bytecode s) (VM.instruction_pointer s)
    (VM.opcode_byte VM.LOAD_BP :: le_bytes32 offset) ->
  0 <= VM.base_pointer s < 2 ^ 32 ->
  0 <= VM.base_pointer s + offset ->
  VM.stack s !! Z.to_nat (VM.base_pointer s + offset) = Some v ->
  running (VM.step s)
  /\ VM.instruction_pointer (VM.step s) = VM.instruction_pointer s + 5
  /\ VM.stack (VM.step s) = VM.stack s ++ [v]
  /\ VM.base_pointer (VM.step s) = VM.base_pointer s.
Proof.
  intros Hr Hsz Ho Hc Hbp Hadd Hv.
  pose proof (code_at_head _ _ _ _ Hc) as Hb.
  pose proof (code_at_bound _ _ _ Hc ltac:(discriminate)) as Hbd.
  assert (Hip : 0 <= VM.instruction_pointer s) by (destruct Hc; lia).
  unfold vsize in Hbd at 1. cbn [length] in Hbd.
  rewrite (step_running s _ Hr Hip Hb). destruct Hr as [Hh He].
  change (VM.decode_opcode (VM.opcode_byte VM.LOAD_BP))
    with (Some VM.LOAD_BP).
  cbn [VM.execute].
  set (s1 := fetched (VM.opcode_byte VM.LOAD_BP) s).
  assert (Hc1 : code_at (VM.bytecode s1) (VM.instruction_pointer s1)
                  (le_bytes32 offset)).
  { subst s1. rewrite fetched_eq. cbn -[le_bytes32].
    rewrite size_t_id by lia. exact (code_at_tail _ _ _ _ Hc). }
  assert (Hsz1 : vsize (VM.bytecode s1) < 2 ^ 64).
  { subst s1. rewrite fetched_eq. cbn. lia. }
  rewrite (readInt32_at s1 offset Ho Hsz1 Hc1).
  assert (Haddr : VM.bp_address offset
                    (VM.set_instruction_pointer
                       (VM.instruction_pointer s1 + 4) s1)
                  = VM.base_pointer s + offset).
  { unfold VM.bp_address. subst s1. rewrite fetched_eq. cbn.
    unfold is_int32, INT32_MIN, INT32_MAX in Ho.
    rewrite (int64_id (VM.base_pointer s)) by lia.
    rewrite (int64_id offset) by lia.
    apply int64_id. lia. }
  rewrite Haddr.
  assert (Hst : VM.stack (VM.set_instruction_pointer
                            (VM.instruction_pointer s1 + 4) s1)
                = VM.stack s).
  { subst s1. rewrite fetched_eq. reflexivity. }
  rewrite Hst.
  assert (Hlt : VM.base_pointer s + offset < vsize (VM.stack s)).
  { apply lookup_lt_Some in Hv. unfold vsize. lia. }
  destruct (Z.ltb_spec (VM.base_pointer s + offset) 0); [lia|].
  destruct (Z.leb_spec (vsize (VM.stack s)) (VM.base_pointer s + offset));
    [lia|].
  cbn [orb]. unfold VM.vget. rewrite Hv. cbn [default from_option id].
  rewrite counted_eq. subst s1. rewrite fetched_eq.
  unfold running, VM.push. cbn.
  rewrite size_t_id by lia. rewrite Hh, He.
  replace (VM.instruction_pointer s + 1 + 4)
    with (VM.instruction_pointer s + 5) by lia.
  auto 10.
Qed.

(** The code generator binds the parameter at position [k], counted from
    0, of [n] parameters to the offset [-(n - k + 1)]. *)
Lemma bind_parameters_offset (params : list (list string * string))
  (n i0 : Z) (cg : CodeGen.CodeGenerator) (k : nat)
  (type_tokens : list string) (name : string) :
  NoDup (map snd params) ->
  params !! k = Some (type_tokens, name) ->
  exists sym,
    CodeGen.findSymbol name (CodeGen.bind_parameters n i0 params cg)
    = Some sym
    /\ CodeGen.Symbol.type sym = CodeGen.PARAMETER
    /\ CodeGen.Symbol.offset sym = int32 (- (n - (i0 + Z.of_nat k) + 1)).
Proof.
  revert i0 cg k.
  induction params as [|[ty nm] params IH]; intros i0 cg k Hnd Hk.
  - discriminate.
  - cbn [map snd] in Hnd. apply NoDup_cons in Hnd as [Hnin Hnd].
    destruct k as [|k].
    + injection Hk as -> ->. cbn [CodeGen.bind_parameters].
      set (cg' := CodeGen.set_symbols _ cg).
      assert (Hkeep : forall ps j c,
                 name ∉ map snd ps ->
                 CodeGen.findSymbol name (CodeGen.bind_parameters n j ps c)
                 = CodeGen.findSymbol name c).
      { clear. induction ps as [|[t m] ps IH]; intros j c Hn.
        - reflexivity.
        - cbn [CodeGen.bind_parameters]. rewrite IH.
          + unfold CodeGen.findSymbol. cbn.
            apply lookup_insert_ne. intros ->. apply Hn. cbn. left.
          + intros Hin. apply Hn. cbn. right. exact Hin. }
      rewrite Hkeep by exact Hnin.
      subst cg'. unfold CodeGen.findSymbol. cbn.
      rewrite lookup_insert_eq. eexists. split; [reflexivity|].
      cbn. split; [reflexivity|]. f_equal. lia.
    + cbn [CodeGen.bind_parameters].
      match goal with
      | |- context [CodeGen.bind_parameters n (i0 + 1) params ?c] =>
          destruct (IH (i0 + 1) c k Hnd Hk) as (sym & E & T & O)
      end.
      exists sym. split; [exact E|]. split; [exact T|].
      rewrite O. f_equal. lia.
Qed.

Lemma parameter_addressing_zero_based : parameter_addressing 0.
Proof.
  intros s below args target i v Hr Hsz Hcall Hbody Hst Hss Hi Hv.
  assert (Ht : 0 <= target < 2 ^ 31).
  { pose proof (code_at_bound _ _ _ Hbody ltac:(discriminate)) as B.
    destruct Hbody as [Hp _]. pose proof (vsize_nonneg (le_bytes32 target)).
    unfold vsize in B at 1. cbn [length] in B. lia. }
  destruct (step_CALL s target Hr Hsz Ht Hcall)
    as (Hr1 & Hb1 & Hip1 & Hs1 & Hbp1 & _).
  set (s1 := VM.step s) in *.
  assert (Hop1 : VM.bytecode s1 !! Z.to_nat (VM.instruction_pointer s1)
                 = Some (VM.opcode_byte VM.PUSH_BP)).
  { rewrite Hb1, Hip1. exact (code_at_head _ _ _ _ Hbody). }
  assert (Hip1' : 0 <= VM.instruction_pointer s1) by (rewrite Hip1; lia).
  assert (Hsz1 : vsize (VM.bytecode s1) < 2 ^ 31) by (rewrite Hb1; exact Hsz).
  destruct (step_PUSH_BP s1 Hr1 Hip1' Hsz1 Hop1)
    as (Hr2 & Hb2 & Hip2 & Hs2 & Hbp2).
  set (s2 := VM.step s1) in *.
  rewrite Hs1, Hbp1 in Hs2. rewrite Hs1 in Hbp2.
  assert (Hlen : vsize (VM.stack s) = vsize below + vsize args)
    by (rewrite Hst; apply vsize_app).
  pose proof (vsize_nonneg below) as Hnb.
  set (offset := - (vsize args - i + 1)) in *.
  assert (Hc2 : code_at (VM.bytecode s2) (VM.instruction_pointer s2)
                  (VM.opcode_byte VM.LOAD_BP :: le_bytes32 offset)).
  { rewrite Hb2, Hb1, Hip2, Hip1. exact (code_at_tail _ _ _ _ Hbody). }
  assert (Ho : is_int32 offset).
  { unfold is_int32, INT32_MIN, INT32_MAX. subst offset. lia. }
  assert (Hlook : VM.stack s2 !! Z.to_nat (VM.base_pointer s2 + offset)
                  = Some v).
  { rewrite Hs2, Hbp2, Hst. subst offset.
    match goal with
    | |- _ !! Z.to_nat ?e = _ =>
        replace (Z.to_nat e) with (length below + Z.to_nat (i - 0))%nat
          by (rewrite vsize_app; unfold vsize; lia)
    end.
    rewrite <- app_assoc. rewrite lookup_app_r by lia.
    replace (length below + Z.to_nat (i - 0) - length below)%nat
      with (Z.to_nat (i - 0)) by lia.
    apply lookup_app_l_Some. exact Hv. }
  assert (Hsz2 : vsize (VM.bytecode s2) < 2 ^ 31)
    by (rewrite Hb2; exact Hsz1).
  assert (Hbp2' : 0 <= VM.base_pointer s2 < 2 ^ 32)
    by (rewrite Hbp2; pose proof (vsize_nonneg (VM.stack s)); lia).
  assert (Hadd : 0 <= VM.base_pointer s2 + offset)
    by (rewrite Hbp2; subst offset; lia).
  destruct (step_LOAD_BP s2 offset v Hr2 Hsz2 Ho Hc2 Hbp2' Hadd Hlook)
    as (Hr3 & _ & Hs3 & _).
  split; [exact Hr3|].
  rewrite Hs3, Hs2, Hst, <- !app_assoc. reflexivity.
Qed.

(** C1, as amended. The parameters are numbered from 0: for a function of
    [n >= 1] parameters called with the values [v_0 .. v_(n-1)] pushed
    left to right before [CALL], after the prologue [PUSH_BP] the
    instruction [LOAD_BP -(n - i + 1)] pushes [v_i], for every [i] in
    [0 .. n-1]; and [genFunctionDecl] binds the parameter at position [i],
    counted from 0, to that offset. *)
Theorem parameters_are_numbered_from_zero :
  parameter_addressing 0
  /\ (forall (params : list (list string * string)) (k : nat)
        (type_tokens : list string) (name : string)
        (cg : CodeGen.CodeGenerator),
        NoDup (map snd params) ->
        vsize params < 2 ^ 31 ->
        params !! k = Some (type_tokens, name) ->
        bound_offset params name cg
        = Some (- (vsize params - Z.of_nat k + 1))).
Proof.
  split; [exact parameter_addressing_zero_based|].
  intros params k type_tokens name cg Hnd Hsz Hk.
  unfold bound_offset.
  destruct (bind_parameters_offset params (int32 (vsize params)) 0 cg k
              type_tokens name Hnd Hk) as (sym & E & T & O).
  rewrite E, T. cbn.
  pose proof (vsize_nonneg params).
  assert (k < length params)%nat by (apply lookup_lt_Some in Hk; exact Hk).
  unfold vsize in *.
  rewrite O. f_equal.
  rewrite (int32_id (Z.of_nat (length params))).
  2:{ unfold is_int32, INT32_MIN, INT32_MAX. lia. }
  rewrite Z.add_0_l. apply int32_id.
  unfold is_int32, INT32_MIN, INT32_MAX. lia.
Qed.

Lemma parameters_are_numbered_from_zero_witness :
  VM.stack (VM.step (VM.step (VM.step (call_example [2; 3] (-3)))))
  = [2; 3; 0; 2]
  /\ bound_offset [(["int"], "a"); (["int"], "b")]%string "a"
       CodeGen.new_generator = Some (-3).
Proof.
  destruct parameters_are_numbered_from_zero as [Hvm Hcg].
  split.
  - destruct (Hvm (call_example [2; 3] (-3)) [] [2; 3] 5 0 2)
      as [_ Hs].
    + split; reflexivity.
    + vm_compute. reflexivity.
    + split; [vm_compute; discriminate | reflexivity].
    + split; [vm_compute; discriminate | reflexivity].
    + reflexivity.
    + vm_compute. reflexivity.
    + vm_compute. split; [discriminate | reflexivity].
    + reflexivity.
    + exact Hs.
  - apply (Hcg [(["int"], "a"); (["int"], "b")]%string 0%nat
             ["int"%string] "a"%string CodeGen.new_generator).
    + cbn. constructor; [|constructor; [apply not_elem_of_nil|constructor]].
      apply not_elem_of_cons. split; [discriminate | apply not_elem_of_nil].
    + vm_compute. reflexivity.
    + reflexivity.
Defined.

(** C1 as it is stated, the parameters being numbered from 1, fails: with
    one parameter of value 7, [LOAD_BP -1] pushes the saved base pointer,
    0, and not the parameter. *)
Lemma parameters_numbered_from_one_counterexample :
  ~ parameter_addressing 1.
Proof.
  intros H.
  destruct (H (call_example [7] (-1)) [] [7] 5 1 7) as [_ Hs].
  - split; reflexivity.
  - vm_compute. reflexivity.
  - split; [vm_compute; discriminate | reflexivity].
  - split; [vm_compute; discriminate | reflexivity].
  - reflexivity.
  - vm_compute. reflexivity.
  - vm_compute. split; [discriminate | reflexivity].
  - reflexivity.
  - vm_compute in Hs. discriminate Hs.
Qed.

(** ** The lexer's columns *)

(** C7. The column of a token after a line feed is not the 1-based column
    of its first character: [skipWhitespace] sets the column to 1 and then
    [advance]s over the line feed, which makes it 2. In [a<LF>b] the token
    [b], first on its line, is recorded at column 2, and in
    [x = 1;<LF>  y] the token [y], third on its line, at column 4; on the
    first line the columns are 1-based. *)
Theorem column_after_line_feed_is_off_by_one :
  lex (two_lines "a" "b")
  = [make_token IDENTIFIER "a" 1 1; make_token IDENTIFIER "b" 2 2;
     make_token END_OF_FILE "" 2 3]
  /\ lex (two_lines "x = 1;" "  y")
     = [make_token IDENTIFIER "x" 1 1; make_token OPERATOR "=" 1 3;
        make_token NUMBER "1" 1 5; make_token SEMICOLON ";" 1 6;
        make_token IDENTIFIER "y" 2 4; make_token END_OF_FILE "" 2 5].
Proof. split; vm_compute; reflexivity. Qed.

(** ** The builtins [print] and [println] *)

(** C6. [print] does not print a string literal with [PRINT_STR]: for
    every literal [value], the call [print(value)] compiles to
    [PUSH_STR id ; PRINT ; PUSH 0], so that the machine prints the index
    of the string in the table as a number. The program
    [int main(){ print(<hi>); return 0; }] writes [0] and not [hi]. *)
Theorem print_of_string_literal_prints_its_index :
  (forall (value : string) (line column : Z),
      CodeGen.bytecode
        (CodeGen.genExpression (print_call value line column)
           CodeGen.new_generator)
      = [VM.opcode_byte VM.PUSH_STR] ++ le_bytes32 0
        ++ [VM.opcode_byte VM.PRINT]
        ++ [VM.opcode_byte VM.PUSH] ++ le_bytes32 0)
  /\ (exists (file : list Z) (final : VM.VirtualMachine),
         compile print_program = Some file
         /\ execute_file file "" 100 = Some final
         /\ VM.string_table final = ["hi"%string]
         /\ VM.cout final = [VM.OutStr "0"]
         /\ VM.error_flag final = false).
Proof.
  split.
  - intros value line column. reflexivity.
  - do 2 eexists.
    split; [vm_compute; reflexivity|].
    split; [vm_compute; reflexivity|].
    repeat split.
Qed.

(** ** Reset *)

(** C4. [reset] leaves the heap and the list of heap blocks as they are,
    for every state; after the run of [PUSH 42 ; PUSH 1 ; ALLOC ;
    STORE_INDIRECT ; HALT] and a [reset], the block is still allocated and
    its cell still holds 42, where a new machine has no block and a heap
    of zeros. *)
Theorem reset_keeps_the_heap :
  (forall s : VM.VirtualMachine,
      VM.heap (VM.reset s) = VM.heap s
      /\ VM.heap_blocks (VM.reset s) = VM.heap_blocks s)
  /\ (exists final : VM.VirtualMachine,
         VM.run 5 heap_example = Some final
         /\ VM.halted final = true /\ VM.error_flag final = false
         /\ VM.heap_blocks (VM.reset final) = [VM.HeapBlock.mk 0 1 true]
         /\ VM.vget (VM.heap (VM.reset final)) 0 = 42
         /\ VM.heap_blocks VM.new_vm = []
         /\ VM.vget (VM.heap VM.new_vm) 0 = 0).
Proof.
  split.
  - intros s. split; reflexivity.
  - eexists. split; [vm_compute; reflexivity|].
    repeat split.
Qed.

(** ** The end-to-end scenario [add(2,3)] *)

Lemma run_loop_more_fuel (n m : nat) (s r : VM.VirtualMachine) :
  VM.run_loop n s = Some r -> (n <= m)%nat -> VM.run_loop m s = Some r.
Proof.
  revert m s. induction n as [|n IH]; intros m s H Hle.
  - destruct m; cbn in *; destruct (VM.halted s || VM.error_flag s);
      congruence.
  - destruct m as [|m]; [lia|].
    cbn in *. destruct (VM.halted s || VM.error_flag s); [exact H|].
    apply IH; [exact H | lia].
Qed.

Lemma execute_file_more_fuel (file : list Z) (input : string) (n m : nat)
  (r : VM.VirtualMachine) :
  execute_file file input n = Some r -> (n <= m)%nat ->
  execute_file file input m = Some r.
Proof.
  unfold execute_file.
  destruct (VM.loadFromFile _ _ _) as [[|] vm]; [|discriminate].
  unfold VM.run. apply run_loop_more_fuel.
Qed.

(** C2. The program [add_program] compiles, and the machine runs the
    compiled file, whatever its standard input, to the end in 22
    instructions: it writes exactly [5], stops on [HALT], the instruction
    before the final instruction pointer, and raises no error. *)
Theorem add_program_prints_five :
  exists file : list Z,
    compile add_program = Some file
    /\ forall (input : string) (fuel : nat),
        (22 <= fuel)%nat ->
        exists final : VM.VirtualMachine,
          execute_file file input fuel = Some final
          /\ VM.cout final = [VM.OutStr "5"]
          /\ VM.halted final = true
          /\ VM.error_flag final = false
          /\ VM.bytecode final
               !! Z.to_nat (VM.instruction_pointer final - 1)
             = Some (VM.opcode_byte VM.HALT).
Proof.
  eexists. split; [vm_compute; reflexivity|].
  intros input fuel Hfuel.
  eexists. split.
  - apply (execute_file_more_fuel _ input 22 fuel); [|exact Hfuel].
    vm_compute. reflexivity.
  - repeat split.
Qed.

Lemma add_program_prints_five_witness :
  exists file : list Z,
    compile add_program = Some file
    /\ exists final : VM.VirtualMachine,
        execute_file file "" 30 = Some final
        /\ VM.cout final = [VM.OutStr "5"]
        /\ VM.halted final = true.
Proof.
  destruct add_program_prints_five as (file & Hc & Hrun).
  exists file. split; [exact Hc|].
  destruct (Hrun EmptyString 30%nat ltac:(lia))
    as (final & H1 & H2 & H3 & _).
  exists final. repeat split; assumption.
Defined.

(** ** The heap block list *)

Lemma chain_lower from blocks i b :
  Heap.chain from blocks -> blocks !! i = Some b ->
  from <= VM.HeapBlock.start b.
Proof.
  revert from i. induction blocks as [|b0 rest IH]; intros from i Hc Hi.
  - discriminate Hi.
  - destruct Hc as (Hs & Hpos & Hrest). destruct i as [|i].
    + injection Hi as <-. lia.
    + specialize (IH _ _ Hrest Hi). lia.
Qed.

Lemma chain_disjoint from blocks : Heap.chain from blocks -> Heap.disjoint blocks.
Proof.
  revert from. induction blocks as [|b0 rest IH]; intros from Hc.
  - intros i j b1 b2 x Hi. discriminate Hi.
  - destruct Hc as (Hs & Hpos & Hrest).
    intros i j b1 b2 x Hi Hj [H1 H1'] [H2 H2'].
    destruct i as [|i], j as [|j].
    + reflexivity.
    + injection Hi as <-. pose proof (chain_lower _ _ _ _ Hrest Hj). lia.
    + injection Hj as <-. pose proof (chain_lower _ _ _ _ Hrest Hi). lia.
    + f_equal.
      apply (IH _ Hrest i j b1 b2 x Hi Hj); split; assumption.
Qed.

Lemma chain_covering from blocks x :
  0 <= from ->
  Heap.chain from blocks -> from <= x < Heap.max_end blocks ->
  exists (i : nat) (b : VM.HeapBlock.t),
    blocks !! i = Some b /\ Heap.contains b x.
Proof.
  revert from. induction blocks as [|b0 rest IH]; intros from H0 Hc Hx.
  - cbn in Hx. lia.
  - destruct Hc as (Hs & Hpos & Hrest). cbn [Heap.max_end fold_right] in Hx.
    fold (Heap.max_end rest) in Hx.
    destruct (Z_lt_le_dec x (VM.HeapBlock.start b0 + VM.HeapBlock.size b0))
      as [Hin|Hout].
    + exists 0%nat, b0. split; [reflexivity|]. unfold Heap.contains. lia.
    + destruct (IH (from + VM.HeapBlock.size b0) ltac:(lia) Hrest)
        as (i & b & Hi & Hb); [lia|].
      exists (S i), b. split; [exact Hi | exact Hb].
Qed.

Lemma chain_partition blocks :
  Heap.chain 0 blocks ->
  Heap.partition blocks /\ Heap.single_owner blocks.
Proof.
  intros Hc. pose proof (chain_disjoint _ _ Hc) as Hd.
  split; [split|].
  - intros x Hx. apply (chain_covering 0); [lia | exact Hc | exact Hx].
  - exact Hd.
  - intros i j b1 b2 x Hi Hj _ _. apply Hd; assumption.
Qed.

Lemma sum_sizes_cons b blocks :
  sum_sizes (block_sizes (b :: blocks))
  = VM.HeapBlock.size b + sum_sizes (block_sizes blocks).
Proof. reflexivity. Qed.

Lemma chain_sizes_nonneg from blocks :
  Heap.chain from blocks -> 0 <= sum_sizes (block_sizes blocks).
Proof.
  revert from. induction blocks as [|b rest IH]; intros from Hc.
  - cbn. lia.
  - destruct Hc as (_ & Hp & Hr). rewrite sum_sizes_cons.
    specialize (IH _ Hr). lia.
Qed.

(** The end of a chain and its greatest end. *)
Lemma chain_max_end from blocks :
  0 <= from -> Heap.chain from blocks -> blocks <> [] ->
  Heap.max_end blocks = from + sum_sizes (block_sizes blocks).
Proof.
  revert from. induction blocks as [|b0 rest IH]; intros from H0 Hc Hne.
  - congruence.
  - destruct Hc as (Hs & Hpos & Hrest).
    rewrite sum_sizes_cons.
    cbn [Heap.max_end fold_right]. fold (Heap.max_end rest).
    pose proof (chain_sizes_nonneg _ _ Hrest) as Hnn.
    destruct rest as [|b1 rest'].
    + cbn. lia.
    + rewrite (IH (from + VM.HeapBlock.size b0));
        [|lia|exact Hrest|congruence].
      lia.
Qed.

Lemma chain_snoc from blocks b :
  Heap.chain from blocks ->
  VM.HeapBlock.start b = from + sum_sizes (block_sizes blocks) ->
  0 < VM.HeapBlock.size b ->
  Heap.chain from (blocks ++ [b]).
Proof.
  revert from. induction blocks as [|b0 rest IH]; intros from Hc Hs Hp.
  - cbn in *. repeat split; [lia | exact Hp].
  - destruct Hc as (Hs0 & Hp0 & Hrest).
    cbn [app Heap.chain]. repeat split; [exact Hs0 | exact Hp0 |].
    apply IH; [exact Hrest | | exact Hp].
    rewrite sum_sizes_cons in Hs. lia.
Qed.

Lemma chain_last from blocks l :
  Heap.chain from blocks -> last blocks = Some l ->
  VM.HeapBlock.start l + VM.HeapBlock.size l
  = from + sum_sizes (block_sizes blocks).
Proof.
  revert from. induction blocks as [|b0 rest IH]; intros from Hc Hl.
  - discriminate Hl.
  - destruct Hc as (Hs0 & Hp0 & Hrest).
    rewrite sum_sizes_cons.
    destruct rest as [|b1 rest'].
    + injection Hl as <-. cbn. lia.
    + rewrite (IH (from + VM.HeapBlock.size b0) Hrest Hl). lia.
Qed.

(** Marking a block free keeps the chain. *)
Lemma chain_release from blocks i b :
  Heap.chain from blocks -> blocks !! i = Some b ->
  Heap.chain from
    (<[i := VM.HeapBlock.mk (VM.HeapBlock.start b) (VM.HeapBlock.size b)
              false]> blocks)
  /\ block_sizes
       (<[i := VM.HeapBlock.mk (VM.HeapBlock.start b) (VM.HeapBlock.size b)
                 false]> blocks)
     = block_sizes blocks.
Proof.
  revert from i. induction blocks as [|b0 rest IH]; intros from i Hc Hi.
  - discriminate Hi.
  - destruct Hc as (Hs0 & Hp0 & Hrest). destruct i as [|i].
    + injection Hi as <-. cbn. repeat split; assumption.
    + destruct (IH _ _ Hrest Hi) as [Hc' Hsz].
      split.
      * cbn. repeat split; assumption.
      * change (VM.HeapBlock.size b0 :: block_sizes (<[i := VM.HeapBlock.mk
                  (VM.HeapBlock.start b) (VM.HeapBlock.size b) false]> rest)
                = VM.HeapBlock.size b0 :: block_sizes rest).
        rewrite Hsz. reflexivity.
Qed.

Lemma first_fit_none size blocks i :
  Forall (fun b => VM.HeapBlock.allocated b = true) blocks ->
  VM.first_fit size blocks i = None.
Proof.
  intros H. revert i. induction H as [|b rest Hb _ IH]; intros i.
  - reflexivity.
  - cbn. rewrite Hb. cbn. apply IH.
Qed.

Lemma find_allocated_lookup off blocks k i b :
  VM.find_allocated off blocks k = Some (i, b) ->
  (k <= i)%nat /\ blocks !! (i - k)%nat = Some b.
Proof.
  revert k. induction blocks as [|b0 rest IH]; intros k H.
  - discriminate H.
  - cbn in H.
    destruct ((VM.HeapBlock.start b0 =? off) && VM.HeapBlock.allocated b0).
    + injection H as <- <-. split; [lia|].
      replace (k - k)%nat with 0%nat by lia. reflexivity.
    + destruct (IH _ H) as [Hle Hl]. split; [lia|].
      replace (i - k)%nat with (S (i - S k)) by lia. exact Hl.
Qed.


Lemma ensure_heap_blocks e s :
  VM.heap_blocks (VM.ensure_heap e s) = VM.heap_blocks s.
Proof. unfold VM.ensure_heap. destruct (_ <? _); reflexivity. Qed.

(** An allocation on a list of allocated blocks appends a block at the
    end of the chain. *)
Lemma allocateHeap_appends size s :
  all_allocated (VM.heap_blocks s) ->
  0 < size ->
  sum_sizes (block_sizes (VM.heap_blocks s)) + size < 2 ^ 64 ->
  all_allocated (VM.heap_blocks (snd (VM.allocateHeap size s)))
  /\ block_sizes (VM.heap_blocks (snd (VM.allocateHeap size s)))
     = block_sizes (VM.heap_blocks s) ++ [size].
Proof.
  intros [Hc Ha] Hpos Hsum.
  unfold VM.allocateHeap. rewrite (first_fit_none _ _ _ Ha).
  cbn [snd]. cbn [VM.heap_blocks VM.set_heap_blocks].
  rewrite ensure_heap_blocks.
  pose proof (chain_sizes_nonneg _ _ Hc) as Hnn.
  set (new_start := match last (VM.heap_blocks s) with
                    | Some l => size_t (VM.HeapBlock.start l
                                        + VM.HeapBlock.size l)
                    | None => 0
                    end).
  assert (Hstart : new_start = sum_sizes (block_sizes (VM.heap_blocks s))).
  { subst new_start. destruct (last (VM.heap_blocks s)) as [l|] eqn:El.
    - rewrite (chain_last _ _ _ Hc El). apply size_t_id. lia.
    - apply last_None in El. rewrite El. reflexivity. }
  split; [split|].
  - apply chain_snoc; [exact Hc | cbn; lia | exact Hpos].
  - apply Forall_app. split; [exact Ha|]. repeat constructor.
  - unfold block_sizes. rewrite map_app. reflexivity.
Qed.

Lemma alloc_all_cons size sizes s :
  snd (Heap.alloc_all (size :: sizes) s)
  = snd (Heap.alloc_all sizes (snd (VM.allocateHeap (size_t size) s))).
Proof.
  cbn [Heap.alloc_all].
  destruct (VM.allocateHeap (size_t size) s) as [addr s1]. cbn [snd].
  destruct (Heap.alloc_all sizes s1) as [addrs s2]. reflexivity.
Qed.

Lemma sum_sizes_app xs ys :
  sum_sizes (xs ++ ys) = sum_sizes xs + sum_sizes ys.
Proof.
  induction xs as [|x xs IH]; [reflexivity|].
  change (sum_sizes ((x :: xs) ++ ys)) with (x + sum_sizes (xs ++ ys)).
  change (sum_sizes (x :: xs)) with (x + sum_sizes xs).
  rewrite IH. lia.
Qed.

Lemma alloc_all_appends sizes s :
  all_allocated (VM.heap_blocks s) ->
  Forall (fun size => 0 < size <= INT32_MAX) sizes ->
  sum_sizes (block_sizes (VM.heap_blocks s)) + sum_sizes sizes < 2 ^ 64 ->
  all_allocated (VM.heap_blocks (snd (Heap.alloc_all sizes s)))
  /\ block_sizes (VM.heap_blocks (snd (Heap.alloc_all sizes s)))
     = block_sizes (VM.heap_blocks s) ++ sizes.
Proof.
  intros Hs Hall. revert s Hs.
  induction Hall as [|size sizes Hsize Hall IH]; intros s Hs Hsum.
  - cbn [Heap.alloc_all snd]. rewrite app_nil_r. split; [exact Hs|reflexivity].
  - rewrite alloc_all_cons.
    assert (Hnn : 0 <= sum_sizes sizes).
    { clear -Hall. induction Hall as [|x xs Hx _ IHx]; [cbn; lia|].
      change (sum_sizes (x :: xs)) with (x + sum_sizes xs). lia. }
    change (sum_sizes (size :: sizes)) with (size + sum_sizes sizes) in Hsum.
    unfold INT32_MAX in Hsize.
    destruct Hs as [Hc Ha].
    pose proof (chain_sizes_nonneg _ _ Hc) as Hnb.
    rewrite (size_t_id size) by lia.
    destruct (allocateHeap_appends size s (conj Hc Ha)) as [Hs1 Hb1];
      [lia | lia |].
    destruct (IH _ Hs1) as [Hs2 Hb2].
    { rewrite Hb1, sum_sizes_app. cbn [sum_sizes fold_right]. lia. }
    split; [exact Hs2|].
    rewrite Hb2, Hb1, <- app_assoc. reflexivity.
Qed.

(** A release keeps the chain and the sizes. *)
Lemma freeHeap_keeps_chain addr s :
  Heap.chain 0 (VM.heap_blocks s) ->
  Heap.chain 0 (VM.heap_blocks (VM.freeHeap addr s))
  /\ block_sizes (VM.heap_blocks (VM.freeHeap addr s))
     = block_sizes (VM.heap_blocks s).
Proof.
  intros Hc. unfold VM.freeHeap.
  destruct (negb (VM.isHeapAddress addr s)); [split; [exact Hc|reflexivity]|].
  destruct (VM.find_allocated _ _ _) as [[i b]|] eqn:E;
    [|split; [exact Hc|reflexivity]].
  destruct (find_allocated_lookup _ _ _ _ _ E) as [_ Hl].
  rewrite Nat.sub_0_r in Hl.
  cbn [VM.heap_blocks VM.set_heap VM.set_heap_blocks].
  apply chain_release; assumption.
Qed.

Lemma free_all_keeps_chain frees s :
  Heap.chain 0 (VM.heap_blocks s) ->
  Heap.chain 0 (VM.heap_blocks (Heap.free_all frees s))
  /\ block_sizes (VM.heap_blocks (Heap.free_all frees s))
     = block_sizes (VM.heap_blocks s).
Proof.
  revert s. induction frees as [|addr frees IH]; intros s Hc.
  - split; [exact Hc|reflexivity].
  - destruct (freeHeap_keeps_chain addr s Hc) as [Hc1 Hb1].
    destruct (IH _ Hc1) as [Hc2 Hb2].
    cbn [Heap.free_all fold_left]. split; [exact Hc2|].
    unfold Heap.free_all in Hb2. rewrite Hb2. exact Hb1.
Qed.

(** C3. On a machine whose block list is empty, after the allocations of
    the positive sizes [sizes], in this order, and then the release of the
    addresses [frees], whatever they are (in particular a subset of the
    addresses returned), the blocks of the list partition [0, max_end):
    every cell of the range lies in a block and no two blocks share a
    cell; hence a cell belongs to at most one allocated block. The blocks
    have the sizes asked for, in the order of the allocations, and
    [max_end] is their sum. The sizes are those that [ALLOC] accepts,
    positive 32-bit integers, and their sum fits in a [size_t]. *)
Theorem heap_blocks_partition_the_heap
  (s0 : VM.VirtualMachine) (sizes frees : list Z) :
  VM.heap_blocks s0 = [] ->
  Forall (fun size => 0 < size <= INT32_MAX) sizes ->
  sum_sizes sizes < 2 ^ 64 ->
  let blocks :=
    VM.heap_blocks (Heap.free_all frees (snd (Heap.alloc_all sizes s0))) in
  Heap.partition blocks
  /\ Heap.single_owner blocks
  /\ block_sizes blocks = sizes
  /\ Heap.max_end blocks = sum_sizes sizes.
Proof.
  intros Hempty Hsizes Hsum blocks.
  destruct (alloc_all_appends sizes s0) as [[Hc1 _] Hb1].
  { rewrite Hempty. split; [exact I | constructor]. }
  { exact Hsizes. }
  { rewrite Hempty. cbn. exact Hsum. }
  destruct (free_all_keeps_chain frees _ Hc1) as [Hc2 Hb2].
  fold blocks in Hc2, Hb2.
  rewrite Hempty in Hb1. cbn [block_sizes map app] in Hb1.
  fold (block_sizes (VM.heap_blocks (snd (Heap.alloc_all sizes s0)))) in Hb1.
  destruct (chain_partition _ Hc2) as [Hp Ho].
  assert (Hbs : block_sizes blocks = sizes) by (rewrite Hb2; exact Hb1).
  repeat split; try assumption; try apply Hp.
  destruct blocks as [|b rest] eqn:Eb.
  - rewrite <- Hbs. reflexivity.
  - rewrite (chain_max_end 0); [|lia|exact Hc2|congruence].
    rewrite Hbs. lia.
Qed.

Lemma heap_blocks_partition_the_heap_witness :
  Heap.partition
    (VM.heap_blocks
       (Heap.free_all [10000] (snd (Heap.alloc_all [3; 2] VM.new_vm))))
  /\ VM.heap_blocks
       (Heap.free_all [10000] (snd (Heap.alloc_all [3; 2] VM.new_vm)))
     = [VM.HeapBlock.mk 0 3 false; VM.HeapBlock.mk 3 2 true].
Proof.
  split; [|vm_compute; reflexivity].
  apply (heap_blocks_partition_the_heap VM.new_vm [3; 2] [10000]).
  - reflexivity.
  - repeat constructor; vm_compute; congruence.
  - reflexivity.
Defined.

(** ** The string table *)

Lemma index_of_Some str table k i :
  CodeGen.index_of str table k = Some i ->
  k <= i < k + vsize table /\ table !! Z.to_nat (i - k) = Some str.
Proof.
  revert k. induction table as [|s rest IH]; intros k H.
  - discriminate H.
  - cbn [CodeGen.index_of] in H. unfold vsize. cbn [length].
    destruct (String.eqb s str) eqn:E.
    + injection H as <-. apply String.eqb_eq in E. subst s.
      replace (k - k) with 0 by lia. split; [lia | reflexivity].
    + destruct (IH _ H) as [Hb Hl]. unfold vsize in Hb. split; [lia|].
      replace (Z.to_nat (i - k)) with (S (Z.to_nat (i - (k + 1)))) by lia.
      exact Hl.
Qed.

Lemma index_of_None str table k :
  CodeGen.index_of str table k = None -> str ∉ table.
Proof.
  revert k. induction table as [|s rest IH]; intros k H.
  - apply not_elem_of_nil.
  - cbn [CodeGen.index_of] in H. destruct (String.eqb s str) eqn:E;
      [discriminate H|].
    apply String.eqb_neq in E. apply not_elem_of_cons. split.
    + congruence.
    + exact (IH _ H).
Qed.

Lemma index_of_new str table k :
  CodeGen.index_of str table k = None ->
  CodeGen.index_of str (table ++ [str]) k = Some (k + vsize table).
Proof.
  revert k. induction table as [|s rest IH]; intros k H.
  - cbn. rewrite String.eqb_refl. f_equal. unfold vsize. cbn. lia.
  - cbn [CodeGen.index_of app] in *. destruct (String.eqb s str);
      [discriminate H|].
    rewrite (IH _ H). f_equal. unfold vsize. cbn [length]. lia.
Qed.

Lemma addString_again str cg :
  CodeGen.addString str (snd (CodeGen.addString str cg))
  = CodeGen.addString str cg.
Proof.
  unfold CodeGen.addString.
  destruct (CodeGen.index_of str (CodeGen.string_table cg) 0) as [i|] eqn:E.
  - cbn [snd]. rewrite E. reflexivity.
  - cbn [snd CodeGen.string_table CodeGen.set_string_table].
    rewrite (index_of_new _ _ _ E). f_equal. f_equal.
    unfold vsize. rewrite length_app. cbn [length]. lia.
Qed.

Lemma addString_index str cg :
  vsize (CodeGen.string_table cg) < 2 ^ 31 ->
  CodeGen.string_table (snd (CodeGen.addString str cg))
    !! Z.to_nat (fst (CodeGen.addString str cg))
  = Some str.
Proof.
  intros Hsz. unfold CodeGen.addString.
  destruct (CodeGen.index_of str (CodeGen.string_table cg) 0) as [i|] eqn:E.
  - cbn [fst snd]. destruct (index_of_Some _ _ _ _ E) as [Hb Hl].
    rewrite int32_id by (unfold is_int32, INT32_MIN, INT32_MAX; lia).
    rewrite Z.sub_0_r in Hl. exact Hl.
  - cbn [fst snd CodeGen.string_table CodeGen.set_string_table].
    unfold vsize in *. rewrite length_app. cbn [length].
    rewrite int32_id by (unfold is_int32, INT32_MIN, INT32_MAX; lia).
    replace (Z.to_nat (Z.of_nat (length (CodeGen.string_table cg) + 1) - 1))
      with (length (CodeGen.string_table cg) + 0)%nat by lia.
    rewrite lookup_app_r by lia.
    replace (length (CodeGen.string_table cg) + 0
             - length (CodeGen.string_table cg))%nat with 0%nat by lia.
    reflexivity.
Qed.

Lemma addString_table str cg :
  CodeGen.string_table (snd (CodeGen.addString str cg))
  = if bool_decide (str ∈ CodeGen.string_table cg)
    then CodeGen.string_table cg
    else CodeGen.string_table cg ++ [str].
Proof.
  unfold CodeGen.addString.
  destruct (CodeGen.index_of str (CodeGen.string_table cg) 0) as [i|] eqn:E.
  - destruct (index_of_Some _ _ _ _ E) as [_ Hl].
    apply list_elem_of_lookup_2 in Hl.
    rewrite bool_decide_eq_true_2 by exact Hl. reflexivity.
  - apply index_of_None in E.
    rewrite bool_decide_eq_false_2 by exact E. reflexivity.
Qed.

Lemma addString_bytecode str cg :
  CodeGen.bytecode (snd (CodeGen.addString str cg)) = CodeGen.bytecode cg.
Proof.
  unfold CodeGen.addString.
  destruct (CodeGen.index_of _ _ _); reflexivity.
Qed.

Lemma addString_NoDup str cg :
  NoDup (CodeGen.string_table cg) ->
  NoDup (CodeGen.string_table (snd (CodeGen.addString str cg))).
Proof.
  intros Hnd. rewrite addString_table.
  destruct (bool_decide_reflect (str ∈ CodeGen.string_table cg)) as [Hin|Hout].
  - exact Hnd.
  - apply NoDup_app. split; [exact Hnd|]. split.
    + intros x Hx Hx'. apply list_elem_of_singleton in Hx'. congruence.
    + apply NoDup_singleton.
Qed.

Lemma add_strings_NoDup strs cg :
  NoDup (CodeGen.string_table cg) ->
  NoDup (CodeGen.string_table (add_strings strs cg)).
Proof.
  revert cg. induction strs as [|str strs IH]; intros cg Hnd.
  - exact Hnd.
  - apply (IH (snd (CodeGen.addString str cg))).
    apply addString_NoDup. exact Hnd.
Qed.

(** The table holds strings that were added, and the code is left as it
    was. *)
Lemma add_strings_table strs cg :
  (forall str, str ∈ CodeGen.string_table (add_strings strs cg) ->
               str ∈ CodeGen.string_table cg \/ str ∈ strs)
  /\ CodeGen.bytecode (add_strings strs cg) = CodeGen.bytecode cg.
Proof.
  revert cg. induction strs as [|str0 strs IH]; intros cg.
  - split; [intros str H; left; exact H | reflexivity].
  - destruct (IH (snd (CodeGen.addString str0 cg))) as [Hin Hcode].
    split.
    + intros str H. destruct (Hin str H) as [H1|H1].
      * rewrite addString_table in H1.
        destruct (bool_decide _); [left; exact H1|].
        apply elem_of_app in H1. destruct H1 as [H1|H1]; [left; exact H1|].
        apply list_elem_of_singleton in H1. subst. right. apply elem_of_cons. left. reflexivity.
      * right. apply elem_of_cons. right. exact H1.
    + change (add_strings (str0 :: strs) cg)
        with (add_strings strs (snd (CodeGen.addString str0 cg))).
      rewrite Hcode. apply addString_bytecode.
Qed.

(** ** The bytecode file *)

Lemma read_bytes_app bytes rest :
  VM.read_bytes (vsize bytes) (bytes ++ rest) = Some (bytes, rest).
Proof.
  unfold VM.read_bytes, vsize. rewrite length_app.
  destruct (Z.ltb_spec (Z.of_nat (length bytes + length rest))
              (Z.of_nat (length bytes))) as [H|H]; [lia|].
  rewrite Nat2Z.id, take_app_length, drop_app_length. reflexivity.
Qed.

Lemma read_uint32_write v rest :
  0 <= v < 2 ^ 32 ->
  VM.read_uint32 (CodeGen.write_uint32 v ++ rest) = Some (v, rest).
Proof.
  intros Hv. unfold VM.read_uint32, CodeGen.write_uint32.
  destruct (le_bytes32_value (uint32 v)) as (b0 & b1 & b2 & b3 & Hb & Hval).
  rewrite Hb.
  change 4 with (vsize [b0; b1; b2; b3]). rewrite read_bytes_app.
  rewrite Hval, uint32_id by exact Hv.
  rewrite Z.mod_small by exact Hv. reflexivity.
Qed.

Lemma char_roundtrip c : ascii_of_N (Z.to_N (char_code c)) = c.
Proof. unfold char_code. rewrite N2Z.id. apply ascii_N_embedding. Qed.

Lemma string_roundtrip str :
  VM.string_of_bytes (CodeGen.bytes_of_string str) = str.
Proof.
  unfold VM.string_of_bytes, CodeGen.bytes_of_string.
  rewrite map_map.
  rewrite (map_ext _ (fun c => c)) by (intros c; apply char_roundtrip).
  rewrite map_id. apply string_of_list_ascii_of_string.
Qed.

Lemma bytes_of_string_size str :
  vsize (CodeGen.bytes_of_string str) = slength str.
Proof.
  unfold vsize, CodeGen.bytes_of_string, slength.
  rewrite length_map. f_equal.
  induction str as [|c str IH]; [reflexivity|]. cbn. f_equal. exact IH.
Qed.

(** The loader reads a record of the string table as it was written. *)
Lemma read_string_record str rest :
  slength str < 2 ^ 32 ->
  exists bytes,
    VM.read_uint32 (CodeGen.string_record str ++ rest)
    = Some (vsize bytes, bytes ++ rest)
    /\ VM.string_of_bytes bytes = str.
Proof.
  intros Hlen. exists (CodeGen.bytes_of_string str).
  assert (H0 : 0 <= slength str) by (unfold slength; lia).
  unfold CodeGen.string_record. rewrite uint32_id by lia.
  pose proof (bytes_of_string_size str) as Hsize.
  rewrite take_ge by (unfold vsize in Hsize; lia).
  rewrite <- app_assoc, read_uint32_write by lia.
  rewrite Hsize. split; [reflexivity | apply string_roundtrip].
Qed.

Lemma read_strings_table strs :
  forall (fuel : nat) (rest : list Z) (s : VM.VirtualMachine),
    Forall (fun str => slength str < 2 ^ 32) strs ->
    (length strs <= fuel)%nat ->
    exists s',
      VM.read_strings fuel (vsize strs)
        (concat (map CodeGen.string_record strs) ++ rest) s
      = (s', rest, true)
      /\ VM.string_table s' = VM.string_table s ++ strs.
Proof.
  induction strs as [|str strs IH]; intros fuel rest s Hall Hfuel.
  - exists s. destruct fuel; cbn; rewrite app_nil_r; split; reflexivity.
  - inversion Hall as [|? ? Hstr Hrest]; subst.
    destruct fuel as [|fuel]; [cbn in Hfuel; lia|].
    cbn [VM.read_strings].
    assert (Hc : (vsize (str :: strs) <=? 0) = false).
    { apply Z.leb_gt. unfold vsize. cbn [length]. lia. }
    rewrite Hc. cbn [map concat]. rewrite <- app_assoc.
    destruct (read_string_record str
                (concat (map CodeGen.string_record strs) ++ rest) Hstr)
      as (bytes & Hread & Hbytes).
    rewrite Hread, read_bytes_app, Hbytes.
    replace (vsize (str :: strs) - 1) with (vsize strs)
      by (unfold vsize; cbn [length]; lia).
    destruct (IH fuel rest
                (VM.set_string_table (VM.string_table s ++ [str]) s)
                Hrest ltac:(cbn in Hfuel; lia)) as (s' & Hs' & Ht).
    exists s'. split; [exact Hs'|].
    rewrite Ht. cbn [VM.string_table VM.set_string_table].
    rewrite <- app_assoc. reflexivity.
Qed.

Lemma concat_records_length strs :
  (length strs <= length (concat (map CodeGen.string_record strs)))%nat.
Proof.
  induction strs as [|str strs IH]; [cbn; lia|].
  cbn [map concat length]. rewrite length_app.
  unfold CodeGen.string_record at 1. rewrite length_app.
  unfold CodeGen.write_uint32, le_bytes32. cbn [length]. lia.
Qed.

(** The loader reads the file of a generator back: its string table and
    its code. *)
Lemma loadFromFile_saveToFile name cg vm :
  vsize (CodeGen.string_table cg) < 2 ^ 32 ->
  Forall (fun str => slength str < 2 ^ 32) (CodeGen.string_table cg) ->
  vsize (CodeGen.bytecode cg) < 2 ^ 32 ->
  exists vm',
    VM.loadFromFile name (Some (CodeGen.saveToFile cg)) vm = (true, vm')
    /\ VM.string_table vm' = CodeGen.string_table cg
    /\ VM.bytecode vm' = CodeGen.bytecode cg.
Proof.
  intros Hcount Hstrs Hcode.
  unfold VM.loadFromFile, CodeGen.saveToFile.
  rewrite read_uint32_write by (unfold vsize in *; lia).
  set (tail := CodeGen.write_uint32 (vsize (CodeGen.bytecode cg))
               ++ CodeGen.bytecode cg).
  destruct (read_strings_table (CodeGen.string_table cg)
              (S (length (concat (map CodeGen.string_record
                                    (CodeGen.string_table cg)) ++ tail)))
              tail (VM.set_string_table [] vm) Hstrs)
    as (s' & Hs' & Ht).
  { rewrite length_app.
    pose proof (concat_records_length (CodeGen.string_table cg)). lia. }
  rewrite Hs'. cbn [negb]. subst tail.
  rewrite read_uint32_write by (unfold vsize in *; lia).
  pose proof (read_bytes_app (CodeGen.bytecode cg) []) as Hcode'.
  rewrite app_nil_r in Hcode'. rewrite Hcode'.
  eexists. split; [reflexivity|]. split.
  - cbn. exact Ht.
  - reflexivity.
Qed.

Lemma on_disk_table_saved cg :
  vsize (CodeGen.string_table cg) < 2 ^ 32 ->
  Forall (fun str => slength str < 2 ^ 32) (CodeGen.string_table cg) ->
  vsize (CodeGen.bytecode cg) < 2 ^ 32 ->
  on_disk_table cg = Some (CodeGen.string_table cg).
Proof.
  intros H1 H2 H3. unfold on_disk_table.
  destruct (loadFromFile_saveToFile "a.out" cg VM.new_vm H1 H2 H3)
    as (vm' & Hload & Ht & _).
  rewrite Hload, Ht. reflexivity.
Qed.

(** C8. [addString] twice on the same string returns the same index, the
    position of the string in the table counted from 0, and the second
    call leaves the generator as it is. After any sequence of [addString]
    calls on a generator whose table was empty, a string occurs at most
    once in the table; and the table of the file that [saveToFile]
    writes, read back by the loader, is that table, so that a string
    occurs at most once in it too. The sizes are those that the file
    format holds: 32-bit counts and lengths. *)
Theorem add_string_deduplicates :
  (forall (str : string) (cg : CodeGen.CodeGenerator),
      fst (CodeGen.addString str (snd (CodeGen.addString str cg)))
      = fst (CodeGen.addString str cg)
      /\ snd (CodeGen.addString str (snd (CodeGen.addString str cg)))
         = snd (CodeGen.addString str cg))
  /\ (forall (str : string) (cg : CodeGen.CodeGenerator),
         vsize (CodeGen.string_table cg) < 2 ^ 31 ->
         CodeGen.string_table (snd (CodeGen.addString str cg))
           !! Z.to_nat (fst (CodeGen.addString str cg))
         = Some str)
  /\ (forall (cg : CodeGen.CodeGenerator) (strs : list string)
        (str : string),
         CodeGen.string_table cg = [] ->
         (occurrences str (CodeGen.string_table (add_strings strs cg)) <= 1)%nat
         /\ (vsize strs < 2 ^ 32 ->
             Forall (fun str => slength str < 2 ^ 32) strs ->
             vsize (CodeGen.bytecode cg) < 2 ^ 32 ->
             exists table : list string,
               on_disk_table (add_strings strs cg) = Some table
               /\ table = CodeGen.string_table (add_strings strs cg)
               /\ (occurrences str table <= 1)%nat)).
Proof.
  split; [|split].
  - intros str cg. rewrite addString_again. split; reflexivity.
  - exact addString_index.
  - intros cg strs str Hempty.
    assert (Hnd : NoDup (CodeGen.string_table (add_strings strs cg))).
    { apply add_strings_NoDup. rewrite Hempty. apply NoDup_nil_2. }
    assert (Hocc : (occurrences str
                      (CodeGen.string_table (add_strings strs cg)) <= 1)%nat).
    { unfold occurrences. apply NoDup_count_occ.
      apply NoDup_ListNoDup. exact Hnd. }
    split; [exact Hocc|].
    intros Hcount Hlens Hcode.
    destruct (add_strings_table strs cg) as [Hin Hbc].
    exists (CodeGen.string_table (add_strings strs cg)).
    split; [|split; [reflexivity | exact Hocc]].
    apply on_disk_table_saved.
    + assert (Hsub : CodeGen.string_table (add_strings strs cg) ⊆ strs).
      { intros x Hx. destruct (Hin x Hx) as [H|H]; [|exact H].
        rewrite Hempty in H. apply elem_of_nil in H. contradiction. }
      pose proof (submseteq_length _ _
                    (NoDup_submseteq _ _ Hnd Hsub)) as Hle.
      unfold vsize in *. lia.
    + apply Forall_forall. intros x Hx.
      destruct (Hin x Hx) as [H|H].
      * rewrite Hempty in H. apply elem_of_nil in H. contradiction.
      * rewrite Forall_forall in Hlens. exact (Hlens x H).
    + rewrite Hbc. exact Hcode.
Qed.

Lemma add_string_deduplicates_witness :
  CodeGen.string_table
    (snd (CodeGen.addString "a" (add_strings ["a"; "b"]%string
                                   CodeGen.new_generator)))
    !! Z.to_nat
         (fst (CodeGen.addString "a" (add_strings ["a"; "b"]%string
                                        CodeGen.new_generator)))
  = Some "a"%string
  /\ (occurrences "a"
        (CodeGen.string_table
           (add_strings ["a"; "b"; "a"]%string CodeGen.new_generator))
      <= 1)%nat
  /\ on_disk_table (add_strings ["a"; "b"; "a"]%string CodeGen.new_generator)
     = Some ["a"; "b"]%string.
Proof.
  destruct add_string_deduplicates as (_ & Hidx & Htable).
  split; [|split].
  - apply Hidx. vm_compute. reflexivity.
  - apply (Htable CodeGen.new_generator ["a"; "b"; "a"]%string "a"%string).
    reflexivity.
  - destruct (Htable CodeGen.new_generator ["a"; "b"; "a"]%string
                "a"%string eq_refl) as [_ Hdisk].
    destruct Hdisk as (table & Hload & Htab & _).
    + vm_compute. reflexivity.
    + repeat constructor.
    + vm_compute. reflexivity.
    + rewrite Hload, Htab. reflexivity.
Defined.

(* ===================================================================== *)
(** * Further properties                                                  *)
(* ===================================================================== *)

(** ** Objects *)

(** X1. The object table: a new object gets the identifier
    [next_object_id], which no later object gets while the counter is
    below [INT32_MAX]; a field that was set reads back as its value and a
    field that was not set as 0, other fields and other objects being
    left as they are; on an identifier that is not in the table [setField]
    and [getField] stop the machine with "Invalid object ID" and
    [getField] answers 0. *)
Theorem object_fields_round_trip :
  (forall (s : VM.VirtualMachine) (c1 c2 : string),
      INT32_MIN <= VM.next_object_id s < INT32_MAX ->
      let r1 := createObject c1 s in
      let r2 := createObject c2 (snd r1) in
      fst r1 = VM.next_object_id s
      /\ fst r2 = VM.next_object_id s + 1
      /\ VM.objects (snd r2) !! fst r1 = Some (VM.VMObject.mk c1 ∅)
      /\ VM.objects (snd r2) !! fst r2 = Some (VM.VMObject.mk c2 ∅))
  /\ (forall (s : VM.VirtualMachine) (id : Z) (obj : VM.VMObject.t)
        (field : string) (value : Z),
         VM.objects s !! id = Some obj ->
         getField id field (setField id field value s)
         = (value, setField id field value s)
         /\ VM.error_flag (setField id field value s) = VM.error_flag s
         /\ (forall (id' : Z) (field' : string),
                (id', field') <> (id, field) ->
                fst (getField id' field' (setField id field value s))
                = fst (getField id' field' s)))
  /\ (forall (s : VM.VirtualMachine) (id : Z) (obj : VM.VMObject.t)
        (field : string),
         VM.objects s !! id = Some obj ->
         VM.VMObject.fields obj !! field = None ->
         getField id field s = (0, s))
  /\ (forall (s : VM.VirtualMachine) (id : Z) (field : string) (value : Z),
         VM.objects s !! id = None ->
         failed_with "Invalid object ID" (setField id field value s)
         /\ VM.objects (setField id field value s) = VM.objects s
         /\ fst (getField id field s) = 0
         /\ failed_with "Invalid object ID" (snd (getField id field s))).
Proof.
  split; [|split; [|split]].
  - intros s c1 c2 Hmax r1 r2. subst r1 r2. unfold createObject.
    cbn [fst snd VM.next_object_id VM.set_next_object_id VM.set_objects
         VM.objects].
    rewrite int32_id by (unfold is_int32; lia).
    repeat split.
    + rewrite lookup_insert_ne by lia. apply lookup_insert_eq.
    + apply lookup_insert_eq.
  - intros s id obj field value Hobj. unfold getField, setField.
    rewrite Hobj. cbn [VM.objects VM.set_objects VM.error_flag].
    rewrite lookup_insert_eq. cbn [VM.VMObject.fields].
    rewrite lookup_insert_eq. repeat split.
    intros id' field' Hne. cbn [fst].
    destruct (decide (id' = id)) as [->|Hid].
    + rewrite lookup_insert_eq, Hobj. cbn [fst VM.VMObject.fields].
      rewrite lookup_insert_ne by congruence. reflexivity.
    + rewrite lookup_insert_ne by congruence.
      destruct (VM.objects s !! id'); reflexivity.
  - intros s id obj field Hobj Hfield. unfold getField.
    rewrite Hobj, Hfield. reflexivity.
  - intros s id field value Hobj. unfold getField, setField, failed_with.
    rewrite Hobj. repeat split.
Qed.

Lemma object_fields_round_trip_witness :
  let s := snd (createObject "Point" VM.new_vm) in
  getField 1 "x" (setField 1 "x" 7 s) = (7, setField 1 "x" 7 s)
  /\ getField 1 "y" s = (0, s)
  /\ failed_with "Invalid object ID" (setField 2 "x" 7 s)
  /\ fst (createObject "Point" s) = 2.
Proof.
  intros s.
  destruct object_fields_round_trip as (Hnew & Hset & Hunset & Hbad).
  split; [|split; [|split]].
  - apply (Hset s 1 (VM.VMObject.mk "Point" ∅) "x"%string 7). reflexivity.
  - apply (Hunset s 1 (VM.VMObject.mk "Point" ∅) "y"%string); reflexivity.
  - apply (Hbad s 2 "x"%string 7). reflexivity.
  - destruct (Hnew VM.new_vm "Point"%string "Point"%string) as (_ & H2 & _).
    + vm_compute. split; [discriminate | reflexivity].
    + exact H2.
Defined.

(** ** Static memory and heap cells *)

Lemma vsize_resize {A : Type} (n : Z) (x : A) (l : list A) :
  0 <= n -> vsize (resize n x l) = n.
Proof.
  intros Hn. unfold vsize, resize.
  rewrite length_app, length_take, length_replicate. lia.
Qed.

Lemma vget_resize (n : Z) (l : list Z) (j : Z) :
  vsize l <= n -> VM.vget (resize n 0 l) j = VM.vget l j.
Proof.
  intros Hn. unfold VM.vget, resize, vsize in *.
  rewrite take_ge by lia.
  destruct (decide (Z.to_nat j < length l)%nat) as [Hj|Hj].
  - rewrite lookup_app_l by exact Hj. reflexivity.
  - rewrite lookup_app_r by lia.
    rewrite (lookup_ge_None_2 l) by lia.
    destruct (replicate _ 0 !! _) as [x|] eqn:E; [|reflexivity].
    apply lookup_replicate in E as [-> _]. reflexivity.
Qed.

Lemma vget_vset_eq (l : list Z) (i v : Z) :
  0 <= i < vsize l -> VM.vget (VM.vset i v l) i = v.
Proof.
  intros Hi. unfold VM.vget, VM.vset, vsize in *.
  rewrite list_lookup_insert_eq by lia. reflexivity.
Qed.

Lemma vget_vset_ne (l : list Z) (i j v : Z) :
  0 <= i -> 0 <= j -> i <> j -> VM.vget (VM.vset i v l) j = VM.vget l j.
Proof.
  intros Hi Hj Hne. unfold VM.vget, VM.vset.
  rewrite list_lookup_insert_ne by lia. reflexivity.
Qed.

Lemma vsize_vset {A : Type} (l : list A) (i : Z) (v : A) :
  vsize (VM.vset i v l) = vsize l.
Proof. unfold vsize, VM.vset. rewrite length_insert. reflexivity. Qed.

(** The cell of the address [addr]: the value that [loadMemory] answers,
    0 when it reports an error. *)
Lemma loadMemory_cell (s : VM.VirtualMachine) (addr : Z) :
  0 <= addr <= INT32_MAX ->
  0 <= VM.heap_start_addr s <= INT32_MAX ->
  fst (VM.loadMemory addr s)
  = if VM.heap_start_addr s <=? addr
    then VM.vget (VM.heap s) (addr - VM.heap_start_addr s)
    else VM.vget (VM.memory s) addr.
Proof.
  intros Ha Hh. unfold INT32_MAX in *. unfold VM.loadMemory, VM.isHeapAddress.
  destruct (Z.ltb_spec addr 0); [lia|].
  rewrite int32_id by (unfold is_int32, INT32_MIN, INT32_MAX; lia).
  destruct (Z.leb_spec (VM.heap_start_addr s) addr).
  - rewrite size_t_id by lia.
    destruct (Z.leb_spec (vsize (VM.heap s)) (addr - VM.heap_start_addr s));
      [|reflexivity].
    cbn [fst]. unfold VM.vget, vsize in *.
    rewrite lookup_ge_None_2 by lia. reflexivity.
  - rewrite size_t_id by lia.
    destruct (Z.leb_spec (vsize (VM.memory s)) addr); [|reflexivity].
    cbn [fst]. unfold VM.vget, vsize in *.
    rewrite lookup_ge_None_2 by lia. reflexivity.
Qed.

(** X2. A value stored at an address that is not negative is the value
    loaded from it, whether the address lies in the static memory or in
    the heap and whether or not the store had to grow the vector; the
    store raises no error and changes the value of no other address. *)
Theorem memory_store_then_load (s : VM.VirtualMachine) (addr value : Z) :
  0 <= addr <= INT32_MAX ->
  0 <= VM.heap_start_addr s <= INT32_MAX ->
  let s1 := VM.storeMemory addr value s in
  VM.loadMemory addr s1 = (value, s1)
  /\ VM.error_flag s1 = VM.error_flag s
  /\ VM.halted s1 = VM.halted s
  /\ (forall addr' : Z,
         0 <= addr' <= INT32_MAX -> addr' <> addr ->
         fst (VM.loadMemory addr' s1) = fst (VM.loadMemory addr' s)).
Proof.
  intros Ha Hh s1.
  assert (Hhs : VM.heap_start_addr s1 = VM.heap_start_addr s).
  { subst s1. unfold VM.storeMemory.
    repeat match goal with
           | |- context [if ?c then _ else _] => destruct c
           end; reflexivity. }
  assert (Hflags : VM.error_flag s1 = VM.error_flag s
                   /\ VM.halted s1 = VM.halted s).
  { subst s1. unfold VM.storeMemory.
    destruct (Z.ltb_spec addr 0); [lia|].
    repeat match goal with
           | |- context [if ?c then _ else _] => destruct c
           end; split; reflexivity. }
  unfold INT32_MAX in *.
  (* the two vectors after the store *)
  assert (Hcells :
            if VM.heap_start_addr s <=? addr
            then VM.memory s1 = VM.memory s
                 /\ addr - VM.heap_start_addr s < vsize (VM.heap s1)
                 /\ (forall j, 0 <= j ->
                       VM.vget (VM.heap s1) j
                       = if decide (j = addr - VM.heap_start_addr s)
                         then value else VM.vget (VM.heap s) j)
            else VM.heap s1 = VM.heap s
                 /\ addr < vsize (VM.memory s1)
                 /\ (forall j, 0 <= j ->
                       VM.vget (VM.memory s1) j
                       = if decide (j = addr)
                         then value else VM.vget (VM.memory s) j)).
  { subst s1. unfold VM.storeMemory, VM.isHeapAddress.
    destruct (Z.ltb_spec addr 0); [lia|].
    rewrite int32_id by (unfold is_int32, INT32_MIN, INT32_MAX; lia).
    destruct (Z.leb_spec (VM.heap_start_addr s) addr).
    - rewrite (size_t_id (addr - VM.heap_start_addr s)) by lia.
      set (off := addr - VM.heap_start_addr s) in *.
      destruct (Z.leb_spec (vsize (VM.heap s)) off).
      + cbn [VM.memory VM.heap VM.set_heap].
        rewrite (size_t_id (off + 1024)) by lia.
        split; [reflexivity|]. split.
        * rewrite vsize_vset, vsize_resize by lia. lia.
        * intros j Hj. destruct (decide (j = off)) as [->|Hne].
          -- apply vget_vset_eq. rewrite vsize_resize by lia. lia.
          -- rewrite vget_vset_ne by lia. apply vget_resize. lia.
      + cbn [VM.memory VM.heap VM.set_heap].
        split; [reflexivity|]. split.
        * rewrite vsize_vset. lia.
        * intros j Hj. destruct (decide (j = off)) as [->|Hne].
          -- apply vget_vset_eq. lia.
          -- apply vget_vset_ne; lia.
    - rewrite (size_t_id addr) by lia.
      destruct (Z.leb_spec (vsize (VM.memory s)) addr).
      + cbn [VM.memory VM.heap VM.set_memory].
        rewrite (size_t_id (addr + 1024)) by lia.
        split; [reflexivity|]. split.
        * rewrite vsize_vset, vsize_resize by lia. lia.
        * intros j Hj. destruct (decide (j = addr)) as [->|Hne].
          -- apply vget_vset_eq. rewrite vsize_resize by lia. lia.
          -- rewrite vget_vset_ne by lia. apply vget_resize. lia.
      + cbn [VM.memory VM.heap VM.set_memory].
        split; [reflexivity|]. split.
        * rewrite vsize_vset. lia.
        * intros j Hj. destruct (decide (j = addr)) as [->|Hne].
          -- apply vget_vset_eq. lia.
          -- apply vget_vset_ne; lia. }
  split; [|split; [apply Hflags|split; [apply Hflags|]]].
  - unfold VM.loadMemory, VM.isHeapAddress. rewrite Hhs.
    destruct (Z.ltb_spec addr 0); [lia|].
    rewrite int32_id by (unfold is_int32, INT32_MIN, INT32_MAX; lia).
    destruct (Z.leb_spec (VM.heap_start_addr s) addr).
    + destruct Hcells as (_ & Hsz & Hget).
      rewrite size_t_id by lia.
      destruct (Z.leb_spec (vsize (VM.heap s1))
                  (addr - VM.heap_start_addr s)); [lia|].
      rewrite Hget by lia. rewrite decide_True by reflexivity. reflexivity.
    + destruct Hcells as (_ & Hsz & Hget).
      rewrite size_t_id by lia.
      destruct (Z.leb_spec (vsize (VM.memory s1)) addr); [lia|].
      rewrite Hget by lia. rewrite decide_True by reflexivity. reflexivity.
  - intros addr' Ha' Hne.
    rewrite !loadMemory_cell by (unfold INT32_MAX; rewrite ?Hhs; lia).
    rewrite Hhs.
    destruct (Z.leb_spec (VM.heap_start_addr s) addr');
      destruct (Z.leb_spec (VM.heap_start_addr s) addr);
      destruct Hcells as (Hother & _ & Hget).
    + rewrite Hget by lia. rewrite decide_False by lia. reflexivity.
    + rewrite Hother. reflexivity.
    + rewrite Hother. reflexivity.
    + rewrite Hget by lia. rewrite decide_False by lia. reflexivity.
Qed.

Lemma memory_store_then_load_witness :
  fst (VM.loadMemory 5000 (VM.storeMemory 5000 42 VM.new_vm)) = 42
  /\ fst (VM.loadMemory 10007 (VM.storeMemory 10007 42 VM.new_vm)) = 42
  /\ VM.error_flag (VM.storeMemory 5000 42 VM.new_vm) = false.
Proof.
  assert (B : forall a, 0 <= a <= 20000 -> 0 <= a <= INT32_MAX)
    by (unfold INT32_MAX; lia).
  destruct (memory_store_then_load VM.new_vm 5000 42) as (H1 & H2 & _);
    [apply B; lia | apply B; cbn; lia |].
  destruct (memory_store_then_load VM.new_vm 10007 42) as (H3 & _);
    [apply B; lia | apply B; cbn; lia |].
  rewrite H1, H3, H2. repeat split.
Defined.

(** X3. The errors of the memory: a negative address stops the machine
    with "Negative memory address" on a store and on a load, the store
    writing nothing; a load past the end of the static memory or of the
    heap vector stops it with "Memory access out of bounds" or "Heap
    memory access out of bounds" and answers 0, where a store to the same
    address grows the vector to 1024 cells past the address. *)
Theorem memory_access_errors (s : VM.VirtualMachine) (addr value : Z) :
  0 <= VM.heap_start_addr s <= INT32_MAX ->
  addr <= INT32_MAX ->
  (addr < 0 ->
   failed_with "Negative memory address" (VM.storeMemory addr value s)
   /\ VM.memory (VM.storeMemory addr value s) = VM.memory s
   /\ VM.heap (VM.storeMemory addr value s) = VM.heap s
   /\ fst (VM.loadMemory addr s) = 0
   /\ failed_with "Negative memory address" (snd (VM.loadMemory addr s)))
  /\ (0 <= addr < VM.heap_start_addr s -> vsize (VM.memory s) <= addr ->
      fst (VM.loadMemory addr s) = 0
      /\ failed_with "Memory access out of bounds"
           (snd (VM.loadMemory addr s))
      /\ vsize (VM.memory (VM.storeMemory addr value s)) = addr + 1024)
  /\ (VM.heap_start_addr s <= addr ->
      vsize (VM.heap s) <= addr - VM.heap_start_addr s ->
      fst (VM.loadMemory addr s) = 0
      /\ failed_with "Heap memory access out of bounds"
           (snd (VM.loadMemory addr s))
      /\ vsize (VM.heap (VM.storeMemory addr value s))
         = addr - VM.heap_start_addr s + 1024).
Proof.
  intros Hh Ha. unfold INT32_MAX in *.
  unfold VM.loadMemory, VM.storeMemory, VM.isHeapAddress, failed_with.
  rewrite int32_id by (unfold is_int32, INT32_MIN, INT32_MAX; lia).
  split; [|split].
  - intros Hneg. destruct (Z.ltb_spec addr 0); [|lia]. repeat split.
  - intros Hin Hout. destruct (Z.ltb_spec addr 0); [lia|].
    destruct (Z.leb_spec (VM.heap_start_addr s) addr); [lia|].
    rewrite (size_t_id addr) by lia.
    destruct (Z.leb_spec (vsize (VM.memory s)) addr); [|lia].
    repeat split. cbn [VM.memory VM.set_memory].
    rewrite vsize_vset, size_t_id, vsize_resize by lia. reflexivity.
  - intros Hin Hout. destruct (Z.ltb_spec addr 0); [lia|].
    destruct (Z.leb_spec (VM.heap_start_addr s) addr); [|lia].
    rewrite (size_t_id (addr - VM.heap_start_addr s)) by lia.
    destruct (Z.leb_spec (vsize (VM.heap s)) (addr - VM.heap_start_addr s));
      [|lia].
    repeat split. cbn [VM.heap VM.set_heap].
    rewrite vsize_vset, size_t_id, vsize_resize by lia. reflexivity.
Qed.

Lemma memory_access_errors_witness :
  failed_with "Negative memory address" (VM.storeMemory (-1) 7 VM.new_vm)
  /\ failed_with "Memory access out of bounds"
       (snd (VM.loadMemory 2000 VM.new_vm))
  /\ vsize (VM.memory (VM.storeMemory 2000 7 VM.new_vm)) = 3024
  /\ failed_with "Heap memory access out of bounds"
       (snd (VM.loadMemory 15000 VM.new_vm)).
Proof.
  assert (Hh : 0 <= VM.heap_start_addr VM.new_vm <= INT32_MAX)
    by (vm_compute; split; discriminate).
  destruct (memory_access_errors VM.new_vm (-1) 7 Hh) as (H1 & _);
    [vm_compute; discriminate|].
  destruct (memory_access_errors VM.new_vm 2000 7 Hh) as (_ & H2 & _);
    [vm_compute; discriminate|].
  destruct (memory_access_errors VM.new_vm 15000 7 Hh) as (_ & _ & H3);
    [vm_compute; discriminate|].
  destruct H1 as (E1 & _); [lia|].
  destruct H2 as (_ & E2 & E3);
    [cbn; lia | vm_compute; discriminate |].
  destruct H3 as (_ & E4 & _);
    [cbn; lia | vm_compute; discriminate |].
  split; [exact E1|]. split; [exact E2|]. split; [exact E3 | exact E4].
Defined.

(** ** Opcodes *)

(** X4. The numbering of the opcodes: every opcode is decoded from its
    own byte and from no other byte; on a byte that is no opcode the
    machine stops with the error "Unknown opcode: 0x" followed by the
    byte in decimal, the byte being consumed and the stack left as it
    is. *)
Theorem opcode_bytes_decode :
  (forall op : VM.VMOpcode, VM.decode_opcode (VM.opcode_byte op) = Some op)
  /\ (forall (b : Z) (op : VM.VMOpcode),
         VM.decode_opcode b = Some op -> VM.opcode_byte op = b)
  /\ (forall (s : VM.VirtualMachine) (b : Z),
         running s ->
         0 <= VM.instruction_pointer s ->
         VM.bytecode s !! Z.to_nat (VM.instruction_pointer s) = Some b ->
         VM.decode_opcode b = None ->
         failed_with ("Unknown opcode: 0x" ++ to_string b) (VM.step s)
         /\ VM.stack (VM.step s) = VM.stack s
         /\ VM.instruction_pointer (VM.step s)
            = size_t (VM.instruction_pointer s + 1)).
Proof.
  split; [|split].
  - intros op. destruct op; reflexivity.
  - intros b op H. unfold VM.decode_opcode in H.
    apply find_some in H as [_ H]. apply Z.eqb_eq in H. exact H.
  - intros s b Hr Hip Hb Hnone.
    rewrite (step_running s b Hr Hip Hb), Hnone.
    cbn [VM.execute]. rewrite counted_eq, fetched_eq.
    unfold failed_with. cbn. repeat split.
Qed.

Lemma opcode_bytes_decode_witness :
  failed_with "Unknown opcode: 0x14"
    (VM.step (VM.loadBytecode [14] VM.new_vm)).
Proof.
  destruct opcode_bytes_decode as (_ & _ & H).
  destruct (H (VM.loadBytecode [14] VM.new_vm) 14) as (E & _).
  - split; reflexivity.
  - vm_compute. discriminate.
  - reflexivity.
  - reflexivity.
  - exact E.
Defined.

(** ** The run loop *)

(** The two flags of the state after the primitives of the machine. *)
Ltac vm_state :=
  cbn [fst snd
       VM.bytecode VM.instruction_pointer VM.halted VM.error_flag
       VM.error_message VM.debug_mode VM.stack VM.memory VM.call_stack
       VM.base_pointer VM.heap VM.heap_blocks VM.heap_start_addr
       VM.string_table VM.objects VM.next_object_id VM.cmp_flag
       VM.fpu_regs VM.fpu_top VM.float_memory VM.instruction_count
       VM.max_stack_size VM.cout VM.cin
       VM.set_bytecode VM.set_instruction_pointer VM.set_halted
       VM.set_error_flag VM.set_error_message VM.set_debug_mode
       VM.set_stack VM.set_memory VM.set_call_stack VM.set_base_pointer
       VM.set_heap VM.set_heap_blocks VM.set_heap_start_addr
       VM.set_string_table VM.set_objects VM.set_next_object_id
       VM.set_cmp_flag VM.set_fpu_regs VM.set_fpu_top VM.set_float_memory
       VM.set_instruction_count VM.set_max_stack_size VM.set_cout
       VM.set_cin] in *.

Ltac vm_cases :=
  repeat (vm_state;
          match goal with
          | |- context [match ?x with _ => _ end] =>
              lazymatch x with
              | context [match _ with _ => _ end] => fail
              | _ => destruct x
              end
          end);
  vm_state.

Lemma execute_stops_on_error (op : option VM.VMOpcode) (b : Z)
  (s : VM.VirtualMachine) :
  stops_on_error s -> stops_on_error (VM.execute op b s).
Proof.
  unfold stops_on_error. intros H.
  destruct op as [op|]; [destruct op|];
    unfold VM.execute, VM.jump_on_flag, VM.fbinary, VM.pop, VM.push,
      VM.peek, VM.readInt32, VM.readFloat32, VM.printValue, VM.printString,
      VM.inputNumber, VM.inputString, VM.loadMemory, VM.storeMemory,
      VM.allocateHeap, VM.ensure_heap, VM.freeHeap, VM.fpop, VM.fpush,
      VM.write_cout, VM.error;
    vm_cases; auto.
Qed.

(** A step keeps the link between the two flags. *)
Lemma step_stops_on_error (s : VM.VirtualMachine) :
  stops_on_error s -> stops_on_error (VM.step s).
Proof.
  intros H. unfold VM.step.
  destruct (VM.halted s || VM.error_flag s); [exact H|].
  destruct (_ <=? _); [unfold stops_on_error; reflexivity|].
  assert (E : forall t, stops_on_error t ->
                        stops_on_error (VM.executeInstruction t)).
  { intros t Ht. unfold VM.executeInstruction, VM.readByte.
    destruct (_ <=? _).
    - destruct (VM.debug_mode _);
        apply execute_stops_on_error; unfold stops_on_error; reflexivity.
    - vm_state.
      destruct (VM.debug_mode t); apply execute_stops_on_error; exact Ht. }
  set (s1 := if VM.debug_mode s then _ else s).
  assert (H1 : stops_on_error s1) by (subst s1; destruct (VM.debug_mode s); exact H).
  specialize (E s1 H1). revert E.
  generalize (VM.executeInstruction s1). intros t Ht.
  destruct (_ <? _); exact Ht.
Qed.

Lemma stops_on_error_write_cout (item : VM.out_item)
  (s : VM.VirtualMachine) :
  stops_on_error s -> stops_on_error (VM.write_cout item s).
Proof. intros H. exact H. Qed.

Lemma run_loop_stops (fuel : nat) (s r : VM.VirtualMachine) :
  stops_on_error s -> VM.run_loop fuel s = Some r ->
  stops_on_error r /\ (VM.halted r || VM.error_flag r = true).
Proof.
  revert s. induction fuel as [|fuel IH]; intros s Hs Hrun; cbn in Hrun.
  - destruct (VM.halted s || VM.error_flag s) eqn:E; [|discriminate].
    injection Hrun as <-. split; assumption.
  - destruct (VM.halted s || VM.error_flag s) eqn:E.
    + injection Hrun as <-. split; assumption.
    + apply (IH (VM.step s)); [apply step_stops_on_error; exact Hs|exact Hrun].
Qed.

(** X5. Every run that ends leaves the machine halted, after a [HALT] or
    after an error: an error sets the halted flag too, in every
    instruction, so that [isHalted()] holds after [run()] and
    [hasError()] tells the two ends apart. A further [step] changes
    nothing. *)
Theorem run_ends_halted (code : list Z) (s0 r : VM.VirtualMachine)
  (fuel : nat) :
  VM.run fuel (VM.loadBytecode code s0) = Some r ->
  VM.halted r = true /\ VM.step r = r.
Proof.
  intros Hrun. unfold VM.run in Hrun.
  set (s := VM.loadBytecode code s0) in *.
  assert (Hs : stops_on_error s) by (intros H; discriminate H).
  clearbody s.
  match type of Hrun with
  | VM.run_loop _ ?t = _ =>
      assert (Ht : stops_on_error t)
        by (destruct (VM.debug_mode s);
            [repeat apply stops_on_error_write_cout|]; exact Hs)
  end.
  destruct (run_loop_stops _ _ _ Ht Hrun) as [Hr Hend].
  assert (Hh : VM.halted r = true).
  { destruct (VM.halted r) eqn:Eh; [reflexivity|]. cbn in Hend.
    rewrite <- Eh. exact (Hr Hend). }
  split; [exact Hh|].
  unfold VM.step. rewrite Hh. reflexivity.
Qed.

Lemma run_ends_halted_witness :
  exists r : VM.VirtualMachine,
    VM.run 3 (VM.loadBytecode [VM.opcode_byte VM.POP] VM.new_vm) = Some r
    /\ VM.halted r = true /\ VM.error_flag r = true.
Proof.
  eexists. split; [vm_compute; reflexivity|].
  split; [|reflexivity].
  eapply (run_ends_halted [VM.opcode_byte VM.POP] VM.new_vm _ 3).
  vm_compute. reflexivity.
Defined.

(** X6. A machine that runs past the last byte of its code, there being
    no [HALT], stops with the error "Instruction pointer out of bounds";
    the stack and the output are left as they are, no instruction is
    counted, and [run] ends there. *)
Theorem running_off_the_code (s : VM.VirtualMachine) (fuel : nat) :
  running s ->
  vsize (VM.bytecode s) <= VM.instruction_pointer s ->
  failed_with "Instruction pointer out of bounds" (VM.step s)
  /\ VM.stack (VM.step s) = VM.stack s
  /\ VM.cout (VM.step s) = VM.cout s
  /\ VM.instruction_count (VM.step s) = VM.instruction_count s
  /\ VM.run_loop (S fuel) s = Some (VM.step s).
Proof.
  intros [Hh He] Hip.
  assert (E : VM.step s = VM.error "Instruction pointer out of bounds" s).
  { unfold VM.step. rewrite Hh, He. cbn [orb].
    destruct (Z.leb_spec (vsize (VM.bytecode s)) (VM.instruction_pointer s));
      [reflexivity | lia]. }
  cbn [VM.run_loop]. rewrite Hh, He. cbn [orb]. rewrite E.
  unfold failed_with. repeat split.
  destruct fuel; reflexivity.
Qed.

Lemma running_off_the_code_witness :
  let s := VM.loadBytecode (VM.opcode_byte VM.PUSH :: le_bytes32 7)
             VM.new_vm in
  failed_with "Instruction pointer out of bounds" (VM.step (VM.step s))
  /\ VM.stack (VM.step (VM.step s)) = [7].
Proof.
  intros s.
  destruct (running_off_the_code (VM.step s) 0) as (H1 & H2 & _).
  - split; reflexivity.
  - vm_compute. discriminate.
  - split; [exact H1|]. rewrite H2. reflexivity.
Defined.

(** ** Arithmetic instructions *)

(** The state after the fetch of an opcode has the stack and the flags
    of the state before it. *)
Lemma fetched_stack b s : VM.stack (fetched b s) = VM.stack s.
Proof. rewrite fetched_eq. reflexivity. Qed.

(** X7. [ADD], [SUB] and [MUL] pop [b], then [a], and push [a + b],
    [a - b] and [a * b] when the result is a 32-bit integer; the machine
    keeps running at the next instruction. On a stack of one value [a]
    the second [pop] reports "Stack underflow" and answers 0, and the
    instruction still pushes its result, computed from 0 and [a]. *)
Theorem arithmetic_instructions (s : VM.VirtualMachine) (op : VM.VMOpcode)
  (f : Z -> Z -> Z) :
  running s ->
  0 <= VM.instruction_pointer s ->
  VM.bytecode s !! Z.to_nat (VM.instruction_pointer s)
  = Some (VM.opcode_byte op) ->
  arithmetic op = Some f ->
  (forall (rest : list Z) (a b : Z),
      VM.stack s = rest ++ [a; b] ->
      is_int32 (f a b) ->
      VM.stack (VM.step s) = rest ++ [f a b]
      /\ running (VM.step s)
      /\ VM.instruction_pointer (VM.step s)
         = size_t (VM.instruction_pointer s + 1))
  /\ (forall a : Z,
         VM.stack s = [a] ->
         is_int32 (f 0 a) ->
         failed_with "Stack underflow" (VM.step s)
         /\ VM.stack (VM.step s) = [f 0 a]).
Proof.
  intros Hr Hip Hb Hop.
  rewrite (step_running s _ Hr Hip Hb). destruct Hr as [Hh He].
  split.
  - intros rest a b Hs Hf.
    assert (E1 : VM.stack (fetched (VM.opcode_byte op) s)
                 = (rest ++ [a]) ++ [b])
      by (rewrite fetched_stack, Hs, <- app_assoc; reflexivity).
    destruct op; try discriminate Hop; injection Hop as <-.
    all: match goal with
         | |- context [VM.decode_opcode (VM.opcode_byte ?o)] =>
             change (VM.decode_opcode (VM.opcode_byte o)) with (Some o)
         end.
    all: cbn [VM.execute].
    all: rewrite (pop_snoc _ _ _ E1).
    all: rewrite (pop_snoc (VM.set_stack (rest ++ [a]) _) rest a eq_refl).
    all: rewrite (int32_id _ Hf).
    all: rewrite counted_eq, fetched_eq; unfold running, VM.push; cbn.
    all: rewrite Hh, He; repeat split.
  - intros a Hs Hf.
    assert (E1 : VM.stack (fetched (VM.opcode_byte op) s) = [] ++ [a])
      by (rewrite fetched_stack, Hs; reflexivity).
    destruct op; try discriminate Hop; injection Hop as <-.
    all: match goal with
         | |- context [VM.decode_opcode (VM.opcode_byte ?o)] =>
             change (VM.decode_opcode (VM.opcode_byte o)) with (Some o)
         end.
    all: cbn [VM.execute].
    all: rewrite (pop_snoc _ _ _ E1).
    all: rewrite (pop_empty (VM.set_stack [] _) eq_refl).
    all: rewrite (int32_id _ Hf).
    all: rewrite counted_eq, fetched_eq; unfold failed_with, VM.push; cbn.
    all: repeat split.
Qed.

Lemma arithmetic_instructions_witness :
  VM.stack
    (VM.step (VM.set_stack [10; 7; 3]
                (VM.loadBytecode [VM.opcode_byte VM.SUB] VM.new_vm)))
  = [10; 4].
Proof.
  destruct (arithmetic_instructions
              (VM.set_stack [10; 7; 3]
                 (VM.loadBytecode [VM.opcode_byte VM.SUB] VM.new_vm))
              VM.SUB Z.sub) as [H _].
  - split; reflexivity.
  - vm_compute. discriminate.
  - reflexivity.
  - reflexivity.
  - destruct (H [10] 7 3) as (E & _).
    + reflexivity.
    + vm_compute. split; discriminate.
    + exact E.
Defined.

(** X8. [DIV] and [MOD] pop the divisor [b], then the dividend [a]. On a
    zero divisor the machine stops with "Division by zero" or "Modulo by
    zero", the two operands being popped and nothing pushed. Otherwise
    they push the quotient truncated toward zero and the remainder, which
    has the sign of the dividend; the one quotient that is no 32-bit
    integer, of [INT32_MIN] by -1, is left out. *)
Theorem division_instructions (s : VM.VirtualMachine) (op : VM.VMOpcode)
  (f : Z -> Z -> Z) (msg : string) (rest : list Z) (a b : Z) :
  running s ->
  0 <= VM.instruction_pointer s ->
  VM.bytecode s !! Z.to_nat (VM.instruction_pointer s)
  = Some (VM.opcode_byte op) ->
  division op = Some (f, msg) ->
  VM.stack s = rest ++ [a; b] ->
  is_int32 a -> is_int32 b ->
  (b = 0 ->
   failed_with msg (VM.step s) /\ VM.stack (VM.step s) = rest)
  /\ (b <> 0 -> ~ (a = INT32_MIN /\ b = -1) ->
      VM.stack (VM.step s) = rest ++ [f a b]
      /\ running (VM.step s)
      /\ a = b * Z.quot a b + Z.rem a b
      /\ Z.abs (Z.rem a b) < Z.abs b
      /\ 0 <= Z.rem a b * a).
Proof.
  intros Hr Hip Hb Hop Hs Ha Hbi.
  rewrite (step_running s _ Hr Hip Hb). destruct Hr as [Hh He].
  assert (E1 : VM.stack (fetched (VM.opcode_byte op) s)
               = (rest ++ [a]) ++ [b])
    by (rewrite fetched_stack, Hs, <- app_assoc; reflexivity).
  unfold is_int32, INT32_MIN, INT32_MAX in *.
  split.
  - intros ->.
    destruct op; try discriminate Hop; injection Hop as <- <-.
    all: match goal with
         | |- context [VM.decode_opcode (VM.opcode_byte ?o)] =>
             change (VM.decode_opcode (VM.opcode_byte o)) with (Some o)
         end.
    all: cbn [VM.execute].
    all: rewrite (pop_snoc _ _ _ E1).
    all: rewrite (pop_snoc (VM.set_stack (rest ++ [a]) _) rest a eq_refl).
    all: cbn [Z.eqb].
    all: rewrite counted_eq, fetched_eq; unfold failed_with; cbn.
    all: repeat split.
  - intros Hnz Hmin.
    assert (Hq : is_int32 (Z.quot a b)).
    { unfold is_int32, INT32_MIN, INT32_MAX.
      pose proof (Z.quot_rem' a b) as Hqr.
      pose proof (Z.rem_bound_abs a b Hnz) as Hrb.
      pose proof (Z.rem_sign_mul a b Hnz) as Hsg.
      nia. }
    assert (Hm : is_int32 (Z.rem a b)).
    { unfold is_int32, INT32_MIN, INT32_MAX.
      pose proof (Z.rem_bound_abs a b Hnz). lia. }
    assert (Hfacts : a = b * Z.quot a b + Z.rem a b
                     /\ Z.abs (Z.rem a b) < Z.abs b
                     /\ 0 <= Z.rem a b * a).
    { split; [apply Z.quot_rem'|].
      split; [apply Z.rem_bound_abs; exact Hnz|].
      apply Z.rem_sign_mul. exact Hnz. }
    destruct op; try discriminate Hop; injection Hop as <- <-.
    all: match goal with
         | |- context [VM.decode_opcode (VM.opcode_byte ?o)] =>
             change (VM.decode_opcode (VM.opcode_byte o)) with (Some o)
         end.
    all: cbn [VM.execute].
    all: rewrite (pop_snoc _ _ _ E1).
    all: rewrite (pop_snoc (VM.set_stack (rest ++ [a]) _) rest a eq_refl).
    all: destruct (Z.eqb_spec b 0) as [|_]; [contradiction|].
    all: rewrite ?(int32_id _ Hq), ?(int32_id _ Hm).
    all: rewrite counted_eq, fetched_eq; unfold running, VM.push; cbn.
    all: rewrite Hh, He; repeat split; apply Hfacts.
Qed.

Lemma division_instructions_witness :
  let s := VM.set_stack [-7; 2]
             (VM.loadBytecode [VM.opcode_byte VM.DIV] VM.new_vm) in
  let z := VM.set_stack [-7; 0]
             (VM.loadBytecode [VM.opcode_byte VM.MOD] VM.new_vm) in
  VM.stack (VM.step s) = [-3]
  /\ failed_with "Modulo by zero" (VM.step z).
Proof.
  intros s z. split.
  - destruct (division_instructions s VM.DIV Z.quot "Division by zero"
                [] (-7) 2) as [_ H].
    + split; reflexivity.
    + vm_compute. discriminate.
    + reflexivity.
    + reflexivity.
    + reflexivity.
    + vm_compute. split; discriminate.
    + vm_compute. split; discriminate.
    + destruct H as (E & _); [lia | lia | exact E].
  - destruct (division_instructions z VM.MOD Z.rem "Modulo by zero"
                [] (-7) 0) as [H _].
    + split; reflexivity.
    + vm_compute. discriminate.
    + reflexivity.
    + reflexivity.
    + reflexivity.
    + vm_compute. split; discriminate.
    + vm_compute. split; discriminate.
    + destruct H as (E & _); [reflexivity | exact E].
Defined.

(** ** Calls and the base pointer *)

Lemma fetched_flags b s :
  VM.halted (fetched b s) = VM.halted s
  /\ VM.error_flag (fetched b s) = VM.error_flag s
  /\ VM.call_stack (fetched b s) = VM.call_stack s
  /\ VM.base_pointer (fetched b s) = VM.base_pointer s.
Proof. rewrite fetched_eq. repeat split. Qed.

(** [RET] on a call stack that is not empty. *)
Lemma step_RET (s : VM.VirtualMachine) (frames : list VM.CallFrame.t)
  (frame : VM.CallFrame.t) :
  running s ->
  0 <= VM.instruction_pointer s ->
  VM.bytecode s !! Z.to_nat (VM.instruction_pointer s)
  = Some (VM.opcode_byte VM.RET) ->
  VM.call_stack s = frames ++ [frame] ->
  running (VM.step s)
  /\ VM.instruction_pointer (VM.step s) = VM.CallFrame.return_address frame
  /\ VM.base_pointer (VM.step s) = VM.CallFrame.base_pointer frame
  /\ VM.call_stack (VM.step s) = frames
  /\ VM.stack (VM.step s) = VM.stack s.
Proof.
  intros Hr Hip Hb Hcs.
  rewrite (step_running s _ Hr Hip Hb). destruct Hr as [Hh He].
  change (VM.decode_opcode (VM.opcode_byte VM.RET)) with (Some VM.RET).
  cbn [VM.execute].
  destruct (fetched_flags (VM.opcode_byte VM.RET) s) as (_ & _ & Hc & _).
  rewrite Hc, Hcs, last_snoc, removelast_last.
  rewrite counted_eq, fetched_eq. unfold running. cbn.
  rewrite Hh, He. repeat split.
Qed.

(** X9. A call and the return from it: [CALL target] pushes a frame with
    the address of the instruction after the call and the base pointer,
    and [RET] pops the last frame, jumps to its return address and
    restores its base pointer, the operand stack being left as it is; so
    a [RET] that is the first instruction of the callee resumes the caller
    with the stacks and the base pointer it had. On an empty call stack
    [RET] stops the machine with "Return without call". *)
Theorem call_and_return :
  (forall (s : VM.VirtualMachine) (target : Z),
      running s ->
      vsize (VM.bytecode s) < 2 ^ 31 ->
      0 <= target < 2 ^ 31 ->
      code_at (VM.bytecode s) (VM.instruction_pointer s)
        (VM.opcode_byte VM.CALL :: le_bytes32 target) ->
      VM.bytecode s !! Z.to_nat target = Some (VM.opcode_byte VM.RET) ->
      let s2 := VM.step (VM.step s) in
      running s2
      /\ VM.instruction_pointer s2 = VM.instruction_pointer s + 5
      /\ VM.base_pointer s2 = VM.base_pointer s
      /\ VM.call_stack s2 = VM.call_stack s
      /\ VM.stack s2 = VM.stack s)
  /\ (forall (s : VM.VirtualMachine) (frames : list VM.CallFrame.t)
        (frame : VM.CallFrame.t),
         running s ->
         0 <= VM.instruction_pointer s ->
         VM.bytecode s !! Z.to_nat (VM.instruction_pointer s)
         = Some (VM.opcode_byte VM.RET) ->
         VM.call_stack s = frames ++ [frame] ->
         running (VM.step s)
         /\ VM.instruction_pointer (VM.step s)
            = VM.CallFrame.return_address frame
         /\ VM.base_pointer (VM.step s) = VM.CallFrame.base_pointer frame
         /\ VM.call_stack (VM.step s) = frames
         /\ VM.stack (VM.step s) = VM.stack s)
  /\ (forall s : VM.VirtualMachine,
         running s ->
         0 <= VM.instruction_pointer s ->
         VM.bytecode s !! Z.to_nat (VM.instruction_pointer s)
         = Some (VM.opcode_byte VM.RET) ->
         VM.call_stack s = [] ->
         failed_with "Return without call" (VM.step s)
         /\ VM.stack (VM.step s) = VM.stack s).
Proof.
  split; [|split].
  - intros s target Hr Hsz Ht Hc Hret s2. subst s2.
    destruct (step_CALL s target Hr Hsz Ht Hc)
      as (Hr1 & Hb1 & Hip1 & Hs1 & Hbp1 & Hcs1).
    destruct (step_RET (VM.step s) (VM.call_stack s)
                (VM.CallFrame.mk (VM.instruction_pointer s + 5)
                   (VM.base_pointer s)) Hr1) as (Hr2 & Hip2 & Hbp2 & Hcs2 & Hs2).
    + rewrite Hip1. lia.
    + rewrite Hb1, Hip1. exact Hret.
    + exact Hcs1.
    + rewrite Hip2, Hbp2, Hcs2, Hs2, Hs1. repeat split; apply Hr2.
  - exact step_RET.
  - intros s Hr Hip Hb Hcs.
    rewrite (step_running s _ Hr Hip Hb).
    change (VM.decode_opcode (VM.opcode_byte VM.RET)) with (Some VM.RET).
    cbn [VM.execute].
    destruct (fetched_flags (VM.opcode_byte VM.RET) s) as (_ & _ & Hc & _).
    rewrite Hc, Hcs. cbn [last].
    rewrite counted_eq, fetched_eq. unfold failed_with. cbn. repeat split.
Qed.

Lemma call_and_return_witness :
  let s := VM.set_stack [4]
             (VM.loadBytecode
                (VM.opcode_byte VM.CALL :: le_bytes32 6
                 ++ [VM.opcode_byte VM.HALT; VM.opcode_byte VM.RET])
                VM.new_vm) in
  VM.instruction_pointer (VM.step (VM.step s)) = 5
  /\ VM.stack (VM.step (VM.step s)) = [4]
  /\ failed_with "Return without call"
       (VM.step (VM.loadBytecode [VM.opcode_byte VM.RET] VM.new_vm)).
Proof.
  intros s. destruct call_and_return as (Hcall & _ & Hbad).
  destruct (Hcall s 6) as (_ & Hip & _ & _ & Hs).
  - split; reflexivity.
  - vm_compute. reflexivity.
  - split; [discriminate | reflexivity].
  - split; [vm_compute; discriminate | reflexivity].
  - reflexivity.
  - split; [exact Hip|]. split; [exact Hs|].
    apply Hbad.
    + split; reflexivity.
    + vm_compute. discriminate.
    + reflexivity.
    + reflexivity.
Defined.

(** X10. The base pointer: [PUSH_BP] pushes the base pointer and sets it
    to the new size of the stack; [POP_BP] sets it to the value of the
    cell under it, which it does not pop. Together they restore a base
    pointer below [2 ^ 31], the saved value staying on the stack.
    [POP_BP] on a base pointer that is 0 or above the stack stops the
    machine with "Invalid base pointer in POP_BP". *)
Theorem base_pointer_save_restore :
  (forall s : VM.VirtualMachine,
      running s ->
      vsize (VM.bytecode s) < 2 ^ 31 ->
      code_at (VM.bytecode s) (VM.instruction_pointer s)
        [VM.opcode_byte VM.PUSH_BP; VM.opcode_byte VM.POP_BP] ->
      0 <= VM.base_pointer s < 2 ^ 31 ->
      let s2 := VM.step (VM.step s) in
      running s2
      /\ VM.base_pointer (VM.step s) = vsize (VM.stack s) + 1
      /\ VM.base_pointer s2 = VM.base_pointer s
      /\ VM.stack s2 = VM.stack s ++ [VM.base_pointer s])
  /\ (forall (s : VM.VirtualMachine) (saved : Z),
         running s ->
         0 <= VM.instruction_pointer s ->
         VM.bytecode s !! Z.to_nat (VM.instruction_pointer s)
         = Some (VM.opcode_byte VM.POP_BP) ->
         0 < VM.base_pointer s <= vsize (VM.stack s) ->
         VM.stack s !! Z.to_nat (VM.base_pointer s - 1) = Some saved ->
         0 <= saved < 2 ^ 31 ->
         running (VM.step s)
         /\ VM.base_pointer (VM.step s) = saved
         /\ VM.stack (VM.step s) = VM.stack s)
  /\ (forall s : VM.VirtualMachine,
         running s ->
         0 <= VM.instruction_pointer s ->
         VM.bytecode s !! Z.to_nat (VM.instruction_pointer s)
         = Some (VM.opcode_byte VM.POP_BP) ->
         VM.base_pointer s = 0 \/ vsize (VM.stack s) < VM.base_pointer s ->
         failed_with "Invalid base pointer in POP_BP" (VM.step s)
         /\ VM.base_pointer (VM.step s) = VM.base_pointer s).
Proof.
  assert (Hpop : forall (s : VM.VirtualMachine) (saved : Z),
             running s ->
             0 <= VM.instruction_pointer s ->
             VM.bytecode s !! Z.to_nat (VM.instruction_pointer s)
             = Some (VM.opcode_byte VM.POP_BP) ->
             0 < VM.base_pointer s <= vsize (VM.stack s) ->
             VM.stack s !! Z.to_nat (VM.base_pointer s - 1) = Some saved ->
             0 <= saved < 2 ^ 31 ->
             running (VM.step s)
             /\ VM.base_pointer (VM.step s) = saved
             /\ VM.stack (VM.step s) = VM.stack s).
  { intros s saved Hr Hip Hb Hbp Hsaved Hrange.
    rewrite (step_running s _ Hr Hip Hb). destruct Hr as [Hh He].
    change (VM.decode_opcode (VM.opcode_byte VM.POP_BP))
      with (Some VM.POP_BP).
    cbn [VM.execute].
    destruct (fetched_flags (VM.opcode_byte VM.POP_BP) s)
      as (_ & _ & _ & Hfb).
    rewrite Hfb, fetched_stack.
    destruct (Z.eqb_spec (VM.base_pointer s) 0) as [|_]; [lia|].
    destruct (Z.ltb_spec (vsize (VM.stack s)) (VM.base_pointer s)); [lia|].
    cbn [orb]. unfold VM.vget. rewrite Hsaved. cbn [default from_option id].
    rewrite (size_t_id saved) by lia.
    rewrite counted_eq, fetched_eq. unfold running. cbn.
    rewrite Hh, He. repeat split. }
  split; [|split].
  - intros s Hr Hsz Hc Hbp s2. subst s2.
    pose proof (code_at_head _ _ _ _ Hc) as Hb0.
    pose proof (code_at_head _ _ _ _ (code_at_tail _ _ _ _ Hc)) as Hb1.
    assert (Hip : 0 <= VM.instruction_pointer s) by (destruct Hc; lia).
    destruct (step_PUSH_BP s Hr Hip Hsz Hb0)
      as (Hr1 & Hbc1 & Hip1 & Hs1 & Hbp1).
    assert (Hi : int32 (VM.base_pointer s) = VM.base_pointer s)
      by (apply int32_id; unfold is_int32, INT32_MIN, INT32_MAX; lia).
    rewrite Hi in Hs1.
    destruct (Hpop (VM.step s) (VM.base_pointer s) Hr1)
      as (Hr2 & Hbp2 & Hs2).
    + rewrite Hip1. lia.
    + rewrite Hbc1, Hip1. exact Hb1.
    + rewrite Hbp1, Hs1, vsize_app. pose proof (vsize_nonneg (VM.stack s)).
      change (vsize [VM.base_pointer s]) with 1. lia.
    + rewrite Hbp1, Hs1.
      replace (Z.to_nat (vsize (VM.stack s) + 1 - 1))
        with (length (VM.stack s) + 0)%nat by (unfold vsize; lia).
      rewrite lookup_app_r by lia.
      replace (length (VM.stack s) + 0 - length (VM.stack s))%nat
        with 0%nat by lia.
      reflexivity.
    + exact Hbp.
    + rewrite Hbp2, Hs2, Hs1. repeat split; try apply Hr2. exact Hbp1.
  - exact Hpop.
  - intros s Hr Hip Hb Hbad.
    rewrite (step_running s _ Hr Hip Hb).
    change (VM.decode_opcode (VM.opcode_byte VM.POP_BP))
      with (Some VM.POP_BP).
    cbn [VM.execute].
    destruct (fetched_flags (VM.opcode_byte VM.POP_BP) s)
      as (_ & _ & _ & Hfb).
    rewrite Hfb, fetched_stack.
    assert (E : (VM.base_pointer s =? 0)
                || (vsize (VM.stack s) <? VM.base_pointer s) = true).
    { destruct Hbad as [->|Hlt]; [reflexivity|].
      apply orb_true_iff. right. apply Z.ltb_lt. exact Hlt. }
    rewrite E.
    rewrite counted_eq, fetched_eq. unfold failed_with. cbn. repeat split.
Qed.

Lemma base_pointer_save_restore_witness :
  let s := VM.set_base_pointer 2
             (VM.set_stack [8; 9; 10]
                (VM.loadBytecode
                   [VM.opcode_byte VM.PUSH_BP; VM.opcode_byte VM.POP_BP]
                   VM.new_vm)) in
  VM.base_pointer (VM.step s) = 4
  /\ VM.base_pointer (VM.step (VM.step s)) = 2
  /\ VM.stack (VM.step (VM.step s)) = [8; 9; 10; 2]
  /\ failed_with "Invalid base pointer in POP_BP"
       (VM.step (VM.loadBytecode [VM.opcode_byte VM.POP_BP] VM.new_vm)).
Proof.
  intros s. destruct base_pointer_save_restore as (Hboth & _ & Hbad).
  destruct (Hboth s) as (_ & H1 & H2 & H3).
  - split; reflexivity.
  - vm_compute. reflexivity.
  - split; [discriminate | reflexivity].
  - split; [discriminate | reflexivity].
  - split; [exact H1|]. split; [exact H2|]. split; [exact H3|].
    apply Hbad.
    + split; reflexivity.
    + vm_compute. discriminate.
    + reflexivity.
    + left. reflexivity.
Defined.

(** ** Allocation after a release *)




(** A release of the address of an allocated block marks it free. *)
Lemma freeHeap_of_block (addr : Z) (s : VM.VirtualMachine) (i : nat)
  (block : VM.HeapBlock.t) :
  VM.isHeapAddress addr s = true ->
  VM.find_allocated (size_t (addr - VM.heap_start_addr s))
    (VM.heap_blocks s) 0 = Some (i, block) ->
  VM.heap_blocks (VM.freeHeap addr s)
  = <[i := VM.HeapBlock.mk (VM.HeapBlock.start block)
             (VM.HeapBlock.size block) false]> (VM.heap_blocks s)
  /\ VM.heap (VM.freeHeap addr s)
     = VM.zero_cells (VM.HeapBlock.start block) 0
         (Z.to_nat (VM.HeapBlock.size block)) (VM.heap s)
  /\ VM.heap_start_addr (VM.freeHeap addr s) = VM.heap_start_addr s
  /\ VM.error_flag (VM.freeHeap addr s) = VM.error_flag s.
Proof.
  intros Hheap Hfind. unfold VM.freeHeap. rewrite Hheap, Hfind.
  repeat split.
Qed.



(** ** Release *)




(** In a chain, the block that starts at a given offset is the only
    one. *)
Lemma chain_start_unique from blocks i j b1 b2 :
  Heap.chain from blocks ->
  blocks !! i = Some b1 -> blocks !! j = Some b2 ->
  VM.HeapBlock.start b1 = VM.HeapBlock.start b2 -> i = j.
Proof.
  intros Hc Hi Hj Hs.
  assert (Hpos : forall k b, blocks !! k = Some b -> 0 < VM.HeapBlock.size b).
  { clear -Hc. revert from Hc.
    induction blocks as [|b0 rest IH]; intros from Hc k b Hk;
      [discriminate|].
    destruct Hc as (_ & Hp & Hr). destruct k as [|k].
    - injection Hk as <-. exact Hp.
    - exact (IH _ Hr k b Hk). }
  apply (chain_disjoint _ _ Hc i j b1 b2 (VM.HeapBlock.start b1) Hi Hj).
  - pose proof (Hpos _ _ Hi). unfold Heap.contains. lia.
  - pose proof (Hpos _ _ Hj). unfold Heap.contains. lia.
Qed.

Lemma find_allocated_none off blocks k :
  (forall j b, blocks !! j = Some b -> VM.HeapBlock.start b = off ->
               VM.HeapBlock.allocated b = false) ->
  VM.find_allocated off blocks k = None.
Proof.
  revert k. induction blocks as [|b0 rest IH]; intros k H; [reflexivity|].
  cbn [VM.find_allocated].
  destruct (Z.eqb_spec (VM.HeapBlock.start b0) off) as [E|E].
  - rewrite (H 0%nat b0 eq_refl E). cbn [andb].
    apply IH. intros j b Hj. exact (H (S j) b Hj).
  - cbn [andb]. apply IH. intros j b Hj. exact (H (S j) b Hj).
Qed.

(** X13. The errors of a release. An address below the heap stops the
    machine with "Attempting to free non-heap address"; a heap address at
    which no allocated block starts, with "Invalid heap address for free
    operation". So the second release of a block whose first release
    went through is an error, when the blocks of the list follow one
    another; the block list is left as the first release made it. *)
Theorem release_errors (s : VM.VirtualMachine) (addr : Z) :
  (VM.isHeapAddress addr s = false ->
   failed_with "Attempting to free non-heap address" (VM.freeHeap addr s)
   /\ VM.heap_blocks (VM.freeHeap addr s) = VM.heap_blocks s)
  /\ (VM.isHeapAddress addr s = true ->
      VM.find_allocated (size_t (addr - VM.heap_start_addr s))
        (VM.heap_blocks s) 0 = None ->
      failed_with "Invalid heap address for free operation"
        (VM.freeHeap addr s)
      /\ VM.heap_blocks (VM.freeHeap addr s) = VM.heap_blocks s)
  /\ (forall (i : nat) (block : VM.HeapBlock.t),
         Heap.chain 0 (VM.heap_blocks s) ->
         VM.isHeapAddress addr s = true ->
         VM.find_allocated (size_t (addr - VM.heap_start_addr s))
           (VM.heap_blocks s) 0 = Some (i, block) ->
         let s1 := VM.freeHeap addr s in
         VM.error_flag s1 = VM.error_flag s
         /\ failed_with "Invalid heap address for free operation"
              (VM.freeHeap addr s1)
         /\ VM.heap_blocks (VM.freeHeap addr s1) = VM.heap_blocks s1).
Proof.
  assert (Hnone : forall t : VM.VirtualMachine,
             VM.isHeapAddress addr t = true ->
             VM.find_allocated (size_t (addr - VM.heap_start_addr t))
               (VM.heap_blocks t) 0 = None ->
             failed_with "Invalid heap address for free operation"
               (VM.freeHeap addr t)
             /\ VM.heap_blocks (VM.freeHeap addr t) = VM.heap_blocks t).
  { intros t Hheap Hfind. unfold VM.freeHeap, failed_with.
    rewrite Hheap, Hfind. repeat split. }
  split; [|split].
  - intros Hheap. unfold VM.freeHeap, failed_with. rewrite Hheap.
    repeat split.
  - apply Hnone.
  - intros i block Hc Hheap Hfind s1.
    destruct (freeHeap_of_block addr s i block Hheap Hfind)
      as (Hb1 & _ & Hh1 & He1).
    fold s1 in Hb1, Hh1, He1.
    destruct (find_allocated_lookup _ _ _ _ _ Hfind) as [_ Hi].
    rewrite Nat.sub_0_r in Hi.
    assert (Hstart : VM.HeapBlock.start block
                     = size_t (addr - VM.heap_start_addr s)).
    { clear -Hfind. revert Hfind. generalize 0%nat.
      induction (VM.heap_blocks s) as [|b0 rest IH]; intros k H;
        [discriminate|].
      cbn [VM.find_allocated] in H.
      destruct (Z.eqb_spec (VM.HeapBlock.start b0)
                  (size_t (addr - VM.heap_start_addr s))) as [E|E].
      - destruct (VM.HeapBlock.allocated b0); cbn [andb] in H.
        + injection H as _ <-. exact E.
        + exact (IH _ H).
      - cbn [andb] in H. exact (IH _ H). }
    split; [exact He1|].
    apply Hnone.
    + unfold VM.isHeapAddress in *. rewrite Hh1. exact Hheap.
    + rewrite Hh1, Hb1. apply find_allocated_none.
      intros j b Hj Hoff.
      destruct (decide (j = i)) as [->|Hne].
      * rewrite list_lookup_insert_eq in Hj
          by (apply lookup_lt_Some in Hi; exact Hi).
        injection Hj as <-. reflexivity.
      * rewrite list_lookup_insert_ne in Hj by congruence.
        exfalso. apply Hne.
        apply (chain_start_unique 0 (VM.heap_blocks s) j i b block Hc Hj Hi).
        congruence.
Qed.

Lemma release_errors_witness :
  let s := snd (VM.allocateHeap 3 VM.new_vm) in
  failed_with "Attempting to free non-heap address" (VM.freeHeap 5 s)
  /\ failed_with "Invalid heap address for free operation"
       (VM.freeHeap 10001 s)
  /\ VM.error_flag (VM.freeHeap 10000 s) = false
  /\ failed_with "Invalid heap address for free operation"
       (VM.freeHeap 10000 (VM.freeHeap 10000 s)).
Proof.
  intros s.
  destruct (release_errors s 5) as ((H1 & _) & _); [reflexivity|].
  destruct (release_errors s 10001) as (_ & H2 & _).
  destruct H2 as (H2 & _); [reflexivity | reflexivity |].
  destruct (release_errors s 10000) as (_ & _ & H3).
  destruct (H3 0%nat (VM.HeapBlock.mk 0 3 true)) as (H4 & H5 & _).
  - cbn. repeat split; lia.
  - reflexivity.
  - reflexivity.
  - split; [exact H1|]. split; [exact H2|]. split; [exact H4 | exact H5].
Defined.

(** ** The FPU register stack *)

Lemma fpush_top (v : float32) (s : VM.VirtualMachine) :
  0 <= VM.fpu_top s < 8 ->
  VM.fpu_top (VM.fpush v s) = (VM.fpu_top s + 7) mod 8
  /\ 0 <= VM.fpu_top (VM.fpush v s) < 8
  /\ vsize (VM.fpu_regs (VM.fpush v s)) = vsize (VM.fpu_regs s)
  /\ VM.error_flag (VM.fpush v s) = VM.error_flag s.
Proof.
  intros H. rewrite (fpush_eq v s H).
  cbn [VM.fpu_top VM.fpu_regs VM.error_flag VM.set_fpu_regs VM.set_fpu_top].
  rewrite vsize_vset.
  pose proof (Z.mod_pos_bound (VM.fpu_top s + 7) 8 ltac:(lia)).
  repeat split; lia.
Qed.

(** X14. The FPU registers are a ring of eight: [fpop] after [fpush]
    answers the value pushed and leaves the top where it was; eight more
    pushes bring the top back to the same register, no overflow being
    reported, so that a ninth value overwrites the first. [fpop] never
    reports an underflow. *)
Theorem fpu_stack_is_a_ring (s : VM.VirtualMachine) (v : float32) :
  0 <= VM.fpu_top s < 8 ->
  vsize (VM.fpu_regs s) = 8 ->
  fst (VM.fpop (VM.fpush v s)) = v
  /\ VM.fpu_top (snd (VM.fpop (VM.fpush v s))) = VM.fpu_top s
  /\ VM.error_flag (snd (VM.fpop s)) = VM.error_flag s
  /\ (forall values : list float32,
         length values = 8%nat ->
         VM.fpu_top (fpush_all values s) = VM.fpu_top s
         /\ VM.error_flag (fpush_all values s) = VM.error_flag s
         /\ VM.fpeek (fpush_all values (VM.fpush v s))
            = default v (last values)).
Proof.
  intros Htop Hregs.
  destruct (fpush_top v s Htop) as (Ht1 & Hr1 & Hs1 & He1).
  split; [|split; [|split]].
  - rewrite (fpop_eq _ Hr1). cbn [fst].
    rewrite (fpush_eq v s Htop).
    cbn [VM.fpu_top VM.fpu_regs VM.set_fpu_regs VM.set_fpu_top].
    apply fget_vset_eq. pose proof (Z.mod_pos_bound (VM.fpu_top s + 7) 8).
    lia.
  - rewrite (fpop_eq _ Hr1). cbn [snd VM.fpu_top VM.set_fpu_top].
    rewrite Ht1. rewrite Zplus_mod_idemp_l.
    replace (VM.fpu_top s + 7 + 1) with (VM.fpu_top s + 1 * 8) by lia.
    rewrite Z_mod_plus_full. apply Z.mod_small. exact Htop.
  - rewrite (fpop_eq _ Htop). reflexivity.
  - intros values Hlen.
    destruct values as [|v1 [|v2 [|v3 [|v4 [|v5 [|v6 [|v7 [|v8 [|]]]]]]]]];
      try discriminate Hlen.
    unfold fpush_all. cbn [fold_left last default].
    assert (Hstep : forall (x : float32) (t : VM.VirtualMachine) (k : Z),
               0 <= k < 8 -> VM.fpu_top t = k ->
               vsize (VM.fpu_regs t) = 8 ->
               VM.fpu_top (VM.fpush x t) = (k + 7) mod 8
               /\ vsize (VM.fpu_regs (VM.fpush x t)) = 8
               /\ VM.error_flag (VM.fpush x t) = VM.error_flag t
               /\ VM.fpeek (VM.fpush x t) = x).
    { intros x t k Hk Et Er. rewrite <- Et in Hk.
      destruct (fpush_top x t Hk) as (A & B & C & D).
      rewrite <- Et. repeat split; try congruence.
      unfold VM.fpeek. rewrite A, (fpush_eq x t Hk).
      cbn [VM.fpu_regs VM.set_fpu_regs VM.set_fpu_top].
      apply fget_vset_eq. rewrite Er. rewrite <- A. exact B. }
    assert (Hk : VM.fpu_top s = 0 \/ VM.fpu_top s = 1 \/ VM.fpu_top s = 2
                 \/ VM.fpu_top s = 3 \/ VM.fpu_top s = 4
                 \/ VM.fpu_top s = 5 \/ VM.fpu_top s = 6
                 \/ VM.fpu_top s = 7) by lia.
    assert (Eight : forall (t : VM.VirtualMachine),
               0 <= VM.fpu_top t < 8 -> vsize (VM.fpu_regs t) = 8 ->
               VM.fpu_top
                 (VM.fpush v8 (VM.fpush v7 (VM.fpush v6 (VM.fpush v5
                    (VM.fpush v4 (VM.fpush v3 (VM.fpush v2
                       (VM.fpush v1 t))))))))
               = VM.fpu_top t
               /\ VM.error_flag
                    (VM.fpush v8 (VM.fpush v7 (VM.fpush v6 (VM.fpush v5
                       (VM.fpush v4 (VM.fpush v3 (VM.fpush v2
                          (VM.fpush v1 t))))))))
                  = VM.error_flag t
               /\ VM.fpeek
                    (VM.fpush v8 (VM.fpush v7 (VM.fpush v6 (VM.fpush v5
                       (VM.fpush v4 (VM.fpush v3 (VM.fpush v2
                          (VM.fpush v1 t))))))))
                  = v8).
    { intros t Ht Hr.
      destruct (Hstep v1 t _ Ht eq_refl Hr) as (T1 & R1 & E1 & _).
      pose proof (Z.mod_pos_bound (VM.fpu_top t + 7) 8 ltac:(lia)) as B1.
      destruct (Hstep v2 _ _ B1 T1 R1) as (T2 & R2 & E2 & _).
      pose proof (Z.mod_pos_bound ((VM.fpu_top t + 7) mod 8 + 7) 8
                    ltac:(lia)) as B2.
      destruct (Hstep v3 _ _ B2 T2 R2) as (T3 & R3 & E3 & _).
      set (k3 := (((VM.fpu_top t + 7) mod 8 + 7) mod 8 + 7) mod 8) in *.
      pose proof (Z.mod_pos_bound (((VM.fpu_top t + 7) mod 8 + 7) mod 8 + 7)
                    8 ltac:(lia)) as B3. fold k3 in B3.
      destruct (Hstep v4 _ _ B3 T3 R3) as (T4 & R4 & E4 & _).
      pose proof (Z.mod_pos_bound (k3 + 7) 8 ltac:(lia)) as B4.
      destruct (Hstep v5 _ _ B4 T4 R4) as (T5 & R5 & E5 & _).
      pose proof (Z.mod_pos_bound ((k3 + 7) mod 8 + 7) 8 ltac:(lia)) as B5.
      destruct (Hstep v6 _ _ B5 T5 R5) as (T6 & R6 & E6 & _).
      set (k6 := (((k3 + 7) mod 8 + 7) mod 8 + 7) mod 8) in *.
      pose proof (Z.mod_pos_bound (((k3 + 7) mod 8 + 7) mod 8 + 7) 8
                    ltac:(lia)) as B6. fold k6 in B6.
      destruct (Hstep v7 _ _ B6 T6 R6) as (T7 & R7 & E7 & _).
      pose proof (Z.mod_pos_bound (k6 + 7) 8 ltac:(lia)) as B7.
      destruct (Hstep v8 _ _ B7 T7 R7) as (T8 & R8 & E8 & P8).
      split; [|split; [congruence | exact P8]].
      rewrite T8. subst k6 k3.
      assert (Hc : VM.fpu_top t = 0 \/ VM.fpu_top t = 1 \/ VM.fpu_top t = 2
                   \/ VM.fpu_top t = 3 \/ VM.fpu_top t = 4
                   \/ VM.fpu_top t = 5 \/ VM.fpu_top t = 6
                   \/ VM.fpu_top t = 7) by lia.
      destruct Hc as [E|[E|[E|[E|[E|[E|[E|E]]]]]]]; rewrite E; reflexivity. }
    destruct (Eight s Htop Hregs) as (A & B & _).
    destruct (Eight (VM.fpush v s) Hr1 ltac:(congruence)) as (_ & _ & C).
    repeat split; assumption.
Qed.

Lemma fpu_stack_is_a_ring_witness :
  fst (VM.fpop (VM.fpush Float32.zero VM.new_vm)) = Float32.zero
  /\ VM.fpu_top
       (fpush_all (replicate 8 Float32.zero) VM.new_vm) = 0.
Proof.
  destruct (fpu_stack_is_a_ring VM.new_vm Float32.zero)
    as (H1 & _ & _ & H2).
  - cbn. lia.
  - reflexivity.
  - split; [exact H1|].
    destruct (H2 (replicate 8 Float32.zero) eq_refl) as (H3 & _).
    exact H3.
Defined.

(** ** Jumps *)

(** The fetch of an instruction with a 32-bit operand. *)
Lemma step_with_operand (s : VM.VirtualMachine) (op : VM.VMOpcode)
  (operand : Z) :
  running s -> is_int32 operand ->
  vsize (VM.bytecode s) < 2 ^ 64 ->
  code_at (VM.bytecode s) (VM.instruction_pointer s)
    (VM.opcode_byte op :: le_bytes32 operand) ->
  VM.step s
  = counted (VM.execute (VM.decode_opcode (VM.opcode_byte op))
               (VM.opcode_byte op) (fetched (VM.opcode_byte op) s))
  /\ VM.readInt32 (fetched (VM.opcode_byte op) s)
     = (operand,
        VM.set_instruction_pointer (VM.instruction_pointer s + 5)
          (fetched (VM.opcode_byte op) s)).
Proof.
  intros Hr Ha Hsz Hc.
  pose proof (code_at_head _ _ _ _ Hc) as Hb.
  pose proof (code_at_bound _ _ _ Hc ltac:(discriminate)) as Hbd.
  assert (Hip : 0 <= VM.instruction_pointer s) by (destruct Hc; lia).
  unfold vsize in Hbd at 1. cbn [length] in Hbd.
  split; [exact (step_running s _ Hr Hip Hb)|].
  assert (Hipf : VM.instruction_pointer (fetched (VM.opcode_byte op) s)
                 = VM.instruction_pointer s + 1).
  { rewrite fetched_eq. cbn. apply size_t_id. lia. }
  rewrite (readInt32_at _ operand Ha).
  - rewrite Hipf. f_equal. f_equal. lia.
  - rewrite fetched_eq. exact Hsz.
  - rewrite Hipf. rewrite fetched_eq. cbn -[le_bytes32].
    exact (code_at_tail _ _ _ _ Hc).
Qed.

(** X15. [JMP] jumps to its operand. [JZ] and [JNZ] read their operand,
    pop a value, and jump when it is 0 and when it is not 0; otherwise
    the machine goes on after the operand. The value is popped in both
    cases. *)
Theorem jump_instructions :
  (forall (s : VM.VirtualMachine) (addr : Z),
      running s ->
      is_int32 addr ->
      vsize (VM.bytecode s) < 2 ^ 64 ->
      code_at (VM.bytecode s) (VM.instruction_pointer s)
        (VM.opcode_byte VM.JMP :: le_bytes32 addr) ->
      VM.instruction_pointer (VM.step s) = size_t addr
      /\ VM.stack (VM.step s) = VM.stack s
      /\ running (VM.step s))
  /\ (forall (s : VM.VirtualMachine) (op : VM.VMOpcode) (addr value : Z)
        (rest : list Z) (jump : bool),
         running s ->
         jumps_on op value = Some jump ->
         is_int32 addr ->
         vsize (VM.bytecode s) < 2 ^ 64 ->
         code_at (VM.bytecode s) (VM.instruction_pointer s)
           (VM.opcode_byte op :: le_bytes32 addr) ->
         VM.stack s = rest ++ [value] ->
         VM.instruction_pointer (VM.step s)
         = (if jump then size_t addr else VM.instruction_pointer s + 5)
         /\ VM.stack (VM.step s) = rest
         /\ running (VM.step s)).
Proof.
  split.
  - intros s addr Hr Ha Hsz Hc.
    destruct (step_with_operand s VM.JMP addr Hr Ha Hsz Hc) as [Hstep Hread].
    rewrite Hstep. destruct Hr as [Hh He].
    change (VM.decode_opcode (VM.opcode_byte VM.JMP)) with (Some VM.JMP).
    cbn [VM.execute]. rewrite Hread.
    rewrite counted_eq, fetched_eq. unfold running. cbn.
    rewrite Hh, He. repeat split.
  - intros s op addr value rest jump Hr Hop Ha Hsz Hc Hs.
    destruct (step_with_operand s op addr Hr Ha Hsz Hc) as [Hstep Hread].
    rewrite Hstep. destruct Hr as [Hh He].
    assert (E1 : VM.stack
                   (VM.set_instruction_pointer
                      (VM.instruction_pointer s + 5)
                      (fetched (VM.opcode_byte op) s))
                 = rest ++ [value])
      by (cbn [VM.stack VM.set_instruction_pointer];
          rewrite fetched_stack; exact Hs).
    destruct op; try discriminate Hop; injection Hop as <-.
    all: match goal with
         | |- context [VM.decode_opcode (VM.opcode_byte ?o)] =>
             change (VM.decode_opcode (VM.opcode_byte o)) with (Some o)
         end.
    all: cbn [VM.execute]; rewrite Hread, (pop_snoc _ _ _ E1).
    all: destruct (value =? 0); cbn [negb].
    all: rewrite counted_eq, fetched_eq; unfold running; cbn.
    all: rewrite Hh, He; repeat split.
Qed.

Lemma jump_instructions_witness :
  let s := VM.set_stack [0]
             (VM.loadBytecode (VM.opcode_byte VM.JZ :: le_bytes32 9)
                VM.new_vm) in
  VM.instruction_pointer (VM.step s) = 9 /\ VM.stack (VM.step s) = [].
Proof.
  intros s. destruct jump_instructions as (_ & H).
  destruct (H s VM.JZ 9 0 [] true) as (H1 & H2 & _).
  - split; reflexivity.
  - reflexivity.
  - vm_compute. split; discriminate.
  - vm_compute. reflexivity.
  - split; [vm_compute; discriminate | reflexivity].
  - reflexivity.
  - split; [exact H1 | exact H2].
Defined.

(** ** Loading a file *)

Lemma read_bytes_short (n : Z) (input : list Z) :
  vsize input < n -> VM.read_bytes n input = None.
Proof.
  intros H. unfold VM.read_bytes.
  destruct (Z.ltb_spec (vsize input) n); [reflexivity | lia].
Qed.

Lemma read_uint32_short (input : list Z) :
  vsize input < 4 -> VM.read_uint32 input = None.
Proof.
  intros H. unfold VM.read_uint32. rewrite read_bytes_short by exact H.
  reflexivity.
Qed.

Lemma write_uint32_length v : length (CodeGen.write_uint32 v) = 4%nat.
Proof. reflexivity. Qed.

(** Reading a 32-bit value from a file cut after [m] bytes. *)
Lemma read_uint32_cut (v : Z) (rest : list Z) (m : nat) :
  0 <= v < 2 ^ 32 ->
  VM.read_uint32 (take m (CodeGen.write_uint32 v ++ rest))
  = if (m <? 4)%nat then None else Some (v, take (m - 4) rest).
Proof.
  intros Hv. destruct (Nat.ltb_spec m 4) as [Hm|Hm].
  - apply read_uint32_short. unfold vsize. rewrite length_take. lia.
  - rewrite take_app_ge by (rewrite write_uint32_length; exact Hm).
    rewrite write_uint32_length. apply read_uint32_write. exact Hv.
Qed.

(** Reading a block of bytes from a file cut after [m] bytes. *)
Lemma read_bytes_cut (bytes rest : list Z) (m : nat) :
  VM.read_bytes (vsize bytes) (take m (bytes ++ rest))
  = if (m <? length bytes)%nat then None
    else Some (bytes, take (m - length bytes) rest).
Proof.
  destruct (Nat.ltb_spec m (length bytes)) as [Hm|Hm].
  - apply read_bytes_short. unfold vsize. rewrite length_take. lia.
  - rewrite take_app_ge by exact Hm. apply read_bytes_app.
Qed.

Lemma string_record_eq (str : string) :
  slength str < 2 ^ 32 ->
  CodeGen.string_record str
  = CodeGen.write_uint32 (slength str) ++ CodeGen.bytes_of_string str.
Proof.
  intros Hlen. assert (H0 : 0 <= slength str) by (unfold slength; lia).
  unfold CodeGen.string_record. rewrite uint32_id by lia.
  pose proof (bytes_of_string_size str) as Hsize.
  rewrite take_ge by (unfold vsize in Hsize; lia). reflexivity.
Qed.

(** The loop over the string table on a file cut after [m] bytes: it
    fails, or the cut lies after the table. *)
Lemma read_strings_cut (strs : list string) :
  forall (fuel m : nat) (rest : list Z) (s : VM.VirtualMachine),
    Forall (fun str => slength str < 2 ^ 32) strs ->
    let records := concat (map CodeGen.string_record strs) in
    let r := VM.read_strings fuel (vsize strs) (take m (records ++ rest)) s in
    (snd r = false /\ VM.error_flag (fst (fst r)) = true)
    \/ (snd r = true /\ (length records <= m)%nat
        /\ snd (fst r) = take (m - length records) rest).
Proof.
  induction strs as [|str strs IH]; intros fuel m rest s Hall records r.
  - right. subst r records. cbn [map concat app length].
    rewrite Nat.sub_0_r. destruct fuel; cbn; repeat split; lia.
  - inversion Hall as [|? ? Hstr Hrest]; subst.
    subst r. destruct fuel as [|fuel].
    { left. cbn [VM.read_strings].
      replace (vsize (str :: strs) <=? 0) with false
        by (symmetry; apply Z.leb_gt; unfold vsize; cbn [length]; lia).
      split; reflexivity. }
    cbn [VM.read_strings].
    replace (vsize (str :: strs) <=? 0) with false
      by (symmetry; apply Z.leb_gt; unfold vsize; cbn [length]; lia).
    subst records. cbn [map concat].
    rewrite (string_record_eq str Hstr), <- !app_assoc.
    assert (H0 : 0 <= slength str) by (unfold slength; lia).
    rewrite read_uint32_cut by lia.
    destruct (Nat.ltb_spec m 4) as [Hm|Hm]; [left; split; reflexivity|].
    rewrite <- bytes_of_string_size, read_bytes_cut.
    destruct (Nat.ltb_spec (m - 4) (length (CodeGen.bytes_of_string str)))
      as [Hm'|Hm']; [left; split; reflexivity|].
    replace (vsize (str :: strs) - 1) with (vsize strs)
      by (unfold vsize; cbn [length]; lia).
    specialize (IH fuel (m - 4 - length (CodeGen.bytes_of_string str))%nat
                  rest
                  (VM.set_string_table
                     (VM.string_table s
                      ++ [VM.string_of_bytes (CodeGen.bytes_of_string str)])
                     s) Hrest).
    cbn zeta in IH. destruct IH as [IH|(Hok & Hlen & Hleft)].
    + left. exact IH.
    + right. rewrite !length_app, write_uint32_length.
      split; [exact Hok|]. split; [lia|].
      rewrite Hleft. f_equal. lia.
Qed.

Lemma saveToFile_length (cg : CodeGen.CodeGenerator) :
  length (CodeGen.saveToFile cg)
  = (4 + length (concat (map CodeGen.string_record
                           (CodeGen.string_table cg)))
     + 4 + length (CodeGen.bytecode cg))%nat.
Proof.
  unfold CodeGen.saveToFile. rewrite !length_app, !write_uint32_length. lia.
Qed.

(** X16. The loader rejects every file that was cut short: on the first
    [m] bytes of a file that [saveToFile] wrote, [m] being less than the
    length of the file, [loadFromFile] answers [false] and sets the
    error flag. A file that cannot be opened is rejected with "Failed to
    open file: " and its name. *)
Theorem truncated_file_is_rejected (cg : CodeGen.CodeGenerator)
  (name : string) (vm : VM.VirtualMachine) (m : nat) :
  vsize (CodeGen.string_table cg) < 2 ^ 32 ->
  Forall (fun str => slength str < 2 ^ 32) (CodeGen.string_table cg) ->
  vsize (CodeGen.bytecode cg) < 2 ^ 32 ->
  (m < length (CodeGen.saveToFile cg))%nat ->
  fst (VM.loadFromFile name (Some (take m (CodeGen.saveToFile cg))) vm)
  = false
  /\ VM.error_flag
       (snd (VM.loadFromFile name (Some (take m (CodeGen.saveToFile cg)))
               vm)) = true
  /\ VM.loadFromFile name None vm
     = (false, VM.error ("Failed to open file: " ++ name) vm).
Proof.
  intros Hcount Hstrs Hcode Hm.
  split; [|split; [|reflexivity]].
  all: rewrite saveToFile_length in Hm.
  all: unfold VM.loadFromFile, CodeGen.saveToFile.
  all: rewrite read_uint32_cut by (unfold vsize in *; lia).
  all: destruct (Nat.ltb_spec m 4) as [Hm4|Hm4]; [reflexivity|].
  all: set (tail := CodeGen.write_uint32 (vsize (CodeGen.bytecode cg))
                    ++ CodeGen.bytecode cg).
  all: match goal with
       | |- context [VM.read_strings ?fuel _ _ ?s] =>
           pose proof (read_strings_cut (CodeGen.string_table cg) fuel
                         (m - 4) tail s Hstrs) as Hcut
       end.
  all: cbn zeta in Hcut.
  all: match type of Hcut with
       | context [VM.read_strings ?a ?b ?c ?d] =>
           destruct (VM.read_strings a b c d) as [[s' input'] ok]
       end.
  all: cbn [fst snd] in Hcut.
  all: destruct Hcut as [[-> Herr]|(-> & Hlen & ->)];
    cbn [negb fst snd]; [try reflexivity; exact Herr|].
  all: subst tail.
  all: rewrite read_uint32_cut by (unfold vsize in *; lia).
  all: match goal with
       | |- context [(?k <? 4)%nat] =>
           destruct (Nat.ltb_spec k 4) as [Hk|Hk]; [reflexivity|]
       end.
  all: rewrite read_bytes_short;
    [reflexivity | unfold vsize; rewrite length_take; lia].
Qed.

Lemma truncated_file_is_rejected_witness :
  let cg := CodeGen.emit_push 7
              (snd (CodeGen.addString "hi" CodeGen.new_generator)) in
  length (CodeGen.saveToFile cg) = 19%nat
  /\ fst (VM.loadFromFile "a.out" (Some (take 18 (CodeGen.saveToFile cg)))
            VM.new_vm) = false.
Proof.
  intros cg. split; [reflexivity|].
  apply (truncated_file_is_rejected cg "a.out" VM.new_vm 18).
  - vm_compute. reflexivity.
  - repeat constructor.
  - vm_compute. reflexivity.
  - vm_compute. lia.
Defined.

(** X17. The loader reads a file that [saveToFile] wrote into a machine
    that is ready to run: it holds the code and the string table of the
    generator, its instruction pointer is 0, its stacks are empty and it
    is neither halted nor in error, whatever the machine did before. *)
Theorem saved_file_loads_ready_to_run (cg : CodeGen.CodeGenerator)
  (name : string) (vm : VM.VirtualMachine) :
  vsize (CodeGen.string_table cg) < 2 ^ 32 ->
  Forall (fun str => slength str < 2 ^ 32) (CodeGen.string_table cg) ->
  vsize (CodeGen.bytecode cg) < 2 ^ 32 ->
  let r := VM.loadFromFile name (Some (CodeGen.saveToFile cg)) vm in
  fst r = true
  /\ VM.bytecode (snd r) = CodeGen.bytecode cg
  /\ VM.string_table (snd r) = CodeGen.string_table cg
  /\ VM.instruction_pointer (snd r) = 0
  /\ VM.stack (snd r) = [] /\ VM.call_stack (snd r) = []
  /\ running (snd r).
Proof.
  intros Hcount Hstrs Hcode r. subst r.
  unfold VM.loadFromFile, CodeGen.saveToFile.
  rewrite read_uint32_write by (unfold vsize in *; lia).
  set (tail := CodeGen.write_uint32 (vsize (CodeGen.bytecode cg))
               ++ CodeGen.bytecode cg).
  destruct (read_strings_table (CodeGen.string_table cg)
              (S (length (concat (map CodeGen.string_record
                                    (CodeGen.string_table cg)) ++ tail)))
              tail (VM.set_string_table [] vm) Hstrs)
    as (s' & Hs' & Ht).
  { rewrite length_app.
    pose proof (concat_records_length (CodeGen.string_table cg)). lia. }
  rewrite Hs'. cbn [negb]. subst tail.
  rewrite read_uint32_write by (unfold vsize in *; lia).
  pose proof (read_bytes_app (CodeGen.bytecode cg) []) as Hcode'.
  rewrite app_nil_r in Hcode'. rewrite Hcode'.
  cbn [fst snd]. unfold running. repeat split. exact Ht.
Qed.

Lemma saved_file_loads_ready_to_run_witness :
  let cg := CodeGen.emit_push 7
              (snd (CodeGen.addString "hi" CodeGen.new_generator)) in
  VM.bytecode
    (snd (VM.loadFromFile "a.out" (Some (CodeGen.saveToFile cg))
            (VM.error "stopped" VM.new_vm)))
  = VM.opcode_byte VM.PUSH :: le_bytes32 7.
Proof.
  intros cg.
  destruct (saved_file_loads_ready_to_run cg "a.out"
              (VM.error "stopped" VM.new_vm)) as (_ & H & _).
  - vm_compute. reflexivity.
  - repeat constructor.
  - vm_compute. reflexivity.
  - rewrite H. reflexivity.
Defined.

(** ** The code that the generator emits *)

Lemma code_at_app (pre bytes post : list Z) :
  code_at (pre ++ bytes ++ post) (vsize pre) bytes.
Proof.
  split; [apply vsize_nonneg|].
  unfold vsize. rewrite Nat2Z.id, drop_app_length, take_app_length.
  reflexivity.
Qed.

(** X18. The machine executes what [emit_push] emits: on the code of the
    generator, at the address where the generator stood, one step pushes
    the value and leaves the instruction pointer at the address where
    the generator stands now. *)
Theorem emitted_push_executes (cg : CodeGen.CodeGenerator) (value : Z)
  (s : VM.VirtualMachine) :
  is_int32 value ->
  vsize (CodeGen.bytecode cg) + 5 < 2 ^ 63 ->
  executes_from cg (CodeGen.emit_push value cg) s ->
  VM.stack (VM.step s) = VM.stack s ++ [value]
  /\ executes_from (CodeGen.emit_push value cg)
       (CodeGen.emit_push value cg) (VM.step s).
Proof.
  intros Hv Hsz (Hr & Hcode & Hip).
  assert (Hbytes : CodeGen.bytecode (CodeGen.emit_push value cg)
                   = CodeGen.bytecode cg
                     ++ (VM.opcode_byte VM.PUSH :: le_bytes32 value) ++ []).
  { unfold CodeGen.emit_push, CodeGen.emitInt32, CodeGen.emit.
    cbn [CodeGen.bytecode CodeGen.set_bytecode].
    rewrite <- app_assoc, app_nil_r. reflexivity. }
  assert (Hlen : vsize (VM.bytecode s)
                 = vsize (CodeGen.bytecode cg) + 5).
  { rewrite Hcode, Hbytes, !vsize_app. reflexivity. }
  assert (Hc : code_at (VM.bytecode s) (VM.instruction_pointer s)
                 (VM.opcode_byte VM.PUSH :: le_bytes32 value)).
  { rewrite Hcode, Hip, Hbytes. apply code_at_app. }
  destruct (step_with_operand s VM.PUSH value Hr Hv ltac:(lia) Hc)
    as [Hstep Hread].
  rewrite Hstep. destruct Hr as [Hh He].
  change (VM.decode_opcode (VM.opcode_byte VM.PUSH)) with (Some VM.PUSH).
  cbn [VM.execute]. rewrite Hread.
  rewrite counted_eq, fetched_eq.
  unfold executes_from, running, VM.push. cbn.
  rewrite Hh, He. repeat split; try assumption.
  unfold CodeGen.currentAddress. rewrite <- Hcode, Hlen, Hip. reflexivity.
Qed.

Lemma emitted_push_executes_witness :
  VM.stack
    (VM.step
       (VM.loadBytecode
          (CodeGen.bytecode (CodeGen.emit_push (-5) CodeGen.new_generator))
          VM.new_vm))
  = [-5].
Proof.
  destruct (emitted_push_executes CodeGen.new_generator (-5)
              (VM.loadBytecode
                 (CodeGen.bytecode
                    (CodeGen.emit_push (-5) CodeGen.new_generator))
                 VM.new_vm)) as [H _].
  - vm_compute. split; discriminate.
  - vm_compute. reflexivity.
  - repeat split.
  - exact H.
Defined.

(** ** Labels *)

(** [emitInt32At] on the four bytes at [pos]. *)
Lemma emitInt32At_patch (cg : CodeGen.CodeGenerator) (pre post : list Z)
  (b0 b1 b2 b3 value : Z) :
  CodeGen.bytecode cg = pre ++ [b0; b1; b2; b3] ++ post ->
  CodeGen.bytecode (CodeGen.emitInt32At (vsize pre) value cg)
  = pre ++ le_bytes32 value ++ post
  /\ CodeGen.labels (CodeGen.emitInt32At (vsize pre) value cg)
     = CodeGen.labels cg.
Proof.
  intros Hcode. unfold CodeGen.emitInt32At.
  cbn [CodeGen.bytecode CodeGen.labels CodeGen.set_bytecode].
  split; [|reflexivity]. rewrite Hcode. unfold vsize.
  replace (Z.to_nat (Z.of_nat (length pre) + 0)) with (length pre + 0)%nat
    by lia.
  replace (Z.to_nat (Z.of_nat (length pre) + 1)) with (length pre + 1)%nat
    by lia.
  replace (Z.to_nat (Z.of_nat (length pre) + 2)) with (length pre + 2)%nat
    by lia.
  replace (Z.to_nat (Z.of_nat (length pre) + 3)) with (length pre + 3)%nat
    by lia.
  rewrite !insert_app_r. reflexivity.
Qed.

(** X19. The patching of jumps. A jump to a label that is defined later
    is emitted with the operand 0; after the label is defined,
    [fixupLabels] writes the address of the label, the size of the code
    at its definition, over the operand. A jump to a label that was
    defined before is patched to that address too. The operand of a jump
    to a label that is never defined stays 0, the address of the first
    instruction. The generator holds no other label. *)
Theorem jumps_are_patched (cg : CodeGen.CodeGenerator) (op : CodeGen.Opcode)
  (label : string) (body : list Z) :
  CodeGen.labels cg = ∅ ->
  vsize (CodeGen.bytecode cg) + vsize body + 5 <= INT32_MAX ->
  let start := vsize (CodeGen.bytecode cg) in
  (forall cg' : CodeGen.CodeGenerator,
      emitted_after (CodeGen.emitJump op label cg) body cg' ->
      CodeGen.bytecode (CodeGen.fixupLabels (CodeGen.defineLabel label cg'))
      = CodeGen.bytecode cg
        ++ VM.opcode_byte op :: le_bytes32 (start + 5 + vsize body)
        ++ body
      /\ CodeGen.bytecode (CodeGen.fixupLabels cg')
         = CodeGen.bytecode cg
           ++ VM.opcode_byte op :: le_bytes32 0 ++ body)
  /\ (forall cg' : CodeGen.CodeGenerator,
         emitted_after (CodeGen.defineLabel label cg) body cg' ->
         CodeGen.bytecode (CodeGen.fixupLabels (CodeGen.emitJump op label cg'))
         = CodeGen.bytecode cg ++ body
           ++ VM.opcode_byte op :: le_bytes32 start).
Proof.
  intros Hnone Hmax start. unfold INT32_MAX in Hmax.
  pose proof (vsize_nonneg (CodeGen.bytecode cg)) as H0.
  pose proof (vsize_nonneg body) as H1.
  assert (I32 : forall z, 0 <= z <= start + vsize body + 5 -> int32 z = z).
  { intros z Hz. apply int32_id.
    unfold is_int32, INT32_MIN, INT32_MAX. subst start. lia. }
  split.
  - intros cg' [Hcode Hlabels].
    assert (Hcode1 : CodeGen.bytecode (CodeGen.emitJump op label cg)
                     = CodeGen.bytecode cg
                       ++ [VM.opcode_byte op] ++ [0; 0; 0; 0]).
    { unfold CodeGen.emitJump, CodeGen.emitInt32, CodeGen.emit.
      cbn [CodeGen.bytecode CodeGen.set_bytecode CodeGen.set_labels].
      rewrite <- app_assoc. reflexivity. }
    assert (Hlab1 : CodeGen.labels (CodeGen.emitJump op label cg)
                    = {[label := CodeGen.Label.mk 0 false [start + 1]]}).
    { unfold CodeGen.emitJump, CodeGen.emitInt32, CodeGen.emit,
        CodeGen.label_entry, CodeGen.currentAddress.
      cbn [CodeGen.bytecode CodeGen.labels CodeGen.set_bytecode
           CodeGen.set_labels].
      rewrite Hnone, lookup_empty, insert_empty. cbn.
      rewrite vsize_app. reflexivity. }
    rewrite Hcode1 in Hcode. rewrite Hlab1 in Hlabels.
    assert (Hpatch : CodeGen.bytecode cg'
                     = (CodeGen.bytecode cg ++ [VM.opcode_byte op])
                       ++ [0; 0; 0; 0] ++ body).
    { rewrite Hcode, <- !app_assoc. reflexivity. }
    assert (Hpos : start + 1
                   = vsize (CodeGen.bytecode cg ++ [VM.opcode_byte op])).
    { rewrite vsize_app. reflexivity. }
    split.
    + unfold CodeGen.fixupLabels, CodeGen.defineLabel, CodeGen.label_entry,
        CodeGen.currentAddress.
      cbn [CodeGen.labels CodeGen.set_labels].
      rewrite Hlabels, lookup_singleton_eq, insert_singleton_eq.
      rewrite map_fold_singleton.
      cbn [CodeGen.Label.defined CodeGen.Label.fixup_positions
           CodeGen.Label.address default from_option id fold_left].
      rewrite Hpos.
      match goal with
      | |- context [CodeGen.emitInt32At _ ?v ?g] =>
          destruct (emitInt32At_patch g
                      (CodeGen.bytecode cg ++ [VM.opcode_byte op]) body
                      0 0 0 0 v) as [-> _]; [exact Hpatch|]
      end.
      rewrite Hcode, !vsize_app. change (vsize [VM.opcode_byte op]) with 1.
      change (vsize [0; 0; 0; 0]) with 4.
      rewrite I32 by (subst start; lia).
      rewrite <- !app_assoc. reflexivity.
    + unfold CodeGen.fixupLabels. rewrite Hlabels, map_fold_singleton.
      cbn [CodeGen.Label.defined]. rewrite Hcode, <- !app_assoc.
      reflexivity.
  - intros cg' [Hcode Hlabels].
    assert (Hcode1 : CodeGen.bytecode (CodeGen.defineLabel label cg)
                     = CodeGen.bytecode cg) by reflexivity.
    assert (Hlab1 : CodeGen.labels (CodeGen.defineLabel label cg)
                    = {[label := CodeGen.Label.mk start true []]}).
    { unfold CodeGen.defineLabel, CodeGen.label_entry,
        CodeGen.currentAddress.
      cbn [CodeGen.labels CodeGen.set_labels].
      rewrite Hnone, lookup_empty, insert_empty. cbn.
      fold start. rewrite I32 by lia. reflexivity. }
    rewrite Hcode1 in Hcode. rewrite Hlab1 in Hlabels.
    unfold CodeGen.fixupLabels, CodeGen.emitJump, CodeGen.emitInt32,
      CodeGen.emit, CodeGen.label_entry, CodeGen.currentAddress.
    cbn [CodeGen.bytecode CodeGen.labels CodeGen.set_bytecode
         CodeGen.set_labels].
    rewrite Hlabels, lookup_singleton_eq, insert_singleton_eq.
    rewrite map_fold_singleton.
    cbn [CodeGen.Label.defined CodeGen.Label.fixup_positions
         CodeGen.Label.address default from_option id fold_left app].
    match goal with
    | |- context [CodeGen.emitInt32At _ ?v ?g] =>
        destruct (emitInt32At_patch g
                    (CodeGen.bytecode cg' ++ [VM.opcode_byte op]) []
                    0 0 0 0 v) as [-> _];
          [cbn [CodeGen.bytecode CodeGen.set_bytecode CodeGen.set_labels];
           reflexivity|]
    end.
    rewrite Hcode, app_nil_r, <- !app_assoc. reflexivity.
Qed.

Lemma jumps_are_patched_witness :
  CodeGen.bytecode
    (CodeGen.fixupLabels
       (CodeGen.defineLabel "end"
          (CodeGen.emit VM.POP
             (CodeGen.emitJump VM.JMP "end" CodeGen.new_generator))))
  = VM.opcode_byte VM.JMP :: le_bytes32 6 ++ [VM.opcode_byte VM.POP].
Proof.
  destruct (jumps_are_patched CodeGen.new_generator VM.JMP "end"
              [VM.opcode_byte VM.POP]) as [H _].
  - reflexivity.
  - vm_compute. discriminate.
  - destruct (H (CodeGen.emit VM.POP
                   (CodeGen.emitJump VM.JMP "end" CodeGen.new_generator)))
      as [E _].
    + split; reflexivity.
    + exact E.
Defined.

(** ** Names *)

Lemma to_string_inj (z1 z2 : Z) : to_string z1 = to_string z2 -> z1 = z2.
Proof.
  unfold to_string. intros H.
  apply DecimalZ.to_int_inj.
  assert (N : forall z, Z.to_int z <> Decimal.Pos Decimal.Nil
                        /\ Z.to_int z <> Decimal.Neg Decimal.Nil).
  { intros [|p|p]; cbn; split; try discriminate; intros E;
      injection E as E;
      exact (DecimalPos.Unsigned.to_uint_nonnil p E). }
  pose proof (NilZero.isi (Z.to_int z1) (proj1 (N z1)) (proj2 (N z1))) as E1.
  pose proof (NilZero.isi (Z.to_int z2) (proj1 (N z2)) (proj2 (N z2))) as E2.
  rewrite H in E1. congruence.
Qed.

Lemma append_inj_l (p a b : string) : p +:+ a = p +:+ b -> a = b.
Proof.
  induction p as [|c p IH]; cbn; intros H; [exact H|].
  injection H as H. exact (IH H).
Qed.

Lemma append_length (a b : string) :
  String.length (a +:+ b) = (String.length a + String.length b)%nat.
Proof.
  induction a as [|c a IH]; simpl; [reflexivity|]. f_equal. exact IH.
Qed.

(** X20. The mangled name of a function: the name itself for a function
    without parameters, and otherwise the name, "_P" and the number of
    parameters, so that the overloads of one name with different numbers
    of parameters get different labels. Functions of different names can
    get the same label: [f_P2] without parameters and [f] with two. *)
Theorem mangled_names :
  (forall name : string, CodeGen.mangleFunctionName name 0 = name)
  /\ (forall (name : string) (n m : Z),
         CodeGen.mangleFunctionName name n
         = CodeGen.mangleFunctionName name m ->
         n = m)
  /\ (forall (name : string) (n : Z),
         n <> 0 ->
         CodeGen.mangleFunctionName (name +:+ "_P" +:+ to_string n) 0
         = CodeGen.mangleFunctionName name n).
Proof.
  assert (Hne : forall (name : string) (k : Z),
             name <> name +:+ "_P" +:+ to_string k).
  { intros name k H. apply (f_equal String.length) in H.
    rewrite !append_length in H. cbn in H. lia. }
  split; [|split].
  - intros name. reflexivity.
  - intros name n m H. unfold CodeGen.mangleFunctionName in H.
    destruct (Z.eqb_spec n 0) as [En|Hn];
      destruct (Z.eqb_spec m 0) as [Em|Hm].
    + congruence.
    + exfalso. exact (Hne _ _ H).
    + exfalso. symmetry in H. exact (Hne _ _ H).
    + apply append_inj_l in H. apply (append_inj_l "_P") in H.
      apply to_string_inj. exact H.
  - intros name n Hn. unfold CodeGen.mangleFunctionName.
    destruct (Z.eqb_spec n 0) as [|_]; [contradiction|]. reflexivity.
Qed.

Lemma mangled_names_witness :
  CodeGen.mangleFunctionName "f_P2" 0 = CodeGen.mangleFunctionName "f" 2
  /\ CodeGen.mangleFunctionName "f" 1 <> CodeGen.mangleFunctionName "f" 2.
Proof.
  destruct mangled_names as (_ & Hinj & Hclash). split.
  - apply (Hclash "f"%string 2). discriminate.
  - intros H. apply Hinj in H. discriminate H.
Defined.

(** X21. The labels that [makeLabel] makes from one prefix are the
    prefix, "_" and the counter, which the call increments; two calls at
    different counters make different labels, and so do two calls in a
    row while the counter is below [INT32_MAX]. *)
Theorem made_labels_are_fresh (prefix : string) :
  (forall cg cg' : CodeGen.CodeGenerator,
      CodeGen.label_counter cg <> CodeGen.label_counter cg' ->
      fst (CodeGen.makeLabel prefix cg)
      <> fst (CodeGen.makeLabel prefix cg'))
  /\ (forall cg : CodeGen.CodeGenerator,
         0 <= CodeGen.label_counter cg < INT32_MAX ->
         CodeGen.label_counter (snd (CodeGen.makeLabel prefix cg))
         = CodeGen.label_counter cg + 1
         /\ fst (CodeGen.makeLabel prefix
                   (snd (CodeGen.makeLabel prefix cg)))
            <> fst (CodeGen.makeLabel prefix cg)).
Proof.
  assert (Hdiff : forall cg cg' : CodeGen.CodeGenerator,
             CodeGen.label_counter cg <> CodeGen.label_counter cg' ->
             fst (CodeGen.makeLabel prefix cg)
             <> fst (CodeGen.makeLabel prefix cg')).
  { intros cg cg' Hne H. unfold CodeGen.makeLabel in H. cbn [fst] in H.
    apply append_inj_l in H. apply (append_inj_l "_") in H.
    apply to_string_inj in H. contradiction. }
  split; [exact Hdiff|].
  intros cg Hc. unfold INT32_MAX in Hc.
  assert (E : CodeGen.label_counter (snd (CodeGen.makeLabel prefix cg))
              = CodeGen.label_counter cg + 1).
  { unfold CodeGen.makeLabel.
    cbn [snd CodeGen.label_counter CodeGen.set_label_counter].
    apply int32_id. unfold is_int32, INT32_MIN, INT32_MAX. lia. }
  split; [exact E|]. apply Hdiff. rewrite E. lia.
Qed.

Lemma made_labels_are_fresh_witness :
  fst (CodeGen.makeLabel "else" CodeGen.new_generator) = "else_0"%string
  /\ fst (CodeGen.makeLabel "else"
            (snd (CodeGen.makeLabel "else" CodeGen.new_generator)))
     <> fst (CodeGen.makeLabel "else" CodeGen.new_generator).
Proof.
  split; [reflexivity|].
  destruct (made_labels_are_fresh "else") as [_ H].
  apply (H CodeGen.new_generator). vm_compute. split; [discriminate|reflexivity].
Defined.

(** ** Symbols *)

(** X22. The symbol table is one flat map from names: the symbol that
    [addVariable], [addParameter] or [addFunction] binds to a name is the
    one that [findSymbol] finds for it, whatever was bound to the name
    before, and the symbols of the other names are left as they are.
    [genFunctionDecl] removes no symbol when it binds the parameters of a
    function: a name that is no parameter of the function keeps the
    symbol it had, so that the parameters and variables of the functions
    generated before stay visible. *)
Theorem symbol_table_is_flat (cg : CodeGen.CodeGenerator) (name : string) :
  (forall (offset : Z) (is_array is_heap is_float : bool),
      exists sym,
        CodeGen.findSymbol name
          (CodeGen.addVariable name offset is_array is_heap is_float cg)
        = Some sym
        /\ CodeGen.Symbol.type sym = CodeGen.VARIABLE
        /\ CodeGen.Symbol.offset sym = offset
        /\ CodeGen.Symbol.is_array sym = is_array
        /\ CodeGen.Symbol.is_heap_allocated sym = is_heap
        /\ CodeGen.Symbol.is_float sym = is_float)
  /\ (forall offset : Z,
         exists sym,
           CodeGen.findSymbol name (CodeGen.addParameter name offset cg)
           = Some sym
           /\ CodeGen.Symbol.type sym = CodeGen.PARAMETER
           /\ CodeGen.Symbol.offset sym = offset)
  /\ (forall address param_count : Z,
         exists sym,
           CodeGen.findSymbol name
             (CodeGen.addFunction name address param_count cg)
           = Some sym
           /\ CodeGen.Symbol.type sym = CodeGen.FUNCTION
           /\ CodeGen.Symbol.address sym = address
           /\ CodeGen.Symbol.param_count sym = param_count)
  /\ (forall (other : string) (offset address param_count : Z)
        (is_array is_heap is_float : bool),
         other <> name ->
         CodeGen.findSymbol name
           (CodeGen.addVariable other offset is_array is_heap is_float cg)
         = CodeGen.findSymbol name cg
         /\ CodeGen.findSymbol name (CodeGen.addParameter other offset cg)
            = CodeGen.findSymbol name cg
         /\ CodeGen.findSymbol name
              (CodeGen.addFunction other address param_count cg)
            = CodeGen.findSymbol name cg)
  /\ (forall (params : list (list string * string)) (param_count i : Z),
         name ∉ map snd params ->
         CodeGen.findSymbol name
           (CodeGen.bind_parameters param_count i params cg)
         = CodeGen.findSymbol name cg).
Proof.
  unfold CodeGen.findSymbol, CodeGen.addVariable, CodeGen.addParameter,
    CodeGen.addFunction.
  cbn [CodeGen.symbols CodeGen.set_symbols].
  split; [|split; [|split; [|split]]].
  - intros. eexists. rewrite lookup_insert_eq. repeat split.
  - intros. eexists. rewrite lookup_insert_eq. repeat split.
  - intros. eexists. rewrite lookup_insert_eq. repeat split.
  - intros other offset address param_count a h f Hne.
    rewrite !lookup_insert_ne by exact Hne. repeat split.
  - intros params. revert cg.
    induction params as [|[type_tokens pname] rest IH];
      intros cg param_count i Hnot; [reflexivity|].
    cbn [map snd] in Hnot. apply not_elem_of_cons in Hnot as [Hne Hrest].
    cbn [CodeGen.bind_parameters]. rewrite IH by exact Hrest.
    cbn [CodeGen.symbols CodeGen.set_symbols].
    apply lookup_insert_ne. congruence.
Qed.

Lemma symbol_table_is_flat_witness :
  CodeGen.findSymbol "x"
    (CodeGen.bind_parameters 1 0 [(["int"], "n")]%string
       (CodeGen.addVariable "x" 3 false false false CodeGen.new_generator))
  = CodeGen.findSymbol "x"
      (CodeGen.addVariable "x" 3 false false false CodeGen.new_generator).
Proof.
  destruct (symbol_table_is_flat
              (CodeGen.addVariable "x" 3 false false false
                 CodeGen.new_generator) "x") as (_ & _ & _ & _ & H).
  apply H. cbn. apply not_elem_of_cons. split; [discriminate|].
  apply not_elem_of_nil.
Defined.

(** ** Printing *)

Lemma fetched_quiet b s :
  VM.debug_mode s = false ->
  fetched b s
  = VM.set_instruction_pointer (size_t (VM.instruction_pointer s + 1)) s.
Proof. intros H. unfold fetched. rewrite H. cbn. rewrite H. reflexivity. Qed.

(** X23. [PRINT_STR] pops an index and writes the string of the table at
    that index; an index that is negative or not below the size of the
    table stops the machine with "Invalid string ID" and writes nothing.
    The index that [addString] answered for a string prints that string
    on a machine that holds the table of the generator. [PRINT] pops a
    value and writes it in decimal. *)
Theorem print_instructions (s : VM.VirtualMachine) (rest : list Z)
  (v : Z) :
  running s ->
  VM.debug_mode s = false ->
  0 <= VM.instruction_pointer s ->
  VM.stack s = rest ++ [v] ->
  is_int32 v ->
  (VM.bytecode s !! Z.to_nat (VM.instruction_pointer s)
   = Some (VM.opcode_byte VM.PRINT) ->
   VM.cout (VM.step s) = VM.cout s ++ [VM.OutStr (to_string v)]
   /\ VM.stack (VM.step s) = rest /\ running (VM.step s))
  /\ (VM.bytecode s !! Z.to_nat (VM.instruction_pointer s)
      = Some (VM.opcode_byte VM.PRINT_STR) ->
      (forall str : string,
          0 <= v -> VM.string_table s !! Z.to_nat v = Some str ->
          VM.cout (VM.step s) = VM.cout s ++ [VM.OutStr str]
          /\ VM.stack (VM.step s) = rest /\ running (VM.step s))
      /\ (v < 0 \/ vsize (VM.string_table s) <= v ->
          failed_with "Invalid string ID" (VM.step s)
          /\ VM.cout (VM.step s) = VM.cout s)
      /\ (forall (cg : CodeGen.CodeGenerator) (str : string),
             vsize (CodeGen.string_table cg) < 2 ^ 31 ->
             VM.string_table s
             = CodeGen.string_table (snd (CodeGen.addString str cg)) ->
             v = fst (CodeGen.addString str cg) ->
             VM.cout (VM.step s) = VM.cout s ++ [VM.OutStr str])).
Proof.
  intros Hr Hd Hip Hs Hv.
  assert (E1 : forall b, VM.stack (fetched b s) = rest ++ [v])
    by (intros b; rewrite fetched_stack; exact Hs).
  assert (Hvalid : VM.bytecode s !! Z.to_nat (VM.instruction_pointer s)
                   = Some (VM.opcode_byte VM.PRINT_STR) ->
                   forall str : string,
                     0 <= v -> VM.string_table s !! Z.to_nat v = Some str ->
                     VM.cout (VM.step s) = VM.cout s ++ [VM.OutStr str]
                     /\ VM.stack (VM.step s) = rest /\ running (VM.step s)).
  { intros Hb str H0 Hstr.
    rewrite (step_running s _ Hr Hip Hb). destruct Hr as [Hh He].
    change (VM.decode_opcode (VM.opcode_byte VM.PRINT_STR))
      with (Some VM.PRINT_STR).
    cbn [VM.execute]. rewrite (pop_snoc _ _ _ (E1 _)).
    cbn [VM.string_table VM.set_stack].
    rewrite (fetched_quiet _ _ Hd).
    cbn [VM.string_table VM.set_instruction_pointer].
    unfold is_int32, INT32_MIN, INT32_MAX in Hv.
    rewrite (size_t_id v) by lia.
    pose proof (lookup_lt_Some _ _ _ Hstr) as Hlt.
    destruct (Z.leb_spec 0 v); [|lia].
    destruct (Z.ltb_spec v (vsize (VM.string_table s)));
      [|unfold vsize in *; lia].
    cbn [andb]. rewrite Hstr. cbn [default from_option id].
    rewrite counted_eq. unfold running, VM.printString, VM.write_cout. cbn.
    rewrite Hh, He. repeat split. }
  split; [|intros Hb; split; [exact (Hvalid Hb)|split]].
  - intros Hb.
    rewrite (step_running s _ Hr Hip Hb). destruct Hr as [Hh He].
    change (VM.decode_opcode (VM.opcode_byte VM.PRINT))
      with (Some VM.PRINT).
    cbn [VM.execute]. rewrite (pop_snoc _ _ _ (E1 _)).
    rewrite (fetched_quiet _ _ Hd).
    rewrite counted_eq. unfold running, VM.printValue, VM.write_cout. cbn.
    rewrite Hh, He. repeat split.
  - intros Hbad.
    rewrite (step_running s _ Hr Hip Hb).
    change (VM.decode_opcode (VM.opcode_byte VM.PRINT_STR))
      with (Some VM.PRINT_STR).
    cbn [VM.execute]. rewrite (pop_snoc _ _ _ (E1 _)).
    cbn [VM.string_table VM.set_stack].
    rewrite (fetched_quiet _ _ Hd).
    cbn [VM.string_table VM.set_instruction_pointer].
    unfold is_int32, INT32_MIN, INT32_MAX in Hv.
    assert (E : (0 <=? v) && (size_t v <? vsize (VM.string_table s))
                = false).
    { destruct (Z.leb_spec 0 v); [|reflexivity].
      rewrite (size_t_id v) by lia.
      destruct (Z.ltb_spec v (vsize (VM.string_table s))); [lia|].
      reflexivity. }
    rewrite E. rewrite counted_eq. unfold failed_with. cbn. repeat split.
  - intros cg str Hsz Htable Hid.
    pose proof (addString_index str cg Hsz) as Hidx.
    rewrite <- Htable, <- Hid in Hidx.
    assert (H0 : 0 <= v).
    { rewrite Hid. unfold CodeGen.addString.
      destruct (CodeGen.index_of str (CodeGen.string_table cg) 0)
        as [i|] eqn:Ei; cbn [fst].
      - destruct (index_of_Some _ _ _ _ Ei) as [Hb' _].
        rewrite int32_id by (unfold is_int32, INT32_MIN, INT32_MAX; lia).
        lia.
      - cbn [CodeGen.string_table CodeGen.set_string_table].
        rewrite vsize_app. change (vsize [str]) with 1.
        pose proof (vsize_nonneg (CodeGen.string_table cg)).
        rewrite int32_id by (unfold is_int32, INT32_MIN, INT32_MAX; lia).
        lia. }
    exact (proj1 (Hvalid Hb str H0 Hidx)).
Qed.

Lemma print_instructions_witness :
  let cg := snd (CodeGen.addString "hi" CodeGen.new_generator) in
  let s := VM.set_stack [0]
             (VM.set_string_table (CodeGen.string_table cg)
                (VM.loadBytecode [VM.opcode_byte VM.PRINT_STR] VM.new_vm)) in
  VM.cout (VM.step s) = [VM.OutStr "hi"].
Proof.
  intros cg s.
  destruct (print_instructions s [] 0) as (_ & H).
  - split; reflexivity.
  - reflexivity.
  - vm_compute. discriminate.
  - reflexivity.
  - vm_compute. split; discriminate.
  - destruct (H eq_refl) as (_ & _ & Hadd).
    apply (Hadd CodeGen.new_generator "hi"%string).
    + vm_compute. reflexivity.
    + reflexivity.
    + reflexivity.
Defined.

(** ** The token stream *)

Lemma iterate_invariant {S : Type} (P : S -> Prop) (body : S -> option S) :
  (forall st st', P st -> body st = Some st' -> P st') ->
  forall (fuel : nat) (st : S), P st -> P (iterate fuel body st).
Proof.
  intros Hstep. induction fuel as [|fuel IH]; intros st Hst; [exact Hst|].
  cbn [iterate]. destruct (body st) as [st'|] eqn:E; [|exact Hst].
  apply IH. exact (Hstep st st' Hst E).
Qed.

Lemma advance_tokens lx : Lexer.tokens (Lexer.advance lx) = Lexer.tokens lx.
Proof. unfold Lexer.advance. destruct (_ <? _); reflexivity. Qed.

Lemma advance_n_tokens n lx :
  Lexer.tokens (Nat.iter n Lexer.advance lx) = Lexer.tokens lx.
Proof.
  induction n as [|n IH]; [reflexivity|].
  change (Nat.iter (S n) Lexer.advance lx)
    with (Lexer.advance (Nat.iter n Lexer.advance lx)).
  rewrite advance_tokens. exact IH.
Qed.

Lemma new_line_tokens lx :
  Lexer.tokens (Lexer.new_line lx) = Lexer.tokens lx.
Proof. reflexivity. Qed.

(** The readers leave the list of tokens as it is. *)
Ltac same_tokens :=
  repeat first
    [ rewrite advance_tokens
    | rewrite advance_n_tokens
    | rewrite new_line_tokens
    | progress cbn [Lexer.tokens Lexer.reportError Lexer.set_error_flag
                    Lexer.set_position Lexer.set_line Lexer.set_column
                    fst snd] ].

Lemma skipWhitespace_tokens lx :
  Lexer.tokens (Lexer.skipWhitespace lx) = Lexer.tokens lx.
Proof.
  unfold Lexer.skipWhitespace.
  apply (iterate_invariant
           (fun l => Lexer.tokens l = Lexer.tokens lx)); [|reflexivity].
  intros st st' Hst Hbody.
  repeat match type of Hbody with
         | context [if ?c then _ else _] => destruct c
         end; try discriminate Hbody; injection Hbody as <-;
    same_tokens; exact Hst.
Qed.

Lemma skip_to_line_end_tokens lx :
  Lexer.tokens (Lexer.skip_to_line_end lx) = Lexer.tokens lx.
Proof.
  unfold Lexer.skip_to_line_end.
  apply (iterate_invariant
           (fun l => Lexer.tokens l = Lexer.tokens lx)); [|reflexivity].
  intros st st' Hst Hbody.
  destruct (_ && _); [|discriminate Hbody]. injection Hbody as <-.
  same_tokens. exact Hst.
Qed.

Lemma scan_literal_tokens quote count_lines lx :
  Lexer.tokens (Lexer.scan_literal quote count_lines lx) = Lexer.tokens lx.
Proof.
  unfold Lexer.scan_literal.
  apply (iterate_invariant
           (fun st : bool * Lexer.Lexer =>
              Lexer.tokens (snd st) = Lexer.tokens lx)); [|reflexivity].
  intros [e l] [e' l'] Hst Hbody. cbn [snd] in *.
  repeat match type of Hbody with
         | context [if ?c then _ else _] => destruct c
         end; try discriminate Hbody; injection Hbody as <- <-;
    same_tokens; exact Hst.
Qed.

Lemma readNumber_token lx :
  Lexer.tokens (snd (Lexer.readNumber lx)) = Lexer.tokens lx
  /\ Token.type (fst (Lexer.readNumber lx)) = NUMBER.
Proof.
  unfold Lexer.readNumber.
  match goal with
  | |- context [iterate ?n ?body ?st] =>
      pose proof (iterate_invariant
                    (fun x : bool * bool * Lexer.Lexer =>
                       Lexer.tokens (snd x) = Lexer.tokens lx)
                    body) as Hloop;
      specialize (fun H => Hloop H n st);
      destruct (iterate n body st) as [[d e] l]
  end.
  cbn [fst snd] in *.
  assert (Hl : Lexer.tokens l = Lexer.tokens lx).
  { apply Hloop; [|reflexivity].
    intros [[d1 e1] l1] [[d2 e2] l2] Hst Hbody. cbn [snd] in *.
    repeat match type of Hbody with
           | context [if ?c then _ else _] => destruct c
           end; try discriminate Hbody; injection Hbody as <- <- <-;
      same_tokens; exact Hst. }
  split; [|reflexivity].
  repeat match goal with
         | |- context [if ?c then _ else _] => destruct c
         end; same_tokens; exact Hl.
Qed.

Lemma readIdentifier_token lx :
  Lexer.tokens (snd (Lexer.readIdentifier lx)) = Lexer.tokens lx
  /\ Token.type (fst (Lexer.readIdentifier lx)) = IDENTIFIER.
Proof.
  unfold Lexer.readIdentifier. cbn [fst snd]. split; [|reflexivity].
  apply (iterate_invariant
           (fun l => Lexer.tokens l = Lexer.tokens lx)); [|reflexivity].
  intros st st' Hst Hbody.
  destruct (_ && _); [|discriminate Hbody]. injection Hbody as <-.
  same_tokens. exact Hst.
Qed.

Lemma readString_token lx :
  Lexer.tokens (snd (Lexer.readString lx)) = Lexer.tokens lx
  /\ Token.type (fst (Lexer.readString lx)) = STRING.
Proof.
  unfold Lexer.readString. cbn [fst snd]. split; [|reflexivity].
  destruct (_ <? _); same_tokens; rewrite scan_literal_tokens;
    same_tokens; reflexivity.
Qed.

Lemma readCharacter_token lx :
  Lexer.tokens (snd (Lexer.readCharacter lx)) = Lexer.tokens lx
  /\ Token.type (fst (Lexer.readCharacter lx)) = CHARACTER.
Proof.
  unfold Lexer.readCharacter. cbn [fst snd]. split; [|reflexivity].
  destruct (_ <? _); same_tokens; rewrite scan_literal_tokens;
    same_tokens; reflexivity.
Qed.

Lemma readSingleLineComment_token lx :
  Lexer.tokens (snd (Lexer.readSingleLineComment lx)) = Lexer.tokens lx
  /\ Token.type (fst (Lexer.readSingleLineComment lx)) = COMMENT.
Proof.
  unfold Lexer.readSingleLineComment. cbn [fst snd]. split; [|reflexivity].
  rewrite skip_to_line_end_tokens. same_tokens. reflexivity.
Qed.

Lemma readPreprocessor_token lx :
  Lexer.tokens (snd (Lexer.readPreprocessor lx)) = Lexer.tokens lx
  /\ Token.type (fst (Lexer.readPreprocessor lx)) = PREPROCESSOR.
Proof.
  unfold Lexer.readPreprocessor. cbn [fst snd]. split; [|reflexivity].
  rewrite skip_to_line_end_tokens. same_tokens. reflexivity.
Qed.

Lemma readMultiLineComment_token lx :
  Lexer.tokens (snd (Lexer.readMultiLineComment lx)) = Lexer.tokens lx
  /\ Token.type (fst (Lexer.readMultiLineComment lx)) = COMMENT.
Proof.
  unfold Lexer.readMultiLineComment.
  match goal with
  | |- context [iterate ?n ?body ?st] =>
      pose proof (iterate_invariant
                    (fun x : bool * Lexer.Lexer =>
                       Lexer.tokens (snd x) = Lexer.tokens lx)
                    body) as Hloop;
      specialize (fun H => Hloop H n st);
      destruct (iterate n body st) as [c l]
  end.
  cbn [fst snd] in *.
  assert (Hl : Lexer.tokens l = Lexer.tokens lx).
  { apply Hloop; [|same_tokens; reflexivity].
    intros [c1 l1] [c2 l2] Hst Hbody. cbn [snd] in *.
    repeat match type of Hbody with
           | context [if ?c then _ else _] => destruct c
           end; try discriminate Hbody; injection Hbody as <- <-;
      same_tokens; exact Hst. }
  split; [|reflexivity].
  destruct (_ <=? _); same_tokens; exact Hl.
Qed.

(** The types of the keyword tables. *)
Lemma table_types (keys : list (string * TokenType)) (v : string)
  (ty : TokenType) :
  (list_to_map keys : gmap string TokenType) !! v = Some ty ->
  ty ∈ snd <$> keys.
Proof.
  intros H. apply elem_of_list_to_map_2 in H.
  apply (list_elem_of_fmap_2 snd) in H. exact H.
Qed.

Lemma categorizeKeyword_token v l c :
  proper_token (Lexer.categorizeKeyword v l c).
Proof.
  unfold Lexer.categorizeKeyword.
  assert (Hin : forall (keys : list (string * TokenType)) (ty : TokenType),
             Forall (fun t => t <> END_OF_FILE /\ t <> UNKNOWN)
               (snd <$> keys) ->
             (list_to_map keys : gmap string TokenType) !! v = Some ty ->
             ty <> END_OF_FILE /\ ty <> UNKNOWN).
  { intros keys ty Hall H. apply table_types in H.
    rewrite Forall_forall in Hall. exact (Hall ty H). }
  destruct (Lexer.access_specifiers !! v) as [ty|] eqn:E1.
  { apply (Hin _ ty) in E1; [exact E1|].
    cbn. repeat constructor; discriminate. }
  destruct (Lexer.type_keywords !! v) as [ty|] eqn:E2.
  { apply (Hin _ ty) in E2; [exact E2|].
    cbn. repeat constructor; discriminate. }
  destruct (Lexer.keywords !! v) as [ty|] eqn:E3.
  { apply (Hin _ ty) in E3; [exact E3|].
    cbn. repeat constructor; discriminate. }
  split; discriminate.
Qed.

Lemma emit_token n ty v l c lx :
  Lexer.tokens (snd (Lexer.emit n ty v l c lx)) = Lexer.tokens lx
  /\ Token.type (fst (Lexer.emit n ty v l c lx)) = ty.
Proof.
  unfold Lexer.emit. cbn [fst snd]. rewrite advance_n_tokens.
  split; reflexivity.
Qed.

Lemma readOperator_token lx :
  Lexer.tokens (snd (Lexer.readOperator lx)) = Lexer.tokens lx
  /\ proper_token (fst (Lexer.readOperator lx)).
Proof.
  unfold Lexer.readOperator, proper_token.
  repeat match goal with
         | |- context [if ?c then _ else _] =>
             lazymatch c with
             | context [if _ then _ else _] => fail
             | _ => destruct c
             end
         end.
  all: try (match goal with
            | |- context [Lexer.emit ?n ?ty ?v ?l ?c ?x] =>
                destruct (emit_token n ty v l c x) as [-> ->]
            end; repeat split; discriminate).
  all: match goal with
       | |- context [match ?m with _ => _ end] => destruct m as [ty|] eqn:E
       end.
  all: match goal with
       | |- context [Lexer.emit ?n ?ty ?v ?l ?c ?x] =>
           destruct (emit_token n ty v l c x) as [-> ->]
       end.
  all: try (repeat split; discriminate).
  all: split; [reflexivity|].
  all: try discriminate E.
  all: apply table_types in E; cbn in E.
  all: repeat (apply elem_of_cons in E as [->|E];
               [split; discriminate|]).
  all: apply elem_of_nil in E; contradiction.
Qed.

Lemma readPunctuation_token lx :
  Lexer.tokens (snd (Lexer.readPunctuation lx)) = Lexer.tokens lx
  /\ Token.type (fst (Lexer.readPunctuation lx)) <> END_OF_FILE.
Proof.
  unfold Lexer.readPunctuation.
  repeat match goal with
         | |- context [if ?c then _ else _] =>
             lazymatch c with
             | context [if _ then _ else _] => fail
             | _ => destruct c
             end
         end.
  all: match goal with
       | |- context [Lexer.emit ?n ?ty ?v ?l ?c ?x] =>
           destruct (emit_token n ty v l c x) as [-> ->]
       end.
  all: split; [reflexivity | discriminate].
Qed.

(** [getNextToken] leaves the list of tokens as it is and never answers
    the end marker. *)
Lemma getNextToken_token lx :
  Lexer.tokens (snd (Lexer.getNextToken lx)) = Lexer.tokens lx
  /\ Token.type (fst (Lexer.getNextToken lx)) <> END_OF_FILE.
Proof.
  unfold Lexer.getNextToken.
  repeat match goal with
         | |- context [if ?c then _ else _] =>
             lazymatch c with
             | context [if _ then _ else _] => fail
             | context [let (_, _) := _ in _] => fail
             | _ => destruct c
             end
         end.
  - destruct (readPreprocessor_token lx) as [-> ->].
    split; [reflexivity|discriminate].
  - destruct (readNumber_token lx) as [-> ->].
    split; [reflexivity|discriminate].
  - destruct (readIdentifier_token lx) as [Ht Hty].
    destruct (Lexer.readIdentifier lx) as [ident lx']. cbn [fst snd] in *.
    destruct (decide (Token.type ident = IDENTIFIER)) as [_|Hne];
      [|contradiction].
    cbn [fst snd]. split; [exact Ht|].
    apply categorizeKeyword_token.
  - destruct (readString_token lx) as [-> ->].
    split; [reflexivity|discriminate].
  - destruct (readCharacter_token lx) as [-> ->].
    split; [reflexivity|discriminate].
  - destruct (readSingleLineComment_token lx) as [-> ->].
    split; [reflexivity|discriminate].
  - destruct (readMultiLineComment_token lx) as [-> ->].
    split; [reflexivity|discriminate].
  - destruct (readOperator_token lx) as [-> [H _]].
    split; [reflexivity|exact H].
  - destruct (readOperator_token lx) as [-> [H _]].
    split; [reflexivity|exact H].
  - apply readPunctuation_token.
Qed.

(** The tokens of a source text, as [tokenize] answers them. *)
Lemma lex_shape (input : string) :
  exists (toks : list Token.t) (l c : Z),
    lex input = toks ++ [make_token END_OF_FILE "" l c]
    /\ Forall proper_token toks.
Proof.
  unfold lex, Lexer.tokenize. cbn [fst].
  match goal with
  | |- context [iterate ?n ?body ?st] =>
      pose proof (iterate_invariant
                    (fun lx => Forall proper_token (Lexer.tokens lx))
                    body) as Hloop;
      specialize (fun H => Hloop H n st);
      set (final := iterate n body st) in *
  end.
  exists (Lexer.tokens final), (Lexer.line final), (Lexer.column final).
  split; [reflexivity|].
  apply Hloop; [|constructor].
  intros st st' Hst Hbody.
  destruct (_ <? _); [|discriminate Hbody].
  destruct (_ <=? _); [discriminate Hbody|].
  destruct (getNextToken_token (Lexer.skipWhitespace st)) as [Ht Hty].
  destruct (Lexer.getNextToken (Lexer.skipWhitespace st)) as [token lx'].
  cbn [fst snd] in *. rewrite skipWhitespace_tokens in Ht.
  destruct (decide (Token.type token = UNKNOWN)) as [Hu|Hu];
    injection Hbody as <-.
  - rewrite Ht. exact Hst.
  - cbn [Lexer.tokens Lexer.set_tokens]. rewrite Ht.
    apply Forall_app. split; [exact Hst|].
    constructor; [split; assumption | constructor].
Qed.


(** ** The cursor of the parser *)

Lemma token_in_range (ps : Parser.Parser) (i : Z) :
  0 <= i < vsize (Parser.tokens ps) ->
  Parser.tokens ps !! Z.to_nat i = Some (Parser.token_at ps i).
Proof.
  intros Hi. unfold Parser.token_at.
  destruct (Z.ltb_spec i 0) as [Hneg|_]; [lia|].
  destruct (Parser.tokens ps !! Z.to_nat i) as [t|] eqn:E; [reflexivity|].
  apply lookup_ge_None in E. unfold vsize in Hi. lia.
Qed.

(** Before the end marker there is a next token. *)
Lemma next_in_range (ps : Parser.Parser) (i : Z) :
  ends_with_end_marker (Parser.tokens ps) ->
  0 <= i < vsize (Parser.tokens ps) ->
  Token.type (Parser.token_at ps i) <> END_OF_FILE ->
  i + 1 < vsize (Parser.tokens ps).
Proof.
  intros [t [Hlast Hty]] Hi Hne.
  destruct (Z.eq_dec (i + 1) (vsize (Parser.tokens ps))) as [E|E]; [|lia].
  exfalso. apply Hne.
  pose proof (token_in_range ps i Hi) as Hi'.
  rewrite last_lookup in Hlast.
  replace (Z.to_nat i) with (pred (length (Parser.tokens ps))) in Hi'
    by (unfold vsize in E; lia).
  rewrite Hlast in Hi'. injection Hi' as <-. exact Hty.
Qed.

Lemma new_parser_cursor (toks : list Token.t) (fuel : nat) (i : Z) :
  ends_with_end_marker toks ->
  vsize toks < 2 ^ 64 ->
  0 <= i < vsize toks ->
  (Z.to_nat (vsize toks - i) <= fuel)%nat ->
  let ps := Parser.mk toks 0 "" in
  let j :=
    iterate fuel
      (fun i =>
         if (i <? vsize toks)
            && bool_decide (Token.type (Parser.token_at ps i) = COMMENT)
         then Some (size_t (i + 1)) else None)
      i in
  i <= j < vsize toks
  /\ Token.type (Parser.token_at ps j) <> COMMENT
  /\ forall k, i <= k < j -> Token.type (Parser.token_at ps k) = COMMENT.
Proof.
  intros Hend Hsize. cbv zeta. revert i.
  induction fuel as [|fuel IH]; intros i Hi Hfuel; [lia|].
  cbn [iterate].
  destruct (Z.ltb_spec i (vsize toks)) as [_|Hge]; [|lia].
  cbn [andb]. case_bool_decide as Hc.
  - assert (Hnext : i + 1 < vsize toks).
    { apply (next_in_range (Parser.mk toks 0 "") i Hend Hi).
      rewrite Hc. discriminate. }
    rewrite (size_t_id (i + 1)) by lia.
    destruct (IH (i + 1)) as [Hj [Hnc Hall]]; [lia | lia |].
    split; [lia|]. split; [exact Hnc|].
    intros k Hk. destruct (Z.eq_dec k i) as [->|Hki]; [exact Hc|].
    apply Hall. lia.
  - split; [lia|]. split; [exact Hc|]. intros k Hk. lia.
Qed.

(** X25. A new parser starts on the first token that is not a comment:
    for a list of tokens that ends with the end marker, the cursor of
    [Parser(toks)] is the index of a token, that token is no comment,
    and every token before it is one. *)
Theorem parser_starts_after_comments (toks : list Token.t) :
  ends_with_end_marker toks ->
  vsize toks < 2 ^ 64 ->
  Parser.tokens (Parser.new_parser toks) = toks
  /\ cursor_in_range (Parser.new_parser toks)
  /\ Token.type (current_token (Parser.new_parser toks)) <> COMMENT
  /\ forall k, 0 <= k < Parser.idx (Parser.new_parser toks) ->
               Token.type (Parser.token_at (Parser.new_parser toks) k)
               = COMMENT.
Proof.
  intros Hend Hsize.
  assert (Hpos : 0 < vsize toks).
  { destruct Hend as [t [Hlast _]]. destruct toks; [discriminate Hlast|].
    unfold vsize. cbn [length]. lia. }
  destruct (new_parser_cursor toks (S (length toks)) 0 Hend Hsize)
    as [Hj [Hnc Hall]]; [lia | unfold vsize; lia |].
  unfold Parser.new_parser, cursor_in_range, current_token.
  cbn [Parser.tokens Parser.idx].
  split; [reflexivity|]. split; [exact Hj|]. split; [exact Hnc|].
  exact Hall.
Qed.

Lemma parser_starts_after_comments_witness :
  let toks := [ make_token COMMENT " c" 1 1;
                make_token IDENTIFIER "x" 2 1;
                make_token END_OF_FILE "" 2 2 ] in
  Parser.idx (Parser.new_parser toks) = 1
  /\ cursor_in_range (Parser.new_parser toks).
Proof.
  split; [reflexivity|].
  apply parser_starts_after_comments.
  - eexists. split; [reflexivity | reflexivity].
  - reflexivity.
Defined.

(** The loop of [advance] that skips comments. *)
Lemma skip_comments_cursor (fuel : nat) (ps : Parser.Parser) :
  ends_with_end_marker (Parser.tokens ps) ->
  vsize (Parser.tokens ps) < 2 ^ 64 ->
  cursor_in_range ps ->
  (Z.to_nat (vsize (Parser.tokens ps) - Parser.idx ps) <= fuel)%nat ->
  exists ps',
    Parser.loop_fuel fuel
      (fun _ : unit =>
         Parser.bind Parser.isAtEnd (fun e =>
         Parser.bind Parser.peek (fun tok =>
         if negb e && bool_decide (Token.type tok = COMMENT)
         then Parser.bind Parser.get_idx (fun i =>
              Parser.bind (Parser.set_idx (size_t (i + 1))) (fun _ =>
              Parser.ret (true, tt)))
         else Parser.ret (false, tt)))) tt ps
    = Parser.Ok tt ps'
    /\ Parser.tokens ps' = Parser.tokens ps
    /\ Parser.currentClassName ps' = Parser.currentClassName ps
    /\ cursor_in_range ps'
    /\ Parser.idx ps <= Parser.idx ps'
    /\ Token.type (current_token ps') <> COMMENT
    /\ forall k, Parser.idx ps <= k < Parser.idx ps' ->
                 Token.type (Parser.token_at ps k) = COMMENT.
Proof.
  match goal with
  | |- context [Parser.loop_fuel _ ?b _ _] => set (body := b)
  end.
  assert (Hbody : forall p : Parser.Parser,
             body tt p
             = if negb (bool_decide
                          (Token.type (current_token p) = END_OF_FILE))
                  && bool_decide (Token.type (current_token p) = COMMENT)
               then Parser.Ok (true, tt)
                      (Parser.mk (Parser.tokens p)
                         (size_t (Parser.idx p + 1))
                         (Parser.currentClassName p))
               else Parser.Ok (false, tt) p).
  { intros p. unfold body, current_token.
    cbv [Parser.bind Parser.isAtEnd Parser.peek Parser.ret
         Parser.get_idx Parser.set_idx].
    destruct (bool_decide _), (bool_decide _); reflexivity. }
  clearbody body.
  revert ps. induction fuel as [|fuel IH]; intros ps Hend Hsize Hin Hfuel.
  { unfold cursor_in_range in Hin. lia. }
  cbn [Parser.loop_fuel]. unfold Parser.bind at 1. rewrite Hbody.
  case_bool_decide as He; cbn [negb andb].
  - cbn [fst snd]. unfold Parser.ret.
    exists ps. split; [reflexivity|]. split; [reflexivity|].
    split; [reflexivity|]. split; [exact Hin|]. split; [lia|].
    split; [rewrite He; discriminate|]. intros k Hk. lia.
  - case_bool_decide as Hc.
    + assert (Hnext : Parser.idx ps + 1 < vsize (Parser.tokens ps))
        by exact (next_in_range ps _ Hend Hin He).
      unfold cursor_in_range in Hin.
      cbn [fst snd].
      rewrite (size_t_id (Parser.idx ps + 1)) by lia.
      set (ps1 := Parser.mk (Parser.tokens ps) (Parser.idx ps + 1)
                    (Parser.currentClassName ps)).
      destruct (IH ps1) as [ps' [Hrun [Ht [Hn [Hin' [Hle [Hnc Hall]]]]]]];
        [exact Hend | exact Hsize
         | unfold cursor_in_range; cbn [ps1 Parser.tokens Parser.idx]; lia
         | cbn [ps1 Parser.tokens Parser.idx]; lia |].
      exists ps'. cbn [ps1 Parser.tokens Parser.idx Parser.currentClassName]
                    in Ht, Hn, Hle, Hall.
      split; [exact Hrun|]. split; [exact Ht|]. split; [exact Hn|].
      split; [exact Hin'|]. split; [lia|]. split; [exact Hnc|].
      intros k Hk. destruct (Z.eq_dec k (Parser.idx ps)) as [->|Hki];
        [exact Hc|].
      change (Parser.token_at ps k) with (Parser.token_at ps1 k).
      apply Hall. lia.
    + cbn [fst snd]. unfold Parser.ret.
      exists ps. split; [reflexivity|]. split; [reflexivity|].
      split; [reflexivity|]. split; [exact Hin|]. split; [lia|].
      split; [exact Hc|]. intros k Hk. lia.
Qed.

(** [advance] on a cursor in range. *)
Lemma advance_cursor (ps : Parser.Parser) :
  ends_with_end_marker (Parser.tokens ps) ->
  vsize (Parser.tokens ps) < 2 ^ 64 ->
  cursor_in_range ps ->
  exists ps',
    Parser.advance ps
    = Parser.Ok (Parser.token_at ps' (Parser.idx ps' - 1)) ps'
    /\ Parser.tokens ps' = Parser.tokens ps
    /\ Parser.currentClassName ps' = Parser.currentClassName ps
    /\ cursor_in_range ps'
    /\ Token.type (current_token ps') <> COMMENT
    /\ (Token.type (current_token ps) = END_OF_FILE -> ps' = ps)
    /\ (Token.type (current_token ps) <> END_OF_FILE ->
        Parser.idx ps < Parser.idx ps'
        /\ forall k, Parser.idx ps < k < Parser.idx ps' ->
                     Token.type (Parser.token_at ps k) = COMMENT).
Proof.
  intros Hend Hsize Hin.
  unfold Parser.advance.
  unfold Parser.bind at 1, Parser.isAtEnd at 1, Parser.bind at 1,
    Parser.peek at 1, Parser.ret at 1.
  fold (current_token ps).
  case_bool_decide as He.
  - unfold Parser.bind at 1, Parser.ret at 1.
    unfold Parser.bind at 1, Parser.skip_comments, Parser.loop.
    destruct (skip_comments_cursor (S (length (Parser.tokens ps))) ps
                Hend Hsize Hin)
      as [ps' [Hrun [Ht [Hn [Hin' [Hle [Hnc Hall]]]]]]];
      [unfold cursor_in_range, vsize in *; lia|].
    rewrite Hrun.
    assert (Hsame : ps' = ps).
    { revert Hrun. cbn [Parser.loop_fuel].
      cbv [Parser.bind Parser.isAtEnd Parser.peek Parser.ret].
      fold (current_token ps). rewrite bool_decide_eq_true_2 by exact He.
      cbn [negb andb fst snd].
      intros Hrun. injection Hrun as <-. reflexivity. }
    subst ps'. unfold Parser.previous.
    exists ps. split; [reflexivity|]. split; [reflexivity|].
    split; [reflexivity|]. split; [exact Hin|]. split; [exact Hnc|].
    split; [reflexivity|]. intros Hne. contradiction.
  - assert (Hnext : Parser.idx ps + 1 < vsize (Parser.tokens ps))
      by exact (next_in_range ps _ Hend Hin He).
    unfold cursor_in_range in Hin.
    unfold Parser.bind at 1, Parser.bind at 1, Parser.get_idx,
      Parser.set_idx.
    rewrite (size_t_id (Parser.idx ps + 1)) by lia.
    set (ps1 := Parser.mk (Parser.tokens ps) (Parser.idx ps + 1)
                  (Parser.currentClassName ps)).
    unfold Parser.bind at 1, Parser.skip_comments, Parser.loop.
    destruct (skip_comments_cursor (S (length (Parser.tokens ps))) ps1)
      as [ps' [Hrun [Ht [Hn [Hin' [Hle [Hnc Hall]]]]]]];
      [exact Hend | exact Hsize
       | unfold cursor_in_range; cbn [ps1 Parser.tokens Parser.idx]; lia
       | cbn [ps1 Parser.tokens Parser.idx]; unfold vsize in *; lia |].
    change (Parser.tokens ps1) with (Parser.tokens ps) in Hrun |- *.
    rewrite Hrun. unfold Parser.previous.
    cbn [ps1 Parser.tokens Parser.idx Parser.currentClassName]
      in Ht, Hn, Hle, Hall.
    exists ps'. split; [reflexivity|]. split; [exact Ht|].
    split; [exact Hn|]. split; [exact Hin'|]. split; [exact Hnc|].
    split; [intros Habs; contradiction|].
    intros _. split; [lia|]. intros k Hk.
    change (Parser.token_at ps k) with (Parser.token_at ps1 k).
    apply Hall. lia.
Qed.



Lemma check_cursor (t : TokenType) (ps : Parser.Parser) :
  Parser.check t ps
  = Parser.Ok
      (bool_decide (Token.type (current_token ps) = t)
       && negb (bool_decide (t = END_OF_FILE))) ps.
Proof.
  unfold Parser.check.
  unfold Parser.bind at 1, Parser.isAtEnd at 1, Parser.bind at 1,
    Parser.peek at 1, Parser.ret at 1.
  fold (current_token ps).
  case_bool_decide as He.
  - unfold Parser.ret. f_equal.
    case_bool_decide as Ht; [|reflexivity].
    rewrite bool_decide_eq_true_2 by congruence. reflexivity.
  - unfold Parser.bind, Parser.peek, Parser.ret. fold (current_token ps).
    f_equal. case_bool_decide as Ht; [|reflexivity].
    rewrite bool_decide_eq_false_2 by congruence. reflexivity.
Qed.

(** X27. [consume] takes the expected token or throws: with the cursor
    on a token of the expected type, [consume] moves the cursor forward
    and keeps it on a token; on any other token it throws the message
    with the line and the column of that token. The end marker is never
    taken: [check(END_OF_FILE)] is false in every state, so
    [consume(END_OF_FILE, msg)] always throws. *)
Theorem consume_takes_or_throws (t : TokenType) (msg : string)
  (ps : Parser.Parser) :
  ends_with_end_marker (Parser.tokens ps) ->
  vsize (Parser.tokens ps) < 2 ^ 64 ->
  cursor_in_range ps ->
  Parser.check END_OF_FILE ps = Parser.Ok false ps
  /\ (Token.type (current_token ps) = t -> t <> END_OF_FILE ->
      exists ps',
        Parser.consume t msg ps = Parser.Ok tt ps'
        /\ Parser.tokens ps' = Parser.tokens ps
        /\ cursor_in_range ps'
        /\ Parser.idx ps < Parser.idx ps')
  /\ (Token.type (current_token ps) <> t \/ t = END_OF_FILE ->
      Parser.consume t msg ps
      = Parser.ParseError
          ("Parse error at line "
           ++ to_string (Token.line (current_token ps))
           ++ " col " ++ to_string (Token.column (current_token ps))
           ++ ": " ++ msg)).
Proof.
  intros Hend Hsize Hin. split; [|split].
  - rewrite check_cursor. rewrite andb_false_r. reflexivity.
  - intros Hty Hne.
    destruct (advance_cursor ps Hend Hsize Hin)
      as [ps' [Hrun [Ht [_ [Hin' [_ [_ Hmove]]]]]]].
    exists ps'. unfold Parser.consume.
    unfold Parser.bind at 1. rewrite check_cursor.
    rewrite bool_decide_eq_true_2 by exact Hty.
    rewrite bool_decide_eq_false_2 by exact Hne. cbn [negb andb].
    unfold Parser.bind at 1. rewrite Hrun. unfold Parser.ret.
    split; [reflexivity|]. split; [exact Ht|]. split; [exact Hin'|].
    apply Hmove. congruence.
  - intros Hno. unfold Parser.consume.
    unfold Parser.bind at 1. rewrite check_cursor.
    assert (Hc : bool_decide (Token.type (current_token ps) = t)
                 && negb (bool_decide (t = END_OF_FILE)) = false).
    { destruct Hno as [Hno|Hno].
      - rewrite bool_decide_eq_false_2 by exact Hno. reflexivity.
      - rewrite (bool_decide_eq_true_2 (t = END_OF_FILE)) by exact Hno.
        apply andb_false_r. }
    rewrite Hc. unfold Parser.bind, Parser.peek, Parser.error.
    reflexivity.
Qed.

Lemma consume_takes_or_throws_witness :
  let ps := Parser.mk [ make_token IDENTIFIER "x" 1 1;
                        make_token SEMICOLON ";" 1 2;
                        make_token END_OF_FILE "" 1 3 ] 1 "" in
  Parser.consume SEMICOLON "Expected ';'" ps
  = Parser.Ok tt (Parser.mk (Parser.tokens ps) 2 "")
  /\ Parser.consume RIGHT_PAREN "Expected ')'" ps
     = Parser.ParseError "Parse error at line 1 col 2: Expected ')'".
Proof.
  cbv zeta.
  match goal with
  | |- context [Parser.consume SEMICOLON ?m ?p] =>
      pose proof (consume_takes_or_throws RIGHT_PAREN "Expected ')'" p)
        as H
  end.
  destruct H as [_ [_ H]].
  - eexists. split; [reflexivity | reflexivity].
  - reflexivity.
  - unfold cursor_in_range, vsize.
    cbn [Parser.idx Parser.tokens length]. lia.
  - split; [reflexivity|]. apply H. left. discriminate.
Defined.

(** ** From the lexer to the parser *)

(** X28. The parser can start on what the lexer answers: for every
    source text the list of [tokenize] ends with the end marker, so the
    cursor of [Parser(tokens)] is the index of a token, and that token is
    neither a comment nor the token of an unknown symbol. *)
Theorem parser_starts_on_the_token_stream (input : string) :
  vsize (lex input) < 2 ^ 64 ->
  ends_with_end_marker (lex input)
  /\ cursor_in_range (Parser.new_parser (lex input))
  /\ Token.type (current_token (Parser.new_parser (lex input))) <> COMMENT
  /\ Token.type (current_token (Parser.new_parser (lex input))) <> UNKNOWN.
Proof.
  intros Hsize.
  destruct (lex_shape input) as [toks [l [c [Hlex Hproper]]]].
  assert (Hend : ends_with_end_marker (lex input)).
  { exists (make_token END_OF_FILE "" l c). rewrite Hlex.
    split; [apply last_snoc | reflexivity]. }
  assert (Hpos : 0 < vsize (lex input)).
  { rewrite Hlex. unfold vsize. rewrite length_app. cbn [length]. lia. }
  destruct (new_parser_cursor (lex input) (S (length (lex input))) 0
              Hend Hsize) as [Hj [Hnc _]];
    [lia | unfold vsize; lia |].
  split; [exact Hend|].
  unfold Parser.new_parser, cursor_in_range, current_token.
  cbn [Parser.tokens Parser.idx].
  split; [exact Hj|]. split; [exact Hnc|].
  match goal with
  | |- Token.type (Parser.token_at ?p ?j) <> UNKNOWN =>
      pose proof (token_in_range p j) as Hlook;
      set (tok := Parser.token_at p j) in *
  end.
  cbn [Parser.tokens] in Hlook. specialize (Hlook Hj).
  apply list_elem_of_lookup_2 in Hlook. rewrite Hlex in Hlook.
  apply elem_of_app in Hlook as [Hin|Hin].
  - rewrite Forall_forall in Hproper. exact (proj2 (Hproper tok Hin)).
  - apply list_elem_of_singleton in Hin. rewrite Hin. discriminate.
Qed.

Lemma parser_starts_on_the_token_stream_witness :
  cursor_in_range (Parser.new_parser (lex "// c")).
Proof.
  apply (parser_starts_on_the_token_stream "// c").
  vm_compute. reflexivity.
Defined.
